(** * The DRAM controller of macsim (src/dram.cc), embedded in Rocq.

    The controller is a cycle-driven state machine: the simulator calls
    [run_a_cycle] once per cycle and the memory system calls
    [insert_new_req] to hand over requests.  The C++ objects are embedded
    shallowly:

    - [Counter] (unsigned long long) is a [Z] in [0, 2^64); additions that
      the code performs on it are reduced with [wrap64];
    - [int] is a [Z]; a conversion from a wider unsigned value goes through
      [to_int]; signed overflow is undefined in C++ and is not given a
      meaning here;
    - [drb_entry_s*] and [mem_req_s*] are addresses ([nat]) into two stores
      kept in the controller state, so that aliasing is visible;
    - the per-bank and per-channel arrays are functions from the index;
      [std::list] is [list];
    - ASSERT, ASSERTM and assert end the run: every operation that can reach
      one returns a [result];
    - STAT_EVENT, DEBUG and the statistics accumulators (m_band,
      m_avg_latency, total_dram_bandwidth) are write-only and left out. *)

From Stdlib Require Import ZArith Lia List Bool.
From stdpp Require Import base decidable option list functions sorting.

Open Scope Z_scope.

(** ** Machine integers *)

Definition ULLONG_MAX : Z := 2 ^ 64 - 1.

(** Arithmetic on [Counter] is modulo 2^64. *)
Definition wrap64 (x : Z) : Z := x mod 2 ^ 64.

(** Conversion of an integer value to a 32-bit [int]. *)
Definition to_int (x : Z) : Z := (x + 2 ^ 31) mod 2 ^ 32 - 2 ^ 31.

(** Modelled from the spec: [log2_int] and [N_BIT_MASK] are declared in
    utils.h and global_defs.h, which are not part of the sources at hand.
    On a power of two [2^n], [log2_int] is [n]; [N_BIT_MASK n] has the [n]
    low bits set. *)
Definition log2_int (n : Z) : Z := Z.log2 n.
Definition N_BIT_MASK (n : Z) : Z := Z.ones n.

(** ** Requests (memreq_info.h) *)

Inductive Mem_Req_Type : Type :=
| MRT_IFETCH | MRT_DFETCH | MRT_DSTORE | MRT_IPRF | MRT_DPRF | MRT_WB
| MRT_SW_DPRF | MRT_SW_DPRF_NTA | MRT_SW_DPRF_T0 | MRT_SW_DPRF_T1
| MRT_SW_DPRF_T2.

#[global] Instance Mem_Req_Type_eq_dec : EqDecision Mem_Req_Type.
Proof. solve_decision. Defined.

(** The lifecycle tags the controller writes; [MEM_UPSTREAM] stands for the
    tags a request carries before it reaches the controller. *)
Inductive Mem_Req_State : Type :=
| MEM_UPSTREAM | MEM_DRAM_START | MEM_DRAM_CMD | MEM_DRAM_DATA | MEM_DRAM_DONE.

#[global] Instance Mem_Req_State_eq_dec : EqDecision Mem_Req_State.
Proof. solve_decision. Defined.

Inductive Noc_Msg_Type : Type :=
| NOC_FILL
| NOC_MSG (tag : Z).

Definition mem_req_ptr : Type := nat.

Module Req.

(** The fields of [mem_req_s] that dram.cc reads or writes. *)
Record mem_req_s : Type := {
  m_id : Z;
  m_addr : Z;              (* Addr, 64 bits *)
  m_size : Z;
  m_type : Mem_Req_Type;
  m_core_id : Z;
  m_thread_id : Z;
  m_appl_id : Z;
  m_ptx : bool;            (* request of a GPU core *)
  m_cache_id_L3 : Z;       (* m_cache_id[MEM_L3] *)
  m_state : Mem_Req_State;
  m_msg_type : Noc_Msg_Type;
  m_msg_src : Z;
  m_msg_dst : Z
}.

Definition set_m_state (s : Mem_Req_State) (r : mem_req_s) : mem_req_s :=
  {| m_id := m_id r; m_addr := m_addr r; m_size := m_size r; m_type := m_type r;
     m_core_id := m_core_id r; m_thread_id := m_thread_id r; m_appl_id := m_appl_id r;
     m_ptx := m_ptx r; m_cache_id_L3 := m_cache_id_L3 r; m_state := s;
     m_msg_type := m_msg_type r; m_msg_src := m_msg_src r; m_msg_dst := m_msg_dst r |}.

Definition set_msg (t : Noc_Msg_Type) (src dst : Z) (r : mem_req_s) : mem_req_s :=
  {| m_id := m_id r; m_addr := m_addr r; m_size := m_size r; m_type := m_type r;
     m_core_id := m_core_id r; m_thread_id := m_thread_id r; m_appl_id := m_appl_id r;
     m_ptx := m_ptx r; m_cache_id_L3 := m_cache_id_L3 r; m_state := m_state r;
     m_msg_type := t; m_msg_src := src; m_msg_dst := dst |}.

End Req.

Abbreviation mem_req_s := Req.mem_req_s.

(** ** Buffer entries *)

Inductive DRAM_STATE : Type :=
| DRAM_INIT | DRAM_CMD | DRAM_CMD_WAIT | DRAM_DATA | DRAM_DATA_WAIT.

#[global] Instance DRAM_STATE_eq_dec : EqDecision DRAM_STATE.
Proof. solve_decision. Defined.

Definition drb_entry_ptr : Type := nat.

(** The null [mem_req_s*]. *)
Definition NULL : mem_req_ptr := 0%nat.

Record drb_entry_s : Type := {
  m_id : Z;
  m_state : DRAM_STATE;
  m_addr : Z;
  m_bid : Z;
  m_rid : Z;
  m_cid : Z;
  m_core_id : Z;
  m_thread_id : Z;
  m_appl_id : Z;
  m_read : bool;
  m_req : mem_req_ptr;
  m_priority : Z;
  m_size : Z;
  m_timestamp : Z;
  m_scheduled : Z
}.

Definition set_m_state (s : DRAM_STATE) (e : drb_entry_s) : drb_entry_s :=
  {| m_id := m_id e; m_state := s; m_addr := m_addr e; m_bid := m_bid e; m_rid := m_rid e;
     m_cid := m_cid e; m_core_id := m_core_id e; m_thread_id := m_thread_id e;
     m_appl_id := m_appl_id e; m_read := m_read e; m_req := m_req e;
     m_priority := m_priority e; m_size := m_size e; m_timestamp := m_timestamp e;
     m_scheduled := m_scheduled e |}.

Definition set_m_scheduled (c : Z) (e : drb_entry_s) : drb_entry_s :=
  {| m_id := m_id e; m_state := m_state e; m_addr := m_addr e; m_bid := m_bid e;
     m_rid := m_rid e; m_cid := m_cid e; m_core_id := m_core_id e;
     m_thread_id := m_thread_id e; m_appl_id := m_appl_id e; m_read := m_read e;
     m_req := m_req e; m_priority := m_priority e; m_size := m_size e;
     m_timestamp := m_timestamp e; m_scheduled := c |}.

(** [dram_controller_c::dram_req_priority]: every request type has
    priority 0. *)
Definition dram_req_priority (t : Mem_Req_Type) : Z :=
  match t with
  | MRT_IFETCH => 0 | MRT_DFETCH => 0 | MRT_DSTORE => 0 | MRT_IPRF => 0
  | MRT_DPRF => 0 | MRT_WB => 0 | MRT_SW_DPRF => 0 | MRT_SW_DPRF_NTA => 0
  | MRT_SW_DPRF_T0 => 0 | MRT_SW_DPRF_T1 => 0 | MRT_SW_DPRF_T2 => 0
  end.

(** [drb_entry_s::reset]. *)
Definition drb_entry_s_reset : drb_entry_s :=
  {| m_id := -1; m_state := DRAM_INIT; m_addr := 0; m_bid := -1; m_rid := -1;
     m_cid := -1; m_core_id := -1; m_thread_id := -1; m_appl_id := -1;
     m_read := false; m_req := NULL; m_priority := 0; m_size := 0;
     m_timestamp := 0; m_scheduled := 0 |}.

(** ** Outcome of an operation *)

(** What print_req writes to bug_detect_dram.out. *)
Record bank_line : Type := {
  out_clist : Z;
  out_scheduled : Z;
  out_size : Z;
  out_state : option DRAM_STATE;
  out_bank_ready : Z;
  out_data_ready : Z;
  out_data_avail : Z;
  out_time : Z
}.

Record bug_detect_dram_out : Type := {
  out_cycle : Z;
  out_total_req : Z;
  out_dbus : list (nat * Z);
  out_banks : list bank_line
}.

Inductive fatal : Type :=
| ASSERT_failed (line : Z)                    (* source line of the assertion *)
| null_dereference (line : Z)                 (* a null or dangling entry is read *)
| starvation (dump : bug_detect_dram_out).    (* print_req, then ASSERT(0) *)

Inductive result (A : Type) : Type :=
| Ok (a : A)
| Fatal (f : fatal).

Arguments Ok {A} a.
Arguments Fatal {A} f.

#[global] Instance result_ret : MRet result := fun _ a => Ok a.

#[global] Instance result_bind : MBind result := fun _ _ f m =>
  match m with
  | Ok a => f a
  | Fatal e => Fatal e
  end.

Definition ASSERT (line : Z) (c : bool) : result unit :=
  if c then Ok tt else Fatal (ASSERT_failed line).

(** ** Configuration *)

Inductive scheduler_kind : Type :=
| fcfs_controller      (* dram_controller_c *)
| frfcfs_controller.   (* dc_frfcfs_c *)

(** The knobs read by the constructor, together with the values that the
    constructor derives from the clock frequencies in floating point; the
    latter are taken as given integers and integer functions. *)
Record knobs : Type := {
  KNOB_DRAM_NUM_BANKS : Z;
  KNOB_DRAM_NUM_CHANNEL : Z;
  KNOB_DRAM_BUS_WIDTH : Z;
  KNOB_DRAM_DDR_FACTOR : Z;
  KNOB_DRAM_BUFFER_SIZE : Z;
  KNOB_DRAM_ROWBUFFER_SIZE : Z;
  KNOB_L3_LINE_SIZE : Z;
  KNOB_DRAM_BANK_XOR_INDEX : bool;
  KNOB_DRAM_MERGE_REQUESTS : bool;
  (* static_cast<int>(m_dram_one_cycle_{cpu,gpu} * KNOB_DRAM_{PRECHARGE,ACTIVATE,COLUMN}) *)
  m_precharge_latency_cpu : Z;
  m_activate_latency_cpu : Z;
  m_column_latency_cpu : Z;
  m_precharge_latency_gpu : Z;
  m_activate_latency_gpu : Z;
  m_column_latency_gpu : Z;
  (* fun cycle => static_cast<int>(cycle * m_dram_one_cycle_{cpu,gpu} + 0.5) *)
  dram_cycle_cpu : Z -> Z;
  dram_cycle_gpu : Z -> Z;
  (* which of fcfs_controller / frfcfs_controller built the object *)
  scheduler : scheduler_kind;
  (* the IRIS build flag and what the terminal and the memory system answer *)
  IRIS : bool;
  node_id : Z;
  get_dst_router_id : Z -> Z
}.

(** Members assigned once by the constructor. *)
Definition m_num_bank (k : knobs) : Z := KNOB_DRAM_NUM_BANKS k.
Definition m_num_channel (k : knobs) : Z := KNOB_DRAM_NUM_CHANNEL k.
Definition m_num_bank_per_channel (k : knobs) : Z :=
  Z.quot (m_num_bank k) (m_num_channel k).
Definition m_bus_width (k : knobs) : Z :=
  KNOB_DRAM_BUS_WIDTH k * KNOB_DRAM_DDR_FACTOR k.
Definition m_cid_mask (k : knobs) : Z := N_BIT_MASK (log2_int (KNOB_DRAM_ROWBUFFER_SIZE k)).
Definition m_bid_shift (k : knobs) : Z := log2_int (KNOB_DRAM_ROWBUFFER_SIZE k).
Definition m_bid_mask (k : knobs) : Z := N_BIT_MASK (log2_int (KNOB_DRAM_NUM_BANKS k)).
Definition m_rid_shift (k : knobs) : Z := log2_int (KNOB_DRAM_NUM_BANKS k).
Definition m_bid_xor_shift (k : knobs) : Z :=
  log2_int (KNOB_L3_LINE_SIZE k) + log2_int 512.

(** ** Controller state *)

(** The members are declared in dram.h, which is not part of the sources at
    hand.  The time stamps are [Counter]s, as the code compares them with
    ULLONG_MAX; the three counters m_total_req,
    m_num_completed_in_last_cycle and m_starvation_cycle are integers and
    hold what the code assigns to them as it is. *)
Record dram_controller_c : Type := {
  (* the two stores *)
  drb : drb_entry_ptr -> drb_entry_s;
  mem : mem_req_ptr -> mem_req_s;
  (* drb_entry_s::m_unique_id *)
  m_unique_id : Z;
  (* per bank *)
  m_buffer : nat -> list drb_entry_ptr;
  m_buffer_free_list : nat -> list drb_entry_ptr;
  m_current_list : nat -> option drb_entry_ptr;     (* None is NULL *)
  m_current_rid : nat -> Z;
  m_data_ready : nat -> Z;
  m_data_avail : nat -> Z;
  m_bank_ready : nat -> Z;
  m_bank_timestamp : nat -> Z;
  (* per channel *)
  m_byte_avail : nat -> Z;
  m_dbus_ready : nat -> Z;
  (* counters *)
  m_total_req : Z;
  m_num_completed_in_last_cycle : Z;
  m_starvation_cycle : Z;
  m_noc_id : Z;
  (* the collaborators: requests given back with free_req, fills taken by
     the interconnect, and the receive queue of the terminal *)
  freed : list mem_req_ptr;
  sent : list mem_req_ptr;
  receive_queue : list mem_req_ptr
}.

Definition set_drb (v : drb_entry_ptr -> drb_entry_s) (st : dram_controller_c) : dram_controller_c :=
  {| drb := v; mem := mem st; m_unique_id := m_unique_id st; m_buffer := m_buffer st;
     m_buffer_free_list := m_buffer_free_list st; m_current_list := m_current_list st;
     m_current_rid := m_current_rid st; m_data_ready := m_data_ready st;
     m_data_avail := m_data_avail st; m_bank_ready := m_bank_ready st;
     m_bank_timestamp := m_bank_timestamp st; m_byte_avail := m_byte_avail st;
     m_dbus_ready := m_dbus_ready st; m_total_req := m_total_req st;
     m_num_completed_in_last_cycle := m_num_completed_in_last_cycle st;
     m_starvation_cycle := m_starvation_cycle st; m_noc_id := m_noc_id st;
     freed := freed st; sent := sent st; receive_queue := receive_queue st |}.

Definition set_mem (v : mem_req_ptr -> mem_req_s) (st : dram_controller_c) : dram_controller_c :=
  {| drb := drb st; mem := v; m_unique_id := m_unique_id st; m_buffer := m_buffer st;
     m_buffer_free_list := m_buffer_free_list st; m_current_list := m_current_list st;
     m_current_rid := m_current_rid st; m_data_ready := m_data_ready st;
     m_data_avail := m_data_avail st; m_bank_ready := m_bank_ready st;
     m_bank_timestamp := m_bank_timestamp st; m_byte_avail := m_byte_avail st;
     m_dbus_ready := m_dbus_ready st; m_total_req := m_total_req st;
     m_num_completed_in_last_cycle := m_num_completed_in_last_cycle st;
     m_starvation_cycle := m_starvation_cycle st; m_noc_id := m_noc_id st;
     freed := freed st; sent := sent st; receive_queue := receive_queue st |}.

Definition set_m_unique_id (v : Z) (st : dram_controller_c) : dram_controller_c :=
  {| drb := drb st; mem := mem st; m_unique_id := v; m_buffer := m_buffer st;
     m_buffer_free_list := m_buffer_free_list st; m_current_list := m_current_list st;
     m_current_rid := m_current_rid st; m_data_ready := m_data_ready st;
     m_data_avail := m_data_avail st; m_bank_ready := m_bank_ready st;
     m_bank_timestamp := m_bank_timestamp st; m_byte_avail := m_byte_avail st;
     m_dbus_ready := m_dbus_ready st; m_total_req := m_total_req st;
     m_num_completed_in_last_cycle := m_num_completed_in_last_cycle st;
     m_starvation_cycle := m_starvation_cycle st; m_noc_id := m_noc_id st;
     freed := freed st; sent := sent st; receive_queue := receive_queue st |}.

Definition set_m_buffer (v : nat -> list drb_entry_ptr) (st : dram_controller_c) : dram_controller_c :=
  {| drb := drb st; mem := mem st; m_unique_id := m_unique_id st; m_buffer := v;
     m_buffer_free_list := m_buffer_free_list st; m_current_list := m_current_list st;
     m_current_rid := m_current_rid st; m_data_ready := m_data_ready st;
     m_data_avail := m_data_avail st; m_bank_ready := m_bank_ready st;
     m_bank_timestamp := m_bank_timestamp st; m_byte_avail := m_byte_avail st;
     m_dbus_ready := m_dbus_ready st; m_total_req := m_total_req st;
     m_num_completed_in_last_cycle := m_num_completed_in_last_cycle st;
     m_starvation_cycle := m_starvation_cycle st; m_noc_id := m_noc_id st;
     freed := freed st; sent := sent st; receive_queue := receive_queue st |}.

Definition set_m_buffer_free_list (v : nat -> list drb_entry_ptr) (st : dram_controller_c) : dram_controller_c :=
  {| drb := drb st; mem := mem st; m_unique_id := m_unique_id st; m_buffer := m_buffer st;
     m_buffer_free_list := v; m_current_list := m_current_list st;
     m_current_rid := m_current_rid st; m_data_ready := m_data_ready st;
     m_data_avail := m_data_avail st; m_bank_ready := m_bank_ready st;
     m_bank_timestamp := m_bank_timestamp st; m_byte_avail := m_byte_avail st;
     m_dbus_ready := m_dbus_ready st; m_total_req := m_total_req st;
     m_num_completed_in_last_cycle := m_num_completed_in_last_cycle st;
     m_starvation_cycle := m_starvation_cycle st; m_noc_id := m_noc_id st;
     freed := freed st; sent := sent st; receive_queue := receive_queue st |}.

Definition set_m_current_list (v : nat -> option drb_entry_ptr) (st : dram_controller_c) : dram_controller_c :=
  {| drb := drb st; mem := mem st; m_unique_id := m_unique_id st; m_buffer := m_buffer st;
     m_buffer_free_list := m_buffer_free_list st; m_current_list := v;
     m_current_rid := m_current_rid st; m_data_ready := m_data_ready st;
     m_data_avail := m_data_avail st; m_bank_ready := m_bank_ready st;
     m_bank_timestamp := m_bank_timestamp st; m_byte_avail := m_byte_avail st;
     m_dbus_ready := m_dbus_ready st; m_total_req := m_total_req st;
     m_num_completed_in_last_cycle := m_num_completed_in_last_cycle st;
     m_starvation_cycle := m_starvation_cycle st; m_noc_id := m_noc_id st;
     freed := freed st; sent := sent st; receive_queue := receive_queue st |}.

Definition set_m_current_rid (v : nat -> Z) (st : dram_controller_c) : dram_controller_c :=
  {| drb := drb st; mem := mem st; m_unique_id := m_unique_id st; m_buffer := m_buffer st;
     m_buffer_free_list := m_buffer_free_list st; m_current_list := m_current_list st;
     m_current_rid := v; m_data_ready := m_data_ready st; m_data_avail := m_data_avail st;
     m_bank_ready := m_bank_ready st; m_bank_timestamp := m_bank_timestamp st;
     m_byte_avail := m_byte_avail st; m_dbus_ready := m_dbus_ready st;
     m_total_req := m_total_req st;
     m_num_completed_in_last_cycle := m_num_completed_in_last_cycle st;
     m_starvation_cycle := m_starvation_cycle st; m_noc_id := m_noc_id st;
     freed := freed st; sent := sent st; receive_queue := receive_queue st |}.

Definition set_m_data_ready (v : nat -> Z) (st : dram_controller_c) : dram_controller_c :=
  {| drb := drb st; mem := mem st; m_unique_id := m_unique_id st; m_buffer := m_buffer st;
     m_buffer_free_list := m_buffer_free_list st; m_current_list := m_current_list st;
     m_current_rid := m_current_rid st; m_data_ready := v; m_data_avail := m_data_avail st;
     m_bank_ready := m_bank_ready st; m_bank_timestamp := m_bank_timestamp st;
     m_byte_avail := m_byte_avail st; m_dbus_ready := m_dbus_ready st;
     m_total_req := m_total_req st;
     m_num_completed_in_last_cycle := m_num_completed_in_last_cycle st;
     m_starvation_cycle := m_starvation_cycle st; m_noc_id := m_noc_id st;
     freed := freed st; sent := sent st; receive_queue := receive_queue st |}.

Definition set_m_data_avail (v : nat -> Z) (st : dram_controller_c) : dram_controller_c :=
  {| drb := drb st; mem := mem st; m_unique_id := m_unique_id st; m_buffer := m_buffer st;
     m_buffer_free_list := m_buffer_free_list st; m_current_list := m_current_list st;
     m_current_rid := m_current_rid st; m_data_ready := m_data_ready st; m_data_avail := v;
     m_bank_ready := m_bank_ready st; m_bank_timestamp := m_bank_timestamp st;
     m_byte_avail := m_byte_avail st; m_dbus_ready := m_dbus_ready st;
     m_total_req := m_total_req st;
     m_num_completed_in_last_cycle := m_num_completed_in_last_cycle st;
     m_starvation_cycle := m_starvation_cycle st; m_noc_id := m_noc_id st;
     freed := freed st; sent := sent st; receive_queue := receive_queue st |}.

Definition set_m_bank_ready (v : nat -> Z) (st : dram_controller_c) : dram_controller_c :=
  {| drb := drb st; mem := mem st; m_unique_id := m_unique_id st; m_buffer := m_buffer st;
     m_buffer_free_list := m_buffer_free_list st; m_current_list := m_current_list st;
     m_current_rid := m_current_rid st; m_data_ready := m_data_ready st;
     m_data_avail := m_data_avail st; m_bank_ready := v;
     m_bank_timestamp := m_bank_timestamp st; m_byte_avail := m_byte_avail st;
     m_dbus_ready := m_dbus_ready st; m_total_req := m_total_req st;
     m_num_completed_in_last_cycle := m_num_completed_in_last_cycle st;
     m_starvation_cycle := m_starvation_cycle st; m_noc_id := m_noc_id st;
     freed := freed st; sent := sent st; receive_queue := receive_queue st |}.

Definition set_m_bank_timestamp (v : nat -> Z) (st : dram_controller_c) : dram_controller_c :=
  {| drb := drb st; mem := mem st; m_unique_id := m_unique_id st; m_buffer := m_buffer st;
     m_buffer_free_list := m_buffer_free_list st; m_current_list := m_current_list st;
     m_current_rid := m_current_rid st; m_data_ready := m_data_ready st;
     m_data_avail := m_data_avail st; m_bank_ready := m_bank_ready st;
     m_bank_timestamp := v; m_byte_avail := m_byte_avail st;
     m_dbus_ready := m_dbus_ready st; m_total_req := m_total_req st;
     m_num_completed_in_last_cycle := m_num_completed_in_last_cycle st;
     m_starvation_cycle := m_starvation_cycle st; m_noc_id := m_noc_id st;
     freed := freed st; sent := sent st; receive_queue := receive_queue st |}.

Definition set_m_byte_avail (v : nat -> Z) (st : dram_controller_c) : dram_controller_c :=
  {| drb := drb st; mem := mem st; m_unique_id := m_unique_id st; m_buffer := m_buffer st;
     m_buffer_free_list := m_buffer_free_list st; m_current_list := m_current_list st;
     m_current_rid := m_current_rid st; m_data_ready := m_data_ready st;
     m_data_avail := m_data_avail st; m_bank_ready := m_bank_ready st;
     m_bank_timestamp := m_bank_timestamp st; m_byte_avail := v;
     m_dbus_ready := m_dbus_ready st; m_total_req := m_total_req st;
     m_num_completed_in_last_cycle := m_num_completed_in_last_cycle st;
     m_starvation_cycle := m_starvation_cycle st; m_noc_id := m_noc_id st;
     freed := freed st; sent := sent st; receive_queue := receive_queue st |}.

Definition set_m_dbus_ready (v : nat -> Z) (st : dram_controller_c) : dram_controller_c :=
  {| drb := drb st; mem := mem st; m_unique_id := m_unique_id st; m_buffer := m_buffer st;
     m_buffer_free_list := m_buffer_free_list st; m_current_list := m_current_list st;
     m_current_rid := m_current_rid st; m_data_ready := m_data_ready st;
     m_data_avail := m_data_avail st; m_bank_ready := m_bank_ready st;
     m_bank_timestamp := m_bank_timestamp st; m_byte_avail := m_byte_avail st;
     m_dbus_ready := v; m_total_req := m_total_req st;
     m_num_completed_in_last_cycle := m_num_completed_in_last_cycle st;
     m_starvation_cycle := m_starvation_cycle st; m_noc_id := m_noc_id st;
     freed := freed st; sent := sent st; receive_queue := receive_queue st |}.

Definition set_m_total_req (v : Z) (st : dram_controller_c) : dram_controller_c :=
  {| drb := drb st; mem := mem st; m_unique_id := m_unique_id st; m_buffer := m_buffer st;
     m_buffer_free_list := m_buffer_free_list st; m_current_list := m_current_list st;
     m_current_rid := m_current_rid st; m_data_ready := m_data_ready st;
     m_data_avail := m_data_avail st; m_bank_ready := m_bank_ready st;
     m_bank_timestamp := m_bank_timestamp st; m_byte_avail := m_byte_avail st;
     m_dbus_ready := m_dbus_ready st; m_total_req := v;
     m_num_completed_in_last_cycle := m_num_completed_in_last_cycle st;
     m_starvation_cycle := m_starvation_cycle st; m_noc_id := m_noc_id st;
     freed := freed st; sent := sent st; receive_queue := receive_queue st |}.

Definition set_m_num_completed_in_last_cycle (v : Z) (st : dram_controller_c) : dram_controller_c :=
  {| drb := drb st; mem := mem st; m_unique_id := m_unique_id st; m_buffer := m_buffer st;
     m_buffer_free_list := m_buffer_free_list st; m_current_list := m_current_list st;
     m_current_rid := m_current_rid st; m_data_ready := m_data_ready st;
     m_data_avail := m_data_avail st; m_bank_ready := m_bank_ready st;
     m_bank_timestamp := m_bank_timestamp st; m_byte_avail := m_byte_avail st;
     m_dbus_ready := m_dbus_ready st; m_total_req := m_total_req st;
     m_num_completed_in_last_cycle := v; m_starvation_cycle := m_starvation_cycle st;
     m_noc_id := m_noc_id st; freed := freed st; sent := sent st;
     receive_queue := receive_queue st |}.

Definition set_m_starvation_cycle (v : Z) (st : dram_controller_c) : dram_controller_c :=
  {| drb := drb st; mem := mem st; m_unique_id := m_unique_id st; m_buffer := m_buffer st;
     m_buffer_free_list := m_buffer_free_list st; m_current_list := m_current_list st;
     m_current_rid := m_current_rid st; m_data_ready := m_data_ready st;
     m_data_avail := m_data_avail st; m_bank_ready := m_bank_ready st;
     m_bank_timestamp := m_bank_timestamp st; m_byte_avail := m_byte_avail st;
     m_dbus_ready := m_dbus_ready st; m_total_req := m_total_req st;
     m_num_completed_in_last_cycle := m_num_completed_in_last_cycle st;
     m_starvation_cycle := v; m_noc_id := m_noc_id st; freed := freed st; sent := sent st;
     receive_queue := receive_queue st |}.

Definition set_m_noc_id (v : Z) (st : dram_controller_c) : dram_controller_c :=
  {| drb := drb st; mem := mem st; m_unique_id := m_unique_id st; m_buffer := m_buffer st;
     m_buffer_free_list := m_buffer_free_list st; m_current_list := m_current_list st;
     m_current_rid := m_current_rid st; m_data_ready := m_data_ready st;
     m_data_avail := m_data_avail st; m_bank_ready := m_bank_ready st;
     m_bank_timestamp := m_bank_timestamp st; m_byte_avail := m_byte_avail st;
     m_dbus_ready := m_dbus_ready st; m_total_req := m_total_req st;
     m_num_completed_in_last_cycle := m_num_completed_in_last_cycle st;
     m_starvation_cycle := m_starvation_cycle st; m_noc_id := v; freed := freed st;
     sent := sent st; receive_queue := receive_queue st |}.

Definition set_freed (v : list mem_req_ptr) (st : dram_controller_c) : dram_controller_c :=
  {| drb := drb st; mem := mem st; m_unique_id := m_unique_id st; m_buffer := m_buffer st;
     m_buffer_free_list := m_buffer_free_list st; m_current_list := m_current_list st;
     m_current_rid := m_current_rid st; m_data_ready := m_data_ready st;
     m_data_avail := m_data_avail st; m_bank_ready := m_bank_ready st;
     m_bank_timestamp := m_bank_timestamp st; m_byte_avail := m_byte_avail st;
     m_dbus_ready := m_dbus_ready st; m_total_req := m_total_req st;
     m_num_completed_in_last_cycle := m_num_completed_in_last_cycle st;
     m_starvation_cycle := m_starvation_cycle st; m_noc_id := m_noc_id st; freed := v;
     sent := sent st; receive_queue := receive_queue st |}.

Definition set_sent (v : list mem_req_ptr) (st : dram_controller_c) : dram_controller_c :=
  {| drb := drb st; mem := mem st; m_unique_id := m_unique_id st; m_buffer := m_buffer st;
     m_buffer_free_list := m_buffer_free_list st; m_current_list := m_current_list st;
     m_current_rid := m_current_rid st; m_data_ready := m_data_ready st;
     m_data_avail := m_data_avail st; m_bank_ready := m_bank_ready st;
     m_bank_timestamp := m_bank_timestamp st; m_byte_avail := m_byte_avail st;
     m_dbus_ready := m_dbus_ready st; m_total_req := m_total_req st;
     m_num_completed_in_last_cycle := m_num_completed_in_last_cycle st;
     m_starvation_cycle := m_starvation_cycle st; m_noc_id := m_noc_id st;
     freed := freed st; sent := v; receive_queue := receive_queue st |}.

Definition set_receive_queue (v : list mem_req_ptr) (st : dram_controller_c) : dram_controller_c :=
  {| drb := drb st; mem := mem st; m_unique_id := m_unique_id st; m_buffer := m_buffer st;
     m_buffer_free_list := m_buffer_free_list st; m_current_list := m_current_list st;
     m_current_rid := m_current_rid st; m_data_ready := m_data_ready st;
     m_data_avail := m_data_avail st; m_bank_ready := m_bank_ready st;
     m_bank_timestamp := m_bank_timestamp st; m_byte_avail := m_byte_avail st;
     m_dbus_ready := m_dbus_ready st; m_total_req := m_total_req st;
     m_num_completed_in_last_cycle := m_num_completed_in_last_cycle st;
     m_starvation_cycle := m_starvation_cycle st; m_noc_id := m_noc_id st;
     freed := freed st; sent := sent st; receive_queue := v |}.

(** ** Store and array updates *)

Definition upd_drb (p : drb_entry_ptr) (f : drb_entry_s -> drb_entry_s)
    (st : dram_controller_c) : dram_controller_c :=
  set_drb (<[p := f (drb st p)]> (drb st)) st.

Definition upd_mem (p : mem_req_ptr) (f : mem_req_s -> mem_req_s)
    (st : dram_controller_c) : dram_controller_c :=
  set_mem (<[p := f (mem st p)]> (mem st)) st.

(** The request behind an entry, [e->m_req]. *)
Definition req_of (st : dram_controller_c) (e : drb_entry_ptr) : mem_req_ptr :=
  m_req (drb st e).

(** [e->m_req->m_type]. *)
Definition type_of (st : dram_controller_c) (e : drb_entry_ptr) : Mem_Req_Type :=
  Req.m_type (mem st (req_of st e)).

(** [m_simBase->m_memory->free_req(req->m_core_id, req)]: the request goes
    back to the pool of the memory system. *)
Definition free_req (r : mem_req_ptr) (st : dram_controller_c) : dram_controller_c :=
  set_freed (freed st ++ [r]) st.

(** [l.remove(x)] of std::list: every element equal to [x] goes. *)
Definition remove (x : drb_entry_ptr) (l : list drb_entry_ptr) : list drb_entry_ptr :=
  filter (λ y, y ≠ x) l.

(** [m_current_list[bank]], about to be dereferenced at [line]. *)
Definition current (line : Z) (bank : nat) (st : dram_controller_c) : result drb_entry_ptr :=
  match m_current_list st bank with
  | Some e => Ok e
  | None => Fatal (null_dereference line)
  end.

(** ** Loops *)

(** [for (ii = ...) body], over the indices of [l] in order. *)
Fixpoint for_each (l : list nat)
    (body : nat -> dram_controller_c -> result dram_controller_c)
    (st : dram_controller_c) : result dram_controller_c :=
  match l with
  | [] => Ok st
  | ii :: l' => st' ← body ii st; for_each l' body st'
  end.

(** The indices of [for (int ii = 0; ii < n; ++ii)]. *)
Definition upto (n : Z) : list nat := seq 0 (Z.to_nat n).

(** The indices of
    [for (jj = ii * m_num_bank_per_channel; jj < (ii + 1) * m_num_bank_per_channel; ++jj)]. *)
Definition channel_banks (k : knobs) (ii : nat) : list nat :=
  seq (ii * Z.to_nat (m_num_bank_per_channel k)) (Z.to_nat (m_num_bank_per_channel k)).

(** ** drb_entry_s::set *)

Definition drb_entry_s_set (now : Z) (p : drb_entry_ptr) (mem_req : mem_req_ptr)
    (bid rid cid : Z) (st : dram_controller_c) : result dram_controller_c :=
  let r := mem st mem_req in
  let e := drb st p in
  let e' :=
    {| m_id := m_unique_id st;
       m_state := m_state e;
       m_addr := Req.m_addr r;
       m_bid := bid;
       m_rid := rid;
       m_cid := cid;
       m_core_id := Req.m_core_id r;
       m_thread_id := Req.m_thread_id r;
       m_appl_id := Req.m_appl_id r;
       m_read := match Req.m_type r with MRT_WB => false | _ => true end;
       m_req := mem_req;
       m_priority := dram_req_priority (Req.m_type r);
       m_size := Req.m_size r;
       m_timestamp := now;
       m_scheduled := m_scheduled e |} in
  let st := set_m_unique_id (m_unique_id st + 1) (set_drb (<[p := e']> (drb st)) st) in
  _ ← ASSERT 145 (0 <=? rid);
  Ok st.

(** ** Constructor and init *)

(** The entries that the constructor allocates for bank [ii]: [bs] fresh
    objects; the addresses are numbered bank by bank. *)
Definition new_entries (bs : nat) (ii : nat) : list drb_entry_ptr := seq (ii * bs) bs.

(** [raw] is the storage before construction: the members that the
    constructor does not assign (m_total_req, m_num_completed_in_last_cycle,
    m_starvation_cycle, m_noc_id) and the collaborators keep what it holds. *)
Definition dram_controller_c_new (k : knobs) (raw : dram_controller_c) : dram_controller_c :=
  {| drb := fun _ => drb_entry_s_reset;
     mem := mem raw;
     m_unique_id := m_unique_id raw;
     m_buffer := fun _ => [];
     m_buffer_free_list := fun ii =>
       if decide (ii < Z.to_nat (m_num_bank k))%nat
       then new_entries (Z.to_nat (KNOB_DRAM_BUFFER_SIZE k)) ii else [];
     m_current_list := fun _ => None;
     m_current_rid := fun _ => -1;
     m_data_ready := fun _ => ULLONG_MAX;
     m_data_avail := fun _ => ULLONG_MAX;
     m_bank_ready := fun _ => ULLONG_MAX;
     m_bank_timestamp := fun _ => 0;
     m_byte_avail := fun _ => m_bus_width k;
     m_dbus_ready := fun _ => 0;
     m_total_req := m_total_req raw;
     m_num_completed_in_last_cycle := m_num_completed_in_last_cycle raw;
     m_starvation_cycle := m_starvation_cycle raw;
     m_noc_id := m_noc_id raw;
     freed := freed raw;
     sent := sent raw;
     receive_queue := receive_queue raw |}.

Definition init (id noc_id : Z) (st : dram_controller_c) : dram_controller_c :=
  set_m_noc_id noc_id st.

(** ** Ingress *)

(** The address parsing of insert_new_req: [(bid_xor, cid, bid, rid)]. *)
Definition address_parsing (k : knobs) (addr : Z) : Z * Z * Z * Z :=
  let bid_xor := to_int (Z.land (Z.shiftr addr (m_bid_xor_shift k)) (m_bid_mask k)) in
  let cid := to_int (Z.land addr (m_cid_mask k)) in
  let addr := Z.shiftr addr (m_bid_shift k) in
  let bid := to_int (Z.land addr (m_bid_mask k)) in
  let addr := Z.shiftr addr (m_rid_shift k) in
  let rid := to_int addr in
  (bid_xor, cid, bid, rid).

(** The bank after the permutation-based interleaving. *)
Definition interleave (k : knobs) (bid bid_xor : Z) : Z :=
  if KNOB_DRAM_BANK_XOR_INDEX k then Z.lxor bid bid_xor else bid.

(** The body of the second loop of flush_prefetch. *)
Definition flush_entry (bid : nat) (st : dram_controller_c) (it : drb_entry_ptr)
    : dram_controller_c :=
  let st := free_req (req_of st it) st in
  let st := set_m_buffer_free_list
              (<[bid := m_buffer_free_list st bid ++ [it]]> (m_buffer_free_list st)) st in
  let st := set_m_buffer (<[bid := remove it (m_buffer st bid)]> (m_buffer st)) st in
  set_m_total_req (m_total_req st - 1) st.

Definition flush_prefetch (bid : nat) (st : dram_controller_c) : dram_controller_c :=
  let done_list := filter (λ it, type_of st it = MRT_DPRF) (m_buffer st bid) in
  fold_left (flush_entry bid) done_list st.

Definition insert_req_in_drb (now : Z) (mem_req : mem_req_ptr) (bid rid cid : Z)
    (st : dram_controller_c) : result dram_controller_c :=
  let b := Z.to_nat bid in
  match m_buffer_free_list st b with
  | [] => Fatal (null_dereference 311)
  | new_entry :: rest =>
    let st := set_m_buffer_free_list (<[b := rest]> (m_buffer_free_list st)) st in
    st ← drb_entry_s_set now new_entry mem_req bid rid cid st;
    Ok (set_m_buffer (<[b := m_buffer st b ++ [new_entry]]> (m_buffer st)) st)
  end.

Definition insert_new_req (k : knobs) (now : Z) (mem_req : mem_req_ptr)
    (st : dram_controller_c) : result (bool * dram_controller_c) :=
  let '(bid_xor, cid, bid, rid) := address_parsing k (Req.m_addr (mem st mem_req)) in
  _ ← ASSERT 255 (0 <=? rid);
  let bid := interleave k bid bid_xor in
  let b := Z.to_nat bid in
  let st := match m_buffer_free_list st b with
            | [] => flush_prefetch b st
            | _ :: _ => st
            end in
  match m_buffer_free_list st b with
  | [] => Ok (false, st)
  | _ :: _ =>
    st ← insert_req_in_drb now mem_req bid rid cid st;
    let st := set_m_total_req (m_total_req st + 1) st in
    let st := upd_mem mem_req (Req.set_m_state MEM_DRAM_START) st in
    Ok (true, st)
  end.

(** ** Watchdog *)

Definition print_req (k : knobs) (now : Z) (st : dram_controller_c) : bug_detect_dram_out :=
  {| out_cycle := now;
     out_total_req := m_total_req st;
     out_dbus := map (fun ii => (ii, m_data_ready st ii)) (upto (m_num_channel k));
     out_banks :=
       map (fun ii =>
              let c := m_current_list st ii in
              {| out_clist := from_option (fun e => Req.m_id (mem st (req_of st e))) (-1) c;
                 out_scheduled := from_option (fun e => m_scheduled (drb st e)) 0 c;
                 out_size := Z.of_nat (length (m_buffer st ii));
                 out_state := (fun e => m_state (drb st e)) <$> c;
                 out_bank_ready := m_bank_ready st ii;
                 out_data_ready := m_data_ready st ii;
                 out_data_avail := m_data_avail st ii;
                 out_time := m_bank_timestamp st ii |})
           (upto (m_num_bank k)) |}.

Definition progress_check (k : knobs) (now : Z) (st : dram_controller_c)
    : result dram_controller_c :=
  let st :=
    if (0 <? m_total_req st) && (m_num_completed_in_last_cycle st =? 0)
    then set_m_starvation_cycle (m_starvation_cycle st + 1) st
    else set_m_starvation_cycle 0 st in
  if 5000 <=? m_starvation_cycle st
  then Fatal (starvation (print_req k now st))
  else Ok st.

(** ** Bank activity *)

(** [noc r] is the answer of the interconnect, during the current cycle, to
    the fill that carries request [r]. *)
Definition send_packet (k : knobs) (noc : mem_req_ptr -> bool) (dram_req : drb_entry_ptr)
    (st : dram_controller_c) : result (bool * dram_controller_c) :=
  let r := req_of st dram_req in
  let src := if IRIS k then node_id k else m_noc_id st in
  let dst := if IRIS k then get_dst_router_id k (Req.m_cache_id_L3 (mem st r))
             else Req.m_msg_dst (mem st r) in
  let st := upd_mem r (Req.set_msg NOC_FILL src dst) st in
  _ ← ASSERT 505 (negb (Req.m_msg_src (mem st r) =? -1) && negb (Req.m_msg_dst (mem st r) =? -1));
  if noc r then Ok (true, set_sent (sent st ++ [r]) st) else Ok (false, st).

(** The first loop of the merge: the entries of [l] at the address of the
    current entry [cur] are completed; [temp_list] collects the completed
    ones. *)
Fixpoint merge_scan (k : knobs) (now : Z) (noc : mem_req_ptr -> bool)
    (cur : drb_entry_ptr) (l : list drb_entry_ptr)
    (temp_list : list drb_entry_ptr) (need_to_stop : bool) (st : dram_controller_c)
    : result (list drb_entry_ptr * bool * dram_controller_c) :=
  match l with
  | [] => Ok (temp_list, need_to_stop, st)
  | it :: l' =>
    if m_addr (drb st it) =? m_addr (drb st cur) then
      if decide (type_of st it = MRT_WB) then
        let st := free_req (req_of st it) st in
        let st := set_m_num_completed_in_last_cycle now st in
        merge_scan k now noc cur l' (temp_list ++ [it]) need_to_stop st
      else
        '(ok, st) ← send_packet k noc it st;
        if (ok : bool) then
          let st := upd_mem (req_of st it) (Req.set_m_state MEM_DRAM_DONE) st in
          let st := set_m_num_completed_in_last_cycle now st in
          merge_scan k now noc cur l' (temp_list ++ [it]) need_to_stop st
        else
          merge_scan k now noc cur l' temp_list true st
    else merge_scan k now noc cur l' temp_list need_to_stop st
  end.

(** The body of the second loop of the merge. *)
Definition merge_release_entry (ii : nat) (st : dram_controller_c) (it : drb_entry_ptr)
    : dram_controller_c :=
  let st := upd_drb it (fun _ => drb_entry_s_reset) st in
  let st := set_m_buffer_free_list
              (<[ii := m_buffer_free_list st ii ++ [it]]> (m_buffer_free_list st)) st in
  let st := set_m_buffer (<[ii := remove it (m_buffer st ii)]> (m_buffer st)) st in
  set_m_total_req (m_total_req st - 1) st.

(** The second loop of the merge. *)
Definition merge_release (ii : nat) (temp_list : list drb_entry_ptr)
    (st : dram_controller_c) : dram_controller_c :=
  fold_left (merge_release_entry ii) temp_list st.

(** The end of a completion: the current entry of bank [ii] is released. *)
Definition complete_current (ii : nat) (cur : drb_entry_ptr) (st : dram_controller_c)
    : dram_controller_c :=
  let st := upd_drb cur (fun _ => drb_entry_s_reset) st in
  let st := set_m_buffer_free_list
              (<[ii := m_buffer_free_list st ii ++ [cur]]> (m_buffer_free_list st)) st in
  let st := set_m_current_list (<[ii := None]> (m_current_list st)) st in
  let st := set_m_data_ready (<[ii := ULLONG_MAX]> (m_data_ready st)) st in
  let st := set_m_num_completed_in_last_cycle (m_num_completed_in_last_cycle st + 1) st in
  set_m_total_req (m_total_req st - 1) st.

(** The body of the loop of bank_schedule_complete. *)
Definition bank_schedule_complete_bank (k : knobs) (now : Z) (noc : mem_req_ptr -> bool)
    (ii : nat) (st : dram_controller_c) : result dram_controller_c :=
  match m_current_list st ii with
  | None => Ok st
  | Some cur =>
    if m_data_ready st ii <=? now then
      _ ← ASSERT 412 (bool_decide (m_state (drb st cur) = DRAM_DATA_WAIT));
      '(need_to_stop, st) ←
        (if KNOB_DRAM_MERGE_REQUESTS k then
           '(temp_list, need_to_stop, st) ←
             merge_scan k now noc cur (m_buffer st ii) [] false st;
           Ok (need_to_stop, merge_release ii temp_list st)
         else Ok (false, st));
      if (need_to_stop : bool) then Ok st
      else if decide (type_of st cur = MRT_WB) then
        Ok (complete_current ii cur (free_req (req_of st cur) st))
      else
        '(ok, st) ← send_packet k noc cur st;
        if (ok : bool) then
          Ok (complete_current ii cur
                (upd_mem (req_of st cur) (Req.set_m_state MEM_DRAM_DONE) st))
        else Ok st
    else Ok st
  end.

Definition bank_schedule_complete (k : knobs) (now : Z) (noc : mem_req_ptr -> bool)
    (st : dram_controller_c) : result dram_controller_c :=
  for_each (upto (m_num_bank k)) (bank_schedule_complete_bank k now noc)
           (set_m_num_completed_in_last_cycle 0 st).

(** ** Scheduling policies *)

(** Modelled from the spec: [std::list::sort] belongs to the C++ library,
    which is not part of the sources at hand; the sort is stable, so the
    result is the one of a stable insertion sort with the comparator. *)
Section list_sort.
Context {A : Type} (less : A -> A -> bool).

Fixpoint sort_insert (x : A) (l : list A) : list A :=
  match l with
  | [] => [x]
  | y :: l' => if less y x then y :: sort_insert x l' else x :: l
  end.

Definition list_sort (l : list A) : list A := foldr sort_insert [] l.
End list_sort.

(** [dc_frfcfs_c::sort_func::operator()]. *)
Definition sort_func (st : dram_controller_c) (req_a req_b : drb_entry_ptr) : bool :=
  let bid := m_bid (drb st req_a) in
  let current_rid := m_current_rid st (Z.to_nat bid) in
  if bool_decide (type_of st req_a ≠ MRT_DPRF) && bool_decide (type_of st req_b = MRT_DPRF)
  then true
  else if bool_decide (type_of st req_a = MRT_DPRF) && bool_decide (type_of st req_b ≠ MRT_DPRF)
  then false
  else if (m_rid (drb st req_a) =? current_rid) && negb (m_rid (drb st req_b) =? current_rid)
  then true
  else if negb (m_rid (drb st req_a) =? current_rid) && (m_rid (drb st req_b) =? current_rid)
  then false
  else m_timestamp (drb st req_a) <? m_timestamp (drb st req_b).

(** [schedule(&m_buffer[ii])], the virtual member: dram_controller_c::schedule
    for the FCFS controller, dc_frfcfs_c::schedule for FR-FCFS, which sorts
    the buffer in place. *)
Definition schedule (k : knobs) (ii : nat) (st : dram_controller_c)
    : result (drb_entry_ptr * dram_controller_c) :=
  match scheduler k with
  | fcfs_controller =>
    _ ← ASSERT 597 (negb (bool_decide (m_buffer st ii = [])));
    match m_buffer st ii with
    | entry :: _ => Ok (entry, st)
    | [] => Fatal (null_dereference 600)
    end
  | frfcfs_controller =>
    let st := set_m_buffer (<[ii := list_sort (sort_func st) (m_buffer st ii)]> (m_buffer st)) st in
    match m_buffer st ii with
    | entry :: _ => Ok (entry, st)
    | [] => Fatal (null_dereference 839)
    end
  end.

(** The body of the loop of bank_schedule_new. *)
Definition bank_schedule_new_bank (k : knobs) (now : Z) (ii : nat) (st : dram_controller_c)
    : result dram_controller_c :=
  if bool_decide (m_buffer st ii = []) && bool_decide (m_current_list st ii = None)
  then Ok st
  else
    match m_current_list st ii with
    | None =>
      '(entry, st) ← schedule k ii st;
      let st := set_m_current_list (<[ii := Some entry]> (m_current_list st)) st in
      let st := upd_drb entry (set_m_state DRAM_CMD) st in
      let st := upd_drb entry (set_m_scheduled now) st in
      let st := set_m_buffer (<[ii := remove entry (m_buffer st ii)]> (m_buffer st)) st in
      let st := set_m_bank_ready (<[ii := ULLONG_MAX]> (m_bank_ready st)) st in
      Ok (set_m_bank_timestamp (<[ii := now]> (m_bank_timestamp st)) st)
    | Some cur =>
      if (m_bank_ready st ii <=? now) && bool_decide (m_state (drb st cur) = DRAM_CMD_WAIT)
      then
        _ ← ASSERT 584 (bool_decide (m_state (drb st cur) = DRAM_CMD_WAIT)
                        || bool_decide (m_state (drb st cur) = DRAM_DATA));
        let st := set_m_bank_ready (<[ii := ULLONG_MAX]> (m_bank_ready st)) st in
        let st := upd_drb cur (set_m_state DRAM_CMD) st in
        Ok (set_m_bank_timestamp (<[ii := now]> (m_bank_timestamp st)) st)
      else Ok st
    end.

Definition bank_schedule_new (k : knobs) (now : Z) (st : dram_controller_c)
    : result dram_controller_c :=
  for_each (upto (m_num_bank k)) (bank_schedule_new_bank k now) st.

Definition bank_schedule (k : knobs) (now : Z) (noc : mem_req_ptr -> bool)
    (st : dram_controller_c) : result dram_controller_c :=
  st ← bank_schedule_complete k now noc st;
  bank_schedule_new k now st.

(** ** Channel activity *)

(** The search loops of channel_schedule_cmd and channel_schedule_data: the
    bank among [jjs] that is [ready] and has the smallest time stamp below
    [oldest]; [bank] is the one found so far ([None] is -1). *)
Fixpoint oldest_bank (ready : nat -> bool) (timestamp : nat -> Z) (jjs : list nat)
    (oldest : Z) (bank : option nat) : option nat :=
  match jjs with
  | [] => bank
  | jj :: jjs' =>
    if ready jj && (timestamp jj <? oldest)
    then oldest_bank ready timestamp jjs' (timestamp jj) (Some jj)
    else oldest_bank ready timestamp jjs' oldest bank
  end.

(** [m_current_list[jj] != NULL && m_current_list[jj]->m_state == DRAM_CMD]. *)
Definition cmd_ready (st : dram_controller_c) (jj : nat) : bool :=
  match m_current_list st jj with
  | Some e => bool_decide (m_state (drb st e) = DRAM_CMD)
  | None => false
  end.

(** [m_current_list[jj] != NULL && m_current_list[jj]->m_state == DRAM_DATA &&
    m_data_avail[jj] <= m_simulation_cycle]. *)
Definition data_ready (now : Z) (st : dram_controller_c) (jj : nat) : bool :=
  match m_current_list st jj with
  | Some e => bool_decide (m_state (drb st e) = DRAM_DATA) && (m_data_avail st jj <=? now)
  | None => false
  end.

(** The body of the loop of channel_schedule_cmd, for channel [ii]. *)
Definition channel_schedule_cmd_channel (k : knobs) (now : Z) (ii : nat)
    (st : dram_controller_c) : result dram_controller_c :=
  match oldest_bank (cmd_ready st) (m_bank_timestamp st) (channel_banks k ii) ULLONG_MAX None with
  | None => Ok st
  | Some bank =>
    cur ← current 634 bank st;
    _ ← ASSERT 634 (bool_decide (m_state (drb st cur) = DRAM_CMD));
    let st := upd_mem (req_of st cur) (Req.set_m_state MEM_DRAM_CMD) st in
    let m_ptx := Req.m_ptx (mem st (req_of st cur)) in
    if m_current_rid st bank =? -1 then
      (* activate *)
      let st := set_m_current_rid (<[bank := m_rid (drb st cur)]> (m_current_rid st)) st in
      let st := set_m_bank_ready
                  (<[bank := wrap64 (now + (if m_ptx then m_activate_latency_gpu k
                                            else m_activate_latency_cpu k))]>
                     (m_bank_ready st)) st in
      let st := set_m_data_avail (<[bank := ULLONG_MAX]> (m_data_avail st)) st in
      Ok (upd_drb cur (set_m_state DRAM_CMD_WAIT) st)
    else if m_rid (drb st cur) =? m_current_rid st bank then
      (* column access *)
      let st := set_m_bank_ready
                  (<[bank := wrap64 (now + (if m_ptx then m_column_latency_gpu k
                                            else m_column_latency_cpu k))]>
                     (m_bank_ready st)) st in
      let st := set_m_data_avail (<[bank := m_bank_ready st bank]> (m_data_avail st)) st in
      Ok (upd_drb cur (set_m_state DRAM_DATA) st)
    else
      (* precharge *)
      let st := set_m_current_rid (<[bank := -1]> (m_current_rid st)) st in
      let st := set_m_bank_ready
                  (<[bank := wrap64 (now + (if m_ptx then m_precharge_latency_gpu k
                                            else m_precharge_latency_cpu k))]>
                     (m_bank_ready st)) st in
      let st := set_m_data_avail (<[bank := ULLONG_MAX]> (m_data_avail st)) st in
      Ok (upd_drb cur (set_m_state DRAM_CMD_WAIT) st)
  end.

Definition channel_schedule_cmd (k : knobs) (now : Z) (st : dram_controller_c)
    : result dram_controller_c :=
  for_each (upto (m_num_channel k)) (channel_schedule_cmd_channel k now) st.

Definition avail_data_bus (now : Z) (channel_id : nat) (st : dram_controller_c) : bool :=
  m_dbus_ready st channel_id <=? now.

(** The quotient and the remainder are those of C on ints, which truncate
    towards zero.  The function is the code's for a bus width that is not 0;
    with a bus width of 0 the division of the code traps, and what is stated
    of a call that returns assumes a positive bus width. *)
Definition acquire_data_bus (k : knobs) (now : Z) (channel_id : nat) (req_size : Z)
    (gpu_req : bool) (st : dram_controller_c) : Z * dram_controller_c :=
  let '(latency, st) :=
    if req_size <? m_byte_avail st channel_id then
      (now,
       set_m_byte_avail
         (<[channel_id := m_byte_avail st channel_id - req_size]> (m_byte_avail st)) st)
    else
      let cycle := Z.quot (req_size - m_byte_avail st channel_id) (m_bus_width k) + 1 in
      let dram_cycle := if gpu_req then dram_cycle_gpu k cycle else dram_cycle_cpu k cycle in
      (wrap64 (now + dram_cycle),
       set_m_byte_avail
         (<[channel_id := m_bus_width k
                          - Z.rem (req_size - m_byte_avail st channel_id) (m_bus_width k)]>
            (m_byte_avail st)) st) in
  (latency, set_m_dbus_ready (<[channel_id := latency]> (m_dbus_ready st)) st).

(** The [while (avail_data_bus(ii))] loop of channel_schedule_data.  Every
    turn that does not leave the loop moves one bank of the channel out of
    DRAM_DATA, so the loop takes at most one turn per bank of the channel
    and one more; [fuel] bounds the turns. *)
Fixpoint data_bus_loop (k : knobs) (now : Z) (ii : nat) (fuel : nat)
    (st : dram_controller_c) : result dram_controller_c :=
  match fuel with
  | O => Ok st
  | S fuel' =>
    if avail_data_bus now ii st then
      match oldest_bank (data_ready now st) (m_bank_timestamp st) (channel_banks k ii)
                        ULLONG_MAX None with
      | Some bank =>
        cur ← current 706 bank st;
        let st := upd_mem (req_of st cur) (Req.set_m_state MEM_DRAM_DATA) st in
        _ ← ASSERT 709 (bool_decide (m_state (drb st cur) = DRAM_DATA));
        let '(latency, st) :=
          acquire_data_bus k now ii (m_size (drb st cur))
                           (Req.m_ptx (mem st (req_of st cur))) st in
        let st := set_m_data_ready (<[bank := latency]> (m_data_ready st)) st in
        let st := set_m_data_avail (<[bank := ULLONG_MAX]> (m_data_avail st)) st in
        let st := upd_drb cur (set_m_state DRAM_DATA_WAIT) st in
        data_bus_loop k now ii fuel' st
      | None => Ok st
      end
    else Ok st
  end.

Definition channel_schedule_data (k : knobs) (now : Z) (st : dram_controller_c)
    : result dram_controller_c :=
  for_each (upto (m_num_channel k))
           (fun ii => data_bus_loop k now ii (S (length (channel_banks k ii)))) st.

Definition channel_schedule (k : knobs) (now : Z) (st : dram_controller_c)
    : result dram_controller_c :=
  st ← channel_schedule_cmd k now st;
  channel_schedule_data k now st.

(** ** The tick *)

(** Compiled in only when IRIS is defined. *)
Definition receive_packet (k : knobs) (now : Z) (st : dram_controller_c)
    : result dram_controller_c :=
  if IRIS k then
    match receive_queue st with
    | [] => Ok st
    | req :: rest =>
      '(ok, st) ← insert_new_req k now req st;
      if (ok : bool) then Ok (set_receive_queue rest st) else Ok st
    end
  else Ok st.

Definition run_a_cycle (k : knobs) (now : Z) (noc : mem_req_ptr -> bool)
    (st : dram_controller_c) : result dram_controller_c :=
  st ← channel_schedule k now st;
  st ← bank_schedule k now noc st;
  st ← receive_packet k now st;
  progress_check k now st.

(** * The vocabulary of the properties *)

(** The invariant of the bus accounting: every channel has at least one
    byte and at most a bus width left in the current DRAM cycle. *)
Definition byte_avail_ok (k : knobs) (st : dram_controller_c) : Prop :=
  forall ch : nat, 1 <= m_byte_avail st ch <= m_bus_width k.

(** [x] may stand before [y]: [y] does not come first in the order. *)
Definition in_order {A K : Type} (key : A -> K) (lt : K -> K -> Prop) (x y : A) : Prop :=
  ¬ lt (key y) (key x).

(** The comparator in the words of the specification, for a bank whose open
    row is [open_row]: a request that is not a prefetch outranks a prefetch;
    otherwise a request to the open row outranks one to another row;
    otherwise the one with the smaller insert time stamp outranks. *)
Definition outranks (st : dram_controller_c) (open_row : Z) (a b : drb_entry_ptr) : Prop :=
  (type_of st a ≠ MRT_DPRF /\ type_of st b = MRT_DPRF) \/
  ((type_of st a = MRT_DPRF <-> type_of st b = MRT_DPRF) /\
   ((m_rid (drb st a) = open_row /\ m_rid (drb st b) ≠ open_row) \/
    ((m_rid (drb st a) = open_row <-> m_rid (drb st b) = open_row) /\
     m_timestamp (drb st a) < m_timestamp (drb st b)))).

(** The three criteria as a key: prefetch or not, row miss or hit, insert
    time stamp; the comparator is the lexicographic order of the keys. *)
Definition frfcfs_key (st : dram_controller_c) (open_row : Z) (e : drb_entry_ptr)
    : Z * Z * Z :=
  (Z.b2z (bool_decide (type_of st e = MRT_DPRF)),
   Z.b2z (negb (m_rid (drb st e) =? open_row)),
   m_timestamp (drb st e)).

Definition key_lt (x y : Z * Z * Z) : Prop :=
  x.1.1 < y.1.1 \/ (x.1.1 = y.1.1 /\ (x.1.2 < y.1.2 \/ (x.1.2 = y.1.2 /\ x.2 < y.2))).

#[global] Instance key_lt_dec x y : Decision (key_lt x y).
Proof. unfold key_lt. apply _. Defined.

(** The comparator on keys, as a boolean. *)
Definition frfcfs_less (st : dram_controller_c) (open_row : Z) (a b : drb_entry_ptr) : bool :=
  bool_decide (key_lt (frfcfs_key st open_row a) (frfcfs_key st open_row b)).

#[global] Instance outranks_dec st open_row a b : Decision (outranks st open_row a b).
Proof. unfold outranks. apply _. Defined.

(** The bank's current entry is about to enter state CMD in
    bank_schedule_new: the bank is idle with a request pending, or its
    entry waits in CMD_WAIT and the bank is ready. *)
Definition enters_cmd (now : Z) (st : dram_controller_c) (ii : nat) : Prop :=
  match m_current_list st ii with
  | None => m_buffer st ii ≠ []
  | Some cur => m_bank_ready st ii <= now /\ m_state (drb st cur) = DRAM_CMD_WAIT
  end.

(** The steps of a tick before the watchdog. *)
Definition before_progress_check (k : knobs) (now : Z) (noc : mem_req_ptr -> bool)
    (st : dram_controller_c) : result dram_controller_c :=
  st ← channel_schedule k now st;
  st ← bank_schedule k now noc st;
  receive_packet k now st.

(** The fills and the freed write-backs of the completion pass are the
    completions of the tick: [freed] and [sent] grow by one request per
    completion. *)
Definition completions (st : dram_controller_c) : nat :=
  (length (freed st) + length (sent st))%nat.

(** The relation between the counter of completions and the completions
    since [s0], where the counter was 0. *)
Definition completed_flag (s0 s : dram_controller_c) : Prop :=
  (m_num_completed_in_last_cycle s = 0 /\ freed s = freed s0 /\ sent s = sent s0) \/
  (0 < m_num_completed_in_last_cycle s /\ (completions s0 < completions s)%nat).

(** Consecutive ticks that starve: at each of them, when progress_check
    runs, there are requests and the counter of completions is 0, and the
    run goes on.  Requests may be handed over between the ticks. *)
Inductive starving_run (k : knobs) : nat -> dram_controller_c -> dram_controller_c -> Prop :=
| starving_run_nil st : starving_run k 0 st st
| starving_run_tick n st st1 now noc s st2 :
    starving_run k n st st1 ->
    before_progress_check k now noc st1 = Ok s ->
    0 < m_total_req s ->
    m_num_completed_in_last_cycle s = 0 ->
    progress_check k now s = Ok st2 ->
    starving_run k (S n) st st2
| starving_run_insert n st st1 now mem_req ok st2 :
    starving_run k n st st1 ->
    insert_new_req k now mem_req st1 = Ok (ok, st2) ->
    starving_run k n st st2.

(** One tick at each cycle of [cycles], every one of them a starving tick
    after which the run goes on; [None] when a tick does not starve or does
    not return. *)
Fixpoint starving_ticks (k : knobs) (noc : mem_req_ptr -> bool) (cycles : list Z)
    (st : dram_controller_c) : option dram_controller_c :=
  match cycles with
  | [] => Some st
  | c :: cycles' =>
    match before_progress_check k c noc st with
    | Ok s =>
      if (0 <? m_total_req s) && (m_num_completed_in_last_cycle s =? 0)
      then match progress_check k c s with
           | Ok st' => starving_ticks k noc cycles' st'
           | Fatal _ => None
           end
      else None
    | Fatal _ => None
    end
  end.

(** A step that moves one entry of bank [b] from the pending list to the
    end of the free list. *)
Definition releases (b : nat) (f : dram_controller_c -> drb_entry_ptr -> dram_controller_c)
    : Prop :=
  forall s it,
    m_buffer_free_list (f s it) = <[b := m_buffer_free_list s b ++ [it]]> (m_buffer_free_list s) /\
    m_buffer (f s it) = <[b := remove it (m_buffer s b)]> (m_buffer s) /\
    m_current_list (f s it) = m_current_list s /\
    m_total_req (f s it) = m_total_req s - 1.

(** The prefetches of the pending list of bank [b]. *)
Definition prefetches (st : dram_controller_c) (b : nat) : list drb_entry_ptr :=
  filter (λ it, type_of st it = MRT_DPRF) (m_buffer st b).

(** The state in which insert_new_req looks for a free entry of bank [b]:
    the prefetches have been flushed if the free list was empty. *)
Definition flushed (b : nat) (st : dram_controller_c) : dram_controller_c :=
  match m_buffer_free_list st b with
  | [] => flush_prefetch b st
  | _ :: _ => st
  end.

(** What drb_entry_s::set writes into the entry for request [r], at
    address [mem_req], at cycle [now]. *)
Definition populated (now : Z) (mem_req : mem_req_ptr) (r : mem_req_s) (id bid rid cid : Z)
    (e : drb_entry_s) : Prop :=
  m_id e = id /\ m_addr e = Req.m_addr r /\ m_bid e = bid /\ m_rid e = rid /\
  m_cid e = cid /\ m_core_id e = Req.m_core_id r /\ m_thread_id e = Req.m_thread_id r /\
  m_appl_id e = Req.m_appl_id r /\ m_req e = mem_req /\ m_size e = Req.m_size r /\
  m_timestamp e = now /\ m_priority e = 0 /\
  m_read e = negb (bool_decide (Req.m_type r = MRT_WB)).

(** [it] has the address of the current entry [cur]. *)
Definition same_addr (st : dram_controller_c) (cur it : drb_entry_ptr) : Prop :=
  m_addr (drb st it) = m_addr (drb st cur).

(** The completion of the request of [it] goes through: it is a
    write-back, which needs no fill, or the interconnect takes its fill. *)
Definition goes_through (st : dram_controller_c) (noc : mem_req_ptr -> bool)
    (it : drb_entry_ptr) : Prop :=
  type_of st it = MRT_WB \/ noc (req_of st it) = true.

(** The merge completes [it]; the merge has to leave [it] for later. *)
Definition merged (st : dram_controller_c) (noc : mem_req_ptr -> bool)
    (cur it : drb_entry_ptr) : Prop :=
  same_addr st cur it /\ goes_through st noc it.

Definition refused (st : dram_controller_c) (noc : mem_req_ptr -> bool)
    (cur it : drb_entry_ptr) : Prop :=
  same_addr st cur it /\ ¬ goes_through st noc it.

#[global] Instance same_addr_dec st cur it : Decision (same_addr st cur it).
Proof. unfold same_addr. apply _. Defined.

#[global] Instance goes_through_dec st noc it : Decision (goes_through st noc it).
Proof. unfold goes_through. apply _. Defined.

#[global] Instance merged_dec st noc cur it : Decision (merged st noc cur it).
Proof. unfold merged. apply _. Defined.

#[global] Instance refused_dec st noc cur it : Decision (refused st noc cur it).
Proof. unfold refused. apply _. Defined.

(** The assertion of send_packet holds for the request of [e]. *)
Definition can_send (k : knobs) (st : dram_controller_c) (e : drb_entry_ptr) : Prop :=
  (if IRIS k then node_id k else m_noc_id st) ≠ -1 /\
  (if IRIS k then get_dst_router_id k (Req.m_cache_id_L3 (mem st (req_of st e)))
   else Req.m_msg_dst (mem st (req_of st e))) ≠ -1.

(** What the first loop of the merge and send_packet leave as it is: the
    entries, the lists and timing of the banks, and of every request the
    type, the cache and what decides the assertion of send_packet. *)
Definition scan_frame (k : knobs) (st s : dram_controller_c) : Prop :=
  drb s = drb st /\
  m_buffer s = m_buffer st /\
  m_buffer_free_list s = m_buffer_free_list st /\
  m_current_list s = m_current_list st /\
  m_data_ready s = m_data_ready st /\
  m_total_req s = m_total_req st /\
  m_noc_id s = m_noc_id st /\
  forall r,
    Req.m_type (mem s r) = Req.m_type (mem st r) /\
    Req.m_cache_id_L3 (mem s r) = Req.m_cache_id_L3 (mem st r) /\
    (IRIS k = false -> Req.m_msg_dst (mem s r) = Req.m_msg_dst (mem st r)).

(** The fill of [it] was sent by the merge and taken by the interconnect. *)
Definition filled (st : dram_controller_c) (noc : mem_req_ptr -> bool)
    (cur it : drb_entry_ptr) : Prop :=
  same_addr st cur it /\ type_of st it ≠ MRT_WB /\ noc (req_of st it) = true.

#[global] Instance filled_dec st noc cur it : Decision (filled st noc cur it).
Proof. unfold filled. apply _. Defined.

(** The requests whose fills the merge sent with success. *)
Definition filled_reqs (st : dram_controller_c) (noc : mem_req_ptr -> bool)
    (cur : drb_entry_ptr) (l : list drb_entry_ptr) : list mem_req_ptr :=
  map (req_of st) (filter (filled st noc cur) l).

(** The entries of bank [ii]: free, pending and current. *)
Definition bank_entries (st : dram_controller_c) (ii : nat) : list drb_entry_ptr :=
  m_buffer_free_list st ii ++ m_buffer st ii ++ option_list (m_current_list st ii).

(** Conservation for bank [ii]: the entries are KNOB_DRAM_BUFFER_SIZE in
    number and no entry occurs twice, so none is in two of the three
    places. *)
Definition conserved (k : knobs) (st : dram_controller_c) (ii : nat) : Prop :=
  NoDup (bank_entries st ii) /\
  length (bank_entries st ii) = Z.to_nat (KNOB_DRAM_BUFFER_SIZE k).

(** The three lists of every bank are the same in both states. *)
Definition same_lists (st st' : dram_controller_c) : Prop :=
  m_buffer st' = m_buffer st /\
  m_buffer_free_list st' = m_buffer_free_list st /\
  m_current_list st' = m_current_list st.

(** The entries of every bank are those that the constructor allocated
    for it, none of them twice. *)
Definition owned (k : knobs) (st : dram_controller_c) : Prop :=
  forall ii,
    NoDup (bank_entries st ii) /\
    forall e, e ∈ bank_entries st ii ->
              e ∈ new_entries (Z.to_nat (KNOB_DRAM_BUFFER_SIZE k)) ii.

(** Every pending entry carries the number of the bank whose list it is
    in: this is the bank whose open row sort_func looks up. *)
Definition tagged (st : dram_controller_c) : Prop :=
  forall ii e, e ∈ m_buffer st ii -> m_bid (drb st e) = Z.of_nat ii.

(** The entries have the same bank numbers in both states. *)
Definition same_banks (st st' : dram_controller_c) : Prop :=
  forall e, m_bid (drb st' e) = m_bid (drb st e).

(** The states of a run: the controller is constructed and initialised;
    then requests are handed over and ticks are run; between the calls the
    memory system may write its requests and the terminal may fill its
    queue. *)
Inductive reachable (k : knobs) : dram_controller_c -> Prop :=
| reachable_new raw id noc_id :
    reachable k (init id noc_id (dram_controller_c_new k raw))
| reachable_insert st now mem_req ok st' :
    reachable k st ->
    insert_new_req k now mem_req st = Ok (ok, st') ->
    reachable k st'
| reachable_tick st now noc st' :
    reachable k st ->
    run_a_cycle k now noc st = Ok st' ->
    reachable k st'
| reachable_world st requests queue :
    reachable k st ->
    reachable k (set_receive_queue queue (set_mem requests st)).

(** The banks of [jjs] that wait for the data bus. *)
Definition data_pending (now : Z) (st : dram_controller_c) (jjs : list nat) : nat :=
  length (filter (λ jj, data_ready now st jj = true) jjs).

(** ** The vocabulary of the life of an entry *)

(** The current entry [e] of a bank is past its ACTIVATE: it is in
    DRAM_DATA or in DRAM_DATA_WAIT, or it waits in DRAM_CMD_WAIT while the
    bank has a row open. *)
Definition activated (e : drb_entry_s) (open_row : Z) : Prop :=
  m_state e = DRAM_DATA \/ m_state e = DRAM_DATA_WAIT \/
  (m_state e = DRAM_CMD_WAIT /\ open_row ≠ -1).

(** The sentinels of bank [ii]: the entries of the free list and of the
    pending list are in DRAM_INIT; a bank without a current entry has no
    data time; a current entry has left DRAM_INIT, a data-ready time other
    than ULLONG_MAX goes with DRAM_DATA_WAIT and a data-available time other
    than ULLONG_MAX with DRAM_DATA, and once the entry is past its ACTIVATE
    the open row of the bank is the row of the entry. *)
Definition bank_sentinels (st : dram_controller_c) (ii : nat) : Prop :=
  (forall e, e ∈ m_buffer_free_list st ii ++ m_buffer st ii ->
             m_state (drb st e) = DRAM_INIT) /\
  match m_current_list st ii with
  | None => m_data_ready st ii = ULLONG_MAX /\ m_data_avail st ii = ULLONG_MAX
  | Some cur =>
    m_state (drb st cur) ≠ DRAM_INIT /\
    (m_data_ready st ii ≠ ULLONG_MAX -> m_state (drb st cur) = DRAM_DATA_WAIT) /\
    (m_data_avail st ii ≠ ULLONG_MAX -> m_state (drb st cur) = DRAM_DATA) /\
    (activated (drb st cur) (m_current_rid st ii) ->
     m_current_rid st ii = m_rid (drb st cur))
  end.

Definition sentinels (st : dram_controller_c) : Prop := forall ii, bank_sentinels st ii.

(** What a sub-command or a grant of the data bus does to the rest of the
    state: the lists stay, the current entry [cur] of [bank] goes to state
    [s], and the data times and the open rows of the other banks stay. *)
Definition current_step (st st' : dram_controller_c) (bank : nat) (cur : drb_entry_ptr)
    (s : DRAM_STATE) : Prop :=
  m_current_list st bank = Some cur /\
  same_lists st st' /\
  drb st' = <[cur := set_m_state s (drb st cur)]> (drb st) /\
  (forall jj, jj ≠ bank ->
     m_data_ready st' jj = m_data_ready st jj /\ m_data_avail st' jj = m_data_avail st jj /\
     m_current_rid st' jj = m_current_rid st jj).

(** The open rows and the clocks of the banks and of the channels are the
    same in both states. *)
Definition same_clocks (st st' : dram_controller_c) : Prop :=
  m_current_rid st' = m_current_rid st /\ m_data_ready st' = m_data_ready st /\
  m_data_avail st' = m_data_avail st /\ m_bank_ready st' = m_bank_ready st /\
  m_bank_timestamp st' = m_bank_timestamp st /\ m_byte_avail st' = m_byte_avail st /\
  m_dbus_ready st' = m_dbus_ready st.

(** The ways in which a tick may end the run: the watchdog, the assertion of
    send_packet and, when the requests arrive through the terminal, the
    assertion of insert_new_req on the decoded row. *)
Definition foreseen (k : knobs) (f : fatal) : Prop :=
  (exists dump, f = starvation dump) \/ f = ASSERT_failed 505 \/
  (IRIS k = true /\ f = ASSERT_failed 255).

(** ** The vocabulary of the place of an entry *)

(** The bank, the row and the column of entry [e] are what insert_new_req
    decodes from the address of [e], and the row passes its assertion. *)
Definition decoded (k : knobs) (e : drb_entry_s) : Prop :=
  let '(bid_xor, cid, bid, rid) := address_parsing k (m_addr e) in
  m_cid e = cid /\ m_rid e = rid /\ m_bid e = interleave k bid bid_xor /\ 0 <= rid.

(** Every entry that is pending or current in bank [ii] carries the number
    [ii] and the decoding of its address. *)
Definition placed (k : knobs) (st : dram_controller_c) : Prop :=
  forall ii e,
    e ∈ m_buffer st ii \/ m_current_list st ii = Some e ->
    m_bid (drb st e) = Z.of_nat ii /\ decoded k (drb st e).

(** The address and its decoding, as an entry carries them. *)
Definition entry_place (e : drb_entry_s) : Z * Z * Z * Z :=
  (m_addr e, m_bid e, m_rid e, m_cid e).

Definition same_places (st st' : dram_controller_c) : Prop :=
  forall e, entry_place (drb st' e) = entry_place (drb st e).

(** ** The vocabulary of the count of the requests *)

(** The requests that bank [ii] holds: its pending entries and its current
    entry. *)
Definition held (st : dram_controller_c) (ii : nat) : Z :=
  Z.of_nat (length (m_buffer st ii))
  + match m_current_list st ii with Some _ => 1 | None => 0 end.

(** The requests that the banks of the controller hold. *)
Definition in_flight (k : knobs) (st : dram_controller_c) : Z :=
  foldr Z.add 0 (map (held st) (upto (m_num_bank k))).

(** One step of a run: a request is handed over, a tick is run, or the
    memory system and the terminal act between two calls. *)
Inductive run_step (k : knobs) (st : dram_controller_c) : dram_controller_c -> Prop :=
| run_step_insert now mem_req ok st' :
    insert_new_req k now mem_req st = Ok (ok, st') -> run_step k st st'
| run_step_tick now noc st' :
    run_a_cycle k now noc st = Ok st' -> run_step k st st'
| run_step_world requests queue :
    run_step k st (set_receive_queue queue (set_mem requests st)).

(** An operation on bank [ii] keeps the books: the other banks hold what
    they held, and m_total_req moves with what bank [ii] holds. *)
Definition bank_account (st st' : dram_controller_c) (ii : nat) : Prop :=
  (forall jj, jj ≠ ii -> held st' jj = held st jj) /\
  m_total_req st' - held st' ii = m_total_req st - held st ii.

(** The banks beyond m_num_bank have no entry. *)
Definition vacant (k : knobs) (st : dram_controller_c) : Prop :=
  forall ii, ¬ (ii < Z.to_nat (m_num_bank k))%nat -> bank_entries st ii = [].

(** ** The vocabulary of the channels *)

(** Bank [jj] is one of the banks of a channel. *)
Definition covered (k : knobs) (jj : nat) : Prop :=
  exists ii, ii ∈ upto (m_num_channel k) /\ jj ∈ channel_banks k ii.

(** Bank [jj] has selected [cur], which waits for its first command. *)
Definition awaits_command (st : dram_controller_c) (jj : nat) (cur : drb_entry_ptr) : Prop :=
  m_current_list st jj = Some cur /\ m_state (drb st cur) = DRAM_CMD.

(** ** A small configuration

    One channel with two banks, four entries per bank, rows of 2048 bytes,
    an 8-byte data bus, and the latencies activate = 10, column = 5,
    precharge = 10 on the CPU scale (twice that on the GPU scale). *)
Module Example.

Definition k : knobs :=
  {| KNOB_DRAM_NUM_BANKS := 2; KNOB_DRAM_NUM_CHANNEL := 1; KNOB_DRAM_BUS_WIDTH := 4;
     KNOB_DRAM_DDR_FACTOR := 2; KNOB_DRAM_BUFFER_SIZE := 4;
     KNOB_DRAM_ROWBUFFER_SIZE := 2048; KNOB_L3_LINE_SIZE := 64;
     KNOB_DRAM_BANK_XOR_INDEX := false; KNOB_DRAM_MERGE_REQUESTS := true;
     m_precharge_latency_cpu := 10; m_activate_latency_cpu := 10;
     m_column_latency_cpu := 5;
     m_precharge_latency_gpu := 20; m_activate_latency_gpu := 20;
     m_column_latency_gpu := 10;
     dram_cycle_cpu := fun c => c; dram_cycle_gpu := fun c => 2 * c;
     scheduler := fcfs_controller; IRIS := false; node_id := 0;
     get_dst_router_id := fun c => c |}.

(** A 64-byte CPU request of type [t] for address [a]. *)
Definition request (a : Z) (t : Mem_Req_Type) : mem_req_s :=
  {| Req.m_id := 0; Req.m_addr := a; Req.m_size := 64; Req.m_type := t;
     Req.m_core_id := 0; Req.m_thread_id := 0; Req.m_appl_id := 0; Req.m_ptx := false;
     Req.m_cache_id_L3 := 0; Req.m_state := MEM_UPSTREAM; Req.m_msg_type := NOC_MSG 0;
     Req.m_msg_src := 0; Req.m_msg_dst := 3 |}.

(** The requests of the memory system: 1 and 2 read address 4096, 3 writes
    it back, 4 reads it again; 5, 6, 9 and 10 prefetch rows of the same
    bank; 7 and 11 read addresses of 47 and 44 bits; 8 reads another row of
    that bank. *)
Definition requests (p : mem_req_ptr) : mem_req_s :=
  match p with
  | 1%nat => request 4096 MRT_DFETCH
  | 2%nat => request 4096 MRT_DFETCH
  | 3%nat => request 4096 MRT_WB
  | 4%nat => request 4096 MRT_DFETCH
  | 5%nat => request 8192 MRT_DPRF
  | 6%nat => request 12288 MRT_DPRF
  | 7%nat => request (2 ^ 46) MRT_DFETCH
  | 8%nat => request 8192 MRT_DFETCH
  | 9%nat => request 16384 MRT_DPRF
  | 10%nat => request 20480 MRT_DPRF
  | 11%nat => request (2 ^ 43) MRT_DFETCH
  | _ => request 0 MRT_DFETCH
  end.

(** Storage with every counter at zero. *)
Definition raw : dram_controller_c :=
  {| drb := fun _ => drb_entry_s_reset; mem := requests; m_unique_id := 0;
     m_buffer := fun _ => []; m_buffer_free_list := fun _ => [];
     m_current_list := fun _ => None; m_current_rid := fun _ => 0;
     m_data_ready := fun _ => 0; m_data_avail := fun _ => 0; m_bank_ready := fun _ => 0;
     m_bank_timestamp := fun _ => 0; m_byte_avail := fun _ => 0;
     m_dbus_ready := fun _ => 0; m_total_req := 0; m_num_completed_in_last_cycle := 0;
     m_starvation_cycle := 0; m_noc_id := 0; freed := []; sent := [];
     receive_queue := [] |}.

(** The controller after construction and init. *)
Definition fresh : dram_controller_c := init 0 7 (dram_controller_c_new k raw).

(** Requests [rs] are handed over at cycle [now], in order. *)
Fixpoint inserts (kn : knobs) (now : Z) (rs : list mem_req_ptr) (st : dram_controller_c)
    : result dram_controller_c :=
  match rs with
  | [] => Ok st
  | r :: rs' => '(_, st') ← insert_new_req kn now r st; inserts kn now rs' st'
  end.

(** One tick at each cycle of [cycles]. *)
Fixpoint ticks (kn : knobs) (noc : mem_req_ptr -> bool) (cycles : list Z)
    (st : dram_controller_c) : result dram_controller_c :=
  match cycles with
  | [] => Ok st
  | c :: cycles' => st' ← run_a_cycle kn c noc st; ticks kn noc cycles' st'
  end.

(** The state of an outcome; a fatal outcome leaves the storage [raw]. *)
Definition state_of (r : result dram_controller_c) : dram_controller_c :=
  match r with
  | Ok st => st
  | Fatal _ => raw
  end.

(** The same configuration with the FR-FCFS controller. *)
Definition k_frfcfs : knobs :=
  {| KNOB_DRAM_NUM_BANKS := 2; KNOB_DRAM_NUM_CHANNEL := 1; KNOB_DRAM_BUS_WIDTH := 4;
     KNOB_DRAM_DDR_FACTOR := 2; KNOB_DRAM_BUFFER_SIZE := 4;
     KNOB_DRAM_ROWBUFFER_SIZE := 2048; KNOB_L3_LINE_SIZE := 64;
     KNOB_DRAM_BANK_XOR_INDEX := false; KNOB_DRAM_MERGE_REQUESTS := true;
     m_precharge_latency_cpu := 10; m_activate_latency_cpu := 10;
     m_column_latency_cpu := 5;
     m_precharge_latency_gpu := 20; m_activate_latency_gpu := 20;
     m_column_latency_gpu := 10;
     dram_cycle_cpu := fun c => c; dram_cycle_gpu := fun c => 2 * c;
     scheduler := frfcfs_controller; IRIS := false; node_id := 0;
     get_dst_router_id := fun c => c |}.

(** An interconnect that takes every fill, and one that takes none. *)
Definition accept : mem_req_ptr -> bool := fun _ => true.
Definition refuse : mem_req_ptr -> bool := fun _ => false.

(** Request 1 is handed over at cycle 0 and the tick of cycle 0 selects it
    in bank 0. *)
Definition selected : dram_controller_c :=
  state_of (st ← inserts k 0 [1%nat] fresh; ticks k accept [0] st).

(** Request 1 has been served (ACTIVATE at 1, COLUMN at 12, data bus at 17,
    fill at 25), which leaves row 1 open in bank 0; then request 8, to row
    2, arrives at cycle 26 and request 2, to row 1, at cycle 27. *)
Definition two_rows : dram_controller_c :=
  state_of (st ← inserts k 0 [1%nat] fresh;
            st ← ticks k accept [0; 1; 11; 12; 17; 25] st;
            st ← inserts k 26 [8%nat] st;
            inserts k 27 [2%nat] st).

(** Requests 1 to 4, all for address 4096, arrive at cycle 0; the bank
    serves request 1, whose data are due at cycle 25, while the entries of
    2, 3 and 4 wait in the pending list. *)
Definition waiting : dram_controller_c :=
  state_of (st ← inserts k 0 [1; 2; 3; 4]%nat fresh; ticks k accept [0; 1; 11; 12; 17] st).

(** An interconnect that refuses the fill of request 2 and takes the
    others. *)
Definition picky : mem_req_ptr -> bool := fun r => negb (r =? 2)%nat.

(** Four prefetches fill the buffer of bank 0. *)
Definition full : dram_controller_c :=
  state_of (inserts k 0 [5; 6; 9; 10]%nat fresh).

End Example.

(** ** A configuration with a bank outside the channels

    Four banks on three channels: m_num_bank_per_channel is 1, so that the
    channels serve the banks 0, 1 and 2 and no channel serves bank 3. *)
Module Uneven.

Definition k : knobs :=
  {| KNOB_DRAM_NUM_BANKS := 4; KNOB_DRAM_NUM_CHANNEL := 3; KNOB_DRAM_BUS_WIDTH := 4;
     KNOB_DRAM_DDR_FACTOR := 2; KNOB_DRAM_BUFFER_SIZE := 2;
     KNOB_DRAM_ROWBUFFER_SIZE := 2048; KNOB_L3_LINE_SIZE := 64;
     KNOB_DRAM_BANK_XOR_INDEX := false; KNOB_DRAM_MERGE_REQUESTS := true;
     m_precharge_latency_cpu := 10; m_activate_latency_cpu := 10;
     m_column_latency_cpu := 5;
     m_precharge_latency_gpu := 20; m_activate_latency_gpu := 20;
     m_column_latency_gpu := 10;
     dram_cycle_cpu := fun c => c; dram_cycle_gpu := fun c => 2 * c;
     scheduler := fcfs_controller; IRIS := false; node_id := 0;
     get_dst_router_id := fun c => c |}.

(** Every request reads address 6144, which is in bank 3. *)
Definition raw : dram_controller_c :=
  set_mem (fun _ => Example.request 6144 MRT_DFETCH) Example.raw.

Definition fresh : dram_controller_c := init 0 7 (dram_controller_c_new k raw).

(** Request 1 has been handed over and the tick of cycle 0 has selected it
    in bank 3. *)
Definition stranded : dram_controller_c :=
  Example.state_of (st ← Example.inserts k 0 [1%nat] fresh; run_a_cycle k 0 Example.accept st).

End Uneven.

(** ** Storage that makes the watchdog bite

    The constructor assigns neither m_total_req nor m_starvation_cycle: with
    this storage the first tick of an empty controller is the 5000th of a
    starvation. *)
Module Stale.

Definition raw : dram_controller_c :=
  set_m_starvation_cycle 4999 (set_m_total_req 1 Example.raw).

Definition fresh : dram_controller_c := init 0 7 (dram_controller_c_new Example.k raw).

End Stale.

(** ** Storage that makes the watchdog late

    The same for a value below zero: the counter of a new controller starts
    at -3, and the interconnect takes no fill of the one request that the
    controller holds. *)
Module Late.

Definition raw : dram_controller_c := set_m_starvation_cycle (-3) Example.raw.

Definition fresh : dram_controller_c := init 0 7 (dram_controller_c_new Example.k raw).

(** Request 1 is handed over at cycle 0. *)
Definition loaded : dram_controller_c :=
  Example.state_of (Example.inserts Example.k 0 [1%nat] fresh).

(** The cycles 0 to 5001. *)
Definition cycles : list Z := map Z.of_nat (seq 0 (Z.to_nat 5002)).

End Late.

(** ** The small configuration without merging *)
Module Plain.

Definition k : knobs :=
  {| KNOB_DRAM_NUM_BANKS := 2; KNOB_DRAM_NUM_CHANNEL := 1; KNOB_DRAM_BUS_WIDTH := 4;
     KNOB_DRAM_DDR_FACTOR := 2; KNOB_DRAM_BUFFER_SIZE := 4;
     KNOB_DRAM_ROWBUFFER_SIZE := 2048; KNOB_L3_LINE_SIZE := 64;
     KNOB_DRAM_BANK_XOR_INDEX := false; KNOB_DRAM_MERGE_REQUESTS := false;
     m_precharge_latency_cpu := 10; m_activate_latency_cpu := 10;
     m_column_latency_cpu := 5;
     m_precharge_latency_gpu := 20; m_activate_latency_gpu := 20;
     m_column_latency_gpu := 10;
     dram_cycle_cpu := fun c => c; dram_cycle_gpu := fun c => 2 * c;
     scheduler := fcfs_controller; IRIS := false; node_id := 0;
     get_dst_router_id := fun c => c |}.

End Plain.

(** * Properties *)

(** ** Machine integers *)

Lemma wrap64_small x : 0 <= x < 2 ^ 64 -> wrap64 x = x.
Proof. intros H. unfold wrap64. apply Z.mod_small. exact H. Qed.

Lemma wrap64_range x : 0 <= wrap64 x < 2 ^ 64.
Proof. unfold wrap64. apply Z.mod_pos_bound. lia. Qed.

Lemma to_int_small x : - 2 ^ 31 <= x < 2 ^ 31 -> to_int x = x.
Proof.
  intros H. unfold to_int.
  rewrite Z.mod_small by lia. lia.
Qed.

(** ** The data bus *)

Section data_bus.
Context (k : knobs).

Lemma acquire_data_bus_other now ch size gpu st ch' :
  ch ≠ ch' ->
  m_byte_avail (acquire_data_bus k now ch size gpu st).2 ch' = m_byte_avail st ch' /\
  m_dbus_ready (acquire_data_bus k now ch size gpu st).2 ch' = m_dbus_ready st ch'.
Proof.
  intros Hne. unfold acquire_data_bus.
  destruct (size <? m_byte_avail st ch); cbn;
    rewrite !fn_lookup_insert_ne by done; done.
Qed.

End data_bus.

(** C8. acquire_data_bus(channel, size, is_gpu), with [avail] the bytes left
    on the channel and [W] the bus width: when [size < avail] the bytes left
    drop by [size] and the release cycle is the current cycle; otherwise the
    release cycle is the current cycle plus [floor((size - avail) / W) + 1]
    DRAM cycles converted with the GPU or CPU ratio (the sum of the 64-bit
    Counter type, which is the plain sum as long as that fits), and the
    bytes left become [W - (size - avail) mod W]; in both cases the
    channel's bus-free cycle is the release cycle. *)
Theorem acquire_data_bus_spec (k : knobs) (now : Z) (channel : nat) (size : Z)
    (is_gpu : bool) (st : dram_controller_c) :
  0 < m_bus_width k ->
  let avail := m_byte_avail st channel in
  let W := m_bus_width k in
  let convert := if is_gpu then dram_cycle_gpu k else dram_cycle_cpu k in
  let release := (acquire_data_bus k now channel size is_gpu st).1 in
  let st' := (acquire_data_bus k now channel size is_gpu st).2 in
  (size < avail ->
     m_byte_avail st' channel = avail - size /\ release = now) /\
  (avail <= size ->
     release = wrap64 (now + convert ((size - avail) / W + 1)) /\
     (0 <= now + convert ((size - avail) / W + 1) < 2 ^ 64 ->
        release = now + convert ((size - avail) / W + 1)) /\
     m_byte_avail st' channel = W - (size - avail) mod W) /\
  m_dbus_ready st' channel = release.
Proof.
  intros HW avail W convert release st'.
  subst release st'. unfold acquire_data_bus. fold avail. fold W.
  destruct (Z.ltb_spec size avail) as [Hlt | Hge]; cbn.
  - rewrite !fn_lookup_insert. repeat split; intros; try lia.
  - rewrite !fn_lookup_insert.
    assert (Hq : Z.quot (size - avail) W = (size - avail) / W)
      by (apply Z.quot_div_nonneg; lia).
    assert (Hr : Z.rem (size - avail) W = (size - avail) mod W)
      by (apply Z.rem_mod_nonneg; lia).
    rewrite Hq, Hr. subst convert.
    repeat split; intros; try lia.
    + destruct is_gpu; reflexivity.
    + destruct is_gpu; apply wrap64_small; assumption.
Qed.

Lemma acquire_data_bus_spec_witness :
  0 < m_bus_width Example.k /\
  (acquire_data_bus Example.k 25 0 64 false Example.fresh).1 = 33 /\
  m_byte_avail (acquire_data_bus Example.k 25 0 64 false Example.fresh).2 0%nat = 8.
Proof.
  split; [reflexivity |].
  pose proof (acquire_data_bus_spec Example.k 25 0 64 false Example.fresh eq_refl) as H.
  cbv zeta in H. destruct H as (_ & H & _).
  destruct (H ltac:(vm_compute; discriminate)) as (_ & Hrel & Hav).
  split.
  - rewrite Hrel; [reflexivity | vm_compute; split; [discriminate | reflexivity]].
  - rewrite Hav. reflexivity.
Defined.

(** C10. After construction and after every acquire_data_bus call with a
    non-negative request size, every channel has at least 1 and at most a
    bus width of bytes left in the current DRAM cycle. *)
Theorem byte_avail_bounds (k : knobs) :
  1 <= m_bus_width k ->
  (forall raw, byte_avail_ok k (dram_controller_c_new k raw)) /\
  (forall now channel size is_gpu st,
      0 <= size ->
      byte_avail_ok k st ->
      byte_avail_ok k (acquire_data_bus k now channel size is_gpu st).2).
Proof.
  intros HW. split.
  - intros raw ch. cbn. lia.
  - intros now channel size is_gpu st Hsize Hok ch.
    destruct (decide (channel = ch)) as [-> | Hne].
    + pose proof (Hok ch) as Hch.
      unfold acquire_data_bus.
      destruct (Z.ltb_spec size (m_byte_avail st ch)) as [Hlt | Hge]; cbn;
        rewrite fn_lookup_insert.
      * lia.
      * rewrite Z.rem_mod_nonneg by lia.
        pose proof (Z.mod_pos_bound (size - m_byte_avail st ch) (m_bus_width k)).
        lia.
    + destruct (acquire_data_bus_other k now channel size is_gpu st ch Hne) as [-> _].
      apply Hok.
Qed.

Lemma byte_avail_bounds_witness :
  1 <= m_bus_width Example.k /\
  byte_avail_ok Example.k
    (acquire_data_bus Example.k 25 0 64 false (dram_controller_c_new Example.k Example.raw)).2.
Proof.
  split; [vm_compute; discriminate |].
  destruct (byte_avail_bounds Example.k ltac:(vm_compute; discriminate)) as [Hnew Hacq].
  apply Hacq; [vm_compute; discriminate | apply Hnew].
Defined.

(** ** The command scheduler *)

Section oldest_bank.
Context (ready : nat -> bool) (timestamp : nat -> Z).

(** The bank found by the search loop is the one found before the loop or a
    ready bank of the range. *)
Lemma oldest_bank_ready jjs : forall oldest found bank,
  oldest_bank ready timestamp jjs oldest found = Some bank ->
  found = Some bank \/ (bank ∈ jjs /\ ready bank = true).
Proof.
  induction jjs as [| jj jjs IH]; intros oldest found bank H; cbn in H.
  - left. exact H.
  - destruct (ready jj && (timestamp jj <? oldest)) eqn:Hc.
    + apply andb_true_iff in Hc as [Hr _].
      apply IH in H as [H | [Hin Hrb]].
      * right. injection H as <-. split; [left | exact Hr].
      * right. split; [right; exact Hin | exact Hrb].
    + apply IH in H as [H | [Hin Hrb]].
      * left. exact H.
      * right. split; [right; exact Hin | exact Hrb].
Qed.

Lemma oldest_bank_None_ready jjs bank :
  oldest_bank ready timestamp jjs ULLONG_MAX None = Some bank ->
  bank ∈ jjs /\ ready bank = true.
Proof.
  intros H. apply oldest_bank_ready in H as [H | H]; [discriminate | exact H].
Qed.

End oldest_bank.

Lemma cmd_ready_current st bank :
  cmd_ready st bank = true ->
  exists cur, m_current_list st bank = Some cur /\ m_state (drb st cur) = DRAM_CMD.
Proof.
  unfold cmd_ready. destruct (m_current_list st bank) as [cur |]; [| discriminate].
  intros H. apply bool_decide_eq_true in H. exists cur. split; [reflexivity | exact H].
Qed.

(** C1. When the command scheduler of a channel selects a bank (whose
    current entry is then in state CMD), it issues one of three
    sub-commands.  No open row: ACTIVATE, the open row becomes the row of
    the entry, the entry goes to CMD_WAIT, bank_ready is the current cycle
    plus the activate latency (GPU value for a GPU request, CPU value
    otherwise), data_avail is infinity.  Open row equal to the row of the
    entry: COLUMN, the entry goes to DATA, bank_ready is the current cycle
    plus the column latency and data_avail equals bank_ready.  Otherwise:
    PRECHARGE, the open row is cleared, the entry goes to CMD_WAIT,
    bank_ready is the current cycle plus the precharge latency, data_avail
    is infinity.  The sums are those of the 64-bit Counter type. *)
Theorem cmd_issue (k : knobs) (now : Z) (ii : nat) (st : dram_controller_c) (bank : nat) :
  oldest_bank (cmd_ready st) (m_bank_timestamp st) (channel_banks k ii) ULLONG_MAX None
    = Some bank ->
  exists cur st',
    m_current_list st bank = Some cur /\
    m_state (drb st cur) = DRAM_CMD /\
    channel_schedule_cmd_channel k now ii st = Ok st' /\
    m_current_list st' bank = Some cur /\
    let gpu_req := Req.m_ptx (mem st (req_of st cur)) in
    let open_row := m_current_rid st bank in
    let row_id := m_rid (drb st cur) in
    (open_row = -1 ->
       m_current_rid st' bank = row_id /\
       m_state (drb st' cur) = DRAM_CMD_WAIT /\
       m_bank_ready st' bank
         = wrap64 (now + (if gpu_req then m_activate_latency_gpu k
                          else m_activate_latency_cpu k)) /\
       m_data_avail st' bank = ULLONG_MAX) /\
    (open_row ≠ -1 -> open_row = row_id ->
       m_current_rid st' bank = open_row /\
       m_state (drb st' cur) = DRAM_DATA /\
       m_bank_ready st' bank
         = wrap64 (now + (if gpu_req then m_column_latency_gpu k
                          else m_column_latency_cpu k)) /\
       m_data_avail st' bank = m_bank_ready st' bank) /\
    (open_row ≠ -1 -> open_row ≠ row_id ->
       m_current_rid st' bank = -1 /\
       m_state (drb st' cur) = DRAM_CMD_WAIT /\
       m_bank_ready st' bank
         = wrap64 (now + (if gpu_req then m_precharge_latency_gpu k
                          else m_precharge_latency_cpu k)) /\
       m_data_avail st' bank = ULLONG_MAX).
Proof.
  intros Hsel.
  destruct (oldest_bank_None_ready _ _ _ _ Hsel) as [_ Hready].
  destruct (cmd_ready_current _ _ Hready) as (cur & Hcur & Hstate).
  exists cur. unfold channel_schedule_cmd_channel. rewrite Hsel.
  unfold current. rewrite Hcur. cbn.
  rewrite Hstate. cbn.
  unfold req_of. cbn. rewrite fn_lookup_insert. cbn.
  destruct (Z.eqb_spec (m_current_rid st bank) (-1)) as [Hnone | Hopen].
  - eexists. repeat split; try reflexivity; cbn; try congruence;
      intros; rewrite ?fn_lookup_insert; try reflexivity; congruence.
  - destruct (Z.eqb_spec (m_rid (drb st cur)) (m_current_rid st bank)) as [Hhit | Hmiss].
    + eexists. repeat split; try reflexivity; cbn; try congruence;
        intros; rewrite ?fn_lookup_insert; try reflexivity; congruence.
    + eexists. repeat split; try reflexivity; cbn; try congruence;
        intros; rewrite ?fn_lookup_insert; try reflexivity; congruence.
Qed.

(** ** The stable sort *)

Section list_sort_permutation.
Context {A : Type} (less : A -> A -> bool).

Lemma list_sort_cons x l : list_sort less (x :: l) = sort_insert less x (list_sort less l).
Proof. reflexivity. Qed.

Lemma sort_insert_Permutation x l : sort_insert less x l ≡ₚ x :: l.
Proof.
  induction l as [| y l IH]; cbn; [reflexivity |].
  destruct (less y x); [| reflexivity].
  rewrite IH. apply Permutation_swap.
Qed.

Lemma list_sort_Permutation l : list_sort less l ≡ₚ l.
Proof.
  induction l as [| x l IH]; [reflexivity |].
  rewrite list_sort_cons, sort_insert_Permutation. by rewrite IH.
Qed.

Lemma list_sort_elem_of x l : x ∈ list_sort less l <-> x ∈ l.
Proof. by rewrite list_sort_Permutation. Qed.

Lemma list_sort_nil l : list_sort less l = [] -> l = [].
Proof.
  intros H. apply Permutation_nil_r. rewrite <- H. symmetry. apply list_sort_Permutation.
Qed.

End list_sort_permutation.

(** The sort only consults the comparator on the elements of the list. *)
Lemma sort_insert_ext {A : Type} (less less' : A -> A -> bool) x l :
  (forall y, y ∈ l -> less y x = less' y x) ->
  sort_insert less x l = sort_insert less' x l.
Proof.
  induction l as [| y l IH]; intros H; cbn; [reflexivity |].
  rewrite <- (H y) by left.
  destruct (less y x); [| reflexivity].
  f_equal. apply IH. intros z Hz. apply H. by right.
Qed.

Lemma list_sort_ext {A : Type} (less less' : A -> A -> bool) l :
  (forall x y, x ∈ l -> y ∈ l -> less x y = less' x y) ->
  list_sort less l = list_sort less' l.
Proof.
  induction l as [| x l IH]; intros H; [reflexivity |].
  rewrite !list_sort_cons.
  rewrite IH; [| intros; apply H; right; assumption].
  apply sort_insert_ext. intros y Hy.
  apply H; [right | left].
  exact (proj1 (list_sort_elem_of less' y l) Hy).
Qed.

(** A comparator that orders by a key: the keys are linearly ordered by
    [lt], and [less] compares the keys. *)
Section list_sort_by_key.
Context {A K : Type} `{EqDecision K}.
Context (less : A -> A -> bool) (key : A -> K) (lt : K -> K -> Prop).
Hypothesis less_key : forall x y, less x y = true <-> lt (key x) (key y).
Hypothesis lt_irrefl : forall a, ¬ lt a a.
Hypothesis lt_trans : forall a b c, lt a b -> lt b c -> lt a c.
Hypothesis lt_connex : forall a b, lt a b \/ a = b \/ lt b a.

Lemma in_order_trans x y z : in_order key lt x y -> in_order key lt y z -> in_order key lt x z.
Proof.
  unfold in_order. intros Hxy Hyz Hzx.
  destruct (lt_connex (key x) (key y)) as [H | [H | H]].
  - apply Hyz. by apply lt_trans with (key x).
  - apply Hyz. by rewrite <- H.
  - by apply Hxy.
Qed.

Lemma sort_insert_sorted x l :
  StronglySorted (in_order key lt) l -> StronglySorted (in_order key lt) (sort_insert less x l).
Proof.
  induction l as [| y l IH]; intros Hs; cbn.
  - repeat constructor.
  - apply StronglySorted_cons in Hs as [Hy Hl].
    destruct (less y x) eqn:Hyx.
    + apply StronglySorted_cons. split; [| by apply IH].
      rewrite sort_insert_Permutation. constructor; [| exact Hy].
      apply less_key in Hyx. unfold in_order. intros Hxy.
      apply (lt_irrefl (key x)). by apply lt_trans with (key y).
    + apply StronglySorted_cons. split; [| by apply StronglySorted_cons].
      assert (Hxy : in_order key lt x y).
      { unfold in_order. intros H. apply less_key in H. congruence. }
      constructor; [exact Hxy |].
      eapply Forall_impl; [exact Hy |].
      intros z Hz. by apply in_order_trans with y.
Qed.

Lemma list_sort_sorted l : StronglySorted (in_order key lt) (list_sort less l).
Proof.
  induction l as [| x l IH]; [constructor |].
  rewrite list_sort_cons. by apply sort_insert_sorted.
Qed.

(** Stability: the elements of one key keep their order. *)
Lemma sort_insert_stable κ x l :
  filter (λ y, key y = κ) (sort_insert less x l) = filter (λ y, key y = κ) (x :: l).
Proof.
  induction l as [| y l IH]; cbn; [reflexivity |].
  destruct (less y x) eqn:Hyx; [| reflexivity].
  rewrite filter_cons, IH, !filter_cons.
  destruct (decide (key y = κ)) as [Hy | Hy]; [| reflexivity].
  destruct (decide (key x = κ)) as [Hx | Hx]; [| reflexivity].
  apply less_key in Hyx. rewrite Hy, Hx in Hyx. by apply lt_irrefl in Hyx.
Qed.

Lemma list_sort_stable κ l :
  filter (λ y, key y = κ) (list_sort less l) = filter (λ y, key y = κ) l.
Proof.
  induction l as [| x l IH]; [reflexivity |].
  rewrite list_sort_cons, sort_insert_stable, !filter_cons.
  by rewrite IH.
Qed.

(** The front of the sorted list: nothing in the list comes before it,
    and it is the first of its key in the list before the sort. *)
Lemma list_sort_head x l :
  head (list_sort less l) = Some x ->
  (forall y, y ∈ l -> in_order key lt x y) /\
  head (filter (λ y, key y = key x) l) = Some x.
Proof.
  intros Hhd. destruct (list_sort less l) as [| x' l'] eqn:Hs; [discriminate |].
  injection Hhd as ->. split.
  - intros y Hy. apply (proj2 (list_sort_elem_of less y l)) in Hy. rewrite Hs in Hy.
    pose proof (list_sort_sorted l) as Hsorted. rewrite Hs in Hsorted.
    apply StronglySorted_cons in Hsorted as [Hall _].
    apply elem_of_cons in Hy as [-> | Hy].
    + apply lt_irrefl.
    + rewrite Forall_forall in Hall. by apply Hall.
  - rewrite <- (list_sort_stable (key x) l), Hs.
    by rewrite filter_cons_True.
Qed.

End list_sort_by_key.

(** ** FR-FCFS *)

Lemma key_lt_irrefl a : ¬ key_lt a a.
Proof. unfold key_lt. lia. Qed.

Lemma key_lt_trans a b c : key_lt a b -> key_lt b c -> key_lt a c.
Proof. unfold key_lt. lia. Qed.

Lemma key_lt_connex a b : key_lt a b \/ a = b \/ key_lt b a.
Proof.
  destruct a as [[a1 a2] a3], b as [[b1 b2] b3]. unfold key_lt. cbn.
  destruct (Z.lt_total a1 b1) as [? | [-> | ?]]; [lia | | lia].
  destruct (Z.lt_total a2 b2) as [? | [-> | ?]]; [lia | | lia].
  destruct (Z.lt_total a3 b3) as [? | [-> | ?]]; [lia | | lia].
  right. left. reflexivity.
Qed.

Lemma outranks_key st open_row a b :
  outranks st open_row a b <-> key_lt (frfcfs_key st open_row a) (frfcfs_key st open_row b).
Proof.
  unfold outranks, key_lt, frfcfs_key. cbn.
  destruct (decide (type_of st a = MRT_DPRF)) as [Ha | Ha],
           (decide (type_of st b = MRT_DPRF)) as [Hb | Hb];
    rewrite ?(bool_decide_eq_true_2 _ Ha), ?(bool_decide_eq_false_2 _ Ha),
            ?(bool_decide_eq_true_2 _ Hb), ?(bool_decide_eq_false_2 _ Hb);
    destruct (Z.eqb_spec (m_rid (drb st a)) open_row) as [Hra | Hra],
             (Z.eqb_spec (m_rid (drb st b)) open_row) as [Hrb | Hrb];
    cbn; intuition (try congruence; try lia).
Qed.

(** The comparator of the code is the one of the specification, the open
    row being the one of the bank of its first argument. *)
Lemma sort_func_outranks st a b :
  sort_func st a b = true <->
  outranks st (m_current_rid st (Z.to_nat (m_bid (drb st a)))) a b.
Proof.
  unfold sort_func, outranks.
  set (open_row := m_current_rid st (Z.to_nat (m_bid (drb st a)))).
  destruct (decide (type_of st a = MRT_DPRF)) as [Ha | Ha],
           (decide (type_of st b = MRT_DPRF)) as [Hb | Hb];
    rewrite ?(bool_decide_eq_true_2 _ Ha), ?(bool_decide_eq_false_2 _ Ha),
            ?(bool_decide_eq_true_2 _ Hb), ?(bool_decide_eq_false_2 _ Hb);
    try (rewrite (bool_decide_eq_false_2 (type_of st a ≠ MRT_DPRF)) by tauto);
    try (rewrite (bool_decide_eq_true_2 (type_of st a ≠ MRT_DPRF)) by tauto);
    try (rewrite (bool_decide_eq_false_2 (type_of st b ≠ MRT_DPRF)) by tauto);
    try (rewrite (bool_decide_eq_true_2 (type_of st b ≠ MRT_DPRF)) by tauto);
    destruct (Z.eqb_spec (m_rid (drb st a)) open_row) as [Hra | Hra],
             (Z.eqb_spec (m_rid (drb st b)) open_row) as [Hrb | Hrb];
    cbn; rewrite ?Z.ltb_lt; intuition (try congruence; try lia).
Qed.

Lemma frfcfs_less_key st open_row a b :
  frfcfs_less st open_row a b = true <->
  key_lt (frfcfs_key st open_row a) (frfcfs_key st open_row b).
Proof. unfold frfcfs_less. apply bool_decide_eq_true. Qed.

Lemma sort_func_frfcfs_less st ii a b :
  m_bid (drb st a) = Z.of_nat ii ->
  sort_func st a b = frfcfs_less st (m_current_rid st ii) a b.
Proof.
  intros Hbid.
  pose proof (sort_func_outranks st a b) as H1.
  rewrite Hbid, Nat2Z.id, outranks_key, <- frfcfs_less_key in H1.
  destruct (sort_func st a b), (frfcfs_less st (m_current_rid st ii) a b);
    intuition congruence.
Qed.

(** Two entries have the same key exactly when neither outranks the other. *)
Lemma frfcfs_key_eq st open_row a b :
  frfcfs_key st open_row a = frfcfs_key st open_row b <->
  ¬ outranks st open_row a b /\ ¬ outranks st open_row b a.
Proof.
  rewrite !outranks_key.
  destruct (key_lt_connex (frfcfs_key st open_row a) (frfcfs_key st open_row b))
    as [H | [H | H]].
  - split; [intros E; rewrite E in H; by apply key_lt_irrefl in H | tauto].
  - split; [| done]. intros _. rewrite H. split; apply key_lt_irrefl.
  - split; [intros E; rewrite E in H; by apply key_lt_irrefl in H | tauto].
Qed.

Lemma StronglySorted_weaken {A : Type} (R R' : A -> A -> Prop) l :
  (forall x y, R x y -> R' x y) -> StronglySorted R l -> StronglySorted R' l.
Proof.
  intros HR. induction 1 as [| x l Hl IH Hx]; constructor; [exact IH |].
  eapply Forall_impl; [exact Hx | auto].
Qed.

(** What dc_frfcfs_c::schedule does to a buffer whose entries belong to
    bank [ii]. *)
Lemma frfcfs_sorted_buffer st ii :
  (forall e, e ∈ m_buffer st ii -> m_bid (drb st e) = Z.of_nat ii) ->
  list_sort (sort_func st) (m_buffer st ii)
  = list_sort (frfcfs_less st (m_current_rid st ii)) (m_buffer st ii).
Proof.
  intros Hbid. apply list_sort_ext. intros a b Ha _.
  apply sort_func_frfcfs_less. by apply Hbid.
Qed.

(** C5. FR-FCFS stable-sorts the pending list of a bank with the
    comparator: a request that is not a DPRF outranks a DPRF; otherwise a
    request whose row is the open row of the bank outranks one whose row
    is not; otherwise the smaller insert time stamp outranks; and schedule
    returns the front of the sorted list.  FCFS returns the front of the
    list as it is.  For a bank with open row R and a pending list of two
    requests of the same kind, the first to another row and the second to
    row R, FR-FCFS selects the second and FCFS the first.  The comparator
    looks up the open row of the bank whose number its first argument
    carries: the pending entries carry the number of their bank, as they do
    in every state of a run (reachable_tagged below). *)
Theorem frfcfs_schedule (k : knobs) (ii : nat) (st : dram_controller_c) :
  (forall e, e ∈ m_buffer st ii -> m_bid (drb st e) = Z.of_nat ii) ->
  let open_row := m_current_rid st ii in
  let pending := m_buffer st ii in
  (forall a b, a ∈ pending -> (sort_func st a b = true <-> outranks st open_row a b)) /\
  (scheduler k = frfcfs_controller -> pending ≠ [] ->
   exists entry st',
     schedule k ii st = Ok (entry, st') /\
     st' = set_m_buffer (<[ii := m_buffer st' ii]> (m_buffer st)) st /\
     head (m_buffer st' ii) = Some entry /\
     m_buffer st' ii ≡ₚ pending /\
     StronglySorted (λ a b, ¬ outranks st open_row b a) (m_buffer st' ii) /\
     (forall e,
        filter (λ x, ¬ outranks st open_row x e /\ ¬ outranks st open_row e x)
               (m_buffer st' ii)
        = filter (λ x, ¬ outranks st open_row x e /\ ¬ outranks st open_row e x) pending)) /\
  (scheduler k = fcfs_controller ->
   forall e l, pending = e :: l -> schedule k ii st = Ok (e, st)) /\
  (forall e1 e2,
     pending = [e1; e2] ->
     (type_of st e1 = MRT_DPRF <-> type_of st e2 = MRT_DPRF) ->
     m_rid (drb st e1) ≠ open_row ->
     m_rid (drb st e2) = open_row ->
     (scheduler k = frfcfs_controller -> exists st', schedule k ii st = Ok (e2, st')) /\
     (scheduler k = fcfs_controller -> schedule k ii st = Ok (e1, st))).
Proof.
  intros Hbid open_row pending.
  assert (Hfcfs : scheduler k = fcfs_controller ->
                  forall e l, pending = e :: l -> schedule k ii st = Ok (e, st)).
  { intros Hk e l Hl. unfold schedule. rewrite Hk. fold pending. rewrite Hl. reflexivity. }
  assert (Hcmp : forall a b, a ∈ pending ->
                   (sort_func st a b = true <-> outranks st open_row a b)).
  { intros a b Ha. rewrite sort_func_outranks, (Hbid a Ha), Nat2Z.id. reflexivity. }
  assert (Hrun : scheduler k = frfcfs_controller ->
                 forall entry l, list_sort (sort_func st) pending = entry :: l ->
                 schedule k ii st
                 = Ok (entry,
                       set_m_buffer (<[ii := list_sort (sort_func st) pending]> (m_buffer st)) st)).
  { intros Hk entry l Hl. unfold schedule. rewrite Hk. cbn.
    rewrite fn_lookup_insert. fold pending. rewrite Hl. reflexivity. }
  split; [exact Hcmp |]. split; [| split; [exact Hfcfs |]].
  - intros Hk Hne.
    destruct (list_sort (sort_func st) pending) as [| entry l] eqn:Hsort.
    { apply list_sort_nil in Hsort. contradiction. }
    exists entry. eexists. split; [exact (Hrun Hk entry l eq_refl) |].
    cbn. rewrite fn_lookup_insert. rewrite <- Hsort.
    split; [reflexivity |]. split; [by rewrite Hsort |].
    split; [apply list_sort_Permutation |].
    unfold pending. rewrite (frfcfs_sorted_buffer st ii Hbid). fold open_row. split.
    + eapply StronglySorted_weaken;
        [| apply (list_sort_sorted (frfcfs_less st open_row) (frfcfs_key st open_row) key_lt)].
      * intros x y Hxy. unfold in_order in Hxy. by rewrite outranks_key.
      * apply frfcfs_less_key.
      * apply key_lt_irrefl.
      * apply key_lt_trans.
      * apply key_lt_connex.
    + intros e.
      set (same_key := λ x, frfcfs_key st open_row x = frfcfs_key st open_row e).
      trans (filter same_key (list_sort (frfcfs_less st open_row) (m_buffer st ii))).
      { apply list_filter_iff. intros x. symmetry. apply frfcfs_key_eq. }
      trans (filter same_key (m_buffer st ii)).
      { apply (list_sort_stable (frfcfs_less st open_row) (frfcfs_key st open_row) key_lt).
        - apply frfcfs_less_key.
        - apply key_lt_irrefl. }
      apply list_filter_iff. intros x. apply frfcfs_key_eq.
  - intros e1 e2 Hl Htype Hmiss Hhit. split; [| intros Hk; by apply (Hfcfs Hk e1 [e2])].
    intros Hk.
    assert (H21 : sort_func st e2 e1 = true).
    { apply Hcmp; [rewrite Hl; right; left |].
      right. split; [tauto |]. left. split; assumption. }
    eexists. apply (Hrun Hk e2 [e1]). rewrite Hl. cbn. rewrite H21. reflexivity.
Qed.

Lemma frfcfs_schedule_witness :
  (forall e, e ∈ m_buffer Example.two_rows 0%nat ->
             m_bid (drb Example.two_rows e) = Z.of_nat 0) /\
  (exists st', schedule Example.k_frfcfs 0 Example.two_rows = Ok (2%nat, st')) /\
  schedule Example.k 0 Example.two_rows = Ok (1%nat, Example.two_rows).
Proof.
  assert (Hpending : m_buffer Example.two_rows 0%nat = [1; 2]%nat)
    by (vm_compute; reflexivity).
  assert (Hbid : forall e, e ∈ m_buffer Example.two_rows 0%nat ->
                           m_bid (drb Example.two_rows e) = Z.of_nat 0).
  { intros e He. rewrite Hpending in He.
    apply elem_of_cons in He as [-> | He]; [vm_compute; reflexivity |].
    apply list_elem_of_singleton in He as ->. vm_compute. reflexivity. }
  split; [exact Hbid |].
  destruct (frfcfs_schedule Example.k_frfcfs 0 Example.two_rows Hbid) as (_ & _ & _ & Hfr).
  destruct (frfcfs_schedule Example.k 0 Example.two_rows Hbid) as (_ & _ & _ & Hfc).
  split.
  - apply (Hfr 1%nat 2%nat Hpending); [| vm_compute; discriminate | reflexivity | reflexivity].
    split; intros H; vm_compute in H; discriminate.
  - apply (Hfc 1%nat 2%nat Hpending); [| vm_compute; discriminate | reflexivity | reflexivity].
    split; intros H; vm_compute in H; discriminate.
Defined.

Lemma cmd_issue_witness :
  oldest_bank (cmd_ready Example.selected) (m_bank_timestamp Example.selected)
              (channel_banks Example.k 0) ULLONG_MAX None = Some 0%nat /\
  exists st',
    channel_schedule_cmd_channel Example.k 1 0 Example.selected = Ok st' /\
    m_current_rid st' 0%nat = 1 /\
    m_state (drb st' 0%nat) = DRAM_CMD_WAIT /\
    m_bank_ready st' 0%nat = 11 /\
    m_data_avail st' 0%nat = ULLONG_MAX.
Proof.
  split; [vm_compute; reflexivity |].
  destruct (cmd_issue Example.k 1 0 Example.selected 0 ltac:(vm_compute; reflexivity))
    as (cur & st' & Hcur & _ & Hrun & _ & Hactivate & _).
  assert (cur = 0%nat) as -> by (vm_compute in Hcur; congruence).
  exists st'. split; [exact Hrun |].
  exact (Hactivate ltac:(vm_compute; reflexivity)).
Defined.

(** ** Loops and outcomes *)

Lemma bind_Ok {A B : Type} (m : result A) (f : A -> result B) b :
  m ≫= f = Ok b <-> exists a, m = Ok a /\ f a = Ok b.
Proof.
  destruct m as [a | e]; cbn.
  - split; [intros H; exists a; by split | intros (a' & [= <-] & H); exact H].
  - split; [discriminate | intros (a' & [=] & _)].
Qed.

Lemma ASSERT_Ok line c : ASSERT line c = Ok tt <-> c = true.
Proof. destruct c; cbn; split; congruence. Qed.

(** A property kept by every turn of a loop is kept by the loop. *)
Lemma for_each_invariant (P : dram_controller_c -> Prop) l body : forall st st',
  (forall ii s s', ii ∈ l -> P s -> body ii s = Ok s' -> P s') ->
  P st -> for_each l body st = Ok st' -> P st'.
Proof.
  induction l as [| ii l IH]; intros st st' Hbody HP Hrun; cbn in Hrun.
  - by injection Hrun as <-.
  - apply bind_Ok in Hrun as (s1 & H1 & Hrest).
    apply (IH s1 st'); [| | exact Hrest].
    + intros jj s s' Hjj. apply Hbody. by right.
    + apply (Hbody ii st s1); [left | exact HP | exact H1].
Qed.

(** A loop whose turns all succeed succeeds. *)
Lemma for_each_total l body :
  (forall ii s, exists s', body ii s = Ok s') ->
  forall st, exists st', for_each l body st = Ok st'.
Proof.
  intros Hbody. induction l as [| ii l IH]; intros st; cbn.
  - by exists st.
  - destruct (Hbody ii st) as [s1 ->]. cbn. apply IH.
Qed.

(** ** Time stamps of the banks *)

Lemma channel_schedule_cmd_channel_total k now ii st :
  exists st', channel_schedule_cmd_channel k now ii st = Ok st'.
Proof.
  unfold channel_schedule_cmd_channel.
  destruct (oldest_bank _ _ _ _ _) as [bank |] eqn:Hsel; [| by eexists].
  destruct (oldest_bank_None_ready _ _ _ _ Hsel) as [_ Hready].
  destruct (cmd_ready_current _ _ Hready) as (cur & Hcur & Hstate).
  unfold current. rewrite Hcur. cbn. rewrite Hstate. cbn.
  repeat match goal with |- context [if ?c then _ else _] => destruct c end;
    by eexists.
Qed.

Lemma channel_schedule_cmd_channel_timestamp k now ii st st' :
  channel_schedule_cmd_channel k now ii st = Ok st' ->
  m_bank_timestamp st' = m_bank_timestamp st.
Proof.
  unfold channel_schedule_cmd_channel.
  destruct (oldest_bank _ _ _ _ _) as [bank |]; [| by intros [= <-]].
  unfold current. destruct (m_current_list st bank) as [cur |]; [| discriminate].
  cbn. destruct (bool_decide _); [| discriminate]. cbn.
  repeat match goal with |- context [if ?c then _ else _] => destruct c end;
    by intros [= <-].
Qed.

Lemma schedule_Ok k ii st :
  m_buffer st ii ≠ [] ->
  exists entry,
    schedule k ii st
    = Ok (entry,
          match scheduler k with
          | fcfs_controller => st
          | frfcfs_controller =>
            set_m_buffer (<[ii := list_sort (sort_func st) (m_buffer st ii)]> (m_buffer st)) st
          end) /\
    entry ∈ m_buffer st ii.
Proof.
  intros Hne. unfold schedule. destruct (scheduler k).
  - destruct (m_buffer st ii) as [| entry l] eqn:Hl; [done |].
    exists entry. split; [reflexivity | left].
  - cbn. rewrite fn_lookup_insert.
    destruct (list_sort (sort_func st) (m_buffer st ii)) as [| entry l] eqn:Hl.
    { by apply list_sort_nil in Hl. }
    exists entry. split; [reflexivity |].
    apply (list_sort_elem_of (sort_func st)). rewrite Hl. left.
Qed.

Lemma bank_schedule_new_bank_spec k now ii st :
  exists st',
    bank_schedule_new_bank k now ii st = Ok st' /\
    (enters_cmd now st ii ->
       m_bank_timestamp st' ii = now /\
       exists cur, m_current_list st' ii = Some cur /\ m_state (drb st' cur) = DRAM_CMD) /\
    (¬ enters_cmd now st ii -> st' = st) /\
    (forall jj, jj ≠ ii -> m_bank_timestamp st' jj = m_bank_timestamp st jj).
Proof.
  unfold bank_schedule_new_bank, enters_cmd.
  destruct (m_current_list st ii) as [cur |] eqn:Hcur.
  - rewrite andb_false_r.
    destruct (Z.leb_spec (m_bank_ready st ii) now) as [Hready | Hbusy]; cbn.
    + destruct (decide (m_state (drb st cur) = DRAM_CMD_WAIT)) as [Hwait | Hother].
      * rewrite (bool_decide_eq_true_2 _ Hwait). cbn.
        eexists. split; [reflexivity |]. cbn. split; [| split].
        -- intros _. rewrite !fn_lookup_insert. split; [reflexivity |].
           exists cur. split; [exact Hcur | by rewrite fn_lookup_insert].
        -- tauto.
        -- intros jj Hjj. by rewrite fn_lookup_insert_ne.
      * rewrite (bool_decide_eq_false_2 _ Hother).
        exists st. repeat split; tauto.
    + exists st. repeat split; try tauto; try lia.
  - destruct (m_buffer st ii) as [| e l] eqn:Hbuf.
    + exists st. cbn. repeat split; tauto.
    + cbn. destruct (schedule_Ok k ii st) as (entry & -> & _); [by rewrite Hbuf |].
      cbn. eexists. split; [reflexivity |]. split; [| split].
      * intros _. cbn. rewrite !fn_lookup_insert. split; [reflexivity |].
        exists entry. split; [reflexivity |].
        destruct (scheduler k); cbn; by rewrite !fn_lookup_insert.
      * intros H. by destruct H.
      * intros jj Hjj. destruct (scheduler k); cbn; by rewrite fn_lookup_insert_ne.
Qed.

(** C9, as the code has it.  No sub-command touches the time stamps:
    channel_schedule_cmd leaves m_bank_timestamp of every bank as it is.
    The time stamp of a bank is set to the current cycle by
    bank_schedule_new, when the current entry of the bank enters state CMD
    (a new request is selected, or the entry leaves CMD_WAIT once bank_ready
    has passed); in every other case bank_schedule_new changes nothing for
    the bank. *)
Theorem bank_timestamp_set (k : knobs) (now : Z) :
  (forall st, exists st',
      channel_schedule_cmd k now st = Ok st' /\
      m_bank_timestamp st' = m_bank_timestamp st) /\
  (forall ii st, exists st',
      bank_schedule_new_bank k now ii st = Ok st' /\
      (enters_cmd now st ii ->
         m_bank_timestamp st' ii = now /\
         exists cur, m_current_list st' ii = Some cur /\ m_state (drb st' cur) = DRAM_CMD) /\
      (¬ enters_cmd now st ii -> st' = st) /\
      (forall jj, jj ≠ ii -> m_bank_timestamp st' jj = m_bank_timestamp st jj)).
Proof.
  split.
  - intros st. unfold channel_schedule_cmd.
    destruct (for_each_total (upto (m_num_channel k)) (channel_schedule_cmd_channel k now)
                (channel_schedule_cmd_channel_total k now) st) as [st' Hrun].
    exists st'. split; [exact Hrun |].
    eapply (for_each_invariant (λ s, m_bank_timestamp s = m_bank_timestamp st));
      [| reflexivity | exact Hrun].
    intros ii s s' _ Hs Hbody. cbn in *.
    by rewrite (channel_schedule_cmd_channel_timestamp _ _ _ _ _ Hbody).
  - intros ii st. apply bank_schedule_new_bank_spec.
Qed.

Lemma bank_timestamp_set_witness :
  enters_cmd 0 (Example.state_of (Example.inserts Example.k 0 [1%nat] Example.fresh)) 0 /\
  exists st',
    bank_schedule_new_bank Example.k 0 0
      (Example.state_of (Example.inserts Example.k 0 [1%nat] Example.fresh)) = Ok st' /\
    m_bank_timestamp st' 0%nat = 0.
Proof.
  assert (H : enters_cmd 0
                (Example.state_of (Example.inserts Example.k 0 [1%nat] Example.fresh)) 0)
    by (vm_compute; discriminate).
  split; [exact H |].
  destruct (bank_timestamp_set Example.k 0) as [_ Hnew].
  destruct (Hnew 0%nat (Example.state_of (Example.inserts Example.k 0 [1%nat] Example.fresh)))
    as (st' & Hrun & Henter & _).
  exists st'. split; [exact Hrun | exact (proj1 (Henter H))].
Defined.

(** C9 as stated fails: at cycle 1 the scheduler issues the ACTIVATE of
    bank 0, whose request was selected at cycle 0, and the time stamp of
    the bank is still 0. *)
Lemma issue_keeps_timestamp_counterexample :
  exists st',
    channel_schedule_cmd Example.k 1 Example.selected = Ok st' /\
    oldest_bank (cmd_ready Example.selected) (m_bank_timestamp Example.selected)
                (channel_banks Example.k 0) ULLONG_MAX None = Some 0%nat /\
    m_current_list st' 0%nat = Some 0%nat /\
    m_state (drb Example.selected 0%nat) = DRAM_CMD /\
    m_state (drb st' 0%nat) = DRAM_CMD_WAIT /\
    m_current_rid st' 0%nat = 1 /\
    m_bank_timestamp st' 0%nat = 0 /\
    m_bank_timestamp st' 0%nat ≠ 1.
Proof.
  exists (Example.state_of (channel_schedule_cmd Example.k 1 Example.selected)).
  repeat split; try (vm_compute; reflexivity). vm_compute. discriminate.
Qed.

(** ** The watchdog *)

Lemma fold_left_preserves {A : Type} (P : dram_controller_c -> Prop)
    (f : dram_controller_c -> A -> dram_controller_c) l :
  (forall s a, P s -> P (f s a)) -> forall st, P st -> P (fold_left f l st).
Proof.
  intros Hf. induction l as [| a l IH]; intros st HP; cbn; [exact HP |].
  apply IH. by apply Hf.
Qed.

(** Case analysis on an operation that returned [Ok]. *)
Ltac ok_cases :=
  repeat match goal with
  | H : Ok _ = Ok _ |- _ => injection H as H
  | H : Fatal _ = Ok _ |- _ => discriminate H
  | H : _ ≫= _ = Ok _ |- _ => apply bind_Ok in H as (? & ? & H)
  | H : (let '(_, _) := ?x in _) = Ok _ |- _ => destruct x eqn:?
  | H : (match ?x with _ => _ end) = Ok _ |- _ => destruct x eqn:?
  | H : (if ?c then _ else _) = Ok _ |- _ => destruct c eqn:?
  end.

Section starvation_frame.
Context (k : knobs) (now : Z).

Lemma flush_prefetch_starvation bid st :
  m_starvation_cycle (flush_prefetch bid st) = m_starvation_cycle st.
Proof.
  unfold flush_prefetch.
  by apply (fold_left_preserves (λ s, m_starvation_cycle s = m_starvation_cycle st)).
Qed.

Lemma insert_new_req_starvation mem_req st ok st' :
  insert_new_req k now mem_req st = Ok (ok, st') ->
  m_starvation_cycle st' = m_starvation_cycle st.
Proof.
  unfold insert_new_req, insert_req_in_drb, drb_entry_s_set. intros H.
  destruct (address_parsing _ _) as [[[bid_xor cid] bid] rid].
  apply bind_Ok in H as (_ & _ & H).
  set (b := Z.to_nat (interleave k bid bid_xor)) in *.
  set (st1 := match m_buffer_free_list st b with
              | [] => flush_prefetch b st
              | _ :: _ => st
              end) in *.
  assert (E1 : m_starvation_cycle st1 = m_starvation_cycle st).
  { subst st1. destruct (m_buffer_free_list st b); [apply flush_prefetch_starvation | done]. }
  clearbody st1.
  ok_cases; simplify_eq; cbn; exact E1.
Qed.

Lemma send_packet_starvation noc e st ok st' :
  send_packet k noc e st = Ok (ok, st') ->
  m_starvation_cycle st' = m_starvation_cycle st.
Proof.
  unfold send_packet. intros H. ok_cases; simplify_eq; reflexivity.
Qed.

Lemma merge_scan_starvation noc cur l : forall temp_list stop st temp_list' stop' st',
  merge_scan k now noc cur l temp_list stop st = Ok (temp_list', stop', st') ->
  m_starvation_cycle st' = m_starvation_cycle st.
Proof.
  induction l as [| it l IH]; intros temp_list stop st temp_list' stop' st' H; cbn in H.
  - by simplify_eq.
  - destruct (m_addr (drb st it) =? m_addr (drb st cur)); [| by apply IH in H].
    destruct (decide (type_of st it = MRT_WB)); [by apply IH in H |].
    apply bind_Ok in H as ([ok s1] & Hsend & H).
    apply send_packet_starvation in Hsend.
    destruct ok; apply IH in H; cbn in H; congruence.
Qed.

Lemma merge_release_starvation ii temp_list st :
  m_starvation_cycle (merge_release ii temp_list st) = m_starvation_cycle st.
Proof.
  unfold merge_release.
  by apply (fold_left_preserves (λ s, m_starvation_cycle s = m_starvation_cycle st)).
Qed.

Lemma bank_schedule_complete_bank_starvation noc ii st st' :
  bank_schedule_complete_bank k now noc ii st = Ok st' ->
  m_starvation_cycle st' = m_starvation_cycle st.
Proof.
  unfold bank_schedule_complete_bank. intros H.
  destruct (m_current_list st ii) as [cur |]; [| by simplify_eq].
  destruct (m_data_ready st ii <=? now); [| by simplify_eq].
  apply bind_Ok in H as (_ & _ & H).
  apply bind_Ok in H as ([stop s1] & Hmerge & H).
  assert (Hs1 : m_starvation_cycle s1 = m_starvation_cycle st).
  { destruct (KNOB_DRAM_MERGE_REQUESTS k); [| by simplify_eq].
    apply bind_Ok in Hmerge as ([[temp_list stop'] s0] & Hscan & Hrel).
    apply merge_scan_starvation in Hscan. simplify_eq.
    by rewrite merge_release_starvation. }
  destruct stop; [by simplify_eq |].
  destruct (decide (type_of s1 cur = MRT_WB)); [by simplify_eq |].
  apply bind_Ok in H as ([ok s2] & Hsend & H).
  apply send_packet_starvation in Hsend.
  destruct ok; simplify_eq; cbn; congruence.
Qed.

Lemma bank_schedule_new_bank_starvation ii st st' :
  bank_schedule_new_bank k now ii st = Ok st' ->
  m_starvation_cycle st' = m_starvation_cycle st.
Proof.
  unfold bank_schedule_new_bank, schedule. intros H.
  ok_cases; simplify_eq; reflexivity.
Qed.

Lemma channel_schedule_cmd_channel_starvation ii st st' :
  channel_schedule_cmd_channel k now ii st = Ok st' ->
  m_starvation_cycle st' = m_starvation_cycle st.
Proof.
  unfold channel_schedule_cmd_channel, current. intros H.
  ok_cases; simplify_eq; reflexivity.
Qed.

Lemma data_bus_loop_starvation ii fuel : forall st st',
  data_bus_loop k now ii fuel st = Ok st' ->
  m_starvation_cycle st' = m_starvation_cycle st.
Proof.
  induction fuel as [| fuel IH]; intros st st' H; cbn in H; [by simplify_eq |].
  destruct (avail_data_bus now ii st); [| by simplify_eq].
  destruct (oldest_bank _ _ _ _ _) as [bank |]; [| by simplify_eq].
  apply bind_Ok in H as (cur & _ & H).
  apply bind_Ok in H as (_ & _ & H).
  unfold acquire_data_bus in H.
  destruct (_ <? _) in H; cbn in H; apply IH in H; exact H.
Qed.

Lemma run_a_cycle_progress_check noc st :
  run_a_cycle k now noc st = before_progress_check k now noc st ≫= progress_check k now.
Proof.
  unfold run_a_cycle, before_progress_check.
  destruct (channel_schedule k now st) as [s1 |]; [cbn | reflexivity].
  destruct (bank_schedule k now noc s1) as [s2 |]; reflexivity.
Qed.

Lemma for_each_starvation l body st st' :
  (forall ii s s', body ii s = Ok s' -> m_starvation_cycle s' = m_starvation_cycle s) ->
  for_each l body st = Ok st' ->
  m_starvation_cycle st' = m_starvation_cycle st.
Proof.
  intros Hbody Hrun.
  eapply (for_each_invariant (λ s, m_starvation_cycle s = m_starvation_cycle st));
    [| reflexivity | exact Hrun].
  intros ii s s' _ Hs Hb. cbv beta in *. by rewrite (Hbody ii s s' Hb).
Qed.

Lemma channel_schedule_starvation st st' :
  channel_schedule k now st = Ok st' ->
  m_starvation_cycle st' = m_starvation_cycle st.
Proof.
  unfold channel_schedule, channel_schedule_cmd, channel_schedule_data. intros H.
  apply bind_Ok in H as (s1 & H1 & H2).
  apply for_each_starvation in H1; [| apply channel_schedule_cmd_channel_starvation].
  apply for_each_starvation in H2; [congruence |].
  intros ii s s'. apply data_bus_loop_starvation.
Qed.

Lemma bank_schedule_starvation noc st st' :
  bank_schedule k now noc st = Ok st' ->
  m_starvation_cycle st' = m_starvation_cycle st.
Proof.
  unfold bank_schedule, bank_schedule_complete, bank_schedule_new. intros H.
  apply bind_Ok in H as (s1 & H1 & H2).
  apply for_each_starvation in H1;
    [| intros ii s s'; apply bank_schedule_complete_bank_starvation].
  apply for_each_starvation in H2; [| apply bank_schedule_new_bank_starvation].
  cbn in H1. congruence.
Qed.

Lemma receive_packet_starvation st st' :
  receive_packet k now st = Ok st' ->
  m_starvation_cycle st' = m_starvation_cycle st.
Proof.
  unfold receive_packet. intros H.
  destruct (IRIS k); [| by simplify_eq].
  destruct (receive_queue st) as [| req rest]; [by simplify_eq |].
  apply bind_Ok in H as ([ok s1] & Hins & H).
  apply insert_new_req_starvation in Hins.
  destruct ok; simplify_eq; cbn; congruence.
Qed.

Lemma before_progress_check_starvation noc st st' :
  before_progress_check k now noc st = Ok st' ->
  m_starvation_cycle st' = m_starvation_cycle st.
Proof.
  unfold before_progress_check. intros H.
  apply bind_Ok in H as (s1 & H1 & H). apply bind_Ok in H as (s2 & H2 & H3).
  apply channel_schedule_starvation in H1.
  apply bank_schedule_starvation in H2.
  apply receive_packet_starvation in H3. congruence.
Qed.

End starvation_frame.

Section completed_frame.
Context (k : knobs) (now : Z).

Lemma flush_prefetch_completed bid st :
  m_num_completed_in_last_cycle (flush_prefetch bid st) = m_num_completed_in_last_cycle st.
Proof.
  unfold flush_prefetch.
  by apply (fold_left_preserves
              (λ s, m_num_completed_in_last_cycle s = m_num_completed_in_last_cycle st)).
Qed.

Lemma insert_new_req_completed mem_req st ok st' :
  insert_new_req k now mem_req st = Ok (ok, st') ->
  m_num_completed_in_last_cycle st' = m_num_completed_in_last_cycle st.
Proof.
  unfold insert_new_req, insert_req_in_drb, drb_entry_s_set. intros H.
  destruct (address_parsing _ _) as [[[bid_xor cid] bid] rid].
  apply bind_Ok in H as (_ & _ & H).
  set (b := Z.to_nat (interleave k bid bid_xor)) in *.
  set (st1 := match m_buffer_free_list st b with
              | [] => flush_prefetch b st
              | _ :: _ => st
              end) in *.
  assert (E1 : m_num_completed_in_last_cycle st1 = m_num_completed_in_last_cycle st).
  { subst st1. destruct (m_buffer_free_list st b); [apply flush_prefetch_completed | done]. }
  clearbody st1.
  ok_cases; simplify_eq; cbn; exact E1.
Qed.

Lemma receive_packet_completed st st' :
  receive_packet k now st = Ok st' ->
  m_num_completed_in_last_cycle st' = m_num_completed_in_last_cycle st.
Proof.
  unfold receive_packet. intros H.
  destruct (IRIS k); [| by simplify_eq].
  destruct (receive_queue st) as [| req rest]; [by simplify_eq |].
  apply bind_Ok in H as ([ok s1] & Hins & H).
  apply insert_new_req_completed in Hins.
  destruct ok; simplify_eq; cbn; congruence.
Qed.

Lemma bank_schedule_new_completed st st' :
  bank_schedule_new k now st = Ok st' ->
  m_num_completed_in_last_cycle st' = m_num_completed_in_last_cycle st.
Proof.
  unfold bank_schedule_new. intros Hrun.
  eapply (for_each_invariant
            (λ s, m_num_completed_in_last_cycle s = m_num_completed_in_last_cycle st));
    [| reflexivity | exact Hrun].
  intros ii s s' _ Hs Hb. cbv beta in *. rewrite <- Hs. clear Hs Hrun.
  unfold bank_schedule_new_bank, schedule in Hb.
  ok_cases; simplify_eq; reflexivity.
Qed.

Lemma completed_flag_grow s0 s s' :
  completed_flag s0 s ->
  0 < m_num_completed_in_last_cycle s' ->
  (completions s < completions s')%nat ->
  completed_flag s0 s'.
Proof.
  intros [(_ & Hf & Hs) | [_ Hlt]] Hpos Hgrow; right; (split; [exact Hpos |]).
  - unfold completions in *. rewrite <- Hf, <- Hs. exact Hgrow.
  - lia.
Qed.

Lemma completed_flag_same s0 s s' :
  completed_flag s0 s ->
  m_num_completed_in_last_cycle s' = m_num_completed_in_last_cycle s ->
  freed s' = freed s -> sent s' = sent s ->
  completed_flag s0 s'.
Proof.
  unfold completed_flag, completions. intros H -> -> ->. exact H.
Qed.

Lemma send_packet_logs noc e st ok st' :
  send_packet k noc e st = Ok (ok, st') ->
  m_num_completed_in_last_cycle st' = m_num_completed_in_last_cycle st /\
  freed st' = freed st /\
  sent st' = (if ok then sent st ++ [req_of st e] else sent st) /\
  drb st' = drb st /\
  forall r, Req.m_type (mem st' r) = Req.m_type (mem st r).
Proof.
  unfold send_packet. intros H.
  assert (Htype : forall r f,
            Req.m_type (mem (upd_mem (req_of st e) (Req.set_msg NOC_FILL f.1 f.2) st) r)
            = Req.m_type (mem st r)).
  { intros r f. cbn. destruct (decide (req_of st e = r)) as [<- | Hne].
    - by rewrite fn_lookup_insert.
    - by rewrite fn_lookup_insert_ne. }
  apply bind_Ok in H as (_ & _ & H).
  destruct (noc (req_of st e)); simplify_eq; cbn; repeat split; try reflexivity;
    intros r; apply (Htype r (_, _)).
Qed.

Lemma merge_scan_completed noc cur s0 l : 0 < now ->
  forall temp_list stop st temp_list' stop' st',
  merge_scan k now noc cur l temp_list stop st = Ok (temp_list', stop', st') ->
  completed_flag s0 st -> completed_flag s0 st'.
Proof.
  intros Hnow.
  induction l as [| it l IH]; intros temp_list stop st temp_list' stop' st' H HQ; cbn in H.
  - by simplify_eq.
  - destruct (m_addr (drb st it) =? m_addr (drb st cur)); [| by apply IH in H].
    destruct (decide (type_of st it = MRT_WB)).
    + apply IH in H; [exact H |].
      apply (completed_flag_grow s0 st); [exact HQ | exact Hnow |].
      unfold completions. cbn. rewrite length_app. cbn. lia.
    + apply bind_Ok in H as ([ok s1] & Hsend & H).
      apply send_packet_logs in Hsend as (Hn & Hf & Hs & _).
      destruct ok; apply IH in H; try exact H.
      * apply (completed_flag_grow s0 st); [exact HQ | exact Hnow |].
        unfold completions. cbn. rewrite Hf, Hs, length_app. cbn. lia.
      * by apply (completed_flag_same s0 st).
Qed.

Lemma merge_release_logs ii temp_list st :
  m_num_completed_in_last_cycle (merge_release ii temp_list st)
  = m_num_completed_in_last_cycle st /\
  freed (merge_release ii temp_list st) = freed st /\
  sent (merge_release ii temp_list st) = sent st.
Proof.
  unfold merge_release.
  by apply (fold_left_preserves
              (λ s, m_num_completed_in_last_cycle s = m_num_completed_in_last_cycle st /\
                    freed s = freed st /\ sent s = sent st)).
Qed.

Lemma bank_schedule_complete_bank_completed noc s0 ii st st' : 0 < now ->
  bank_schedule_complete_bank k now noc ii st = Ok st' ->
  completed_flag s0 st -> completed_flag s0 st'.
Proof.
  intros Hnow H HQ. unfold bank_schedule_complete_bank in H.
  destruct (m_current_list st ii) as [cur |]; [| by simplify_eq].
  destruct (m_data_ready st ii <=? now); [| by simplify_eq].
  apply bind_Ok in H as (_ & _ & H).
  apply bind_Ok in H as ([stop s1] & Hmerge & H).
  assert (HQ1 : completed_flag s0 s1).
  { destruct (KNOB_DRAM_MERGE_REQUESTS k); [| by simplify_eq].
    apply bind_Ok in Hmerge as ([[temp_list stop'] s2] & Hscan & Hrel).
    apply (merge_scan_completed noc cur s0 _ Hnow) in Hscan; [| exact HQ].
    simplify_eq.
    destruct (merge_release_logs ii temp_list s2) as (Hn & Hf & Hs).
    by apply (completed_flag_same s0 s2). }
  assert (Hpos : forall s, completed_flag s0 s -> 0 < m_num_completed_in_last_cycle s + 1).
  { intros s [(-> & _) | [Hp _]]; lia. }
  destruct stop; [by simplify_eq |].
  destruct (decide (type_of s1 cur = MRT_WB)).
  - simplify_eq. apply (completed_flag_grow s0 s1); [exact HQ1 | cbn; by apply Hpos |].
    unfold completions. cbn. rewrite length_app. cbn. lia.
  - apply bind_Ok in H as ([ok s2] & Hsend & H).
    apply send_packet_logs in Hsend as (Hn & Hf & Hs & _).
    destruct ok; simplify_eq.
    + apply (completed_flag_grow s0 s1); [exact HQ1 | cbn; rewrite Hn; by apply Hpos |].
      unfold completions. cbn. rewrite Hf, Hs, length_app. cbn. lia.
    + by apply (completed_flag_same s0 s1).
Qed.

(** After the completion pass, at a cycle after 0, the counter is 0
    exactly when the pass completed nothing. *)
Lemma bank_schedule_complete_completed noc st st' : 0 < now ->
  bank_schedule_complete k now noc st = Ok st' ->
  (m_num_completed_in_last_cycle st' = 0 <-> freed st' = freed st /\ sent st' = sent st).
Proof.
  intros Hnow Hrun. unfold bank_schedule_complete in Hrun.
  assert (HQ : completed_flag st st').
  { eapply (for_each_invariant (completed_flag st)); [| | exact Hrun].
    - intros ii s s' _ Hs Hb. by apply (bank_schedule_complete_bank_completed noc st ii s s').
    - left. cbn. done. }
  destruct HQ as [(Hn & Hf & Hs) | [Hp Hlt]].
  - tauto.
  - split; [lia |]. intros [Hf Hs]. unfold completions in Hlt. rewrite Hf, Hs in Hlt. lia.
Qed.

End completed_frame.

Lemma progress_check_spec k now st :
  let count := if decide (0 < m_total_req st /\ m_num_completed_in_last_cycle st = 0)
               then m_starvation_cycle st + 1 else 0 in
  progress_check k now st
  = if decide (count < 5000)
    then Ok (set_m_starvation_cycle count st)
    else Fatal (starvation (print_req k now (set_m_starvation_cycle count st))).
Proof.
  unfold progress_check.
  destruct (decide (0 < m_total_req st /\ m_num_completed_in_last_cycle st = 0))
    as [[Ht Hc] | Hno]; cbn.
  - rewrite (proj2 (Z.ltb_lt _ _) Ht), (proj2 (Z.eqb_eq _ _) Hc). cbn.
    destruct (Z.leb_spec 5000 (m_starvation_cycle st + 1)), (decide (_ < 5000));
      try lia; reflexivity.
  - assert ((0 <? m_total_req st) && (m_num_completed_in_last_cycle st =? 0) = false) as ->.
    { apply andb_false_iff.
      destruct (Z.ltb_spec 0 (m_total_req st)); [| by left].
      destruct (Z.eqb_spec (m_num_completed_in_last_cycle st) 0); [tauto | by right]. }
    cbn. reflexivity.
Qed.

Lemma starving_run_count k n st st' :
  starving_run k n st st' ->
  m_starvation_cycle st' = m_starvation_cycle st + Z.of_nat n /\
  (0 <= m_starvation_cycle st -> (n < 5000)%nat).
Proof.
  induction 1 as [st | n st st1 now noc s st2 _ [IH1 IH2] Hbefore Ht Hc Hcheck
                    | n st st1 now mem_req ok st2 _ [IH1 IH2] Hins].
  - split; lia.
  - apply before_progress_check_starvation in Hbefore.
    rewrite progress_check_spec in Hcheck.
    destruct (decide (0 < m_total_req s /\ m_num_completed_in_last_cycle s = 0)); [| tauto].
    destruct (decide (m_starvation_cycle s + 1 < 5000)) as [Hlt |]; [| discriminate].
    injection Hcheck as <-. cbn. split; lia.
  - apply insert_new_req_starvation in Hins. split; [lia | exact IH2].
Qed.



(** ** Entries that go back to the free list *)

Lemma filter_iff_elem {A : Type} (P Q : A -> Prop)
    `{!forall x, Decision (P x), !forall x, Decision (Q x)} (l : list A) :
  (forall x, x ∈ l -> (P x <-> Q x)) -> filter P l = filter Q l.
Proof.
  induction l as [| a l IH]; intros Hiff; [reflexivity |].
  rewrite !filter_cons.
  rewrite IH; [| intros x Hx; apply Hiff; right; exact Hx].
  pose proof (Hiff a ltac:(left)) as Ha.
  destruct (decide (P a)) as [Hp | Hp], (decide (Q a)) as [Hq | Hq];
    try reflexivity; tauto.
Qed.

Lemma filter_all {A : Type} (P : A -> Prop) `{!forall x, Decision (P x)} (l : list A) :
  (forall x, P x) -> filter P l = l.
Proof.
  intros HP. induction l as [| a l IH]; [reflexivity |].
  rewrite filter_cons_True by apply HP. by rewrite IH.
Qed.

Lemma filter_iff_elem_all {A : Type} (P : A -> Prop) `{!forall x, Decision (P x)}
    (l : list A) :
  (forall x, x ∈ l -> P x) -> filter P l = l.
Proof.
  induction l as [| a l IH]; intros HP; [reflexivity |].
  rewrite filter_cons_True by (apply HP; left).
  rewrite IH; [done |]. intros x Hx. apply HP. by right.
Qed.

Lemma remove_filter (x : drb_entry_ptr) (D l : list drb_entry_ptr) :
  remove x (filter (λ y, y ∉ D) l) = filter (λ y, y ∉ D ++ [x]) l.
Proof.
  unfold remove. rewrite list_filter_filter. apply list_filter_iff.
  intros y. rewrite elem_of_app, list_elem_of_singleton. tauto.
Qed.

Lemma releases_fold b f : releases b f ->
  forall D st,
    m_buffer_free_list (fold_left f D st) b = m_buffer_free_list st b ++ D /\
    m_buffer (fold_left f D st) b = filter (λ y, y ∉ D) (m_buffer st b) /\
    (forall jj, jj ≠ b ->
       m_buffer_free_list (fold_left f D st) jj = m_buffer_free_list st jj /\
       m_buffer (fold_left f D st) jj = m_buffer st jj) /\
    m_current_list (fold_left f D st) = m_current_list st /\
    m_total_req (fold_left f D st) = m_total_req st - Z.of_nat (length D).
Proof.
  intros Hf D. induction D as [| it D IH] using rev_ind; intros st.
  - cbn. split; [by rewrite app_nil_r |]. split; [| split; [done | split; [done | lia]]].
    symmetry. apply filter_all. intros y. apply not_elem_of_nil.
  - rewrite fold_left_app. cbn.
    destruct (IH st) as (Hfree & Hbuf & Hother & Hcur & Htot).
    destruct (Hf (fold_left f D st) it) as (Hf1 & Hf2 & Hf3 & Hf4).
    rewrite Hf1, Hf2, Hf3, Hf4, !fn_lookup_insert, Hfree, Hbuf, Hcur, Htot.
    rewrite remove_filter, length_app, app_assoc. cbn.
    split; [reflexivity |]. split; [reflexivity |]. split; [| split; [reflexivity | lia]].
    intros jj Hjj. rewrite !fn_lookup_insert_ne by done. by apply Hother.
Qed.

Lemma flush_entry_releases b : releases b (flush_entry b).
Proof. intros s it. cbn. repeat split. Qed.

Lemma merge_release_entry_releases ii : releases ii (merge_release_entry ii).
Proof. intros s it. cbn. repeat split. Qed.

(** flush_prefetch: the prefetches leave the pending list of the bank for
    its free list, their requests go back to the pool, and total_requests
    goes down by one for each. *)
Lemma flush_prefetch_spec b st :
  m_buffer_free_list (flush_prefetch b st) b = m_buffer_free_list st b ++ prefetches st b /\
  m_buffer (flush_prefetch b st) b = filter (λ it, type_of st it ≠ MRT_DPRF) (m_buffer st b) /\
  (forall jj, jj ≠ b ->
     m_buffer_free_list (flush_prefetch b st) jj = m_buffer_free_list st jj /\
     m_buffer (flush_prefetch b st) jj = m_buffer st jj) /\
  m_current_list (flush_prefetch b st) = m_current_list st /\
  m_total_req (flush_prefetch b st) = m_total_req st - Z.of_nat (length (prefetches st b)) /\
  freed (flush_prefetch b st) = freed st ++ map (req_of st) (prefetches st b) /\
  drb (flush_prefetch b st) = drb st /\
  mem (flush_prefetch b st) = mem st /\
  m_unique_id (flush_prefetch b st) = m_unique_id st.
Proof.
  unfold flush_prefetch. fold (prefetches st b). cbv zeta.
  destruct (releases_fold b _ (flush_entry_releases b) (prefetches st b) st)
    as (Hfree & Hbuf & Hother & Hcur & Htot).
  split; [exact Hfree |]. split.
  { rewrite Hbuf. apply filter_iff_elem. intros y Hy.
    unfold prefetches. rewrite list_elem_of_filter. tauto. }
  split; [exact Hother |]. split; [exact Hcur |]. split; [exact Htot |].
  generalize (prefetches st b). intros D.
  induction D as [| it D IH] using rev_ind.
  - cbn. by rewrite app_nil_r.
  - rewrite fold_left_app. cbn. destruct IH as (IH1 & IH2 & IH3 & IH4).
    rewrite IH1, IH2, IH3, IH4, map_app. cbn. unfold req_of. rewrite IH2.
    by rewrite app_assoc.
Qed.

(** ** Ingress *)

Lemma flushed_mem b st : mem (flushed b st) = mem st /\ drb (flushed b st) = drb st /\
  m_unique_id (flushed b st) = m_unique_id st.
Proof.
  unfold flushed. destruct (m_buffer_free_list st b); [| done].
  destruct (flush_prefetch_spec b st) as (_ & _ & _ & _ & _ & _ & Hd & Hm & Hu). done.
Qed.

Lemma insert_new_req_cases k now mem_req st bid_xor cid bid rid :
  address_parsing k (Req.m_addr (mem st mem_req)) = (bid_xor, cid, bid, rid) ->
  let b := Z.to_nat (interleave k bid bid_xor) in
  (rid < 0 -> insert_new_req k now mem_req st = Fatal (ASSERT_failed 255)) /\
  (0 <= rid -> m_buffer_free_list (flushed b st) b = [] ->
     insert_new_req k now mem_req st = Ok (false, flushed b st)) /\
  (0 <= rid -> forall new_entry rest,
     m_buffer_free_list (flushed b st) b = new_entry :: rest ->
     exists st',
       insert_new_req k now mem_req st = Ok (true, st') /\
       m_buffer_free_list st' = <[b := rest]> (m_buffer_free_list (flushed b st)) /\
       m_buffer st' = <[b := m_buffer (flushed b st) b ++ [new_entry]]> (m_buffer (flushed b st)) /\
       m_current_list st' = m_current_list (flushed b st) /\
       m_total_req st' = m_total_req (flushed b st) + 1 /\
       freed st' = freed (flushed b st) /\
       Req.m_state (mem st' mem_req) = MEM_DRAM_START /\
       populated now mem_req (mem st mem_req) (m_unique_id st) (interleave k bid bid_xor)
                 rid cid (drb st' new_entry) /\
       (forall e, e ≠ new_entry -> drb st' e = drb st e)).
Proof.
  intros Hparse b. unfold insert_new_req. rewrite Hparse. fold b. fold (flushed b st).
  destruct (flushed_mem b st) as (Hmem & Hdrb & Huid).
  split; [| split].
  - intros Hneg. destruct (Z.leb_spec 0 rid); [lia | reflexivity].
  - intros Hrid Hfull. rewrite (proj2 (Z.leb_le 0 rid) Hrid). cbn. by rewrite Hfull.
  - intros Hrid new_entry rest Hfree. rewrite (proj2 (Z.leb_le 0 rid) Hrid). cbn.
    rewrite Hfree. unfold insert_req_in_drb. fold b. rewrite Hfree.
    unfold drb_entry_s_set. rewrite (proj2 (Z.leb_le 0 rid) Hrid). cbn.
    eexists. split; [reflexivity |]. cbn.
    rewrite !fn_lookup_insert, Hmem, Hdrb, Huid.
    repeat split; try reflexivity.
    + destruct (Req.m_type (mem st mem_req)); reflexivity.
    + destruct (Req.m_type (mem st mem_req)); reflexivity.
    + intros e He. by rewrite fn_lookup_insert_ne.
Qed.

(** C3. insert_new_req, for a request whose decoded row passes the
    assertion: when the free list of the target bank is empty, every
    pending entry of the bank whose request is a DPRF is removed, its
    request goes back to the pool and total_requests goes down by one for
    each; if the free list is still empty, the call returns false and
    enqueues nothing; otherwise the first free entry is taken, populated
    from the request, appended to the pending list of the bank,
    total_requests goes up by one, the request is tagged DRAM_START and the
    call returns true. *)
Theorem insert_new_req_spec (k : knobs) (now : Z) (mem_req : mem_req_ptr)
    (st : dram_controller_c) (bid_xor cid bid rid : Z) :
  address_parsing k (Req.m_addr (mem st mem_req)) = (bid_xor, cid, bid, rid) ->
  0 <= rid ->
  let b := Z.to_nat (interleave k bid bid_xor) in
  (m_buffer_free_list st b = [] ->
     m_buffer (flushed b st) b = filter (λ it, type_of st it ≠ MRT_DPRF) (m_buffer st b) /\
     m_buffer_free_list (flushed b st) b = prefetches st b /\
     freed (flushed b st) = freed st ++ map (req_of st) (prefetches st b) /\
     m_total_req (flushed b st) = m_total_req st - Z.of_nat (length (prefetches st b))) /\
  (m_buffer_free_list st b ≠ [] -> flushed b st = st) /\
  (m_buffer_free_list (flushed b st) b = [] ->
     insert_new_req k now mem_req st = Ok (false, flushed b st)) /\
  (forall new_entry rest,
     m_buffer_free_list (flushed b st) b = new_entry :: rest ->
     exists st',
       insert_new_req k now mem_req st = Ok (true, st') /\
       m_buffer_free_list st' b = rest /\
       m_buffer st' b = m_buffer (flushed b st) b ++ [new_entry] /\
       m_total_req st' = m_total_req (flushed b st) + 1 /\
       freed st' = freed (flushed b st) /\
       Req.m_state (mem st' mem_req) = MEM_DRAM_START /\
       populated now mem_req (mem st mem_req) (m_unique_id st) (interleave k bid bid_xor)
                 rid cid (drb st' new_entry)).
Proof.
  intros Hparse Hrid b.
  destruct (insert_new_req_cases k now mem_req st bid_xor cid bid rid Hparse)
    as (_ & Hfull & Hadmit). fold b in Hfull, Hadmit.
  split; [| split; [| split]].
  - intros Hempty. unfold flushed. rewrite Hempty.
    destruct (flush_prefetch_spec b st) as (Hfree & Hbuf & _ & _ & Htot & Hfreed & _).
    rewrite Hempty in Hfree. done.
  - intros Hne. unfold flushed. by destruct (m_buffer_free_list st b).
  - by apply Hfull.
  - intros new_entry rest Hfree.
    destruct (Hadmit Hrid new_entry rest Hfree)
      as (st' & Hrun & Hfree' & Hbuf' & _ & Htot & Hfreed & Hstate & Hpop & _).
    exists st'. rewrite Hfree', Hbuf', !fn_lookup_insert. done.
Qed.

Lemma insert_new_req_spec_witness :
  address_parsing Example.k (Req.m_addr (mem Example.full 1%nat)) = (0, 0, 0, 1) /\
  0 <= 1 /\
  m_buffer (flushed 0 Example.full) 0%nat = [] /\
  exists st',
    insert_new_req Example.k 5 1%nat Example.full = Ok (true, st') /\
    m_buffer_free_list st' 0%nat = [1; 2; 3]%nat /\
    m_buffer st' 0%nat = [0%nat].
Proof.
  split; [vm_compute; reflexivity |]. split; [lia |].
  destruct (insert_new_req_spec Example.k 5 1%nat Example.full 0 0 0 1
              ltac:(vm_compute; reflexivity) ltac:(lia))
    as (Hflush & _ & _ & Hadmit).
  destruct (Hflush ltac:(vm_compute; reflexivity)) as (Hbuf & _).
  assert (Hempty : m_buffer (flushed 0 Example.full) 0%nat = [])
    by (vm_compute; reflexivity).
  split; [exact Hempty |].
  destruct (Hadmit 0%nat [1; 2; 3]%nat ltac:(vm_compute; reflexivity))
    as (st' & Hrun & Hfree & Hpending & _).
  exists st'. split; [exact Hrun |]. split; [exact Hfree |].
  cbv zeta in Hpending.
  change (Z.to_nat (interleave Example.k 0 0)) with 0%nat in Hpending.
  rewrite Hpending, Hempty. reflexivity.
Defined.

(** ** Address parsing *)

Lemma log2_int_512 : log2_int 512 = 9.
Proof. reflexivity. Qed.

Lemma address_parsing_spec k A r b l :
  KNOB_DRAM_ROWBUFFER_SIZE k = 2 ^ r ->
  KNOB_DRAM_NUM_BANKS k = 2 ^ b ->
  KNOB_L3_LINE_SIZE k = 2 ^ l ->
  0 <= r < 31 -> 0 <= b < 31 -> 0 <= l ->
  0 <= A < 2 ^ 64 ->
  address_parsing k A
  = ((A / (2 ^ l * 512)) mod 2 ^ b, A mod 2 ^ r, (A / 2 ^ r) mod 2 ^ b,
     to_int (A / (2 ^ r * 2 ^ b))).
Proof.
  intros HR HB HL Hr Hb Hl HA.
  unfold address_parsing, m_bid_xor_shift, m_bid_mask, m_cid_mask, m_bid_shift,
    m_rid_shift, N_BIT_MASK.
  rewrite HR, HB, HL, log2_int_512. unfold log2_int.
  rewrite !Z.log2_pow2 by lia.
  rewrite !Z.land_ones by lia.
  rewrite !Z.shiftr_div_pow2 by lia.
  assert (Hpow : forall n, 0 <= n < 31 -> 0 < 2 ^ n <= 2 ^ 30).
  { intros n Hn. split; [apply Z.pow_pos_nonneg; lia | apply Z.pow_le_mono_r; lia]. }
  assert (Hmod : forall x n, 0 <= n < 31 -> to_int (x mod 2 ^ n) = x mod 2 ^ n).
  { intros x n Hn. apply to_int_small.
    pose proof (Z.mod_pos_bound x (2 ^ n) (proj1 (Hpow n Hn))). pose proof (Hpow n Hn). lia. }
  rewrite !Hmod by lia.
  rewrite Z.pow_add_r by lia. change (2 ^ 9) with 512.
  rewrite Z.div_div by (pose proof (Hpow r Hr); pose proof (Hpow b Hb); lia).
  reflexivity.
Qed.

Lemma insert_new_req_true_entry k now mem_req st bid_xor cid bid rid st' :
  address_parsing k (Req.m_addr (mem st mem_req)) = (bid_xor, cid, bid, rid) ->
  insert_new_req k now mem_req st = Ok (true, st') ->
  exists e,
    last (m_buffer st' (Z.to_nat (interleave k bid bid_xor))) = Some e /\
    populated now mem_req (mem st mem_req) (m_unique_id st) (interleave k bid bid_xor)
              rid cid (drb st' e).
Proof.
  intros Hparse Hrun.
  destruct (insert_new_req_cases k now mem_req st bid_xor cid bid rid Hparse)
    as (Hneg & Hfull & Hadmit).
  destruct (Z.lt_ge_cases rid 0) as [Hlt | Hge]; [rewrite (Hneg Hlt) in Hrun; discriminate |].
  destruct (m_buffer_free_list (flushed (Z.to_nat (interleave k bid bid_xor)) st)
              (Z.to_nat (interleave k bid bid_xor))) as [| new_entry rest] eqn:Hfree.
  - rewrite (Hfull Hge eq_refl) in Hrun. discriminate.
  - destruct (Hadmit Hge new_entry rest eq_refl)
      as (st2 & Hrun2 & _ & Hbuf & _ & _ & _ & _ & Hpop & _).
    rewrite Hrun2 in Hrun. injection Hrun as <-.
    exists new_entry. rewrite Hbuf, fn_lookup_insert, last_snoc. done.
Qed.

(** C2, as the code has it.  For an address [A] of 64 bits, with the row
    buffer size R, the number of banks B and the L3 line size L powers of
    two (R and B are ints): the decoded column is [A mod R]; the decoded
    bank is [(A div R) mod B], XORed with [(A div (L * 512)) mod B] when the
    XOR knob is on; the decoded row is [A div (R * B)] whenever that is
    below 2^31, the row being a 32-bit int; when the row converted to an
    int is negative, insert_new_req stops at its assertion.  An admitted
    request gets an entry with that column, bank and row. *)
Theorem address_decoding (k : knobs) (A r b l : Z) :
  KNOB_DRAM_ROWBUFFER_SIZE k = 2 ^ r ->
  KNOB_DRAM_NUM_BANKS k = 2 ^ b ->
  KNOB_L3_LINE_SIZE k = 2 ^ l ->
  0 <= r < 31 -> 0 <= b < 31 -> 0 <= l ->
  0 <= A < 2 ^ 64 ->
  let R := 2 ^ r in
  let B := 2 ^ b in
  let L := 2 ^ l in
  exists bid_xor cid bid rid,
    address_parsing k A = (bid_xor, cid, bid, rid) /\
    cid = A mod R /\
    interleave k bid bid_xor
    = (if KNOB_DRAM_BANK_XOR_INDEX k
       then Z.lxor ((A / R) mod B) ((A / (L * 512)) mod B)
       else (A / R) mod B) /\
    (A / (R * B) < 2 ^ 31 -> rid = A / (R * B)) /\
    (forall now mem_req st,
       Req.m_addr (mem st mem_req) = A ->
       (rid < 0 -> insert_new_req k now mem_req st = Fatal (ASSERT_failed 255)) /\
       (forall st',
          insert_new_req k now mem_req st = Ok (true, st') ->
          exists e,
            last (m_buffer st' (Z.to_nat (interleave k bid bid_xor))) = Some e /\
            m_cid (drb st' e) = cid /\
            m_bid (drb st' e) = interleave k bid bid_xor /\
            m_rid (drb st' e) = rid)).
Proof.
  intros HR HB HL Hr Hb Hl HA R B L.
  pose proof (address_parsing_spec k A r b l HR HB HL Hr Hb Hl HA) as Hparse.
  fold R B L in Hparse.
  exists ((A / (L * 512)) mod B), (A mod R), ((A / R) mod B), (to_int (A / (R * B))).
  split; [exact Hparse |]. split; [reflexivity |]. split; [| split].
  - unfold interleave. by destruct (KNOB_DRAM_BANK_XOR_INDEX k).
  - intros Hsmall. apply to_int_small. split; [| exact Hsmall].
    assert (0 <= A / (R * B)); [| lia].
    apply Z.div_pos; [lia |]. subst R B. apply Z.mul_pos_pos; apply Z.pow_pos_nonneg; lia.
  - intros now mem_req st Haddr.
    assert (Hparse' : address_parsing k (Req.m_addr (mem st mem_req))
                      = ((A / (L * 512)) mod B, A mod R, (A / R) mod B, to_int (A / (R * B))))
      by (rewrite Haddr; exact Hparse).
    clear Hparse. rename Hparse' into Hparse. split.
    + intros Hneg.
      destruct (insert_new_req_cases k now mem_req st _ _ _ _ Hparse) as (Hfail & _).
      exact (Hfail Hneg).
    + intros st' Hrun.
      destruct (insert_new_req_true_entry k now mem_req st _ _ _ _ st' Hparse Hrun)
        as (e & Hlast & Hpop).
      exists e. split; [exact Hlast |].
      destruct Hpop as (_ & _ & Hbid & Hrid & Hcid & _). done.
Qed.

Lemma address_decoding_witness :
  KNOB_DRAM_ROWBUFFER_SIZE Example.k = 2 ^ 11 /\
  KNOB_DRAM_NUM_BANKS Example.k = 2 ^ 1 /\
  KNOB_L3_LINE_SIZE Example.k = 2 ^ 6 /\
  exists bid_xor cid bid rid,
    address_parsing Example.k 4096 = (bid_xor, cid, bid, rid) /\
    cid = 4096 mod 2 ^ 11 /\
    (4096 / (2 ^ 11 * 2 ^ 1) < 2 ^ 31 -> rid = 4096 / (2 ^ 11 * 2 ^ 1)).
Proof.
  split; [reflexivity |]. split; [reflexivity |]. split; [reflexivity |].
  destruct (address_decoding Example.k 4096 11 1 6 eq_refl eq_refl eq_refl
              ltac:(lia) ltac:(lia) ltac:(lia) ltac:(lia))
    as (bid_xor & cid & bid & rid & Hparse & Hcid & _ & Hrid & _).
  exists bid_xor, cid, bid, rid. split; [exact Hparse |]. split; [exact Hcid | exact Hrid].
Defined.

(** C2 as stated fails on the row.  With rows of 2^11 bytes and 2 banks,
    the request for address 2^46 is admitted with row 0, not 2^34; the
    request for address 2^43, whose row 2^31 is negative as an int, stops
    at the assertion. *)
Lemma decoded_row_counterexample :
  KNOB_DRAM_ROWBUFFER_SIZE Example.k = 2 ^ 11 /\
  KNOB_DRAM_NUM_BANKS Example.k = 2 ^ 1 /\
  Req.m_addr (mem Example.fresh 7%nat) = 2 ^ 46 /\
  2 ^ 46 / (2 ^ 11 * 2 ^ 1) = 2 ^ 34 /\
  (exists st',
     insert_new_req Example.k 0 7%nat Example.fresh = Ok (true, st') /\
     m_buffer st' 0%nat = [0%nat] /\
     m_req (drb st' 0%nat) = 7%nat /\
     m_rid (drb st' 0%nat) = 0) /\
  Req.m_addr (mem Example.fresh 11%nat) = 2 ^ 43 /\
  insert_new_req Example.k 0 11%nat Example.fresh = Fatal (ASSERT_failed 255).
Proof.
  repeat split; try (vm_compute; reflexivity).
  exists (Example.state_of
            (Example.inserts Example.k 0 [7%nat] Example.fresh)).
  repeat split; vm_compute; reflexivity.
Qed.

(** ** Completion and merge *)

Lemma scan_frame_refl k st : scan_frame k st st.
Proof. unfold scan_frame. repeat split. Qed.

Lemma scan_frame_trans k s1 s2 s3 :
  scan_frame k s1 s2 -> scan_frame k s2 s3 -> scan_frame k s1 s3.
Proof.
  intros (D1 & B1 & F1 & C1 & R1 & T1 & N1 & Q1) (D2 & B2 & F2 & C2 & R2 & T2 & N2 & Q2).
  unfold scan_frame. rewrite D2, B2, F2, C2, R2, T2, N2.
  do 7 (split; [assumption |]).
  intros r. destruct (Q1 r) as (a1 & b1 & c1), (Q2 r) as (a2 & b2 & c2).
  rewrite a2, b2. split; [exact a1 |]. split; [exact b1 |].
  intros Hiris. rewrite (c2 Hiris). exact (c1 Hiris).
Qed.

Lemma scan_frame_type k st s e : scan_frame k st s -> type_of s e = type_of st e.
Proof.
  intros (Hdrb & _ & _ & _ & _ & _ & _ & Hreq). unfold type_of, req_of.
  rewrite Hdrb. apply Hreq.
Qed.

Lemma scan_frame_req_of k st s e : scan_frame k st s -> req_of s e = req_of st e.
Proof. intros (Hdrb & _). unfold req_of. by rewrite Hdrb. Qed.

Lemma scan_frame_can_send k st s e : scan_frame k st s -> can_send k st e -> can_send k s e.
Proof.
  intros Hframe. pose proof (scan_frame_req_of k st s e Hframe) as Hreq.
  destruct Hframe as (_ & _ & _ & _ & _ & _ & Hnoc & Hr).
  unfold can_send. rewrite Hreq, Hnoc.
  destruct (Hr (req_of st e)) as (_ & Hcache & Hdst).
  destruct (IRIS k); [by rewrite Hcache | by rewrite Hdst].
Qed.

Lemma upd_mem_state_frame k st r s : scan_frame k st (upd_mem r (Req.set_m_state s) st).
Proof.
  unfold scan_frame. cbn. do 7 (split; [reflexivity |]).
  intros r'. destruct (decide (r = r')) as [<- | Hne].
  - rewrite fn_lookup_insert. cbn. done.
  - rewrite fn_lookup_insert_ne by done. done.
Qed.

(** send_packet: the answer is the one of the interconnect; an accepted
    fill is logged; no request changes its lifecycle tag. *)
Lemma send_packet_Ok k noc e st ok s :
  send_packet k noc e st = Ok (ok, s) ->
  ok = noc (req_of st e) /\
  scan_frame k st s /\
  (forall r, Req.m_state (mem s r) = Req.m_state (mem st r)).
Proof.
  unfold send_packet. intros H. apply bind_Ok in H as (_ & _ & H).
  assert (Hframe : forall s',
            drb s' = drb st -> m_buffer s' = m_buffer st ->
            m_buffer_free_list s' = m_buffer_free_list st ->
            m_current_list s' = m_current_list st -> m_data_ready s' = m_data_ready st ->
            m_total_req s' = m_total_req st -> m_noc_id s' = m_noc_id st ->
            mem s' = <[req_of st e :=
                         Req.set_msg NOC_FILL
                           (if IRIS k then node_id k else m_noc_id st)
                           (if IRIS k
                            then get_dst_router_id k (Req.m_cache_id_L3 (mem st (req_of st e)))
                            else Req.m_msg_dst (mem st (req_of st e)))
                           (mem st (req_of st e))]> (mem st) ->
            scan_frame k st s' /\
            (forall r, Req.m_state (mem s' r) = Req.m_state (mem st r))).
  { intros s' ? ? ? ? ? ? ? Hmem. unfold scan_frame. rewrite Hmem.
    split; [| intros r; destruct (decide (req_of st e = r)) as [<- | Hne];
              [by rewrite fn_lookup_insert | by rewrite fn_lookup_insert_ne]].
    do 7 (split; [assumption |]).
    intros r. destruct (decide (req_of st e = r)) as [<- | Hne].
    - rewrite fn_lookup_insert. cbn. split; [done |]. split; [done |]. by intros ->.
    - rewrite fn_lookup_insert_ne by done. done. }
  destruct (noc (req_of st e)); injection H as <- <-;
    (split; [reflexivity | by apply Hframe]).
Qed.

Lemma send_packet_total k noc e st :
  can_send k st e -> exists s, send_packet k noc e st = Ok (noc (req_of st e), s).
Proof.
  intros [Hsrc Hdst]. unfold send_packet. cbn. rewrite fn_lookup_insert. cbn.
  rewrite (proj2 (Z.eqb_neq _ _) Hsrc), (proj2 (Z.eqb_neq _ _) Hdst). cbn.
  destruct (noc (req_of st e)); by eexists.
Qed.

Section scan_frame_predicates.
Context (k : knobs) (noc : mem_req_ptr -> bool) (st s : dram_controller_c).
Hypothesis Hframe : scan_frame k st s.

Lemma scan_frame_same_addr cur it : same_addr s cur it <-> same_addr st cur it.
Proof. destruct Hframe as (Hdrb & _). unfold same_addr. by rewrite Hdrb. Qed.

Lemma scan_frame_goes_through it : goes_through s noc it <-> goes_through st noc it.
Proof.
  unfold goes_through.
  by rewrite (scan_frame_type k st s it Hframe), (scan_frame_req_of k st s it Hframe).
Qed.

Lemma scan_frame_merged cur it : merged s noc cur it <-> merged st noc cur it.
Proof. unfold merged. by rewrite scan_frame_same_addr, scan_frame_goes_through. Qed.

Lemma scan_frame_refused cur it : refused s noc cur it <-> refused st noc cur it.
Proof. unfold refused. by rewrite scan_frame_same_addr, scan_frame_goes_through. Qed.

Lemma scan_frame_filled cur it : filled s noc cur it <-> filled st noc cur it.
Proof.
  unfold filled.
  by rewrite scan_frame_same_addr, (scan_frame_type k st s it Hframe),
    (scan_frame_req_of k st s it Hframe).
Qed.

End scan_frame_predicates.

Lemma filled_reqs_cons_True st noc cur it l :
  filled st noc cur it ->
  filled_reqs st noc cur (it :: l) = req_of st it :: filled_reqs st noc cur l.
Proof. intros H. unfold filled_reqs. by rewrite filter_cons_True. Qed.

Lemma filled_reqs_cons_False st noc cur it l :
  ¬ filled st noc cur it ->
  filled_reqs st noc cur (it :: l) = filled_reqs st noc cur l.
Proof. intros H. unfold filled_reqs. by rewrite filter_cons_False. Qed.

Lemma scan_frame_filled_reqs k noc st s cur l :
  scan_frame k st s -> filled_reqs s noc cur l = filled_reqs st noc cur l.
Proof.
  intros Hframe. unfold filled_reqs.
  rewrite (list_filter_iff (filled s noc cur) (filled st noc cur))
    by (intros it; by apply (scan_frame_filled k)).
  apply map_ext. intros it. by apply (scan_frame_req_of k).
Qed.

(** The first loop of the merge, for the entries [l]: the entries that
    have the address of the current entry and whose completion goes
    through are collected, in order; [need_to_stop] is raised when the fill
    of one of them is refused; the requests whose fill was taken are tagged
    DRAM_DONE and no other tag changes. *)
Lemma merge_scan_Ok k now noc cur l : forall temp_list stop st temp_list' stop' s,
  merge_scan k now noc cur l temp_list stop st = Ok (temp_list', stop', s) ->
  scan_frame k st s /\
  temp_list' = temp_list ++ filter (merged st noc cur) l /\
  (stop' = true <-> stop = true \/ exists it, it ∈ l /\ refused st noc cur it) /\
  (forall r, Req.m_state (mem s r)
             = if decide (r ∈ filled_reqs st noc cur l) then MEM_DRAM_DONE
               else Req.m_state (mem st r)).
Proof.
  induction l as [| it l IH]; intros temp_list stop st temp_list' stop' s Hrun; cbn in Hrun.
  { injection Hrun as <- <- <-. split; [apply scan_frame_refl |].
    split; [by rewrite app_nil_r |]. split.
    - split; [tauto |]. intros [? | (it & Hin & _)]; [done | by apply elem_of_nil in Hin].
    - intros r. cbn. destruct (decide (r ∈ [])) as [Hin |]; [by apply elem_of_nil in Hin | done]. }
  assert (Hstep : forall s1 temp1 stop1,
            scan_frame k st s1 ->
            merge_scan k now noc cur l temp1 stop1 s1 = Ok (temp_list', stop', s) ->
            scan_frame k st s /\
            temp_list' = temp1 ++ filter (merged st noc cur) l /\
            (stop' = true <-> stop1 = true \/ exists x, x ∈ l /\ refused st noc cur x) /\
            (forall r, Req.m_state (mem s r)
                       = if decide (r ∈ filled_reqs st noc cur l) then MEM_DRAM_DONE
                         else Req.m_state (mem s1 r))).
  { intros s1 temp1 stop1 Hf1 Hrest.
    destruct (IH _ _ _ _ _ _ Hrest) as (Hf & Htemp & Hstop & Hstate).
    split; [by apply scan_frame_trans with s1 |].
    split.
    { rewrite Htemp. f_equal. apply list_filter_iff. intros x.
      by apply (scan_frame_merged k). }
    split.
    { rewrite Hstop. apply or_iff_compat_l. split; intros (x & Hx & Hr); exists x;
        (split; [exact Hx |]); by apply (scan_frame_refused k noc st s1 Hf1). }
    intros r. rewrite Hstate. by rewrite (scan_frame_filled_reqs k noc st s1 cur l Hf1). }
  destruct (Z.eqb_spec (m_addr (drb st it)) (m_addr (drb st cur))) as [Haddr | Haddr].
  - destruct (decide (type_of st it = MRT_WB)) as [Hwb | Hwb].
    + assert (Hf0 : scan_frame k st
                      (set_m_num_completed_in_last_cycle now (free_req (req_of st it) st)))
        by (unfold scan_frame; cbn; done).
      destruct (Hstep _ _ _ Hf0 Hrun) as (Hf & Htemp & Hstop & Hstate).
      split; [exact Hf |]. split; [| split].
      * rewrite Htemp, filter_cons_True, <- app_assoc; [done |].
        split; [exact Haddr | by left].
      * rewrite Hstop. apply or_iff_compat_l. split.
        -- intros (x & Hx & Hr). exists x. split; [by right | exact Hr].
        -- intros (x & Hx & Hr). apply elem_of_cons in Hx as [-> | Hx]; [| by exists x].
           destruct Hr as [_ Hr]. exfalso. apply Hr. by left.
      * intros r. rewrite Hstate, filled_reqs_cons_False; [done |].
        intros (_ & Hn & _). done.
    + apply bind_Ok in Hrun as ([ok s1] & Hsend & Hrun).
      apply send_packet_Ok in Hsend as (-> & Hf1 & Hstate1).
      destruct (noc (req_of st it)) eqn:Hnoc.
      * assert (Hf2 : scan_frame k st
                        (set_m_num_completed_in_last_cycle now
                           (upd_mem (req_of s1 it) (Req.set_m_state MEM_DRAM_DONE) s1))).
        { apply scan_frame_trans with s1; [exact Hf1 |].
          apply (scan_frame_trans k _ (upd_mem (req_of s1 it) (Req.set_m_state MEM_DRAM_DONE) s1));
            [apply upd_mem_state_frame |].
          unfold scan_frame. cbn. done. }
        destruct (Hstep _ _ _ Hf2 Hrun) as (Hf & Htemp & Hstop & Hstate).
        split; [exact Hf |]. split; [| split].
        -- rewrite Htemp, filter_cons_True, <- app_assoc; [done |].
           split; [exact Haddr | by right].
        -- rewrite Hstop. apply or_iff_compat_l. split.
           ++ intros (x & Hx & Hr). exists x. split; [by right | exact Hr].
           ++ intros (x & Hx & Hr). apply elem_of_cons in Hx as [-> | Hx]; [| by exists x].
              destruct Hr as [_ Hr]. exfalso. apply Hr. by right.
        -- intros r. rewrite Hstate, filled_reqs_cons_True by done. cbn.
           rewrite (scan_frame_req_of k st s1 it Hf1).
           destruct (decide (r ∈ filled_reqs st noc cur l)) as [Hin | Hnin].
           ++ rewrite decide_True; [done |]. by right.
           ++ destruct (decide (req_of st it = r)) as [<- | Hne].
              ** rewrite fn_lookup_insert, decide_True; [done | left].
              ** rewrite fn_lookup_insert_ne by done.
                 rewrite decide_False; [apply Hstate1 |].
                 intros Hin. apply elem_of_cons in Hin as [-> | Hin]; done.
      * destruct (Hstep _ _ _ Hf1 Hrun) as (Hf & Htemp & Hstop & Hstate).
        assert (Hnot : ¬ goes_through st noc it).
        { intros [? | Hyes]; [done | congruence]. }
        split; [exact Hf |]. split; [| split].
        -- rewrite Htemp, filter_cons_False; [done |]. intros [_ Hg]. done.
        -- rewrite Hstop. split.
           ++ intros [_ | (x & Hx & Hr)]; right.
              ** exists it. split; [left | by split].
              ** exists x. split; [by right | exact Hr].
           ++ intros _. by left.
        -- intros r. rewrite Hstate, filled_reqs_cons_False; [by rewrite Hstate1 |].
           intros (_ & _ & Hyes). congruence.
  - destruct (Hstep _ _ _ (scan_frame_refl k _) Hrun) as (Hf & Htemp & Hstop & Hstate).
    split; [exact Hf |]. split; [| split].
    + rewrite Htemp, filter_cons_False; [done |]. intros [Hs _]. done.
    + rewrite Hstop. apply or_iff_compat_l. split.
      * intros (x & Hx & Hr). exists x. split; [by right | exact Hr].
      * intros (x & Hx & Hr). apply elem_of_cons in Hx as [-> | Hx]; [| by exists x].
        by destruct Hr as [Hs _].
    + intros r. rewrite Hstate, filled_reqs_cons_False; [done |].
      intros (Hs & _). done.
Qed.

Lemma merge_scan_total k now noc cur l : forall temp_list stop st,
  (forall it, it ∈ l -> can_send k st it) ->
  exists res, merge_scan k now noc cur l temp_list stop st = Ok res.
Proof.
  induction l as [| it l IH]; intros temp_list stop st Hsend; cbn.
  { by eexists. }
  assert (Hnext : forall s1 temp1 stop1,
            scan_frame k st s1 ->
            exists res, merge_scan k now noc cur l temp1 stop1 s1 = Ok res).
  { intros s1 temp1 stop1 Hf. apply IH. intros x Hx.
    apply (scan_frame_can_send k st s1 x Hf). apply Hsend. by right. }
  destruct (m_addr (drb st it) =? m_addr (drb st cur)); [| apply Hnext, scan_frame_refl].
  destruct (decide (type_of st it = MRT_WB)).
  { apply Hnext. unfold scan_frame. cbn. done. }
  destruct (send_packet_total k noc it st (Hsend it ltac:(left))) as (s1 & Hs1).
  rewrite Hs1. cbn. apply send_packet_Ok in Hs1 as (_ & Hf1 & _).
  destruct (noc (req_of st it)); [| by apply Hnext].
  apply Hnext. apply scan_frame_trans with s1; [exact Hf1 |].
  apply (scan_frame_trans k _ (upd_mem (req_of s1 it) (Req.set_m_state MEM_DRAM_DONE) s1));
    [apply upd_mem_state_frame |].
  unfold scan_frame. cbn. done.
Qed.

(** The second loop of the merge: the collected entries are reset and go
    from the pending list to the free list of the bank. *)
Lemma merge_release_spec ii temp_list st :
  m_buffer_free_list (merge_release ii temp_list st) ii = m_buffer_free_list st ii ++ temp_list /\
  m_buffer (merge_release ii temp_list st) ii = filter (λ y, y ∉ temp_list) (m_buffer st ii) /\
  (forall jj, jj ≠ ii ->
     m_buffer_free_list (merge_release ii temp_list st) jj = m_buffer_free_list st jj /\
     m_buffer (merge_release ii temp_list st) jj = m_buffer st jj) /\
  m_current_list (merge_release ii temp_list st) = m_current_list st /\
  m_total_req (merge_release ii temp_list st) = m_total_req st - Z.of_nat (length temp_list) /\
  (forall e, drb (merge_release ii temp_list st) e
             = if decide (e ∈ temp_list) then drb_entry_s_reset else drb st e) /\
  mem (merge_release ii temp_list st) = mem st /\
  m_data_ready (merge_release ii temp_list st) = m_data_ready st /\
  m_noc_id (merge_release ii temp_list st) = m_noc_id st.
Proof.
  unfold merge_release.
  destruct (releases_fold ii _ (merge_release_entry_releases ii) temp_list st)
    as (Hfree & Hbuf & Hother & Hcur & Htot).
  do 5 (split; [assumption |]).
  clear. induction temp_list as [| it D IH] using rev_ind.
  - cbn. split; [| done]. intros e.
    destruct (decide (e ∈ [])) as [Hin |]; [by apply elem_of_nil in Hin | done].
  - rewrite fold_left_app. cbn. destruct IH as (IH1 & IH2 & IH3 & IH4).
    split; [| done]. intros e.
    destruct (decide (it = e)) as [-> | Hne].
    + rewrite fn_lookup_insert, decide_True; [done |].
      apply elem_of_app. right. left.
    + rewrite fn_lookup_insert_ne, IH1 by done.
      destruct (decide (e ∈ D)) as [Hin | Hnin].
      * rewrite decide_True; [done |]. apply elem_of_app. by left.
      * rewrite decide_False; [done |]. intros Hin.
        apply elem_of_app in Hin as [Hin | Hin]; [done |].
        apply list_elem_of_singleton in Hin. congruence.
Qed.

(** The state that the merge leaves, when its first loop ended in [s0]
    with the entries [completed]. *)
Lemma merge_pass_spec k noc ii cur st s0 stop :
  scan_frame k st s0 ->
  cur ∉ m_buffer st ii ->
  (forall r, Req.m_state (mem s0 r)
             = if decide (r ∈ filled_reqs st noc cur (m_buffer st ii)) then MEM_DRAM_DONE
               else Req.m_state (mem st r)) ->
  (stop = true <-> exists it, it ∈ m_buffer st ii /\ refused st noc cur it) ->
  let completed := filter (merged st noc cur) (m_buffer st ii) in
  let s1 := merge_release ii completed s0 in
  m_buffer s1 ii = filter (λ it, ¬ merged st noc cur it) (m_buffer st ii) /\
  m_buffer_free_list s1 ii = m_buffer_free_list st ii ++ completed /\
  m_current_list s1 = m_current_list st /\
  m_data_ready s1 = m_data_ready st /\
  m_noc_id s1 = m_noc_id st /\
  mem s1 = mem s0 /\
  drb s1 cur = drb st cur /\
  (forall it, it ∈ completed -> drb s1 it = drb_entry_s_reset) /\
  (forall it, it ∈ m_buffer st ii -> filled st noc cur it ->
     Req.m_state (mem s1 (req_of st it)) = MEM_DRAM_DONE) /\
  (forall it, it ∈ m_buffer st ii -> refused st noc cur it ->
     it ∈ m_buffer s1 ii /\ drb s1 it = drb st it /\
     Req.m_state (mem s1 (req_of st it)) = Req.m_state (mem st (req_of st it))).
Proof.
  intros Hframe Hcur Hstate Hstop completed s1.
  destruct Hframe as (Hdrb & Hbuf & Hfree & Hcurl & Hready & _ & Hnoc & _).
  destruct (merge_release_spec ii completed s0)
    as (Rfree & Rbuf & _ & Rcur & _ & Rdrb & Rmem & Rready & Rnoc).
  fold s1 in Rfree, Rbuf, Rcur, Rdrb, Rmem, Rready, Rnoc.
  assert (Hpending : m_buffer s1 ii = filter (λ it, ¬ merged st noc cur it) (m_buffer st ii)).
  { rewrite Rbuf, Hbuf. apply filter_iff_elem. intros y Hy.
    unfold completed. rewrite list_elem_of_filter. tauto. }
  split; [exact Hpending |].
  split; [by rewrite Rfree, Hfree |].
  split; [by rewrite Rcur |]. split; [by rewrite Rready |]. split; [by rewrite Rnoc |].
  split; [exact Rmem |].
  split.
  { rewrite Rdrb, decide_False, Hdrb; [done |].
    unfold completed. rewrite list_elem_of_filter. tauto. }
  split.
  { intros it Hit. by rewrite Rdrb, decide_True. }
  split.
  { intros it Hit Hfilled. rewrite Rmem, Hstate, decide_True; [done |].
    unfold filled_reqs. apply list_elem_of_fmap. exists it.
    split; [done |]. by apply list_elem_of_filter. }
  intros it Hit [Hsame Hno]. split; [| split].
  - rewrite Hpending. apply list_elem_of_filter. split; [| exact Hit].
    intros [_ Hyes]. done.
  - rewrite Rdrb, decide_False, Hdrb; [done |].
    unfold completed. rewrite list_elem_of_filter. intros [[_ Hyes] _]. done.
  - rewrite Rmem, Hstate, decide_False; [done |].
    unfold filled_reqs. intros Hin. apply list_elem_of_fmap in Hin as (y & Hreq & Hy).
    apply list_elem_of_filter in Hy as [(_ & Hty & Hacc) _].
    apply Hno. right. by rewrite Hreq.
Qed.

(** C6, as the code has it.  With merging enabled, at the completion of the
    current entry of a bank: a candidate of the same address whose fill the
    interconnect refuses stays in the pending list, untouched, with its
    request untagged; the pass does not stop there: every candidate of the
    same address that is a write-back or whose fill is taken, before or
    after a refused one, is completed (it leaves the pending list for the
    free list and is reset, the request of a fill is tagged DRAM_DONE).
    When a candidate was refused, or when the fill of the current entry is
    refused, the current entry stays current for the next tick; otherwise
    the current entry is completed too. *)
Theorem merge_refusal (k : knobs) (now : Z) (noc : mem_req_ptr -> bool) (ii : nat)
    (st : dram_controller_c) (cur : drb_entry_ptr) :
  KNOB_DRAM_MERGE_REQUESTS k = true ->
  m_current_list st ii = Some cur ->
  m_data_ready st ii <= now ->
  m_state (drb st cur) = DRAM_DATA_WAIT ->
  cur ∉ m_buffer st ii ->
  (forall it, it ∈ cur :: m_buffer st ii -> can_send k st it) ->
  let pending := m_buffer st ii in
  let completed := filter (merged st noc cur) pending in
  let some_refused := exists it, it ∈ pending /\ refused st noc cur it in
  exists st',
    bank_schedule_complete_bank k now noc ii st = Ok st' /\
    m_buffer st' ii = filter (λ it, ¬ merged st noc cur it) pending /\
    (forall it, it ∈ completed -> drb st' it = drb_entry_s_reset) /\
    (forall it, it ∈ pending -> filled st noc cur it ->
       Req.m_state (mem st' (req_of st it)) = MEM_DRAM_DONE) /\
    (forall it, it ∈ pending -> refused st noc cur it ->
       it ∈ m_buffer st' ii /\ drb st' it = drb st it /\
       Req.m_state (mem st' (req_of st it)) = Req.m_state (mem st (req_of st it))) /\
    (some_refused \/ ¬ goes_through st noc cur ->
       m_buffer_free_list st' ii = m_buffer_free_list st ii ++ completed /\
       m_current_list st' ii = Some cur /\
       m_data_ready st' ii = m_data_ready st ii /\
       drb st' cur = drb st cur) /\
    (¬ some_refused -> goes_through st noc cur ->
       m_buffer_free_list st' ii = m_buffer_free_list st ii ++ completed ++ [cur] /\
       m_current_list st' ii = None /\
       m_data_ready st' ii = ULLONG_MAX /\
       drb st' cur = drb_entry_s_reset).
Proof.
  intros Hknob Hcur Hready Hwait Hfresh Hsend pending completed some_refused.
  destruct (merge_scan_total k now noc cur pending [] false st) as ([[temp stop] s0] & Hscan).
  { intros it Hit. apply Hsend. by right. }
  destruct (merge_scan_Ok k now noc cur pending _ _ _ _ _ _ Hscan)
    as (Hframe & Htemp & Hstop & Hstate).
  cbn in Htemp. fold completed in Htemp. subst temp.
  assert (Hstop' : stop = true <-> some_refused).
  { rewrite Hstop. split; [intros [? | ?]; [done | assumption] | by right]. }
  pose proof (merge_pass_spec k noc ii cur st s0 stop Hframe Hfresh Hstate Hstop') as P.
  cbv zeta in P. fold pending in P. fold completed in P.
  remember (merge_release ii completed s0) as s1 eqn:Es1.
  destruct P as (Pbuf & Pfree & Pcur & Pready & Pnoc & Pmem & Pdrb & Preset & Pdone & Prefused).
  assert (Hrun : bank_schedule_complete_bank k now noc ii st
                 = (if stop then Ok s1
                    else if decide (type_of s1 cur = MRT_WB)
                         then Ok (complete_current ii cur (free_req (req_of s1 cur) s1))
                         else '(ok, s2) ← send_packet k noc cur s1;
                              if (ok : bool)
                              then Ok (complete_current ii cur
                                         (upd_mem (req_of s2 cur)
                                            (Req.set_m_state MEM_DRAM_DONE) s2))
                              else Ok s2)).
  { unfold bank_schedule_complete_bank. rewrite Hcur.
    rewrite (proj2 (Z.leb_le _ _) Hready), Hwait, Hknob. cbn.
    fold pending. rewrite Hscan. cbn. rewrite <- Es1. reflexivity. }
  assert (Hreq1 : req_of s1 cur = req_of st cur) by exact (f_equal m_req Pdrb).
  assert (Htype1 : type_of s1 cur = type_of st cur).
  { unfold type_of. rewrite Hreq1, Pmem. apply Hframe. }
  destruct stop.
  { (* a candidate was refused *)
    exists s1. split; [exact Hrun |]. split; [exact Pbuf |]. split; [exact Preset |].
    split; [exact Pdone |]. split; [exact Prefused |]. split.
    - intros _. rewrite Pcur, Pready. done.
    - intros Hno. destruct Hno. by apply Hstop'. }
  assert (Hnone : ¬ some_refused) by (intros H; apply Hstop' in H; discriminate).
  destruct (decide (type_of s1 cur = MRT_WB)) as [Hwb | Hwb].
  { (* the current entry is a write-back *)
    eexists. split; [exact Hrun |]. cbn.
    rewrite !fn_lookup_insert. split; [exact Pbuf |]. split; [| split; [| split; [| split]]].
    - intros it Hit. destruct (decide (cur = it)) as [-> | Hne].
      + by rewrite fn_lookup_insert.
      + rewrite fn_lookup_insert_ne by done. by apply Preset.
    - exact Pdone.
    - intros it Hit Href. destruct Hnone. by exists it.
    - intros [Hsome | Hno]; [done |]. destruct Hno. left. by rewrite <- Htype1.
    - intros _ _. rewrite Pfree, app_assoc. done. }
  assert (Hcan : can_send k s1 cur).
  { pose proof (scan_frame_can_send k st s0 cur Hframe (Hsend cur ltac:(left))) as H0.
    unfold can_send in H0 |- *. rewrite Hreq1, Pnoc, Pmem.
    rewrite (scan_frame_req_of k st s0 cur Hframe) in H0.
    destruct Hframe as (_ & _ & _ & _ & _ & _ & Hn & _). rewrite Hn in H0. exact H0. }
  destruct (send_packet_total k noc cur s1 Hcan) as (s2 & Hs2).
  rewrite Hs2 in Hrun. cbn in Hrun.
  apply send_packet_Ok in Hs2 as (_ & Hf2 & Hstate2).
  destruct Hf2 as (Fdrb & Fbuf & Ffree & Fcur & Fready & _ & _ & _).
  rewrite Hreq1 in Hrun.
  destruct (noc (req_of st cur)) eqn:Hnoc.
  - (* the fill of the current entry is taken *)
    eexists. split; [exact Hrun |]. cbn.
    rewrite !fn_lookup_insert, Fbuf, Ffree, Fdrb.
    split; [exact Pbuf |]. split; [| split; [| split; [| split]]].
    + intros it Hit. destruct (decide (cur = it)) as [-> | Hne].
      * by rewrite fn_lookup_insert.
      * rewrite fn_lookup_insert_ne by done. by apply Preset.
    + intros it Hit Hfilled.
      destruct (decide (req_of s2 cur = req_of st it)) as [-> | Hne].
      * by rewrite fn_lookup_insert.
      * rewrite fn_lookup_insert_ne, Hstate2 by done. by apply Pdone.
    + intros it Hit Href. destruct Hnone. by exists it.
    + intros [Hsome | Hno]; [done |]. destruct Hno. by right.
    + intros _ _. rewrite Pfree, app_assoc. done.
  - (* the fill of the current entry is refused *)
    exists s2. split; [exact Hrun |]. rewrite Fbuf, Ffree, Fcur, Fready, Fdrb.
    split; [exact Pbuf |]. split; [exact Preset |]. split; [| split; [| split]].
    + intros it Hit Hfilled. rewrite Hstate2. by apply Pdone.
    + intros it Hit Href. destruct Hnone. by exists it.
    + intros _. rewrite Pcur, Pready. done.
    + intros _ [Hyes | Hyes]; [by rewrite <- Htype1 in Hyes | congruence].
Qed.

Lemma merge_refusal_witness :
  KNOB_DRAM_MERGE_REQUESTS Example.k = true /\
  m_current_list Example.waiting 0%nat = Some 0%nat /\
  m_data_ready Example.waiting 0%nat <= 25 /\
  m_buffer Example.waiting 0%nat = [1; 2; 3]%nat /\
  exists st',
    bank_schedule_complete_bank Example.k 25 Example.picky 0 Example.waiting = Ok st' /\
    m_buffer st' 0%nat = [1%nat] /\
    m_current_list st' 0%nat = Some 0%nat.
Proof.
  assert (Hpending : m_buffer Example.waiting 0%nat = [1; 2; 3]%nat)
    by (vm_compute; reflexivity).
  split; [reflexivity |]. split; [vm_compute; reflexivity |].
  split; [vm_compute; discriminate |]. split; [exact Hpending |].
  destruct (merge_refusal Example.k 25 Example.picky 0 Example.waiting 0%nat)
    as (st' & Hrun & Hbuf & _ & _ & _ & Hstay & _).
  - reflexivity.
  - (vm_compute; reflexivity).
  - (vm_compute; discriminate).
  - (vm_compute; reflexivity).
  - rewrite Hpending. intros Hin.
    repeat (apply elem_of_cons in Hin as [Hin | Hin]; [discriminate Hin |]).
    apply elem_of_nil in Hin. destruct Hin.
  - rewrite Hpending. intros it Hin.
    repeat (apply elem_of_cons in Hin as [-> | Hin];
            [vm_compute; split; intros H; discriminate H |]).
    apply elem_of_nil in Hin. destruct Hin.
  - exists st'. split; [exact Hrun |]. split.
    + (etrans; [exact Hbuf |]). (vm_compute; reflexivity).
    + apply Hstay. left. exists 1%nat. split.
      * (vm_compute; left).
      * vm_compute. split; [reflexivity |]. intros [H | H]; discriminate H.
Defined.

(** C6 as stated fails: the interconnect refuses the fill of request 2, the
    first candidate of the merge; the pass goes on, and the candidates after
    it, the write-back 3 and the read 4, leave the pending list for the free
    list in that tick, request 4 tagged DRAM_DONE. *)
Lemma merge_goes_on_counterexample :
  KNOB_DRAM_MERGE_REQUESTS Example.k = true /\
  m_current_list Example.waiting 0%nat = Some 0%nat /\
  m_buffer Example.waiting 0%nat = [1; 2; 3]%nat /\
  m_buffer_free_list Example.waiting 0%nat = [] /\
  map (req_of Example.waiting) [0; 1; 2; 3]%nat = [1; 2; 3; 4]%nat /\
  Example.picky 2%nat = false /\
  Req.m_state (mem Example.waiting 4%nat) = MEM_DRAM_START /\
  exists st',
    bank_schedule_complete Example.k 25 Example.picky Example.waiting = Ok st' /\
    m_buffer st' 0%nat = [1%nat] /\
    m_buffer_free_list st' 0%nat = [2; 3]%nat /\
    Req.m_state (mem st' 4%nat) = MEM_DRAM_DONE /\
    freed st' = [3%nat] /\
    sent st' = [4%nat] /\
    m_current_list st' 0%nat = Some 0%nat.
Proof.
  do 7 (split; [vm_compute; reflexivity |]).
  exists (Example.state_of
            (bank_schedule_complete Example.k 25 Example.picky Example.waiting)).
  do 6 (split; [vm_compute; reflexivity |]).
  vm_compute. reflexivity.
Qed.

(** ** Conservation of the buffer entries *)

Lemma same_lists_refl st : same_lists st st.
Proof. by unfold same_lists. Qed.

Lemma same_lists_trans s1 s2 s3 : same_lists s1 s2 -> same_lists s2 s3 -> same_lists s1 s3.
Proof. unfold same_lists. intros (? & ? & ?) (? & ? & ?). repeat split; congruence. Qed.

Lemma same_lists_entries st st' ii : same_lists st st' -> bank_entries st' ii = bank_entries st ii.
Proof. intros (Hb & Hf & Hc). unfold bank_entries. by rewrite Hb, Hf, Hc. Qed.

Lemma conserved_Permutation k st st' ii :
  bank_entries st' ii ≡ₚ bank_entries st ii -> conserved k st ii -> conserved k st' ii.
Proof. intros Hp [Hnd Hlen]. split; by rewrite Hp. Qed.

Lemma for_each_same_lists l body st st' :
  (forall ii s s', body ii s = Ok s' -> same_lists s s') ->
  for_each l body st = Ok st' -> same_lists st st'.
Proof.
  intros Hbody Hrun.
  eapply (for_each_invariant (same_lists st)); [| apply same_lists_refl | exact Hrun].
  intros ii s s' _ Hs Hb. apply same_lists_trans with s; [exact Hs | by apply (Hbody ii)].
Qed.

Section channel_lists.
Context (k : knobs) (now : Z).

Lemma channel_schedule_cmd_channel_lists ii st st' :
  channel_schedule_cmd_channel k now ii st = Ok st' -> same_lists st st'.
Proof.
  unfold channel_schedule_cmd_channel, current. intros H.
  ok_cases; simplify_eq; by unfold same_lists.
Qed.

Lemma data_bus_loop_lists ii fuel : forall st st',
  data_bus_loop k now ii fuel st = Ok st' -> same_lists st st'.
Proof.
  induction fuel as [| fuel IH]; intros st st' H; cbn in H.
  { simplify_eq. apply same_lists_refl. }
  destruct (avail_data_bus now ii st); [| simplify_eq; apply same_lists_refl].
  destruct (oldest_bank _ _ _ _ _) as [bank |]; [| simplify_eq; apply same_lists_refl].
  apply bind_Ok in H as (cur & _ & H).
  apply bind_Ok in H as (_ & _ & H).
  unfold acquire_data_bus in H.
  destruct (_ <? _) in H; cbn in H; apply IH in H; exact H.
Qed.

Lemma channel_schedule_lists st st' :
  channel_schedule k now st = Ok st' -> same_lists st st'.
Proof.
  unfold channel_schedule, channel_schedule_cmd, channel_schedule_data. intros H.
  apply bind_Ok in H as (s1 & H1 & H2).
  apply for_each_same_lists in H1; [| apply channel_schedule_cmd_channel_lists].
  apply for_each_same_lists in H2; [by apply same_lists_trans with s1 |].
  intros ii s s'. apply data_bus_loop_lists.
Qed.

End channel_lists.

(** *** Ingress *)

Lemma flush_prefetch_entries b st ii :
  bank_entries (flush_prefetch b st) ii ≡ₚ bank_entries st ii.
Proof.
  destruct (flush_prefetch_spec b st) as (Hfree & Hbuf & Hother & Hcur & _).
  unfold bank_entries. rewrite Hcur.
  destruct (decide (ii = b)) as [-> | Hne].
  - rewrite Hfree, Hbuf, <- !app_assoc. apply Permutation_app_head.
    rewrite !app_assoc. apply Permutation_app_tail.
    unfold prefetches. apply filter_app_complement.
  - destruct (Hother ii Hne) as [-> ->]. reflexivity.
Qed.

Lemma flushed_entries b st ii : bank_entries (flushed b st) ii ≡ₚ bank_entries st ii.
Proof.
  unfold flushed. destruct (m_buffer_free_list st b); [apply flush_prefetch_entries | done].
Qed.

Lemma insert_new_req_entries k now mem_req st ok st' ii :
  insert_new_req k now mem_req st = Ok (ok, st') ->
  bank_entries st' ii ≡ₚ bank_entries st ii.
Proof.
  intros Hrun.
  destruct (address_parsing k (Req.m_addr (mem st mem_req)))
    as [[[bid_xor cid] bid] rid] eqn:Hparse.
  destruct (insert_new_req_cases k now mem_req st bid_xor cid bid rid Hparse)
    as (Hneg & Hfull & Hadmit).
  set (b := Z.to_nat (interleave k bid bid_xor)) in *.
  destruct (Z.lt_ge_cases rid 0) as [Hlt | Hge]; [rewrite (Hneg Hlt) in Hrun; discriminate |].
  destruct (m_buffer_free_list (flushed b st) b) as [| new_entry rest] eqn:Hfree.
  - rewrite (Hfull Hge eq_refl) in Hrun. injection Hrun as <- <-. apply flushed_entries.
  - destruct (Hadmit Hge new_entry rest eq_refl)
      as (st2 & Hrun2 & Hfree2 & Hbuf2 & Hcur2 & _).
    rewrite Hrun2 in Hrun. injection Hrun as <- <-.
    rewrite <- (flushed_entries b st ii). unfold bank_entries.
    rewrite Hfree2, Hbuf2, Hcur2.
    destruct (decide (b = ii)) as [<- | Hne].
    + rewrite !fn_lookup_insert, Hfree. cbn.
      rewrite <- !app_assoc. cbn.
      rewrite (Permutation_middle rest). apply Permutation_app_head.
      symmetry. apply Permutation_middle.
    + rewrite !fn_lookup_insert_ne by done. reflexivity.
Qed.

(** *** Completion and merge *)

Lemma complete_current_entries ii cur st jj :
  m_current_list st ii = Some cur ->
  bank_entries (complete_current ii cur st) jj ≡ₚ bank_entries st jj.
Proof.
  intros Hcur. unfold bank_entries, complete_current. cbn.
  destruct (decide (ii = jj)) as [<- | Hne].
  - rewrite !fn_lookup_insert, Hcur. cbn.
    rewrite app_nil_r, <- app_assoc. apply Permutation_app_head.
    apply Permutation_app_comm.
  - rewrite !fn_lookup_insert_ne by done. reflexivity.
Qed.

Lemma merge_release_entries ii (P : drb_entry_ptr -> Prop) `{!forall x, Decision (P x)} st jj :
  bank_entries (merge_release ii (filter P (m_buffer st ii)) st) jj ≡ₚ bank_entries st jj.
Proof.
  destruct (merge_release_spec ii (filter P (m_buffer st ii)) st)
    as (Hfree & Hbuf & Hother & Hcur & _).
  unfold bank_entries. rewrite Hcur.
  destruct (decide (jj = ii)) as [-> | Hne].
  - rewrite Hfree, Hbuf, <- !app_assoc. apply Permutation_app_head.
    rewrite !app_assoc. apply Permutation_app_tail.
    rewrite (filter_iff_elem (λ y, y ∉ filter P (m_buffer st ii)) (λ y, ¬ P y)).
    + apply filter_app_complement.
    + intros y Hy. rewrite list_elem_of_filter. tauto.
  - destruct (Hother jj Hne) as [-> ->]. reflexivity.
Qed.

Lemma scan_frame_same_lists k st s : scan_frame k st s -> same_lists st s.
Proof. intros (_ & Hb & Hf & Hc & _). by unfold same_lists. Qed.

Lemma bank_schedule_complete_bank_entries k now noc ii st st' jj :
  bank_schedule_complete_bank k now noc ii st = Ok st' ->
  bank_entries st' jj ≡ₚ bank_entries st jj.
Proof.
  unfold bank_schedule_complete_bank. intros H.
  destruct (m_current_list st ii) as [cur |] eqn:Hcur; [| by simplify_eq].
  destruct (m_data_ready st ii <=? now); [| by simplify_eq].
  apply bind_Ok in H as (_ & _ & H).
  apply bind_Ok in H as ([stop s1] & Hmerge & H).
  assert (H1 : bank_entries s1 jj ≡ₚ bank_entries st jj /\ m_current_list s1 ii = Some cur).
  { destruct (KNOB_DRAM_MERGE_REQUESTS k); [| by simplify_eq].
    apply bind_Ok in Hmerge as ([[temp_list stop'] s0] & Hscan & Hrel).
    apply merge_scan_Ok in Hscan as (Hframe & Htemp & _). cbn in Htemp.
    injection Hrel as <- <-.
    pose proof (scan_frame_same_lists k st s0 Hframe) as Hsame.
    destruct (merge_release_spec ii temp_list s0) as (_ & _ & _ & Rcur & _).
    split; [| rewrite Rcur; destruct Hsame as (_ & _ & ->); exact Hcur].
    rewrite <- (same_lists_entries st s0 jj Hsame). subst temp_list.
    destruct Hsame as (Hb & _). rewrite <- Hb.
    apply merge_release_entries. }
  destruct H1 as [Hperm Hcur1].
  destruct stop; [by simplify_eq |].
  destruct (decide (type_of s1 cur = MRT_WB)).
  { simplify_eq. rewrite <- Hperm.
    exact (complete_current_entries ii cur (free_req (req_of s1 cur) s1) jj Hcur1). }
  apply bind_Ok in H as ([ok s2] & Hsend & H).
  apply send_packet_Ok in Hsend as (_ & Hframe2 & _).
  pose proof (scan_frame_same_lists k s1 s2 Hframe2) as Hsame2.
  rewrite <- Hperm, <- (same_lists_entries s1 s2 jj Hsame2).
  destruct ok; simplify_eq; [| reflexivity].
  assert (Hcur2 : m_current_list s2 ii = Some cur)
    by (destruct Hsame2 as (_ & _ & ->); exact Hcur1).
  exact (complete_current_entries ii cur
           (upd_mem (req_of s2 cur) (Req.set_m_state MEM_DRAM_DONE) s2) jj Hcur2).
Qed.

Lemma bank_schedule_complete_entries k now noc st st' jj :
  bank_schedule_complete k now noc st = Ok st' ->
  bank_entries st' jj ≡ₚ bank_entries st jj.
Proof.
  unfold bank_schedule_complete. intros Hrun.
  eapply (for_each_invariant (λ s, bank_entries s jj ≡ₚ bank_entries st jj));
    [| | exact Hrun]; [| reflexivity].
  intros ii s s' _ Hs Hb. cbv beta in *.
  by rewrite (bank_schedule_complete_bank_entries k now noc ii s s' jj Hb).
Qed.

(** *** Selection *)

Lemma remove_not_elem (x : drb_entry_ptr) l : x ∉ l -> remove x l = l.
Proof.
  intros Hx. unfold remove. apply filter_iff_elem_all. intros y Hy ->. contradiction.
Qed.

Lemma remove_Permutation (x : drb_entry_ptr) l :
  NoDup l -> x ∈ l -> x :: remove x l ≡ₚ l.
Proof.
  intros Hnd Hx. induction l as [| y l IH]; [by apply elem_of_nil in Hx |].
  apply NoDup_cons in Hnd as [Hy Hnd].
  destruct (decide (y = x)) as [-> | Hne].
  - unfold remove. rewrite filter_cons_False by tauto.
    fold (remove x l). by rewrite remove_not_elem.
  - apply elem_of_cons in Hx as [-> | Hx]; [done |].
    unfold remove. rewrite filter_cons_True by done. fold (remove x l).
    rewrite Permutation_swap. by rewrite IH.
Qed.

Lemma bank_schedule_new_bank_entries k now ii st st' jj :
  NoDup (bank_entries st jj) ->
  bank_schedule_new_bank k now ii st = Ok st' ->
  bank_entries st' jj ≡ₚ bank_entries st jj.
Proof.
  unfold bank_schedule_new_bank. intros Hnd H.
  destruct (bool_decide (m_buffer st ii = []) && bool_decide (m_current_list st ii = None))
    eqn:Hguard; [by simplify_eq |].
  destruct (m_current_list st ii) as [cur |] eqn:Hcur.
  { assert (same_lists st st') as Hsame.
    { ok_cases; simplify_eq; by unfold same_lists. }
    by rewrite (same_lists_entries st st' jj Hsame). }
  assert (Hne : m_buffer st ii ≠ []).
  { intros Hnil. rewrite Hnil in Hguard. discriminate. }
  destruct (schedule_Ok k ii st Hne) as (entry & Hsched & Hin).
  rewrite Hsched in H. cbn in H. injection H as <-.
  destruct (decide (ii = jj)) as [<- | Hjj].
  - unfold bank_entries in Hnd. rewrite Hcur in Hnd. cbn in Hnd. rewrite app_nil_r in Hnd.
    assert (Hpend : NoDup (m_buffer st ii)) by (apply NoDup_app in Hnd; tauto).
    assert (Hperm : forall pending,
              pending ≡ₚ m_buffer st ii ->
              m_buffer_free_list st ii ++ remove entry pending ++ [entry]
              ≡ₚ m_buffer_free_list st ii ++ m_buffer st ii ++ []).
    { intros pending Hp. rewrite app_nil_r. apply Permutation_app_head.
      rewrite <- Permutation_cons_append, <- Hp. apply remove_Permutation.
      - by rewrite Hp.
      - by rewrite Hp. }
    unfold bank_entries. rewrite Hcur.
    destruct (scheduler k); cbn; rewrite !fn_lookup_insert; cbn.
    + by apply Hperm.
    + apply Hperm, list_sort_Permutation.
  - unfold bank_entries. destruct (scheduler k); cbn;
      by rewrite !fn_lookup_insert_ne.
Qed.

Lemma bank_schedule_new_entries k now st st' jj :
  NoDup (bank_entries st jj) ->
  bank_schedule_new k now st = Ok st' ->
  bank_entries st' jj ≡ₚ bank_entries st jj.
Proof.
  unfold bank_schedule_new. intros Hnd Hrun.
  eapply (for_each_invariant (λ s, bank_entries s jj ≡ₚ bank_entries st jj));
    [| | exact Hrun]; [| reflexivity].
  intros ii s s' _ Hs Hb. cbv beta in *.
  rewrite <- Hs. apply (bank_schedule_new_bank_entries k now ii); [by rewrite Hs | exact Hb].
Qed.

(** *** The tick *)

Lemma receive_packet_entries k now st st' jj :
  receive_packet k now st = Ok st' ->
  bank_entries st' jj ≡ₚ bank_entries st jj.
Proof.
  unfold receive_packet. intros H.
  destruct (IRIS k); [| by simplify_eq].
  destruct (receive_queue st) as [| req rest]; [by simplify_eq |].
  apply bind_Ok in H as ([ok s1] & Hins & H).
  apply (insert_new_req_entries k now req st ok s1 jj) in Hins.
  destruct ok; simplify_eq; exact Hins.
Qed.

Lemma progress_check_lists k now st st' :
  progress_check k now st = Ok st' -> same_lists st st'.
Proof.
  rewrite progress_check_spec. intros H.
  destruct (decide (_ < 5000)); [| discriminate].
  injection H as <-. by unfold same_lists.
Qed.

Lemma run_a_cycle_entries k now noc st st' jj :
  NoDup (bank_entries st jj) ->
  run_a_cycle k now noc st = Ok st' ->
  bank_entries st' jj ≡ₚ bank_entries st jj.
Proof.
  unfold run_a_cycle, bank_schedule. intros Hnd H.
  apply bind_Ok in H as (s1 & H1 & H). apply bind_Ok in H as (s3 & H23 & H).
  apply bind_Ok in H23 as (s2 & H2 & H3). apply bind_Ok in H as (s4 & H4 & H5).
  apply channel_schedule_lists in H1.
  apply (bank_schedule_complete_entries k now noc s1 s2 jj) in H2.
  rewrite (same_lists_entries st s1 jj H1) in H2.
  apply (bank_schedule_new_entries k now s2 s3 jj) in H3; [| by rewrite H2].
  apply (receive_packet_entries k now s3 s4 jj) in H4.
  apply progress_check_lists in H5.
  by rewrite (same_lists_entries s4 st' jj H5), H4, H3.
Qed.

(** *** Construction *)

Lemma dram_controller_c_new_conserved k raw ii :
  (ii < Z.to_nat (m_num_bank k))%nat ->
  conserved k (dram_controller_c_new k raw) ii.
Proof.
  intros Hii. unfold conserved, bank_entries. cbn.
  rewrite decide_True by exact Hii. rewrite app_nil_r. unfold new_entries.
  split; [apply NoDup_seq | apply length_seq].
Qed.

Lemma reachable_conserved k st :
  reachable k st -> forall ii, (ii < Z.to_nat (m_num_bank k))%nat -> conserved k st ii.
Proof.
  induction 1 as [raw id noc_id | st now mem_req ok st' _ IH Hins
                  | st now noc st' _ IH Htick | st requests queue _ IH]; intros ii Hii.
  - exact (dram_controller_c_new_conserved k raw ii Hii).
  - apply (conserved_Permutation k st); [| by apply IH].
    by apply (insert_new_req_entries k now mem_req st ok).
  - apply (conserved_Permutation k st); [| by apply IH].
    apply (run_a_cycle_entries k now noc); [by apply IH | exact Htick].
  - exact (IH ii Hii).
Qed.

Lemma conserved_count k st ii :
  conserved k st ii ->
  (length (m_buffer_free_list st ii) + length (m_buffer st ii)
   + match m_current_list st ii with Some _ => 1 | None => 0 end)%nat
  = Z.to_nat (KNOB_DRAM_BUFFER_SIZE k).
Proof.
  intros [_ Hlen]. unfold bank_entries in Hlen. rewrite !length_app in Hlen.
  destruct (m_current_list st ii); cbn in Hlen; lia.
Qed.

Lemma conserved_disjoint k st ii e :
  conserved k st ii ->
  ¬ (e ∈ m_buffer_free_list st ii /\ e ∈ m_buffer st ii) /\
  ¬ (e ∈ m_buffer_free_list st ii /\ m_current_list st ii = Some e) /\
  ¬ (e ∈ m_buffer st ii /\ m_current_list st ii = Some e).
Proof.
  intros [Hnd _]. unfold bank_entries in Hnd.
  apply NoDup_app in Hnd as (_ & Hfree & Hnd).
  apply NoDup_app in Hnd as (_ & Hpend & _).
  split; [| split].
  - intros [Hf Hp]. apply (Hfree e Hf). apply elem_of_app. by left.
  - intros [Hf Hc]. apply (Hfree e Hf). apply elem_of_app. right. rewrite Hc. cbn. left.
  - intros [Hp Hc]. apply (Hpend e Hp). rewrite Hc. cbn. left.
Qed.

Lemma reachable_inserts k now rs : forall st st',
  reachable k st -> Example.inserts k now rs st = Ok st' -> reachable k st'.
Proof.
  induction rs as [| r rs IH]; intros st st' Hreach Hrun; cbn in Hrun.
  - by injection Hrun as <-.
  - apply bind_Ok in Hrun as ([ok s1] & Hins & Hrun).
    apply (IH s1 st'); [| exact Hrun].
    by apply (reachable_insert k st now r ok s1).
Qed.

Lemma reachable_ticks k noc cycles : forall st st',
  reachable k st -> Example.ticks k noc cycles st = Ok st' -> reachable k st'.
Proof.
  induction cycles as [| c cycles IH]; intros st st' Hreach Hrun; cbn in Hrun.
  - by injection Hrun as <-.
  - apply bind_Ok in Hrun as (s1 & Htick & Hrun).
    apply (IH s1 st'); [| exact Hrun].
    by apply (reachable_tick k st c noc s1).
Qed.

(** C4. For every bank the entries of the free list, of the pending list
    and the current entry, if any, are buffer_size in number, and no entry
    is in two of the three places.  This holds after construction, it is
    kept by ingress, by the prefetch flush, by the selection of a new
    request, by completion and merge and by a whole tick, and so it holds
    at every tick boundary of every run. *)
Theorem buffer_conservation (k : knobs) :
  (forall raw id noc_id ii,
     (ii < Z.to_nat (m_num_bank k))%nat ->
     conserved k (init id noc_id (dram_controller_c_new k raw)) ii) /\
  (forall st ii,
     conserved k st ii ->
     (forall now mem_req ok st',
        insert_new_req k now mem_req st = Ok (ok, st') -> conserved k st' ii) /\
     (forall bid, conserved k (flush_prefetch bid st) ii) /\
     (forall now st', bank_schedule_new k now st = Ok st' -> conserved k st' ii) /\
     (forall now noc st',
        bank_schedule_complete k now noc st = Ok st' -> conserved k st' ii) /\
     (forall now noc st', run_a_cycle k now noc st = Ok st' -> conserved k st' ii)) /\
  (forall st ii,
     conserved k st ii ->
     (length (m_buffer_free_list st ii) + length (m_buffer st ii)
      + match m_current_list st ii with Some _ => 1 | None => 0 end)%nat
     = Z.to_nat (KNOB_DRAM_BUFFER_SIZE k) /\
     forall e,
       ¬ (e ∈ m_buffer_free_list st ii /\ e ∈ m_buffer st ii) /\
       ¬ (e ∈ m_buffer_free_list st ii /\ m_current_list st ii = Some e) /\
       ¬ (e ∈ m_buffer st ii /\ m_current_list st ii = Some e)) /\
  (forall st,
     reachable k st ->
     forall ii, (ii < Z.to_nat (m_num_bank k))%nat -> conserved k st ii).
Proof.
  split; [| split; [| split]].
  - intros raw id noc_id ii Hii. exact (dram_controller_c_new_conserved k raw ii Hii).
  - intros st ii Hcons. split; [| split; [| split; [| split]]].
    + intros now mem_req ok st' Hrun.
      apply (conserved_Permutation k st); [| exact Hcons].
      by apply (insert_new_req_entries k now mem_req st ok).
    + intros bid. apply (conserved_Permutation k st); [| exact Hcons].
      apply flush_prefetch_entries.
    + intros now st' Hrun. apply (conserved_Permutation k st); [| exact Hcons].
      apply (bank_schedule_new_entries k now); [apply Hcons | exact Hrun].
    + intros now noc st' Hrun. apply (conserved_Permutation k st); [| exact Hcons].
      by apply (bank_schedule_complete_entries k now noc).
    + intros now noc st' Hrun. apply (conserved_Permutation k st); [| exact Hcons].
      apply (run_a_cycle_entries k now noc); [apply Hcons | exact Hrun].
  - intros st ii Hcons. split; [by apply conserved_count |].
    intros e. by apply (conserved_disjoint k).
  - apply reachable_conserved.
Qed.

Lemma buffer_conservation_witness :
  (0 < Z.to_nat (m_num_bank Example.k))%nat /\
  reachable Example.k Example.waiting /\
  conserved Example.k Example.waiting 0 /\
  (length (m_buffer_free_list Example.waiting 0%nat)
   + length (m_buffer Example.waiting 0%nat)
   + match m_current_list Example.waiting 0%nat with Some _ => 1 | None => 0 end)%nat
  = Z.to_nat (KNOB_DRAM_BUFFER_SIZE Example.k).
Proof.
  assert (Hbank : (0 < Z.to_nat (m_num_bank Example.k))%nat) by (vm_compute; lia).
  assert (Hreach : reachable Example.k Example.waiting).
  { apply (reachable_ticks Example.k Example.accept [0; 1; 11; 12; 17]
             (Example.state_of
                (Example.inserts Example.k 0 [1; 2; 3; 4]%nat Example.fresh))).
    - apply (reachable_inserts Example.k 0 [1; 2; 3; 4]%nat Example.fresh).
      + apply (reachable_new Example.k Example.raw 0 7).
      + vm_compute. reflexivity.
    - vm_compute. reflexivity. }
  destruct (buffer_conservation Example.k) as (_ & _ & Hcount & Hall).
  pose proof (Hall Example.waiting Hreach 0%nat Hbank) as Hcons.
  split; [exact Hbank |]. split; [exact Hreach |]. split; [exact Hcons |].
  exact (proj1 (Hcount Example.waiting 0%nat Hcons)).
Defined.

(** ** The bank of a pending entry *)

(** In every state of a run a pending entry carries the number of the bank
    whose list it is in, so that sort_func compares with the open row of
    that bank. *)

Lemma new_entries_disjoint bs ii jj e :
  e ∈ new_entries bs ii -> e ∈ new_entries bs jj -> ii = jj.
Proof.
  unfold new_entries. rewrite !elem_of_seq. intros [H1 H2] [H3 H4]. nia.
Qed.

Lemma owned_Permutation k st st' :
  (forall ii, bank_entries st' ii ≡ₚ bank_entries st ii) -> owned k st -> owned k st'.
Proof.
  intros Hp Hown ii. destruct (Hown ii) as [Hnd Hin]. split.
  - by rewrite (Hp ii).
  - intros e He. apply Hin. by rewrite <- (Hp ii).
Qed.

Lemma owned_new k raw : owned k (dram_controller_c_new k raw).
Proof.
  intros ii. unfold bank_entries. cbn. rewrite app_nil_r.
  destruct (decide (ii < Z.to_nat (m_num_bank k))%nat).
  - split; [apply NoDup_seq | done].
  - split; [apply NoDup_nil_2 | intros e He; by apply elem_of_nil in He].
Qed.

Lemma owned_elsewhere k st ii jj e :
  owned k st -> e ∈ bank_entries st ii -> e ∈ bank_entries st jj -> ii = jj.
Proof.
  intros Hown Hi Hj.
  apply (new_entries_disjoint (Z.to_nat (KNOB_DRAM_BUFFER_SIZE k)) ii jj e).
  - by apply (Hown ii).
  - by apply (Hown jj).
Qed.

Lemma same_banks_refl st : same_banks st st.
Proof. by intros e. Qed.

Lemma same_banks_trans s1 s2 s3 : same_banks s1 s2 -> same_banks s2 s3 -> same_banks s1 s3.
Proof. intros H1 H2 e. by rewrite (H2 e). Qed.

Lemma upd_drb_state_banks p s st : same_banks st (upd_drb p (set_m_state s) st).
Proof.
  intros e. unfold upd_drb. cbn.
  destruct (decide (e = p)) as [-> | Hne];
    [by rewrite fn_lookup_insert | by rewrite fn_lookup_insert_ne].
Qed.

Lemma upd_drb_scheduled_banks p c st : same_banks st (upd_drb p (set_m_scheduled c) st).
Proof.
  intros e. unfold upd_drb. cbn.
  destruct (decide (e = p)) as [-> | Hne];
    [by rewrite fn_lookup_insert | by rewrite fn_lookup_insert_ne].
Qed.

Lemma tagged_frame st st' :
  same_lists st st' -> same_banks st st' -> tagged st -> tagged st'.
Proof.
  intros (Hb & _) Hbid Htag ii e He. rewrite Hbid. apply Htag. by rewrite <- Hb.
Qed.

Lemma for_each_same_banks l body st st' :
  (forall ii s s', body ii s = Ok s' -> same_banks s s') ->
  for_each l body st = Ok st' -> same_banks st st'.
Proof.
  intros Hbody Hrun.
  eapply (for_each_invariant (same_banks st)); [| apply same_banks_refl | exact Hrun].
  intros ii s s' _ Hs Hb. apply same_banks_trans with s; [exact Hs | by apply (Hbody ii)].
Qed.

Section channel_banks.
Context (k : knobs) (now : Z).

Lemma channel_schedule_cmd_channel_banks ii st st' :
  channel_schedule_cmd_channel k now ii st = Ok st' -> same_banks st st'.
Proof.
  unfold channel_schedule_cmd_channel, current. intros H.
  ok_cases; simplify_eq; try apply same_banks_refl;
    match goal with |- same_banks _ (upd_drb ?p (set_m_state ?s) ?st) =>
      exact (upd_drb_state_banks p s st) end.
Qed.

Lemma data_bus_loop_banks ii fuel : forall st st',
  data_bus_loop k now ii fuel st = Ok st' -> same_banks st st'.
Proof.
  induction fuel as [| fuel IH]; intros st st' H; cbn in H.
  { simplify_eq. apply same_banks_refl. }
  destruct (avail_data_bus now ii st); [| simplify_eq; apply same_banks_refl].
  destruct (oldest_bank _ _ _ _ _) as [bank |]; [| simplify_eq; apply same_banks_refl].
  apply bind_Ok in H as (cur & _ & H).
  apply bind_Ok in H as (_ & _ & H).
  unfold acquire_data_bus in H.
  destruct (_ <? _) in H; cbn in H; apply IH in H;
    intros e; rewrite (H e); exact (upd_drb_state_banks _ _ _ e).
Qed.

Lemma channel_schedule_banks st st' :
  channel_schedule k now st = Ok st' -> same_banks st st'.
Proof.
  unfold channel_schedule, channel_schedule_cmd, channel_schedule_data. intros H.
  apply bind_Ok in H as (s1 & H1 & H2).
  apply for_each_same_banks in H1; [| apply channel_schedule_cmd_channel_banks].
  apply for_each_same_banks in H2; [by apply same_banks_trans with s1 |].
  intros ii s s'. apply data_bus_loop_banks.
Qed.

End channel_banks.

(** *** Ingress *)

Lemma bank_of_request k addr bid_xor cid bid rid :
  KNOB_DRAM_NUM_BANKS k < 2 ^ 31 ->
  address_parsing k addr = (bid_xor, cid, bid, rid) ->
  0 <= interleave k bid bid_xor.
Proof.
  intros Hk Hparse. unfold address_parsing, m_bid_mask, N_BIT_MASK, log2_int in Hparse.
  injection Hparse as <- _ <- _.
  set (n := Z.log2 (KNOB_DRAM_NUM_BANKS k)).
  assert (Hn : 0 <= n < 31).
  { split; [apply Z.log2_nonneg |]. unfold n.
    destruct (Z.le_gt_cases (KNOB_DRAM_NUM_BANKS k) 0) as [Hle | Hgt].
    - rewrite Z.log2_nonpos by exact Hle. lia.
    - by apply Z.log2_lt_pow2. }
  assert (Hmod : forall x, 0 <= to_int (Z.land x (Z.ones n))).
  { intros x. rewrite Z.land_ones by lia.
    assert (0 < 2 ^ n <= 2 ^ 30)
      by (split; [apply Z.pow_pos_nonneg; lia | apply Z.pow_le_mono_r; lia]).
    pose proof (Z.mod_pos_bound x (2 ^ n)).
    rewrite to_int_small; lia. }
  unfold interleave. destruct (KNOB_DRAM_BANK_XOR_INDEX k); [| apply Hmod].
  apply Z.lxor_nonneg. split; intros _; apply Hmod.
Qed.

Lemma flushed_tagged b st : tagged st -> tagged (flushed b st).
Proof.
  intros Htag. unfold flushed. destruct (m_buffer_free_list st b); [| exact Htag].
  destruct (flush_prefetch_spec b st) as (_ & Hbuf & Hother & _ & _ & _ & Hdrb & _).
  intros ii e He. rewrite Hdrb. apply Htag.
  destruct (decide (ii = b)) as [-> | Hne].
  - rewrite Hbuf in He. by apply list_elem_of_filter in He as [_ He].
  - by rewrite (proj2 (Hother ii Hne)) in He.
Qed.

Lemma insert_new_req_tagged k now mem_req st ok st' :
  KNOB_DRAM_NUM_BANKS k < 2 ^ 31 ->
  owned k st -> tagged st ->
  insert_new_req k now mem_req st = Ok (ok, st') -> tagged st'.
Proof.
  intros Hk Hown Htag Hrun.
  destruct (address_parsing k (Req.m_addr (mem st mem_req)))
    as [[[bid_xor cid] bid] rid] eqn:Hparse.
  pose proof (bank_of_request k _ bid_xor cid bid rid Hk Hparse) as Hbank.
  destruct (insert_new_req_cases k now mem_req st bid_xor cid bid rid Hparse)
    as (Hneg & Hfull & Hadmit).
  set (b := Z.to_nat (interleave k bid bid_xor)) in *.
  destruct (Z.lt_ge_cases rid 0) as [Hlt | Hge]; [rewrite (Hneg Hlt) in Hrun; discriminate |].
  pose proof (flushed_tagged b st Htag) as Hftag.
  assert (Hfown : owned k (flushed b st)).
  { apply (owned_Permutation k st); [| exact Hown]. intros ii. apply flushed_entries. }
  destruct (flushed_mem b st) as (_ & Hdrb & _).
  destruct (m_buffer_free_list (flushed b st) b) as [| new_entry rest] eqn:Hfree.
  { rewrite (Hfull Hge eq_refl) in Hrun. injection Hrun as <- <-. exact Hftag. }
  destruct (Hadmit Hge new_entry rest eq_refl)
    as (st2 & Hrun2 & _ & Hbuf2 & _ & _ & _ & _ & Hpop & Hframe).
  rewrite Hrun2 in Hrun. injection Hrun as <- <-.
  assert (Hnew : new_entry ∈ bank_entries (flushed b st) b).
  { unfold bank_entries. rewrite Hfree. left. }
  assert (Hfresh : forall ii e, e ∈ m_buffer (flushed b st) ii -> e ≠ new_entry).
  { intros ii e He ->.
    assert (ii = b) as ->.
    { apply (owned_elsewhere k (flushed b st) ii b new_entry Hfown); [| exact Hnew].
      unfold bank_entries. apply elem_of_app. right. apply elem_of_app. by left. }
    destruct (Hfown b) as [Hnd _]. unfold bank_entries in Hnd. rewrite Hfree in Hnd.
    cbn in Hnd. apply NoDup_cons in Hnd as [Hnotin _]. apply Hnotin.
    apply elem_of_app. right. apply elem_of_app. by left. }
  assert (Hold : forall ii e, e ∈ m_buffer (flushed b st) ii ->
                              m_bid (drb st2 e) = Z.of_nat ii).
  { intros ii e He. rewrite (Hframe e (Hfresh ii e He)), <- Hdrb. by apply Hftag. }
  intros ii e He. rewrite Hbuf2 in He.
  destruct (decide (b = ii)) as [<- | Hne].
  - rewrite fn_lookup_insert in He. apply elem_of_app in He as [He | He].
    + by apply Hold.
    + apply list_elem_of_singleton in He as ->.
      destruct Hpop as (_ & _ & -> & _). unfold b. by rewrite Z2Nat.id.
  - rewrite fn_lookup_insert_ne in He by done. by apply Hold.
Qed.

(** *** Completion and merge *)

Lemma tagged_elsewhere st ii jj e :
  tagged st -> e ∈ m_buffer st ii -> e ∈ m_buffer st jj -> ii = jj.
Proof.
  intros Htag Hi Hj. apply Nat2Z.inj. by rewrite <- (Htag ii e Hi), <- (Htag jj e Hj).
Qed.

Lemma merge_release_tagged ii temp_list st :
  (forall e, e ∈ temp_list -> e ∈ m_buffer st ii) ->
  tagged st -> tagged (merge_release ii temp_list st).
Proof.
  intros Hsub Htag jj e He.
  destruct (merge_release_spec ii temp_list st) as (_ & Hbuf & Hother & _ & _ & Hdrb & _).
  assert (Hin : e ∈ m_buffer st jj /\ e ∉ temp_list).
  { destruct (decide (jj = ii)) as [-> | Hne].
    - rewrite Hbuf in He. apply list_elem_of_filter in He. tauto.
    - rewrite (proj2 (Hother jj Hne)) in He. split; [exact He |].
      intros Ht. apply Hne. exact (tagged_elsewhere st jj ii e Htag He (Hsub e Ht)). }
  rewrite Hdrb, decide_False by tauto. apply Htag. tauto.
Qed.

Lemma complete_current_tagged k ii cur st :
  owned k st -> m_current_list st ii = Some cur ->
  tagged st -> tagged (complete_current ii cur st).
Proof.
  intros Hown Hcur Htag jj e He. unfold complete_current in *. cbn in *.
  assert (Hne : e ≠ cur).
  { intros ->.
    assert (Hc : cur ∈ bank_entries st ii).
    { unfold bank_entries. rewrite Hcur. rewrite !elem_of_app. right. right. left. }
    assert (jj = ii) as ->.
    { apply (owned_elsewhere k st jj ii cur Hown); [| exact Hc].
      unfold bank_entries. rewrite !elem_of_app. right. by left. }
    destruct (Hown ii) as [Hnd _]. unfold bank_entries in Hnd. rewrite Hcur in Hnd.
    apply NoDup_app in Hnd as (_ & _ & Hnd). apply NoDup_app in Hnd as (_ & Hnd & _).
    apply (Hnd cur He). left. }
  rewrite fn_lookup_insert_ne by done. by apply Htag.
Qed.

Lemma bank_schedule_complete_bank_tagged k now noc ii st st' :
  owned k st -> tagged st ->
  bank_schedule_complete_bank k now noc ii st = Ok st' -> tagged st'.
Proof.
  unfold bank_schedule_complete_bank. intros Hown Htag H.
  destruct (m_current_list st ii) as [cur |] eqn:Hcur; [| by simplify_eq].
  destruct (m_data_ready st ii <=? now); [| by simplify_eq].
  apply bind_Ok in H as (_ & _ & H).
  apply bind_Ok in H as ([stop s1] & Hmerge & H).
  assert (H1 : owned k s1 /\ tagged s1 /\ m_current_list s1 ii = Some cur).
  { destruct (KNOB_DRAM_MERGE_REQUESTS k); [| by simplify_eq].
    apply bind_Ok in Hmerge as ([[temp_list stop'] s0] & Hscan & Hrel).
    apply merge_scan_Ok in Hscan as (Hframe & Htemp & _). cbn in Htemp.
    injection Hrel as <- <-.
    pose proof (scan_frame_same_lists k st s0 Hframe) as Hsame.
    destruct (merge_release_spec ii temp_list s0) as (_ & _ & _ & Rcur & _).
    pose proof Hsame as (Hb & _ & Hc).
    split; [| split; [| by rewrite Rcur, Hc]].
    - apply (owned_Permutation k st); [| exact Hown]. intros jj.
      rewrite <- (same_lists_entries st s0 jj Hsame). subst temp_list.
      rewrite <- Hb. apply merge_release_entries.
    - apply merge_release_tagged.
      + intros e He. subst temp_list. apply list_elem_of_filter in He as [_ He].
        by rewrite Hb.
      + apply (tagged_frame st s0 Hsame); [| exact Htag].
        intros e. by destruct Hframe as (-> & _). }
  destruct H1 as (Hown1 & Htag1 & Hcur1).
  destruct stop; [by simplify_eq |].
  destruct (decide (type_of s1 cur = MRT_WB)).
  { simplify_eq.
    exact (complete_current_tagged k ii cur (free_req (req_of s1 cur) s1) Hown1 Hcur1 Htag1). }
  apply bind_Ok in H as ([ok s2] & Hsend & H).
  apply send_packet_Ok in Hsend as (_ & Hframe2 & _).
  pose proof (scan_frame_same_lists k s1 s2 Hframe2) as Hsame2.
  assert (Htag2 : tagged s2).
  { apply (tagged_frame s1 s2 Hsame2); [| exact Htag1].
    intros e. by destruct Hframe2 as (-> & _). }
  destruct ok; simplify_eq; [| exact Htag2].
  assert (Hcur2 : m_current_list s2 ii = Some cur)
    by (destruct Hsame2 as (_ & _ & ->); exact Hcur1).
  assert (Hown2 : owned k s2).
  { apply (owned_Permutation k s1); [| exact Hown1].
    intros jj. by rewrite (same_lists_entries s1 s2 jj Hsame2). }
  exact (complete_current_tagged k ii cur
           (upd_mem (req_of s2 cur) (Req.set_m_state MEM_DRAM_DONE) s2) Hown2 Hcur2 Htag2).
Qed.

Lemma bank_schedule_complete_tagged k now noc st st' :
  owned k st -> tagged st ->
  bank_schedule_complete k now noc st = Ok st' -> tagged st'.
Proof.
  unfold bank_schedule_complete. intros Hown Htag Hrun.
  eapply (for_each_invariant (λ s, owned k s /\ tagged s));
    [| | exact Hrun]; [| split; [exact Hown | exact Htag]].
  intros ii s s' _ [Hs Ht] Hb. split.
  - apply (owned_Permutation k s); [| exact Hs].
    intros jj. by apply (bank_schedule_complete_bank_entries k now noc ii).
  - by apply (bank_schedule_complete_bank_tagged k now noc ii s).
Qed.

(** *** Selection *)

Lemma bank_schedule_new_bank_tagged k now ii st st' :
  bank_schedule_new_bank k now ii st = Ok st' -> tagged st -> tagged st'.
Proof.
  unfold bank_schedule_new_bank. intros H Htag.
  destruct (bool_decide (m_buffer st ii = []) && bool_decide (m_current_list st ii = None))
    eqn:Hguard; [by simplify_eq |].
  destruct (m_current_list st ii) as [cur |] eqn:Hcur.
  { destruct (_ && _) in H; [| by simplify_eq].
    apply bind_Ok in H as (_ & _ & H). injection H as <-.
    intros jj e He. cbn in He. etrans; [| exact (Htag jj e He)].
    exact (upd_drb_state_banks cur DRAM_CMD _ e). }
  assert (Hne : m_buffer st ii ≠ []).
  { intros Hnil. rewrite Hnil in Hguard. discriminate. }
  destruct (schedule_Ok k ii st Hne) as (entry & Hsched & Hin).
  rewrite Hsched in H. cbn in H. injection H as <-.
  intros jj e He.
  assert (Hold : e ∈ m_buffer st jj).
  { destruct (decide (ii = jj)) as [<- | Hjj].
    - destruct (scheduler k); cbn in He; rewrite !fn_lookup_insert in He;
        apply list_elem_of_filter in He as [_ He]; [exact He |].
      by apply (list_sort_elem_of (sort_func st)).
    - destruct (scheduler k); cbn in He; by rewrite !fn_lookup_insert_ne in He. }
  rewrite <- (Htag jj e Hold).
  etrans; [exact (upd_drb_scheduled_banks entry now _ e) |].
  etrans; [exact (upd_drb_state_banks entry DRAM_CMD _ e) |].
  by destruct (scheduler k).
Qed.

Lemma bank_schedule_new_tagged k now st st' :
  bank_schedule_new k now st = Ok st' -> tagged st -> tagged st'.
Proof.
  unfold bank_schedule_new. intros Hrun Htag.
  eapply (for_each_invariant tagged); [| exact Htag | exact Hrun].
  intros ii s s' _ Hs Hb. by apply (bank_schedule_new_bank_tagged k now ii s).
Qed.

(** *** The tick and the runs *)

Lemma receive_packet_tagged k now st st' :
  KNOB_DRAM_NUM_BANKS k < 2 ^ 31 ->
  owned k st -> tagged st ->
  receive_packet k now st = Ok st' -> tagged st'.
Proof.
  unfold receive_packet. intros Hk Hown Htag H.
  destruct (IRIS k); [| by simplify_eq].
  destruct (receive_queue st) as [| req rest]; [by simplify_eq |].
  apply bind_Ok in H as ([ok s1] & Hins & H).
  apply (insert_new_req_tagged k now req st ok s1 Hk Hown Htag) in Hins.
  destruct ok; simplify_eq; exact Hins.
Qed.

Lemma run_a_cycle_tagged k now noc st st' :
  KNOB_DRAM_NUM_BANKS k < 2 ^ 31 ->
  owned k st -> tagged st ->
  run_a_cycle k now noc st = Ok st' -> tagged st'.
Proof.
  unfold run_a_cycle, bank_schedule. intros Hk Hown Htag H.
  apply bind_Ok in H as (s1 & H1 & H). apply bind_Ok in H as (s3 & H23 & H).
  apply bind_Ok in H23 as (s2 & H2 & H3). apply bind_Ok in H as (s4 & H4 & H5).
  pose proof (channel_schedule_lists k now st s1 H1) as L1.
  assert (Hown1 : owned k s1).
  { apply (owned_Permutation k st); [| exact Hown].
    intros jj. by rewrite (same_lists_entries st s1 jj L1). }
  assert (Htag1 : tagged s1).
  { apply (tagged_frame st s1 L1); [| exact Htag]. by apply (channel_schedule_banks k now). }
  assert (Hown2 : owned k s2).
  { apply (owned_Permutation k s1); [| exact Hown1].
    intros jj. by apply (bank_schedule_complete_entries k now noc). }
  pose proof (bank_schedule_complete_tagged k now noc s1 s2 Hown1 Htag1 H2) as Htag2.
  assert (Hown3 : owned k s3).
  { apply (owned_Permutation k s2); [| exact Hown2].
    intros jj. apply (bank_schedule_new_entries k now); [apply Hown2 | exact H3]. }
  pose proof (bank_schedule_new_tagged k now s2 s3 H3 Htag2) as Htag3.
  pose proof (receive_packet_tagged k now s3 s4 Hk Hown3 Htag3 H4) as Htag4.
  rewrite progress_check_spec in H5.
  destruct (decide (_ < 5000)); [| discriminate].
  injection H5 as <-. exact Htag4.
Qed.

Lemma reachable_owned k st : reachable k st -> owned k st.
Proof.
  induction 1 as [raw id noc_id | st now mem_req ok st' _ IH Hins
                  | st now noc st' _ IH Htick | st requests queue _ IH].
  - exact (owned_new k raw).
  - apply (owned_Permutation k st); [| exact IH].
    intros ii. by apply (insert_new_req_entries k now mem_req st ok).
  - apply (owned_Permutation k st); [| exact IH].
    intros ii. apply (run_a_cycle_entries k now noc); [apply IH | exact Htick].
  - exact IH.
Qed.

Lemma reachable_tagged k st :
  KNOB_DRAM_NUM_BANKS k < 2 ^ 31 -> reachable k st -> tagged st.
Proof.
  intros Hk. induction 1 as [raw id noc_id | st now mem_req ok st' Hreach IH Hins
                  | st now noc st' Hreach IH Htick | st requests queue _ IH].
  - intros ii e He. by apply elem_of_nil in He.
  - exact (insert_new_req_tagged k now mem_req st ok st' Hk (reachable_owned k st Hreach) IH Hins).
  - exact (run_a_cycle_tagged k now noc st st' Hk (reachable_owned k st Hreach) IH Htick).
  - exact IH.
Qed.

(** ** The loop of the data bus ends *)

Lemma filter_length_lt {A : Type} (P Q : A -> Prop)
    `{!forall x, Decision (P x), !forall x, Decision (Q x)} (l : list A) b :
  (forall x, x ∈ l -> Q x -> P x) ->
  b ∈ l -> P b -> ¬ Q b ->
  (length (filter Q l) < length (filter P l))%nat.
Proof.
  intros Himp Hb HPb HQb.
  assert (Hle : forall l', (forall x, x ∈ l' -> Q x -> P x) ->
                           (length (filter Q l') <= length (filter P l'))%nat).
  { induction l' as [| a l' IH]; intros Hl'; [cbn; lia |].
    rewrite !filter_cons.
    pose proof (IH (fun x Hx => Hl' x (list_elem_of_further _ _ _ Hx))) as IH'.
    pose proof (Hl' a (list_elem_of_here _ _)) as Ha.
    destruct (decide (Q a)), (decide (P a)); cbn; try lia. tauto. }
  induction l as [| a l IH]; [by apply elem_of_nil in Hb |].
  rewrite !filter_cons.
  pose proof (Hle l (fun x Hx => Himp x (list_elem_of_further _ _ _ Hx))) as Hl.
  apply elem_of_cons in Hb as [<- | Hb].
  - rewrite decide_False, decide_True by done. cbn. lia.
  - pose proof (IH (fun x Hx => Himp x (list_elem_of_further _ _ _ Hx)) Hb) as IH'.
    pose proof (Himp a (list_elem_of_here _ _)) as Ha.
    destruct (decide (Q a)), (decide (P a)); cbn; try lia. tauto.
Qed.

(** A turn of the loop that hands the bus to [bank] takes the bank out of
    the banks that wait, and lets no bank in. *)
Lemma data_bus_turn_pending k now ii st bank cur jjs :
  oldest_bank (data_ready now st) (m_bank_timestamp st) jjs ULLONG_MAX None = Some bank ->
  m_current_list st bank = Some cur ->
  let st1 := upd_mem (req_of st cur) (Req.set_m_state MEM_DRAM_DATA) st in
  let st2 := (acquire_data_bus k now ii (m_size (drb st1 cur))
                (Req.m_ptx (mem st1 (req_of st1 cur))) st1).2 in
  let st3 := set_m_data_ready
               (<[bank := (acquire_data_bus k now ii (m_size (drb st1 cur))
                             (Req.m_ptx (mem st1 (req_of st1 cur))) st1).1]>
                  (m_data_ready st2)) st2 in
  let st4 := set_m_data_avail (<[bank := ULLONG_MAX]> (m_data_avail st3)) st3 in
  let st5 := upd_drb cur (set_m_state DRAM_DATA_WAIT) st4 in
  (data_pending now st5 jjs < data_pending now st jjs)%nat.
Proof.
  intros Hsel Hcur st1 st2 st3 st4 st5.
  destruct (oldest_bank_None_ready _ _ _ _ Hsel) as [Hin Hready].
  assert (Hst5 : m_current_list st5 = m_current_list st /\
                 drb st5 = <[cur := set_m_state DRAM_DATA_WAIT (drb st cur)]> (drb st) /\
                 m_data_avail st5 = <[bank := ULLONG_MAX]> (m_data_avail st)).
  { subst st5 st4 st3 st2 st1. unfold acquire_data_bus.
    destruct (_ <? _); cbn; done. }
  destruct Hst5 as (Hc5 & Hd5 & Ha5).
  assert (Hready5 : forall jj, data_ready now st5 jj = true ->
                               data_ready now st jj = true /\ jj ≠ bank).
  { intros jj. unfold data_ready. rewrite Hc5, Hd5, Ha5.
    destruct (m_current_list st jj) as [e |] eqn:He; [| discriminate].
    destruct (decide (cur = e)) as [<- | Hne].
    - rewrite fn_lookup_insert. cbn. discriminate.
    - rewrite fn_lookup_insert_ne by done. intros Hr.
      assert (jj ≠ bank) as Hjj by (intros ->; congruence).
      rewrite fn_lookup_insert_ne in Hr by done. done. }
  unfold data_pending.
  apply (filter_length_lt _ _ jjs bank).
  - intros jj _ Hr. by apply Hready5.
  - exact Hin.
  - exact Hready.
  - intros Hr. by apply Hready5 in Hr as [_ ?].
Qed.

(** Fuel beyond the number of waiting banks is never used: the loop of
    channel_schedule_data, which starts with more fuel than the channel has
    banks, ends by itself. *)
Lemma data_bus_loop_fuel k now ii : forall fuel st extra,
  (data_pending now st (channel_banks k ii) < fuel)%nat ->
  data_bus_loop k now ii (fuel + extra) st = data_bus_loop k now ii fuel st.
Proof.
  induction fuel as [| fuel IH]; intros st extra Hlt; [lia |].
  cbn [Nat.add data_bus_loop].
  destruct (avail_data_bus now ii st); [| reflexivity].
  destruct (oldest_bank _ _ _ _ _) as [bank |] eqn:Hsel; [| reflexivity].
  unfold current. destruct (m_current_list st bank) as [cur |] eqn:Hcur; [| reflexivity].
  cbn [mbind result_bind].
  destruct (ASSERT 709 _); [| reflexivity]. cbn [mbind result_bind].
  pose proof (data_bus_turn_pending k now ii st bank cur _ Hsel Hcur) as Hturn.
  cbv zeta in Hturn.
  destruct (acquire_data_bus k now ii _ _ _) as [latency st2] eqn:Hacq.
  cbn [fst snd] in Hturn. apply IH. lia.
Qed.

Lemma channel_schedule_data_fuel k now ii st extra :
  data_bus_loop k now ii (S (length (channel_banks k ii)) + extra) st
  = data_bus_loop k now ii (S (length (channel_banks k ii))) st.
Proof.
  apply data_bus_loop_fuel. unfold data_pending.
  pose proof (length_filter (λ jj, data_ready now st jj = true) (channel_banks k ii)).
  lia.
Qed.

(** * Further properties *)

(** ** Entries of different banks *)

Lemma owned_idle_current k st ii jj cur e :
  owned k st -> m_current_list st ii = Some cur ->
  e ∈ m_buffer_free_list st jj ++ m_buffer st jj -> e ≠ cur.
Proof.
  intros Hown Hcur He ->.
  assert (Hc : cur ∈ bank_entries st ii).
  { unfold bank_entries. rewrite Hcur, !elem_of_app. right. right. left. }
  assert (He' : cur ∈ bank_entries st jj).
  { unfold bank_entries. rewrite app_assoc. apply elem_of_app. by left. }
  assert (jj = ii) as -> by exact (owned_elsewhere k st jj ii cur Hown He' Hc).
  destruct (Hown ii) as [Hnd _]. unfold bank_entries in Hnd.
  rewrite Hcur, app_assoc in Hnd. apply NoDup_app in Hnd as (_ & Hnd & _).
  apply (Hnd cur He). left.
Qed.

Lemma owned_current_inj k st ii jj cur :
  owned k st -> m_current_list st ii = Some cur -> m_current_list st jj = Some cur -> ii = jj.
Proof.
  intros Hown Hi Hj. apply (owned_elsewhere k st ii jj cur Hown);
    unfold bank_entries; rewrite ?Hi, ?Hj, !elem_of_app; right; right; left.
Qed.

Lemma owned_same_lists k st st' : same_lists st st' -> owned k st -> owned k st'.
Proof.
  intros Hsame. apply owned_Permutation. intros ii.
  by rewrite (same_lists_entries st st' ii Hsame).
Qed.

(** ** The life of an entry *)

Lemma sentinels_current_step k st st' bank cur s :
  owned k st -> sentinels st ->
  current_step st st' bank cur s ->
  s ≠ DRAM_INIT ->
  (m_data_ready st' bank ≠ ULLONG_MAX -> s = DRAM_DATA_WAIT) ->
  (m_data_avail st' bank ≠ ULLONG_MAX -> s = DRAM_DATA) ->
  (s = DRAM_DATA \/ s = DRAM_DATA_WAIT \/ (s = DRAM_CMD_WAIT /\ m_current_rid st' bank ≠ -1) ->
   m_current_rid st' bank = m_rid (drb st cur)) ->
  sentinels st'.
Proof.
  intros Hown Hinv (Hcur & Hsame & Hdrb & Hother) Hs Hready Havail Hrow ii.
  destruct (Hinv ii) as [Hidle Hc].
  pose proof Hsame as (Hb & Hf & Hcl).
  unfold bank_sentinels. rewrite Hb, Hf, Hcl, Hdrb. split.
  - intros e He. rewrite fn_lookup_insert_ne; [by apply Hidle |].
    intros <-. by apply (owned_idle_current k st bank ii cur cur Hown Hcur He).
  - destruct (decide (ii = bank)) as [-> | Hne].
    + rewrite Hcur, fn_lookup_insert. unfold activated. cbn. done.
    + destruct (Hother ii Hne) as (-> & -> & ->).
      destruct (m_current_list st ii) as [c |] eqn:Hci; [| exact Hc].
      rewrite fn_lookup_insert_ne; [exact Hc |].
      intros <-. apply Hne. symmetry. exact (owned_current_inj k st bank ii cur Hown Hcur Hci).
Qed.

(** What one turn of the loop of channel_schedule_cmd does. *)
Lemma channel_schedule_cmd_channel_step k now ii st st' :
  channel_schedule_cmd_channel k now ii st = Ok st' ->
  (oldest_bank (cmd_ready st) (m_bank_timestamp st) (channel_banks k ii) ULLONG_MAX None = None /\
   st' = st) \/
  exists bank cur s,
    oldest_bank (cmd_ready st) (m_bank_timestamp st) (channel_banks k ii) ULLONG_MAX None
    = Some bank /\
    m_state (drb st cur) = DRAM_CMD /\
    current_step st st' bank cur s /\
    m_data_ready st' = m_data_ready st /\
    m_total_req st' = m_total_req st /\
    (forall jj, jj ≠ bank ->
       m_current_rid st' jj = m_current_rid st jj /\ m_bank_ready st' jj = m_bank_ready st jj) /\
    ((m_current_rid st bank = -1 /\ s = DRAM_CMD_WAIT /\
      m_current_rid st' bank = m_rid (drb st cur) /\ m_data_avail st' bank = ULLONG_MAX) \/
     (m_current_rid st bank ≠ -1 /\ m_rid (drb st cur) = m_current_rid st bank /\
      s = DRAM_DATA /\ m_current_rid st' bank = m_current_rid st bank /\
      m_data_avail st' bank = m_bank_ready st' bank) \/
     (m_current_rid st bank ≠ -1 /\ m_rid (drb st cur) ≠ m_current_rid st bank /\
      s = DRAM_CMD_WAIT /\ m_current_rid st' bank = -1 /\
      m_data_avail st' bank = ULLONG_MAX)).
Proof.
  unfold channel_schedule_cmd_channel. intros H.
  destruct (oldest_bank _ _ _ _ _) as [bank |] eqn:Hsel; [| left; by simplify_eq].
  right. unfold current in H.
  destruct (m_current_list st bank) as [cur |] eqn:Hcur; [| discriminate].
  cbn in H. apply bind_Ok in H as ([] & Hassert & H).
  apply ASSERT_Ok, bool_decide_eq_true in Hassert.
  destruct (Z.eqb_spec (m_current_rid st bank) (-1)) as [Hclosed | Hopen].
  { injection H as <-. exists bank, cur, DRAM_CMD_WAIT.
    split; [reflexivity |]. split; [exact Hassert |]. split.
    { unfold current_step, same_lists. cbn. split; [exact Hcur |]. split; [done |].
      split; [reflexivity |]. intros jj Hjj. by rewrite ?fn_lookup_insert_ne by done. }
    cbn. split; [reflexivity |]. split; [reflexivity |]. split.
    { intros jj Hjj. by rewrite !fn_lookup_insert_ne. }
    left. by rewrite !fn_lookup_insert. }
  destruct (Z.eqb_spec (m_rid (drb st cur)) (m_current_rid st bank)) as [Hhit | Hmiss].
  { injection H as <-. exists bank, cur, DRAM_DATA.
    split; [reflexivity |]. split; [exact Hassert |]. split.
    { unfold current_step, same_lists. cbn. split; [exact Hcur |]. split; [done |].
      split; [reflexivity |]. intros jj Hjj. by rewrite ?fn_lookup_insert_ne by done. }
    cbn. split; [reflexivity |]. split; [reflexivity |]. split.
    { intros jj Hjj. by rewrite !fn_lookup_insert_ne. }
    right. left. by rewrite !fn_lookup_insert. }
  injection H as <-. exists bank, cur, DRAM_CMD_WAIT.
  split; [reflexivity |]. split; [exact Hassert |]. split.
  { unfold current_step, same_lists. cbn. split; [exact Hcur |]. split; [done |].
    split; [reflexivity |]. intros jj Hjj. by rewrite ?fn_lookup_insert_ne by done. }
  cbn. split; [reflexivity |]. split; [reflexivity |]. split.
  { intros jj Hjj. by rewrite !fn_lookup_insert_ne. }
  right. right. by rewrite !fn_lookup_insert.
Qed.

Lemma channel_schedule_cmd_channel_sentinels k now ii st st' :
  owned k st -> sentinels st ->
  channel_schedule_cmd_channel k now ii st = Ok st' -> sentinels st'.
Proof.
  intros Hown Hinv H.
  apply channel_schedule_cmd_channel_step in H
    as [[_ ->] | (bank & cur & s & _ & Hstate & Hstep & Hready & _ & _ & Hcase)]; [exact Hinv |].
  pose proof Hstep as (Hcur & _).
  pose proof (Hinv bank) as [_ Hb]. rewrite Hcur in Hb. destruct Hb as (_ & Hr & Ha & _).
  apply (sentinels_current_step k st st' bank cur s Hown Hinv Hstep).
  - destruct Hcase as [(_ & -> & _) | [(_ & _ & -> & _) | (_ & _ & -> & _)]]; done.
  - rewrite Hready. intros Hne. apply Hr in Hne. congruence.
  - destruct Hcase as [(_ & _ & _ & ->) | [(_ & _ & -> & _) | (_ & _ & _ & _ & ->)]]; done.
  - destruct Hcase as [(_ & _ & -> & _) | [(_ & <- & _ & -> & _) | (_ & _ & -> & -> & _)]];
      [done | done |]. intros [[=] | [[=] | [_ Hne]]]. done.
Qed.

(** What one turn of the loop of channel_schedule_data does. *)
Lemma data_bus_loop_step k now ii fuel st st' :
  data_bus_loop k now ii (S fuel) st = Ok st' ->
  ((avail_data_bus now ii st = false \/
    oldest_bank (data_ready now st) (m_bank_timestamp st) (channel_banks k ii) ULLONG_MAX None
    = None) /\ st' = st) \/
  exists bank cur s1,
    avail_data_bus now ii st = true /\
    oldest_bank (data_ready now st) (m_bank_timestamp st) (channel_banks k ii) ULLONG_MAX None
    = Some bank /\
    m_state (drb st cur) = DRAM_DATA /\
    current_step st s1 bank cur DRAM_DATA_WAIT /\
    m_data_avail s1 bank = ULLONG_MAX /\
    m_current_rid s1 = m_current_rid st /\
    m_bank_ready s1 = m_bank_ready st /\
    m_bank_timestamp s1 = m_bank_timestamp st /\
    m_total_req s1 = m_total_req st /\
    data_bus_loop k now ii fuel s1 = Ok st'.
Proof.
  cbn [data_bus_loop]. intros H.
  destruct (avail_data_bus now ii st) eqn:Havail; [| left; split; [by left | by simplify_eq]].
  destruct (oldest_bank _ _ _ _ _) as [bank |] eqn:Hsel;
    [| left; split; [by right | by simplify_eq]].
  right. unfold current in H.
  destruct (m_current_list st bank) as [cur |] eqn:Hcur; [| discriminate].
  cbn in H. apply bind_Ok in H as ([] & Hassert & H).
  apply ASSERT_Ok, bool_decide_eq_true in Hassert.
  destruct (acquire_data_bus k now ii _ _ _) as [latency s2] eqn:Hacq.
  eexists bank, cur, _. split; [reflexivity |]. split; [reflexivity |].
  split; [exact Hassert |].
  assert (Hs2 : same_lists st s2 /\ drb s2 = drb st /\ m_data_ready s2 = m_data_ready st /\
                m_data_avail s2 = m_data_avail st /\ m_current_rid s2 = m_current_rid st /\
                m_bank_ready s2 = m_bank_ready st /\ m_bank_timestamp s2 = m_bank_timestamp st /\
                m_total_req s2 = m_total_req st).
  { unfold acquire_data_bus in Hacq. destruct (_ <? _) in Hacq; injection Hacq as <- <-;
      unfold same_lists; cbn; done. }
  destruct Hs2 as ((Hb & Hf & Hc) & Hd & Hr & Ha & Hrid & Hbr & Hts & Htot).
  split; [| split; [| split; [| split; [| split; [| split; [| exact H]]]]]]; cbn.
  - unfold current_step, same_lists. cbn. rewrite Hb, Hf, Hc, Hd, Hr, Ha.
    split; [exact Hcur |]. split; [done |]. split; [reflexivity |].
    intros jj Hjj. rewrite !fn_lookup_insert_ne by done. by rewrite Hrid.
  - by rewrite fn_lookup_insert.
  - exact Hrid.
  - exact Hbr.
  - exact Hts.
  - exact Htot.
Qed.

Lemma data_bus_loop_sentinels k now ii fuel : forall st st',
  owned k st -> sentinels st ->
  data_bus_loop k now ii fuel st = Ok st' -> sentinels st'.
Proof.
  induction fuel as [| fuel IH]; intros st st' Hown Hinv H.
  { cbn in H. by simplify_eq. }
  apply data_bus_loop_step in H
    as [[_ ->] | (bank & cur & s1 & _ & _ & Hstate & Hstep & Ha & Hrid & _ & _ & _ & Hrest)];
    [exact Hinv |].
  apply (IH s1 st'); [| | exact Hrest].
  - destruct Hstep as (_ & Hsame & _). by apply (owned_same_lists k st).
  - pose proof Hstep as (Hcur & _).
    pose proof (Hinv bank) as [_ Hb]. rewrite Hcur in Hb. destruct Hb as (_ & _ & _ & Hrow).
    apply (sentinels_current_step k st s1 bank cur DRAM_DATA_WAIT Hown Hinv Hstep);
      [done | done | by rewrite Ha |].
    intros _. rewrite Hrid. apply Hrow. by left.
Qed.

Lemma channel_schedule_sentinels k now st st' :
  owned k st -> sentinels st ->
  channel_schedule k now st = Ok st' -> sentinels st'.
Proof.
  unfold channel_schedule, channel_schedule_cmd, channel_schedule_data. intros Hown Hinv H.
  apply bind_Ok in H as (s1 & H1 & H2).
  assert (Hs1 : owned k s1 /\ sentinels s1).
  { eapply (for_each_invariant (λ s, owned k s /\ sentinels s)); [| | exact H1]; [| done].
    intros ii s s' _ [Ho Hs] Hb. split.
    - apply (owned_same_lists k s); [| exact Ho].
      by apply (channel_schedule_cmd_channel_lists k now ii).
    - by apply (channel_schedule_cmd_channel_sentinels k now ii s). }
  eapply (for_each_invariant (λ s, owned k s /\ sentinels s)); [| exact Hs1 | exact H2].
  intros ii s s' _ [Ho Hs] Hb. cbv beta in Hb. split.
  - apply (owned_same_lists k s); [| exact Ho]. exact (data_bus_loop_lists k now ii _ s s' Hb).
  - exact (data_bus_loop_sentinels k now ii _ s s' Ho Hs Hb).
Qed.

(** ** What leaves the clocks alone *)

Lemma same_clocks_refl st : same_clocks st st.
Proof. by unfold same_clocks. Qed.

Lemma same_clocks_trans s1 s2 s3 :
  same_clocks s1 s2 -> same_clocks s2 s3 -> same_clocks s1 s3.
Proof.
  unfold same_clocks. intros (? & ? & ? & ? & ? & ? & ?) (? & ? & ? & ? & ? & ? & ?).
  repeat split; congruence.
Qed.

Lemma send_packet_clocks k noc e st ok s :
  send_packet k noc e st = Ok (ok, s) -> same_clocks st s.
Proof.
  unfold send_packet. intros H. apply bind_Ok in H as ([] & _ & H).
  destruct (noc _); injection H as <- <-; by unfold same_clocks.
Qed.

Lemma merge_scan_clocks k now noc cur l : forall temp_list stop st temp_list' stop' s,
  merge_scan k now noc cur l temp_list stop st = Ok (temp_list', stop', s) ->
  same_clocks st s.
Proof.
  induction l as [| it l IH]; intros temp_list stop st temp_list' stop' s Hrun; cbn in Hrun.
  { injection Hrun as <- <- <-. apply same_clocks_refl. }
  destruct (m_addr (drb st it) =? m_addr (drb st cur)); [| by apply IH in Hrun].
  destruct (decide (type_of st it = MRT_WB)).
  { apply IH in Hrun. unfold same_clocks in *. cbn in Hrun. exact Hrun. }
  apply bind_Ok in Hrun as ([ok s1] & Hsend & Hrun).
  apply send_packet_clocks in Hsend.
  destruct ok; apply IH in Hrun; apply (same_clocks_trans st s1 s Hsend);
    unfold same_clocks in *; cbn in Hrun; exact Hrun.
Qed.

Lemma merge_release_clocks ii temp_list st : same_clocks st (merge_release ii temp_list st).
Proof.
  unfold merge_release.
  apply (fold_left_preserves (same_clocks st)); [| apply same_clocks_refl].
  intros s a Hs. apply (same_clocks_trans st s); [exact Hs |]. by unfold same_clocks.
Qed.

Lemma flush_prefetch_clocks b st : same_clocks st (flush_prefetch b st).
Proof.
  unfold flush_prefetch.
  apply (fold_left_preserves (same_clocks st)); [| apply same_clocks_refl].
  intros s a Hs. apply (same_clocks_trans st s); [exact Hs |]. by unfold same_clocks.
Qed.

Lemma insert_new_req_clocks k now mem_req st ok st' :
  insert_new_req k now mem_req st = Ok (ok, st') -> same_clocks st st'.
Proof.
  unfold insert_new_req. intros H.
  destruct (address_parsing _ _) as [[[bid_xor cid] bid] rid].
  apply bind_Ok in H as ([] & _ & H).
  set (b := Z.to_nat (interleave k bid bid_xor)) in *.
  fold (flushed b st) in H.
  assert (Hf : same_clocks st (flushed b st)).
  { unfold flushed. destruct (m_buffer_free_list st b);
      [apply flush_prefetch_clocks | apply same_clocks_refl]. }
  destruct (m_buffer_free_list (flushed b st) b) as [| new_entry rest] eqn:Hfree.
  { by injection H as <- <-. }
  apply bind_Ok in H as (s1 & Hins & H). injection H as <- <-.
  unfold insert_req_in_drb in Hins. fold b in Hins. rewrite Hfree in Hins.
  apply bind_Ok in Hins as (s2 & Hset & Hins). injection Hins as <-.
  unfold drb_entry_s_set in Hset. apply bind_Ok in Hset as ([] & _ & Hset).
  injection Hset as <-.
  apply (same_clocks_trans st _ _ Hf). by unfold same_clocks.
Qed.

(** ** The sentinels through ingress, completion and selection *)

(** Entries may move between the free list and the pending list of a bank,
    as long as the states and the clocks stay. *)
Lemma sentinels_shuffle st st' :
  (forall e, m_state (drb st' e) = m_state (drb st e)) ->
  (forall ii c, m_current_list st ii = Some c -> m_rid (drb st' c) = m_rid (drb st c)) ->
  m_current_list st' = m_current_list st ->
  same_clocks st st' ->
  (forall ii e, e ∈ m_buffer_free_list st' ii ++ m_buffer st' ii ->
                e ∈ m_buffer_free_list st ii ++ m_buffer st ii) ->
  sentinels st -> sentinels st'.
Proof.
  intros Hstate Hrid Hcur (Hrow & Hr & Ha & _) Hsub Hinv ii.
  destruct (Hinv ii) as [Hidle Hc]. unfold bank_sentinels. rewrite Hcur, Hr, Ha, Hrow. split.
  - intros e He. rewrite Hstate. by apply Hidle, Hsub.
  - destruct (m_current_list st ii) as [c |] eqn:Hci; [| exact Hc].
    unfold activated in *. by rewrite Hstate, (Hrid ii c Hci).
Qed.

Lemma sentinels_scan_frame k st s :
  scan_frame k st s -> same_clocks st s -> sentinels st -> sentinels s.
Proof.
  intros (Hdrb & Hb & Hf & Hc & _) Hclk.
  apply sentinels_shuffle; [| | exact Hc | exact Hclk |].
  - intros e. by rewrite Hdrb.
  - intros ii c _. by rewrite Hdrb.
  - intros ii e. by rewrite Hb, Hf.
Qed.

Lemma flushed_sentinels b st : sentinels st -> sentinels (flushed b st).
Proof.
  unfold flushed. destruct (m_buffer_free_list st b); [| done].
  destruct (flush_prefetch_spec b st) as (Hfree & Hbuf & Hother & Hcur & _ & _ & Hdrb & _).
  apply sentinels_shuffle; [| | exact Hcur | apply flush_prefetch_clocks |].
  - intros e. by rewrite Hdrb.
  - intros ii c _. by rewrite Hdrb.
  - intros ii e. destruct (decide (ii = b)) as [-> | Hne].
    + rewrite Hfree, Hbuf. unfold prefetches.
      rewrite !elem_of_app, !list_elem_of_filter. tauto.
    + by destruct (Hother ii Hne) as [-> ->].
Qed.

Lemma insert_new_req_entry_state k now mem_req st ok st' :
  insert_new_req k now mem_req st = Ok (ok, st') ->
  forall e, m_state (drb st' e) = m_state (drb st e).
Proof.
  unfold insert_new_req. intros H e.
  destruct (address_parsing _ _) as [[[bid_xor cid] bid] rid].
  apply bind_Ok in H as ([] & _ & H).
  set (b := Z.to_nat (interleave k bid bid_xor)) in *.
  fold (flushed b st) in H.
  destruct (flushed_mem b st) as (_ & Hdrb & _).
  destruct (m_buffer_free_list (flushed b st) b) as [| new_entry rest] eqn:Hfree.
  { injection H as <- <-. by rewrite Hdrb. }
  apply bind_Ok in H as (s1 & Hins & H). injection H as <- <-.
  unfold insert_req_in_drb in Hins. fold b in Hins. rewrite Hfree in Hins.
  apply bind_Ok in Hins as (s2 & Hset & Hins). injection Hins as <-.
  unfold drb_entry_s_set in Hset. apply bind_Ok in Hset as ([] & _ & Hset).
  injection Hset as <-. cbn. rewrite Hdrb.
  destruct (decide (e = new_entry)) as [-> | Hne];
    [by rewrite fn_lookup_insert | by rewrite fn_lookup_insert_ne].
Qed.

Lemma insert_new_req_sentinels k now mem_req st ok st' :
  owned k st -> sentinels st ->
  insert_new_req k now mem_req st = Ok (ok, st') -> sentinels st'.
Proof.
  intros Hown Hinv Hrun.
  pose proof (insert_new_req_entry_state k now mem_req st ok st' Hrun) as Hstate.
  pose proof (insert_new_req_clocks k now mem_req st ok st' Hrun) as Hclk.
  destruct (address_parsing k (Req.m_addr (mem st mem_req)))
    as [[[bid_xor cid] bid] rid] eqn:Hparse.
  destruct (insert_new_req_cases k now mem_req st bid_xor cid bid rid Hparse)
    as (Hneg & Hfull & Hadmit).
  set (b := Z.to_nat (interleave k bid bid_xor)) in *.
  destruct (Z.lt_ge_cases rid 0) as [Hlt | Hge]; [rewrite (Hneg Hlt) in Hrun; discriminate |].
  pose proof (flushed_sentinels b st Hinv) as Hfinv.
  assert (Hfown : owned k (flushed b st)).
  { apply (owned_Permutation k st); [| exact Hown]. intros ii. apply flushed_entries. }
  destruct (m_buffer_free_list (flushed b st) b) as [| new_entry rest] eqn:Hfree.
  { rewrite (Hfull Hge eq_refl) in Hrun. by injection Hrun as <- <-. }
  destruct (Hadmit Hge new_entry rest eq_refl)
    as (st2 & Hrun2 & Hfree2 & Hbuf2 & Hcur2 & _ & _ & _ & _ & Hframe).
  rewrite Hrun2 in Hrun. injection Hrun as <- <-.
  destruct (flushed_mem b st) as (_ & Hdrb & _).
  assert (Hfclk : same_clocks (flushed b st) st2).
  { assert (Hf : same_clocks st (flushed b st)).
    { unfold flushed. destruct (m_buffer_free_list st b);
        [apply flush_prefetch_clocks | apply same_clocks_refl]. }
    unfold same_clocks in *. destruct Hf as (-> & -> & -> & -> & -> & -> & ->). exact Hclk. }
  apply (sentinels_shuffle (flushed b st)); [| | exact Hcur2 | exact Hfclk | | exact Hfinv].
  - intros e. by rewrite Hstate, Hdrb.
  - intros ii c Hc. rewrite Hdrb, Hframe; [done |].
    intros ->. apply (owned_idle_current k (flushed b st) ii b new_entry new_entry Hfown Hc);
      [| reflexivity].
    rewrite Hfree. left.
  - intros ii e. rewrite Hfree2, Hbuf2. destruct (decide (b = ii)) as [<- | Hne].
    + rewrite !fn_lookup_insert, Hfree, !elem_of_app, list_elem_of_singleton, elem_of_cons.
      tauto.
    + by rewrite !fn_lookup_insert_ne.
Qed.

Lemma merge_release_sentinels k ii temp_list st :
  owned k st ->
  (forall e, e ∈ temp_list -> e ∈ m_buffer st ii) ->
  sentinels st -> sentinels (merge_release ii temp_list st).
Proof.
  intros Hown Hsub Hinv jj.
  destruct (merge_release_spec ii temp_list st)
    as (Hfree & Hbuf & Hother & Hcur & _ & Hdrb & _).
  destruct (merge_release_clocks ii temp_list st) as (Hrow & Hr & Ha & _).
  destruct (Hinv jj) as [Hidle Hc]. unfold bank_sentinels. rewrite Hcur, Hr, Ha, Hrow. split.
  - intros e He. rewrite Hdrb. destruct (decide (e ∈ temp_list)); [done |].
    apply Hidle. destruct (decide (jj = ii)) as [-> | Hne].
    + rewrite Hfree, Hbuf in He. rewrite !elem_of_app, list_elem_of_filter in He.
      rewrite elem_of_app. tauto.
    + by destruct (Hother jj Hne) as [<- <-].
  - destruct (m_current_list st jj) as [c |] eqn:Hcj; [| exact Hc].
    rewrite Hdrb, decide_False; [exact Hc |].
    intros Hin. apply (owned_idle_current k st jj ii c c Hown Hcj); [| reflexivity].
    apply elem_of_app. right. by apply Hsub.
Qed.

Lemma complete_current_sentinels k ii cur st :
  owned k st -> m_current_list st ii = Some cur ->
  m_state (drb st cur) = DRAM_DATA_WAIT ->
  sentinels st -> sentinels (complete_current ii cur st).
Proof.
  intros Hown Hcur Hwait Hinv jj.
  destruct (Hinv jj) as [Hidle Hc]. unfold bank_sentinels, complete_current. cbn. split.
  - intros e He. destruct (decide (e = cur)) as [-> | Hne]; [by rewrite fn_lookup_insert |].
    rewrite fn_lookup_insert_ne by done. apply Hidle.
    destruct (decide (ii = jj)) as [<- | Hjj].
    + rewrite fn_lookup_insert in He. rewrite !elem_of_app, list_elem_of_singleton in He.
      rewrite elem_of_app. tauto.
    + by rewrite fn_lookup_insert_ne in He.
  - destruct (decide (ii = jj)) as [<- | Hjj].
    + rewrite !fn_lookup_insert. split; [reflexivity |].
      rewrite Hcur in Hc. destruct Hc as (_ & _ & Ha & _).
      destruct (decide (m_data_avail st ii = ULLONG_MAX)) as [| Hne]; [done |].
      apply Ha in Hne. congruence.
    + rewrite !fn_lookup_insert_ne by done.
      destruct (m_current_list st jj) as [c |] eqn:Hcj; [| exact Hc].
      rewrite fn_lookup_insert_ne; [exact Hc |].
      intros <-. apply Hjj. exact (owned_current_inj k st ii jj cur Hown Hcur Hcj).
Qed.

Lemma bank_schedule_complete_bank_sentinels k now noc ii st st' :
  owned k st -> sentinels st ->
  bank_schedule_complete_bank k now noc ii st = Ok st' -> sentinels st'.
Proof.
  unfold bank_schedule_complete_bank. intros Hown Hinv H.
  destruct (m_current_list st ii) as [cur |] eqn:Hcur; [| by simplify_eq].
  destruct (m_data_ready st ii <=? now); [| by simplify_eq].
  apply bind_Ok in H as ([] & Hassert & H).
  apply ASSERT_Ok, bool_decide_eq_true in Hassert.
  apply bind_Ok in H as ([stop s1] & Hmerge & H).
  assert (H1 : owned k s1 /\ sentinels s1 /\ m_current_list s1 ii = Some cur /\
               m_state (drb s1 cur) = DRAM_DATA_WAIT).
  { destruct (KNOB_DRAM_MERGE_REQUESTS k); [| by simplify_eq].
    apply bind_Ok in Hmerge as ([[temp_list stop'] s0] & Hscan & Hrel).
    pose proof (merge_scan_clocks _ _ _ _ _ _ _ _ _ _ _ Hscan) as Hclk.
    apply merge_scan_Ok in Hscan as (Hframe & Htemp & _). cbn in Htemp.
    injection Hrel as <- <-.
    pose proof (scan_frame_same_lists k st s0 Hframe) as Hsame.
    pose proof (owned_same_lists k st s0 Hsame Hown) as Hown0.
    pose proof (sentinels_scan_frame k st s0 Hframe Hclk Hinv) as Hinv0.
    destruct (merge_release_spec ii temp_list s0) as (_ & _ & _ & Rcur & _ & Rdrb & _).
    pose proof Hsame as (Hb & _ & Hc).
    assert (Hsub : forall e, e ∈ temp_list -> e ∈ m_buffer s0 ii).
    { intros e He. subst temp_list. apply list_elem_of_filter in He as [_ He]. by rewrite Hb. }
    assert (Hcur0 : m_current_list s0 ii = Some cur) by (by rewrite Hc).
    split; [| split; [| split]].
    - apply (owned_Permutation k st); [| exact Hown]. intros jj.
      rewrite <- (same_lists_entries st s0 jj Hsame). subst temp_list.
      rewrite <- Hb. apply merge_release_entries.
    - by apply (merge_release_sentinels k).
    - by rewrite Rcur.
    - rewrite Rdrb, decide_False; [destruct Hframe as (-> & _); exact Hassert |].
      intros Hin. apply (owned_idle_current k s0 ii ii cur cur Hown0 Hcur0); [| reflexivity].
      apply elem_of_app. right. by apply Hsub. }
  destruct H1 as (Hown1 & Hinv1 & Hcur1 & Hwait1).
  destruct stop; [by simplify_eq |].
  destruct (decide (type_of s1 cur = MRT_WB)).
  { simplify_eq.
    exact (complete_current_sentinels k ii cur (free_req (req_of s1 cur) s1)
             Hown1 Hcur1 Hwait1 Hinv1). }
  apply bind_Ok in H as ([ok s2] & Hsend & H).
  pose proof (send_packet_clocks k noc cur s1 ok s2 Hsend) as Hclk2.
  apply send_packet_Ok in Hsend as (_ & Hframe2 & _).
  pose proof (scan_frame_same_lists k s1 s2 Hframe2) as Hsame2.
  pose proof (sentinels_scan_frame k s1 s2 Hframe2 Hclk2 Hinv1) as Hinv2.
  destruct ok; simplify_eq; [| exact Hinv2].
  assert (Hcur2 : m_current_list s2 ii = Some cur)
    by (destruct Hsame2 as (_ & _ & ->); exact Hcur1).
  assert (Hwait2 : m_state (drb s2 cur) = DRAM_DATA_WAIT)
    by (destruct Hframe2 as (-> & _); exact Hwait1).
  exact (complete_current_sentinels k ii cur
           (upd_mem (req_of s2 cur) (Req.set_m_state MEM_DRAM_DONE) s2)
           (owned_same_lists k s1 s2 Hsame2 Hown1) Hcur2 Hwait2 Hinv2).
Qed.

Lemma bank_schedule_new_bank_sentinels k now ii st st' :
  owned k st -> sentinels st ->
  bank_schedule_new_bank k now ii st = Ok st' -> sentinels st'.
Proof.
  unfold bank_schedule_new_bank. intros Hown Hinv H.
  destruct (bool_decide (m_buffer st ii = []) && bool_decide (m_current_list st ii = None))
    eqn:Hguard; [by simplify_eq |].
  destruct (m_current_list st ii) as [cur |] eqn:Hcur.
  { destruct (_ && _) eqn:Hc in H; [| by simplify_eq].
    apply andb_true_iff in Hc as [_ Hwait]. apply bool_decide_eq_true in Hwait.
    apply bind_Ok in H as ([] & _ & H). injection H as <-.
    pose proof (Hinv ii) as [_ Hb]. rewrite Hcur in Hb. destruct Hb as (_ & Hr & Ha & _).
    eapply (sentinels_current_step k st _ ii cur DRAM_CMD Hown Hinv).
    - unfold current_step, same_lists. cbn. done.
    - done.
    - cbn. intros Hne. apply Hr in Hne. congruence.
    - cbn. intros Hne. apply Ha in Hne. congruence.
    - intros [[=] | [[=] | [[=] _]]]. }
  assert (Hne : m_buffer st ii ≠ []).
  { intros Hnil. rewrite Hnil in Hguard. discriminate. }
  destruct (schedule_Ok k ii st Hne) as (entry & Hsched & Hin).
  rewrite Hsched in H. cbn in H. injection H as <-.
  assert (Hentry : entry ∈ m_buffer_free_list st ii ++ m_buffer st ii)
    by (apply elem_of_app; by right).
  intros jj. destruct (Hinv jj) as [Hidle Hc].
  assert (Hlists : forall e,
            e ∈ m_buffer_free_list st jj
                ++ (if decide (ii = jj)
                    then remove entry
                           (match scheduler k with
                            | fcfs_controller => m_buffer st ii
                            | frfcfs_controller => list_sort (sort_func st) (m_buffer st ii)
                            end)
                    else m_buffer st jj) ->
            e ≠ entry /\ e ∈ m_buffer_free_list st jj ++ m_buffer st jj).
  { intros e He. destruct (decide (ii = jj)) as [<- | Hjj].
    - apply elem_of_app in He as [He | He].
      + split; [| apply elem_of_app; by left].
        intros ->. destruct (Hown ii) as [Hnd _]. unfold bank_entries in Hnd.
        rewrite app_assoc in Hnd. apply NoDup_app in Hnd as (Hnd & _).
        apply NoDup_app in Hnd as (_ & Hnd & _). by apply (Hnd entry).
      + unfold remove in He. apply list_elem_of_filter in He as [Hne' He].
        split; [exact Hne' |]. apply elem_of_app. right.
        destruct (scheduler k); [exact He |].
        by apply (list_sort_elem_of (sort_func st)).
    - split; [| exact He]. intros ->. apply Hjj.
      apply (owned_elsewhere k st ii jj entry Hown); unfold bank_entries; rewrite app_assoc;
        apply elem_of_app; by left. }
  unfold bank_sentinels. split.
  - intros e He.
    assert (Hold : e ≠ entry /\ e ∈ m_buffer_free_list st jj ++ m_buffer st jj).
    { apply Hlists. destruct (decide (ii = jj)) as [<- | Hjj];
        destruct (scheduler k); cbn in He;
        rewrite ?fn_lookup_insert in He; rewrite ?fn_lookup_insert_ne in He by done;
        exact He. }
    destruct Hold as [Hne' Hold].
    destruct (scheduler k); cbn; rewrite !fn_lookup_insert_ne by done; by apply Hidle.
  - destruct (decide (ii = jj)) as [<- | Hjj].
    + rewrite Hcur in Hc. destruct Hc as [Hr Ha].
      destruct (scheduler k); cbn; rewrite !fn_lookup_insert; cbn; rewrite Hr, Ha;
        (split; [done |]; split; [done |]; split; [done |]);
        intros [[=] | [[=] | [[=] _]]].
    + destruct (m_current_list st jj) as [c |] eqn:Hcj'.
      * assert (c ≠ entry).
        { intros ->. by apply (owned_idle_current k st jj ii entry entry Hown Hcj' Hentry). }
        destruct (scheduler k); cbn; rewrite !fn_lookup_insert_ne by done;
          rewrite Hcj'; rewrite !fn_lookup_insert_ne by done; exact Hc.
      * destruct (scheduler k); cbn; rewrite !fn_lookup_insert_ne by done;
          rewrite Hcj'; exact Hc.
Qed.

(** ** The sentinels in every state of a run *)

Lemma bank_schedule_complete_sentinels k now noc st st' :
  owned k st -> sentinels st ->
  bank_schedule_complete k now noc st = Ok st' -> owned k st' /\ sentinels st'.
Proof.
  unfold bank_schedule_complete. intros Hown Hinv Hrun.
  eapply (for_each_invariant (λ s, owned k s /\ sentinels s)); [| | exact Hrun].
  - intros ii s s' _ [Ho Hs] Hb. split.
    + apply (owned_Permutation k s); [| exact Ho].
      intros jj. by apply (bank_schedule_complete_bank_entries k now noc ii).
    + by apply (bank_schedule_complete_bank_sentinels k now noc ii s).
  - split; [exact Hown |]. intros ii. exact (Hinv ii).
Qed.

Lemma bank_schedule_new_sentinels k now st st' :
  owned k st -> sentinels st ->
  bank_schedule_new k now st = Ok st' -> owned k st' /\ sentinels st'.
Proof.
  unfold bank_schedule_new. intros Hown Hinv Hrun.
  eapply (for_each_invariant (λ s, owned k s /\ sentinels s)); [| | exact Hrun]; [| done].
  intros ii s s' _ [Ho Hs] Hb. split.
  - apply (owned_Permutation k s); [| exact Ho].
    intros jj. apply (bank_schedule_new_bank_entries k now ii); [apply Ho | exact Hb].
  - by apply (bank_schedule_new_bank_sentinels k now ii s).
Qed.

Lemma receive_packet_sentinels k now st st' :
  owned k st -> sentinels st -> receive_packet k now st = Ok st' -> sentinels st'.
Proof.
  unfold receive_packet. intros Hown Hinv H.
  destruct (IRIS k); [| by simplify_eq].
  destruct (receive_queue st) as [| req rest]; [by simplify_eq |].
  apply bind_Ok in H as ([ok s1] & Hins & H).
  apply (insert_new_req_sentinels k now req st ok s1 Hown Hinv) in Hins.
  destruct ok; simplify_eq; [| exact Hins]. intros ii. exact (Hins ii).
Qed.

Lemma run_a_cycle_sentinels k now noc st st' :
  owned k st -> sentinels st ->
  run_a_cycle k now noc st = Ok st' -> sentinels st'.
Proof.
  unfold run_a_cycle, bank_schedule. intros Hown Hinv H.
  apply bind_Ok in H as (s1 & H1 & H). apply bind_Ok in H as (s3 & H23 & H).
  apply bind_Ok in H23 as (s2 & H2 & H3). apply bind_Ok in H as (s4 & H4 & H5).
  pose proof (channel_schedule_sentinels k now st s1 Hown Hinv H1) as Hinv1.
  pose proof (owned_same_lists k st s1 (channel_schedule_lists k now st s1 H1) Hown) as Hown1.
  destruct (bank_schedule_complete_sentinels k now noc s1 s2 Hown1 Hinv1 H2) as [Hown2 Hinv2].
  destruct (bank_schedule_new_sentinels k now s2 s3 Hown2 Hinv2 H3) as [Hown3 Hinv3].
  pose proof (receive_packet_sentinels k now s3 s4 Hown3 Hinv3 H4) as Hinv4.
  rewrite progress_check_spec in H5.
  destruct (decide (_ < 5000)); [| discriminate].
  injection H5 as <-. intros ii. exact (Hinv4 ii).
Qed.

Lemma reachable_sentinels k st : reachable k st -> sentinels st.
Proof.
  induction 1 as [raw id noc_id | st now mem_req ok st' Hreach IH Hins
                  | st now noc st' Hreach IH Htick | st requests queue _ IH].
  - intros ii. unfold bank_sentinels. cbn. split; [done |]. done.
  - exact (insert_new_req_sentinels k now mem_req st ok st' (reachable_owned k st Hreach) IH Hins).
  - exact (run_a_cycle_sentinels k now noc st st' (reachable_owned k st Hreach) IH Htick).
  - intros ii. exact (IH ii).
Qed.

(** ** How a tick can fail *)

Lemma bind_Fatal {A B : Type} (m : result A) (f : A -> result B) e :
  m ≫= f = Fatal e <-> m = Fatal e \/ exists a, m = Ok a /\ f a = Fatal e.
Proof.
  destruct m as [a | e']; cbn.
  - split; [intros H; right; by exists a | intros [[=] | (a' & [= <-] & H)]; exact H].
  - split; [intros [= <-]; by left | intros [[= <-] | (a' & [=] & _)]; reflexivity].
Qed.

Lemma for_each_Fatal (Inv : dram_controller_c -> Prop) (P : fatal -> Prop) l body :
  (forall ii s s', ii ∈ l -> Inv s -> body ii s = Ok s' -> Inv s') ->
  (forall ii s f, ii ∈ l -> Inv s -> body ii s = Fatal f -> P f) ->
  forall st f, Inv st -> for_each l body st = Fatal f -> P f.
Proof.
  induction l as [| ii l IH]; intros Hok Hfail st f Hinv Hrun; cbn in Hrun; [discriminate |].
  apply bind_Fatal in Hrun as [Hrun | (s1 & H1 & Hrun)].
  - apply (Hfail ii st f); [left | exact Hinv | exact Hrun].
  - apply (IH (fun jj s s' Hjj => Hok jj s s' (list_elem_of_further _ _ _ Hjj))
              (fun jj s f' Hjj => Hfail jj s f' (list_elem_of_further _ _ _ Hjj)) s1 f);
      [| exact Hrun].
    apply (Hok ii st s1); [left | exact Hinv | exact H1].
Qed.

Lemma data_ready_current now st bank :
  data_ready now st bank = true ->
  exists cur, m_current_list st bank = Some cur /\ m_state (drb st cur) = DRAM_DATA.
Proof.
  unfold data_ready. destruct (m_current_list st bank) as [cur |]; [| discriminate].
  intros H. apply andb_true_iff in H as [H _]. apply bool_decide_eq_true in H.
  by exists cur.
Qed.

(** The two schedulers of the channels never fail: the bank that the
    search loop selects has a current entry in the state that the assertion
    asks for. *)
Lemma data_bus_loop_total k now ii fuel : forall st,
  exists st', data_bus_loop k now ii fuel st = Ok st'.
Proof.
  induction fuel as [| fuel IH]; intros st; cbn [data_bus_loop]; [by eexists |].
  destruct (avail_data_bus now ii st); [| by eexists].
  destruct (oldest_bank _ _ _ _ _) as [bank |] eqn:Hsel; [| by eexists].
  destruct (oldest_bank_None_ready _ _ _ _ Hsel) as [_ Hready].
  destruct (data_ready_current _ _ _ Hready) as (cur & Hcur & Hstate).
  unfold current. rewrite Hcur. cbn. rewrite Hstate. cbn.
  destruct (acquire_data_bus k now ii _ _ _) as [latency s2]. apply IH.
Qed.

Lemma channel_schedule_total k now st :
  exists st', channel_schedule k now st = Ok st'.
Proof.
  unfold channel_schedule, channel_schedule_cmd, channel_schedule_data.
  destruct (for_each_total (upto (m_num_channel k)) (channel_schedule_cmd_channel k now)
              (channel_schedule_cmd_channel_total k now) st) as [s1 H1].
  destruct (for_each_total (upto (m_num_channel k))
              (fun ii => data_bus_loop k now ii (S (length (channel_banks k ii))))
              (fun ii s => data_bus_loop_total k now ii _ s) s1) as [s2 H2].
  exists s2. apply bind_Ok. by exists s1.
Qed.

Lemma bank_schedule_new_total k now st :
  exists st', bank_schedule_new k now st = Ok st'.
Proof.
  unfold bank_schedule_new. apply for_each_total. intros ii s.
  destruct (bank_schedule_new_bank_spec k now ii s) as (s' & Hs' & _). by exists s'.
Qed.

Lemma send_packet_Fatal k noc e st f :
  send_packet k noc e st = Fatal f -> f = ASSERT_failed 505.
Proof.
  unfold send_packet. intros H. apply bind_Fatal in H as [H | ([] & _ & H)].
  - unfold ASSERT in H. destruct (_ && _); [discriminate | by injection H as <-].
  - destruct (noc _); discriminate.
Qed.

Lemma merge_scan_Fatal k now noc cur l : forall temp_list stop st f,
  merge_scan k now noc cur l temp_list stop st = Fatal f -> f = ASSERT_failed 505.
Proof.
  induction l as [| it l IH]; intros temp_list stop st f Hrun; cbn in Hrun; [discriminate |].
  destruct (m_addr (drb st it) =? m_addr (drb st cur)); [| by apply IH in Hrun].
  destruct (decide (type_of st it = MRT_WB)); [by apply IH in Hrun |].
  apply bind_Fatal in Hrun as [Hrun | ([ok s1] & _ & Hrun)].
  - by apply send_packet_Fatal in Hrun.
  - destruct ok; by apply IH in Hrun.
Qed.

Lemma bank_schedule_complete_bank_Fatal k now noc ii st f :
  now < ULLONG_MAX -> sentinels st ->
  bank_schedule_complete_bank k now noc ii st = Fatal f -> f = ASSERT_failed 505.
Proof.
  unfold bank_schedule_complete_bank. intros Hnow Hinv H.
  pose proof (Hinv ii) as [_ Hc].
  destruct (m_current_list st ii) as [cur |] eqn:Hcur; [| discriminate].
  destruct (Z.leb_spec (m_data_ready st ii) now) as [Hready |]; [| discriminate].
  destruct Hc as (_ & Hr & _).
  rewrite (bool_decide_eq_true_2 _ (Hr ltac:(lia))) in H. cbn in H.
  apply bind_Fatal in H as [H | ([stop s1] & _ & H)].
  - destruct (KNOB_DRAM_MERGE_REQUESTS k); [| discriminate].
    apply bind_Fatal in H as [H | ([[temp_list stop'] s0] & _ & H)]; [| discriminate].
    by apply merge_scan_Fatal in H.
  - destruct stop; [discriminate |].
    destruct (decide (type_of s1 cur = MRT_WB)); [discriminate |].
    apply bind_Fatal in H as [H | ([ok s2] & _ & H)].
    + by apply send_packet_Fatal in H.
    + destruct ok; discriminate.
Qed.

Lemma insert_new_req_Fatal k now mem_req st f :
  insert_new_req k now mem_req st = Fatal f -> f = ASSERT_failed 255.
Proof.
  intros Hrun.
  destruct (address_parsing k (Req.m_addr (mem st mem_req)))
    as [[[bid_xor cid] bid] rid] eqn:Hparse.
  destruct (insert_new_req_cases k now mem_req st bid_xor cid bid rid Hparse)
    as (Hneg & Hfull & Hadmit).
  destruct (Z.lt_ge_cases rid 0) as [Hlt | Hge].
  { rewrite (Hneg Hlt) in Hrun. by injection Hrun as <-. }
  destruct (m_buffer_free_list
              (flushed (Z.to_nat (interleave k bid bid_xor)) st)
              (Z.to_nat (interleave k bid bid_xor))) as [| new_entry rest] eqn:Hfree.
  - rewrite (Hfull Hge eq_refl) in Hrun. discriminate.
  - destruct (Hadmit Hge new_entry rest eq_refl) as (st2 & Hrun2 & _).
    rewrite Hrun2 in Hrun. discriminate.
Qed.

Lemma run_a_cycle_Fatal k now noc st f :
  now < ULLONG_MAX -> owned k st -> sentinels st ->
  run_a_cycle k now noc st = Fatal f -> foreseen k f.
Proof.
  unfold run_a_cycle, bank_schedule. intros Hnow Hown Hinv H.
  destruct (channel_schedule_total k now st) as [s1 H1]. rewrite H1 in H. cbn in H.
  pose proof (channel_schedule_sentinels k now st s1 Hown Hinv H1) as Hinv1.
  pose proof (owned_same_lists k st s1 (channel_schedule_lists k now st s1 H1) Hown) as Hown1.
  apply bind_Fatal in H as [H | (s3 & H23 & H)].
  { apply bind_Fatal in H as [H | (s2 & _ & H)].
    - right. left. unfold bank_schedule_complete in H.
      eapply (for_each_Fatal (λ s, owned k s /\ sentinels s) (λ f, f = ASSERT_failed 505));
        [| | | exact H].
      + intros ii s s' _ [Ho Hs] Hb. split.
        * apply (owned_Permutation k s); [| exact Ho].
          intros jj. by apply (bank_schedule_complete_bank_entries k now noc ii).
        * by apply (bank_schedule_complete_bank_sentinels k now noc ii s).
      + intros ii s f' _ [_ Hs]. by apply bank_schedule_complete_bank_Fatal.
      + split; [exact Hown1 |]. intros ii. exact (Hinv1 ii).
    - destruct (bank_schedule_new_total k now s2) as [s3 H3]. rewrite H3 in H. discriminate. }
  apply bind_Fatal in H as [H | (s4 & _ & H)].
  - right. right. unfold receive_packet in H.
    destruct (IRIS k); [| discriminate]. split; [reflexivity |].
    destruct (receive_queue s3) as [| req rest]; [discriminate |].
    apply bind_Fatal in H as [H | ([ok s] & _ & H)].
    + by apply insert_new_req_Fatal in H.
    + destruct ok; discriminate.
  - left. rewrite progress_check_spec in H.
    destruct (decide (_ < 5000)); [discriminate |]. injection H as <-. by eexists.
Qed.

(** ** The arbitration between the banks of a channel *)

Lemma oldest_bank_least (ready : nat -> bool) (timestamp : nat -> Z) jjs :
  forall oldest found,
    (oldest_bank ready timestamp jjs oldest found = found /\
     forall j, j ∈ jjs -> ready j = true -> oldest <= timestamp j) \/
    exists l1 b l2,
      jjs = l1 ++ b :: l2 /\
      oldest_bank ready timestamp jjs oldest found = Some b /\
      ready b = true /\ timestamp b < oldest /\
      (forall j, j ∈ l1 -> ready j = true -> timestamp b < timestamp j) /\
      (forall j, j ∈ l2 -> ready j = true -> timestamp b <= timestamp j).
Proof.
  induction jjs as [| jj jjs IH]; intros oldest found; cbn.
  { left. split; [reflexivity |]. intros j Hj. by apply elem_of_nil in Hj. }
  destruct (ready jj) eqn:Hr; cbn.
  - destruct (Z.ltb_spec (timestamp jj) oldest) as [Hlt | Hge].
    + right.
      destruct (IH (timestamp jj) (Some jj))
        as [[-> Hall] | (l1 & b & l2 & -> & -> & Hb & Hblt & H1 & H2)].
      * exists [], jj, jjs. cbn. repeat split; try done.
        intros j Hj. by apply elem_of_nil in Hj.
      * exists (jj :: l1), b, l2. cbn. repeat split; try done; [lia |].
        intros j Hj Hrj. apply elem_of_cons in Hj as [-> | Hj]; [exact Hblt | by apply H1].
    + destruct (IH oldest found)
        as [[-> Hall] | (l1 & b & l2 & -> & -> & Hb & Hblt & H1 & H2)].
      * left. split; [reflexivity |]. intros j Hj Hrj.
        apply elem_of_cons in Hj as [-> | Hj]; [exact Hge | by apply Hall].
      * right. exists (jj :: l1), b, l2. cbn. repeat split; try done.
        intros j Hj Hrj. apply elem_of_cons in Hj as [-> | Hj]; [lia | by apply H1].
  - destruct (IH oldest found)
      as [[-> Hall] | (l1 & b & l2 & -> & -> & Hb & Hblt & H1 & H2)].
    + left. split; [reflexivity |]. intros j Hj Hrj.
      apply elem_of_cons in Hj as [-> | Hj]; [congruence | by apply Hall].
    + right. exists (jj :: l1), b, l2. cbn. repeat split; try done.
      intros j Hj Hrj. apply elem_of_cons in Hj as [-> | Hj]; [congruence | by apply H1].
Qed.

(** ** The end of the loop of the data bus *)

Lemma data_bus_loop_exit k now ii : forall fuel st st',
  (data_pending now st (channel_banks k ii) < fuel)%nat ->
  data_bus_loop k now ii fuel st = Ok st' ->
  avail_data_bus now ii st' = false \/
  oldest_bank (data_ready now st') (m_bank_timestamp st') (channel_banks k ii) ULLONG_MAX None
  = None.
Proof.
  induction fuel as [| fuel IH]; intros st st' Hlt Hrun; [lia |].
  cbn [data_bus_loop] in Hrun.
  destruct (avail_data_bus now ii st) eqn:Havail; [| injection Hrun as <-; by left].
  destruct (oldest_bank _ _ _ _ _) as [bank |] eqn:Hsel; [| injection Hrun as <-; by right].
  unfold current in Hrun. destruct (m_current_list st bank) as [cur |] eqn:Hcur; [| discriminate].
  cbn [mbind result_bind] in Hrun.
  destruct (ASSERT 709 _); [| discriminate]. cbn [mbind result_bind] in Hrun.
  pose proof (data_bus_turn_pending k now ii st bank cur _ Hsel Hcur) as Hturn.
  cbv zeta in Hturn.
  destruct (acquire_data_bus k now ii _ _ _) as [latency st2] eqn:Hacq.
  cbn [fst snd] in Hturn. apply IH in Hrun; [exact Hrun | lia].
Qed.

(** ** The place of an entry *)

Lemma same_places_refl st : same_places st st.
Proof. by intros e. Qed.

Lemma same_places_trans s1 s2 s3 :
  same_places s1 s2 -> same_places s2 s3 -> same_places s1 s3.
Proof. intros H1 H2 e. by rewrite (H2 e). Qed.

Lemma same_places_drb st st' : drb st' = drb st -> same_places st st'.
Proof. intros H e. by rewrite H. Qed.

Lemma current_step_places st st' bank cur s :
  current_step st st' bank cur s -> same_places st st'.
Proof.
  intros (_ & _ & Hdrb & _) e. rewrite Hdrb.
  destruct (decide (e = cur)) as [-> | Hne];
    [by rewrite fn_lookup_insert | by rewrite fn_lookup_insert_ne].
Qed.

Lemma decoded_place k e e' : entry_place e' = entry_place e -> decoded k e -> decoded k e'.
Proof. unfold entry_place, decoded. intros [= -> -> -> ->]. done. Qed.

Lemma placed_frame k st st' :
  same_lists st st' -> same_places st st' -> placed k st -> placed k st'.
Proof.
  intros (Hb & _ & Hc) Hplace Hinv ii e He. rewrite Hb, Hc in He.
  destruct (Hinv ii e He) as [Hbid Hdec].
  pose proof (Hplace e) as Hp. split.
  - unfold entry_place in Hp. by injection Hp as _ -> _ _.
  - by apply (decoded_place k (drb st e)).
Qed.

Lemma channel_schedule_cmd_channel_places k now ii st st' :
  channel_schedule_cmd_channel k now ii st = Ok st' -> same_places st st'.
Proof.
  intros H. apply channel_schedule_cmd_channel_step in H
    as [[_ ->] | (bank & cur & s & _ & _ & Hstep & _)]; [apply same_places_refl |].
  by apply (current_step_places st st' bank cur s).
Qed.

Lemma data_bus_loop_places k now ii fuel : forall st st',
  data_bus_loop k now ii fuel st = Ok st' -> same_places st st'.
Proof.
  induction fuel as [| fuel IH]; intros st st' H.
  { cbn in H. simplify_eq. apply same_places_refl. }
  apply data_bus_loop_step in H
    as [[_ ->] | (bank & cur & s1 & _ & _ & _ & Hstep & _ & _ & _ & _ & _ & Hrest)];
    [apply same_places_refl |].
  apply (same_places_trans st s1 st'); [| by apply IH].
  by apply (current_step_places st s1 bank cur DRAM_DATA_WAIT).
Qed.

Lemma for_each_same_places l body st st' :
  (forall ii s s', body ii s = Ok s' -> same_places s s') ->
  for_each l body st = Ok st' -> same_places st st'.
Proof.
  intros Hbody Hrun.
  eapply (for_each_invariant (same_places st)); [| apply same_places_refl | exact Hrun].
  intros ii s s' _ Hs Hb. apply same_places_trans with s; [exact Hs | by apply (Hbody ii)].
Qed.

Lemma channel_schedule_places k now st st' :
  channel_schedule k now st = Ok st' -> same_places st st'.
Proof.
  unfold channel_schedule, channel_schedule_cmd, channel_schedule_data. intros H.
  apply bind_Ok in H as (s1 & H1 & H2).
  apply for_each_same_places in H1; [| apply channel_schedule_cmd_channel_places].
  apply for_each_same_places in H2; [by apply same_places_trans with s1 |].
  intros ii s s'. apply data_bus_loop_places.
Qed.

Lemma flushed_placed k b st : placed k st -> placed k (flushed b st).
Proof.
  intros Hinv. unfold flushed. destruct (m_buffer_free_list st b); [| exact Hinv].
  destruct (flush_prefetch_spec b st) as (_ & Hbuf & Hother & Hcur & _ & _ & Hdrb & _).
  intros ii e He. rewrite Hdrb. apply Hinv. rewrite Hcur in He.
  destruct He as [He | He]; [left | by right].
  destruct (decide (ii = b)) as [-> | Hne].
  - rewrite Hbuf in He. by apply list_elem_of_filter in He as [_ He].
  - by rewrite (proj2 (Hother ii Hne)) in He.
Qed.

Lemma insert_new_req_placed k now mem_req st ok st' :
  KNOB_DRAM_NUM_BANKS k < 2 ^ 31 ->
  owned k st -> placed k st ->
  insert_new_req k now mem_req st = Ok (ok, st') -> placed k st'.
Proof.
  intros Hk Hown Hinv Hrun.
  destruct (address_parsing k (Req.m_addr (mem st mem_req)))
    as [[[bid_xor cid] bid] rid] eqn:Hparse.
  pose proof (bank_of_request k _ bid_xor cid bid rid Hk Hparse) as Hbank.
  destruct (insert_new_req_cases k now mem_req st bid_xor cid bid rid Hparse)
    as (Hneg & Hfull & Hadmit).
  set (b := Z.to_nat (interleave k bid bid_xor)) in *.
  destruct (Z.lt_ge_cases rid 0) as [Hlt | Hge]; [rewrite (Hneg Hlt) in Hrun; discriminate |].
  pose proof (flushed_placed k b st Hinv) as Hfinv.
  assert (Hfown : owned k (flushed b st)).
  { apply (owned_Permutation k st); [| exact Hown]. intros ii. apply flushed_entries. }
  destruct (flushed_mem b st) as (_ & Hdrb & _).
  destruct (m_buffer_free_list (flushed b st) b) as [| new_entry rest] eqn:Hfree.
  { rewrite (Hfull Hge eq_refl) in Hrun. injection Hrun as <- <-. exact Hfinv. }
  destruct (Hadmit Hge new_entry rest eq_refl)
    as (st2 & Hrun2 & _ & Hbuf2 & Hcur2 & _ & _ & _ & Hpop & Hframe).
  rewrite Hrun2 in Hrun. injection Hrun as <- <-.
  assert (Hnew : new_entry ∈ bank_entries (flushed b st) b).
  { unfold bank_entries. rewrite Hfree. left. }
  assert (Hfresh : forall ii e,
            e ∈ m_buffer (flushed b st) ii \/ m_current_list (flushed b st) ii = Some e ->
            e ≠ new_entry).
  { intros ii e He ->.
    assert (Hin : new_entry ∈ m_buffer (flushed b st) ii
                               ++ option_list (m_current_list (flushed b st) ii)).
    { apply elem_of_app. destruct He as [He | ->]; [by left | right; left]. }
    assert (ii = b) as ->.
    { apply (owned_elsewhere k (flushed b st) ii b new_entry Hfown); [| exact Hnew].
      unfold bank_entries. apply elem_of_app. by right. }
    destruct (Hfown b) as [Hnd _]. unfold bank_entries in Hnd. rewrite Hfree in Hnd.
    cbn in Hnd. apply NoDup_cons in Hnd as [Hnotin _]. apply Hnotin.
    apply elem_of_app. by right. }
  assert (Hold : forall ii e,
            e ∈ m_buffer (flushed b st) ii \/ m_current_list (flushed b st) ii = Some e ->
            m_bid (drb st2 e) = Z.of_nat ii /\ decoded k (drb st2 e)).
  { intros ii e He. rewrite (Hframe e (Hfresh ii e He)), <- Hdrb. by apply Hfinv. }
  intros ii e He. rewrite Hbuf2, Hcur2 in He.
  destruct He as [He | He]; [| apply Hold; by right].
  destruct (decide (b = ii)) as [<- | Hne].
  - rewrite fn_lookup_insert in He. apply elem_of_app in He as [He | He];
      [apply Hold; by left |].
    apply list_elem_of_singleton in He as ->.
    destruct Hpop as (_ & Haddr & Hbid & Hrid & Hcid & _).
    split; [rewrite Hbid; unfold b; by rewrite Z2Nat.id |].
    unfold decoded. rewrite Haddr, Hparse. done.
  - rewrite fn_lookup_insert_ne in He by done. apply Hold. by left.
Qed.

Lemma merge_release_placed k ii temp_list st :
  owned k st ->
  (forall e, e ∈ temp_list -> e ∈ m_buffer st ii) ->
  placed k st -> placed k (merge_release ii temp_list st).
Proof.
  intros Hown Hsub Hinv jj e He.
  destruct (merge_release_spec ii temp_list st) as (_ & Hbuf & Hother & Hcur & _ & Hdrb & _).
  rewrite Hcur in He.
  assert (Hin : (e ∈ m_buffer st jj \/ m_current_list st jj = Some e) /\ e ∉ temp_list).
  { destruct He as [He | He].
    - destruct (decide (jj = ii)) as [-> | Hne].
      + rewrite Hbuf in He. apply list_elem_of_filter in He. tauto.
      + rewrite (proj2 (Hother jj Hne)) in He. split; [by left |].
        intros Ht. apply Hne.
        apply (owned_elsewhere k st jj ii e Hown); unfold bank_entries;
          rewrite !elem_of_app; right; left; [exact He | by apply Hsub].
    - split; [by right |]. intros Ht.
      apply (owned_idle_current k st jj ii e e Hown He); [| reflexivity].
      apply elem_of_app. right. by apply Hsub. }
  rewrite Hdrb, decide_False by tauto. apply Hinv. tauto.
Qed.

Lemma complete_current_placed k ii cur st :
  owned k st -> m_current_list st ii = Some cur ->
  placed k st -> placed k (complete_current ii cur st).
Proof.
  intros Hown Hcur Hinv jj e He. unfold complete_current in *. cbn in *.
  assert (Hold : (e ∈ m_buffer st jj \/ m_current_list st jj = Some e) /\ e ≠ cur).
  { destruct He as [He | He].
    - split; [by left |].
      apply (owned_idle_current k st ii jj cur e Hown Hcur). apply elem_of_app. by right.
    - destruct (decide (ii = jj)) as [<- | Hjj].
      + rewrite fn_lookup_insert in He. discriminate.
      + rewrite fn_lookup_insert_ne in He by done. split; [by right |].
        intros ->. apply Hjj. exact (owned_current_inj k st ii jj cur Hown Hcur He). }
  rewrite fn_lookup_insert_ne by (intros <-; tauto). apply Hinv. tauto.
Qed.

Lemma bank_schedule_complete_bank_placed k now noc ii st st' :
  owned k st -> placed k st ->
  bank_schedule_complete_bank k now noc ii st = Ok st' -> placed k st'.
Proof.
  unfold bank_schedule_complete_bank. intros Hown Hinv H.
  destruct (m_current_list st ii) as [cur |] eqn:Hcur; [| by simplify_eq].
  destruct (m_data_ready st ii <=? now); [| by simplify_eq].
  apply bind_Ok in H as ([] & _ & H).
  apply bind_Ok in H as ([stop s1] & Hmerge & H).
  assert (H1 : owned k s1 /\ placed k s1 /\ m_current_list s1 ii = Some cur).
  { destruct (KNOB_DRAM_MERGE_REQUESTS k); [| by simplify_eq].
    apply bind_Ok in Hmerge as ([[temp_list stop'] s0] & Hscan & Hrel).
    apply merge_scan_Ok in Hscan as (Hframe & Htemp & _). cbn in Htemp.
    injection Hrel as <- <-.
    pose proof (scan_frame_same_lists k st s0 Hframe) as Hsame.
    destruct (merge_release_spec ii temp_list s0) as (_ & _ & _ & Rcur & _).
    pose proof Hsame as (Hb & _ & Hc).
    split; [| split; [| by rewrite Rcur, Hc]].
    - apply (owned_Permutation k st); [| exact Hown]. intros jj.
      rewrite <- (same_lists_entries st s0 jj Hsame). subst temp_list.
      rewrite <- Hb. apply merge_release_entries.
    - apply merge_release_placed.
      + exact (owned_same_lists k st s0 Hsame Hown).
      + intros e He. subst temp_list. apply list_elem_of_filter in He as [_ He].
        by rewrite Hb.
      + apply (placed_frame k st s0 Hsame); [| exact Hinv].
        apply same_places_drb. by destruct Hframe as (-> & _). }
  destruct H1 as (Hown1 & Hinv1 & Hcur1).
  destruct stop; [by simplify_eq |].
  destruct (decide (type_of s1 cur = MRT_WB)).
  { simplify_eq.
    exact (complete_current_placed k ii cur (free_req (req_of s1 cur) s1) Hown1 Hcur1 Hinv1). }
  apply bind_Ok in H as ([ok s2] & Hsend & H).
  apply send_packet_Ok in Hsend as (_ & Hframe2 & _).
  pose proof (scan_frame_same_lists k s1 s2 Hframe2) as Hsame2.
  assert (Hinv2 : placed k s2).
  { apply (placed_frame k s1 s2 Hsame2); [| exact Hinv1].
    apply same_places_drb. by destruct Hframe2 as (-> & _). }
  destruct ok; simplify_eq; [| exact Hinv2].
  assert (Hcur2 : m_current_list s2 ii = Some cur)
    by (destruct Hsame2 as (_ & _ & ->); exact Hcur1).
  exact (complete_current_placed k ii cur
           (upd_mem (req_of s2 cur) (Req.set_m_state MEM_DRAM_DONE) s2)
           (owned_same_lists k s1 s2 Hsame2 Hown1) Hcur2 Hinv2).
Qed.

Lemma bank_schedule_new_bank_placed k now ii st st' :
  bank_schedule_new_bank k now ii st = Ok st' -> placed k st -> placed k st'.
Proof.
  unfold bank_schedule_new_bank. intros H Hinv.
  destruct (bool_decide (m_buffer st ii = []) && bool_decide (m_current_list st ii = None))
    eqn:Hguard; [by simplify_eq |].
  destruct (m_current_list st ii) as [cur |] eqn:Hcur.
  { destruct (_ && _) in H; [| by simplify_eq].
    apply bind_Ok in H as ([] & _ & H). injection H as <-.
    apply (placed_frame k st); [by unfold same_lists | | exact Hinv].
    apply (current_step_places st _ ii cur DRAM_CMD). unfold current_step, same_lists. by cbn. }
  assert (Hne : m_buffer st ii ≠ []).
  { intros Hnil. rewrite Hnil in Hguard. discriminate. }
  destruct (schedule_Ok k ii st Hne) as (entry & Hsched & Hin).
  rewrite Hsched in H. cbn in H. injection H as <-.
  intros jj e He.
  assert (Hold : e ∈ m_buffer st jj \/ m_current_list st jj = Some e).
  { destruct (decide (ii = jj)) as [<- | Hjj].
    - destruct He as [He | He].
      + left. destruct (scheduler k); cbn in He; rewrite !fn_lookup_insert in He;
          apply list_elem_of_filter in He as [_ He]; [exact He |].
        by apply (list_sort_elem_of (sort_func st)).
      + left. destruct (scheduler k); cbn in He; rewrite !fn_lookup_insert in He;
          by injection He as <-.
    - destruct (scheduler k); cbn in He; by rewrite !fn_lookup_insert_ne in He. }
  destruct (Hinv jj e Hold) as [Hbid Hdec].
  assert (Hplace : entry_place
                     (drb (upd_drb entry (set_m_scheduled now)
                             (upd_drb entry (set_m_state DRAM_CMD) st)) e)
                   = entry_place (drb st e)).
  { unfold upd_drb. cbn. destruct (decide (e = entry)) as [-> | Hne'].
    - by rewrite !fn_lookup_insert.
    - by rewrite !fn_lookup_insert_ne. }
  destruct (scheduler k); cbn; cbn in Hplace; split;
    solve [ unfold entry_place in Hplace; injection Hplace as _ Hp _ _; by rewrite Hp
          | by apply (decoded_place k (drb st e)) ].
Qed.

Lemma run_a_cycle_placed k now noc st st' :
  KNOB_DRAM_NUM_BANKS k < 2 ^ 31 ->
  owned k st -> placed k st ->
  run_a_cycle k now noc st = Ok st' -> placed k st'.
Proof.
  unfold run_a_cycle, bank_schedule. intros Hk Hown Hinv H.
  apply bind_Ok in H as (s1 & H1 & H). apply bind_Ok in H as (s3 & H23 & H).
  apply bind_Ok in H23 as (s2 & H2 & H3). apply bind_Ok in H as (s4 & H4 & H5).
  pose proof (channel_schedule_lists k now st s1 H1) as L1.
  pose proof (owned_same_lists k st s1 L1 Hown) as Hown1.
  pose proof (placed_frame k st s1 L1 (channel_schedule_places k now st s1 H1) Hinv) as Hinv1.
  assert (H2' : owned k s2 /\ placed k s2).
  { unfold bank_schedule_complete in H2.
    eapply (for_each_invariant (λ s, owned k s /\ placed k s)); [| | exact H2].
    - intros ii s s' _ [Ho Hs] Hb. split.
      + apply (owned_Permutation k s); [| exact Ho].
        intros jj. by apply (bank_schedule_complete_bank_entries k now noc ii).
      + by apply (bank_schedule_complete_bank_placed k now noc ii s).
    - split; [exact Hown1 |]. intros ii. exact (Hinv1 ii). }
  destruct H2' as [Hown2 Hinv2].
  assert (Hown3 : owned k s3).
  { apply (owned_Permutation k s2); [| exact Hown2].
    intros jj. apply (bank_schedule_new_entries k now); [apply Hown2 | exact H3]. }
  assert (Hinv3 : placed k s3).
  { unfold bank_schedule_new in H3.
    eapply (for_each_invariant (placed k)); [| exact Hinv2 | exact H3].
    intros ii s s' _ Hs Hb. by apply (bank_schedule_new_bank_placed k now ii s). }
  assert (Hinv4 : placed k s4).
  { unfold receive_packet in H4. destruct (IRIS k); [| by simplify_eq].
    destruct (receive_queue s3) as [| req rest]; [by simplify_eq |].
    apply bind_Ok in H4 as ([ok s] & Hins & H4).
    apply (insert_new_req_placed k now req s3 ok s Hk Hown3 Hinv3) in Hins.
    destruct ok; simplify_eq; [| exact Hins]. intros ii. exact (Hins ii). }
  rewrite progress_check_spec in H5.
  destruct (decide (_ < 5000)); [| discriminate].
  injection H5 as <-. intros ii. exact (Hinv4 ii).
Qed.

Lemma reachable_placed k st :
  KNOB_DRAM_NUM_BANKS k < 2 ^ 31 -> reachable k st -> placed k st.
Proof.
  intros Hk. induction 1 as [raw id noc_id | st now mem_req ok st' Hreach IH Hins
                  | st now noc st' Hreach IH Htick | st requests queue _ IH].
  - intros ii e [He | He]; [by apply elem_of_nil in He | discriminate].
  - exact (insert_new_req_placed k now mem_req st ok st' Hk (reachable_owned k st Hreach) IH Hins).
  - exact (run_a_cycle_placed k now noc st st' Hk (reachable_owned k st Hreach) IH Htick).
  - intros ii. exact (IH ii).
Qed.

(** ** The count of the requests *)

Lemma vacant_Permutation k st st' :
  (forall ii, bank_entries st' ii ≡ₚ bank_entries st ii) -> vacant k st -> vacant k st'.
Proof.
  intros Hp Hv ii Hii. apply Permutation_nil_r. rewrite <- (Hv ii Hii). apply Hp.
Qed.

Lemma reachable_vacant k st : reachable k st -> vacant k st.
Proof.
  induction 1 as [raw id noc_id | st now mem_req ok st' Hreach IH Hins
                  | st now noc st' Hreach IH Htick | st requests queue _ IH].
  - intros ii Hii. unfold bank_entries. cbn. by rewrite decide_False.
  - apply (vacant_Permutation k st); [| exact IH].
    intros ii. by apply (insert_new_req_entries k now mem_req st ok).
  - apply (vacant_Permutation k st); [| exact IH].
    intros ii. apply (run_a_cycle_entries k now noc); [| exact Htick].
    apply (reachable_owned k st Hreach).
  - exact IH.
Qed.

Lemma in_flight_same k st st' :
  (forall ii, (ii < Z.to_nat (m_num_bank k))%nat -> held st' ii = held st ii) ->
  in_flight k st' = in_flight k st.
Proof.
  intros H. unfold in_flight, upto. f_equal. apply map_ext_in. intros ii Hii.
  apply H. apply in_seq in Hii. lia.
Qed.

Lemma sum_held_change st st' b l :
  NoDup l -> b ∈ l ->
  (forall jj, jj ≠ b -> held st' jj = held st jj) ->
  foldr Z.add 0 (map (held st') l) = foldr Z.add 0 (map (held st) l) + (held st' b - held st b).
Proof.
  intros Hnd Hb Hother. induction l as [| a l IH]; [by apply elem_of_nil in Hb |].
  apply NoDup_cons in Hnd as [Ha Hnd]. cbn.
  destruct (decide (a = b)) as [-> | Hne].
  - assert (map (held st') l = map (held st) l) as ->; [| lia].
    apply map_ext_in. intros jj Hjj. apply Hother. intros ->.
    apply Ha. by apply list_elem_of_In.
  - apply elem_of_cons in Hb as [-> | Hb]; [done |].
    rewrite (IH Hnd Hb), (Hother a Hne). lia.
Qed.

Lemma bank_account_in_flight k st st' ii :
  (ii < Z.to_nat (m_num_bank k))%nat ->
  bank_account st st' ii ->
  m_total_req st' - in_flight k st' = m_total_req st - in_flight k st.
Proof.
  intros Hii [Hother Hacc]. unfold in_flight.
  rewrite (sum_held_change st st' ii (upto (m_num_bank k))); [lia | | | exact Hother].
  - apply NoDup_seq.
  - unfold upto. apply elem_of_seq. lia.
Qed.

Lemma bank_account_refl st ii : bank_account st st ii.
Proof. by unfold bank_account. Qed.

Lemma bank_account_trans s1 s2 s3 ii :
  bank_account s1 s2 ii -> bank_account s2 s3 ii -> bank_account s1 s3 ii.
Proof.
  intros [H1 A1] [H2 A2]. split; [| lia].
  intros jj Hjj. by rewrite (H2 jj Hjj), (H1 jj Hjj).
Qed.

Lemma bank_account_frame st st' ii :
  same_lists st st' -> m_total_req st' = m_total_req st -> bank_account st st' ii.
Proof.
  intros (Hb & _ & Hc) Ht. unfold bank_account, held. rewrite Hb, Hc, Ht. done.
Qed.

Lemma filter_length_complement {A : Type} (P : A -> Prop) `{!forall x, Decision (P x)} l :
  Z.of_nat (length (filter (λ x, ¬ P x) l)) = Z.of_nat (length l) - Z.of_nat (length (filter P l)).
Proof.
  pose proof (filter_app_complement P l) as Hp. apply Permutation_length in Hp.
  rewrite length_app in Hp. lia.
Qed.

Lemma flush_prefetch_account b st : bank_account st (flush_prefetch b st) b.
Proof.
  destruct (flush_prefetch_spec b st) as (_ & Hbuf & Hother & Hcur & Htot & _).
  unfold bank_account, held. rewrite Hcur, Htot, Hbuf. split.
  - intros jj Hjj. by rewrite (proj2 (Hother jj Hjj)).
  - unfold prefetches.
    pose proof (filter_length_complement (λ it, type_of st it = MRT_DPRF) (m_buffer st b)).
    lia.
Qed.

Lemma flushed_account b st : bank_account st (flushed b st) b.
Proof.
  unfold flushed. destruct (m_buffer_free_list st b);
    [apply flush_prefetch_account | apply bank_account_refl].
Qed.

Lemma insert_new_req_account k now mem_req st ok st' :
  insert_new_req k now mem_req st = Ok (ok, st') ->
  exists b, bank_account st st' b /\
            (m_buffer_free_list st b = [] -> m_buffer st b = [] -> st' = st).
Proof.
  intros Hrun.
  destruct (address_parsing k (Req.m_addr (mem st mem_req)))
    as [[[bid_xor cid] bid] rid] eqn:Hparse.
  destruct (insert_new_req_cases k now mem_req st bid_xor cid bid rid Hparse)
    as (Hneg & Hfull & Hadmit).
  set (b := Z.to_nat (interleave k bid bid_xor)) in *. exists b.
  destruct (Z.lt_ge_cases rid 0) as [Hlt | Hge]; [rewrite (Hneg Hlt) in Hrun; discriminate |].
  assert (Hempty : m_buffer_free_list st b = [] -> m_buffer st b = [] -> flushed b st = st).
  { intros Hf Hp. unfold flushed, flush_prefetch. by rewrite Hf, Hp. }
  destruct (m_buffer_free_list (flushed b st) b) as [| new_entry rest] eqn:Hfree.
  { rewrite (Hfull Hge eq_refl) in Hrun. injection Hrun as <- <-.
    split; [apply flushed_account | exact Hempty]. }
  destruct (Hadmit Hge new_entry rest eq_refl)
    as (st2 & Hrun2 & _ & Hbuf2 & Hcur2 & Htot2 & _).
  rewrite Hrun2 in Hrun. injection Hrun as <- <-. split.
  - apply (bank_account_trans st (flushed b st) st2 b (flushed_account b st)).
    unfold bank_account, held. rewrite Hbuf2, Hcur2, Htot2. split.
    + intros jj Hjj. by rewrite fn_lookup_insert_ne.
    + rewrite fn_lookup_insert, length_app. cbn. lia.
  - intros Hf Hp. rewrite (Hempty Hf Hp), Hf in Hfree. discriminate.
Qed.

Lemma merge_release_account ii (P : drb_entry_ptr -> Prop) `{!forall x, Decision (P x)} st :
  bank_account st (merge_release ii (filter P (m_buffer st ii)) st) ii.
Proof.
  destruct (merge_release_spec ii (filter P (m_buffer st ii)) st)
    as (_ & Hbuf & Hother & Hcur & Htot & _).
  unfold bank_account, held. rewrite Hcur, Htot, Hbuf. split.
  - intros jj Hjj. by rewrite (proj2 (Hother jj Hjj)).
  - rewrite (filter_iff_elem (λ y, y ∉ filter P (m_buffer st ii)) (λ y, ¬ P y)).
    + pose proof (filter_length_complement P (m_buffer st ii)). lia.
    + intros y Hy. rewrite list_elem_of_filter. tauto.
Qed.

Lemma complete_current_account ii cur st :
  m_current_list st ii = Some cur -> bank_account st (complete_current ii cur st) ii.
Proof.
  intros Hcur. unfold bank_account, held, complete_current. cbn. split.
  - intros jj Hjj. by rewrite fn_lookup_insert_ne.
  - rewrite fn_lookup_insert, Hcur. lia.
Qed.

Lemma bank_schedule_complete_bank_account k now noc ii st st' :
  bank_schedule_complete_bank k now noc ii st = Ok st' -> bank_account st st' ii.
Proof.
  unfold bank_schedule_complete_bank. intros H.
  destruct (m_current_list st ii) as [cur |] eqn:Hcur;
    [| simplify_eq; apply bank_account_refl].
  destruct (m_data_ready st ii <=? now); [| simplify_eq; apply bank_account_refl].
  apply bind_Ok in H as ([] & _ & H).
  apply bind_Ok in H as ([stop s1] & Hmerge & H).
  assert (H1 : bank_account st s1 ii /\ m_current_list s1 ii = Some cur).
  { destruct (KNOB_DRAM_MERGE_REQUESTS k);
      [| simplify_eq; split; [apply bank_account_refl | exact Hcur]].
    apply bind_Ok in Hmerge as ([[temp_list stop'] s0] & Hscan & Hrel).
    apply merge_scan_Ok in Hscan as (Hframe & Htemp & _). cbn in Htemp.
    injection Hrel as <- <-.
    pose proof (scan_frame_same_lists k st s0 Hframe) as Hsame.
    destruct (merge_release_spec ii temp_list s0) as (_ & _ & _ & Rcur & _).
    pose proof Hsame as (Hb & _ & Hc).
    split; [| by rewrite Rcur, Hc].
    apply (bank_account_trans st s0).
    - apply bank_account_frame; [exact Hsame | by destruct Hframe as (_ & _ & _ & _ & _ & -> & _)].
    - subst temp_list. rewrite <- Hb. apply merge_release_account. }
  destruct H1 as [Hacc1 Hcur1].
  destruct stop; [by simplify_eq |].
  destruct (decide (type_of s1 cur = MRT_WB)).
  { simplify_eq. apply (bank_account_trans st s1 _ ii Hacc1).
    exact (complete_current_account ii cur (free_req (req_of s1 cur) s1) Hcur1). }
  apply bind_Ok in H as ([ok s2] & Hsend & H).
  apply send_packet_Ok in Hsend as (_ & Hframe2 & _).
  pose proof (scan_frame_same_lists k s1 s2 Hframe2) as Hsame2.
  assert (Hacc2 : bank_account st s2 ii).
  { apply (bank_account_trans st s1 s2 ii Hacc1). apply bank_account_frame; [exact Hsame2 |].
    by destruct Hframe2 as (_ & _ & _ & _ & _ & -> & _). }
  destruct ok; simplify_eq; [| exact Hacc2].
  assert (Hcur2 : m_current_list s2 ii = Some cur)
    by (destruct Hsame2 as (_ & _ & ->); exact Hcur1).
  apply (bank_account_trans st s2 _ ii Hacc2).
  exact (complete_current_account ii cur
           (upd_mem (req_of s2 cur) (Req.set_m_state MEM_DRAM_DONE) s2) Hcur2).
Qed.

Lemma remove_length (x : drb_entry_ptr) l :
  NoDup l -> x ∈ l -> Z.of_nat (length (remove x l)) = Z.of_nat (length l) - 1.
Proof.
  intros Hnd Hx. pose proof (remove_Permutation x l Hnd Hx) as Hp.
  apply Permutation_length in Hp. cbn in Hp. lia.
Qed.

Lemma bank_schedule_new_bank_account k now ii st st' :
  NoDup (m_buffer st ii) ->
  bank_schedule_new_bank k now ii st = Ok st' -> bank_account st st' ii.
Proof.
  unfold bank_schedule_new_bank. intros Hnd H.
  destruct (bool_decide (m_buffer st ii = []) && bool_decide (m_current_list st ii = None))
    eqn:Hguard; [simplify_eq; apply bank_account_refl |].
  destruct (m_current_list st ii) as [cur |] eqn:Hcur.
  { destruct (_ && _) in H; [| simplify_eq; apply bank_account_refl].
    apply bind_Ok in H as ([] & _ & H). injection H as <-.
    apply bank_account_frame; by unfold same_lists. }
  assert (Hne : m_buffer st ii ≠ []).
  { intros Hnil. rewrite Hnil in Hguard. discriminate. }
  destruct (schedule_Ok k ii st Hne) as (entry & Hsched & Hin).
  rewrite Hsched in H. cbn in H. injection H as <-.
  assert (Hlen : forall pending, pending ≡ₚ m_buffer st ii ->
            Z.of_nat (length (remove entry pending)) = Z.of_nat (length (m_buffer st ii)) - 1).
  { intros pending Hp. rewrite remove_length; [by rewrite Hp | by rewrite Hp | by rewrite Hp]. }
  unfold remove in Hlen. unfold bank_account, held. split.
  - intros jj Hjj. destruct (scheduler k); cbn; by rewrite !fn_lookup_insert_ne.
  - rewrite Hcur. destruct (scheduler k); cbn -[list_sort]; rewrite !fn_lookup_insert.
    + rewrite (Hlen (m_buffer st ii)) by done. lia.
    + rewrite (Hlen (list_sort (sort_func st) (m_buffer st ii)))
        by apply list_sort_Permutation. lia.
Qed.

Lemma insert_new_req_in_flight k now mem_req st ok st' :
  vacant k st ->
  insert_new_req k now mem_req st = Ok (ok, st') ->
  m_total_req st' - in_flight k st' = m_total_req st - in_flight k st.
Proof.
  intros Hv Hrun.
  destruct (insert_new_req_account k now mem_req st ok st' Hrun) as (b & Hacc & Hempty).
  destruct (decide (b < Z.to_nat (m_num_bank k))%nat) as [Hb | Hb].
  - by apply (bank_account_in_flight k st st' b).
  - pose proof (Hv b Hb) as Hnil. unfold bank_entries in Hnil.
    apply app_eq_nil in Hnil as [Hf Hnil]. apply app_eq_nil in Hnil as [Hp _].
    by rewrite (Hempty Hf Hp).
Qed.

Lemma for_each_in_flight k (Inv : dram_controller_c -> Prop) body st st' :
  (forall ii s s', Inv s -> body ii s = Ok s' -> Inv s' /\ bank_account s s' ii) ->
  Inv st ->
  for_each (upto (m_num_bank k)) body st = Ok st' ->
  Inv st' /\ m_total_req st' - in_flight k st' = m_total_req st - in_flight k st.
Proof.
  intros Hbody Hinv Hrun.
  eapply (for_each_invariant
            (λ s, Inv s /\ m_total_req s - in_flight k s = m_total_req st - in_flight k st));
    [| | exact Hrun]; [| done].
  intros ii s s' Hii [Hs Hacc] Hb. destruct (Hbody ii s s' Hs Hb) as [Hs' Hacc'].
  split; [exact Hs' |]. rewrite <- Hacc.
  apply (bank_account_in_flight k s s' ii); [| exact Hacc'].
  unfold upto in Hii. apply elem_of_seq in Hii. lia.
Qed.

Lemma run_a_cycle_in_flight k now noc st st' :
  owned k st -> vacant k st ->
  run_a_cycle k now noc st = Ok st' ->
  m_total_req st' - in_flight k st' = m_total_req st - in_flight k st.
Proof.
  unfold run_a_cycle, bank_schedule. intros Hown Hv H.
  apply bind_Ok in H as (s1 & H1 & H). apply bind_Ok in H as (s3 & H23 & H).
  apply bind_Ok in H23 as (s2 & H2 & H3). apply bind_Ok in H as (s4 & H4 & H5).
  pose proof (channel_schedule_lists k now st s1 H1) as L1.
  assert (T1 : m_total_req s1 = m_total_req st).
  { unfold channel_schedule, channel_schedule_cmd, channel_schedule_data in H1.
    apply bind_Ok in H1 as (s0 & Hc & Hd).
    assert (T0 : m_total_req s0 = m_total_req st).
    { eapply (for_each_invariant (λ s, m_total_req s = m_total_req st)); [| | exact Hc]; [| done].
      intros ii s s' _ Hs Hb. rewrite <- Hs.
      apply channel_schedule_cmd_channel_step in Hb
        as [[_ ->] | (bank & cur & x & _ & _ & _ & _ & Ht & _)]; [done | exact Ht]. }
    eapply (for_each_invariant (λ s, m_total_req s = m_total_req st)); [| exact T0 | exact Hd].
    intros ii s s' _ Hs Hb. cbv beta in Hb. rewrite <- Hs. clear Hs.
    revert s s' Hb. generalize (S (length (channel_banks k ii))) as fuel.
    induction fuel as [| fuel IH]; intros s s' Hb; [cbn in Hb; by simplify_eq |].
    apply data_bus_loop_step in Hb
      as [[_ ->] | (bank & cur & x & _ & _ & _ & _ & _ & _ & _ & _ & Ht & Hrest)]; [done |].
    by rewrite (IH x s' Hrest). }
  assert (A1 : m_total_req s1 - in_flight k s1 = m_total_req st - in_flight k st).
  { rewrite T1. f_equal. apply in_flight_same. intros ii _. unfold held.
    destruct L1 as (-> & _ & ->). done. }
  pose proof (owned_same_lists k st s1 L1 Hown) as Hown1.
  assert (A2 : owned k s2 /\ m_total_req s2 - in_flight k s2 = m_total_req s1 - in_flight k s1).
  { unfold bank_schedule_complete in H2.
    assert (A0 : m_total_req (set_m_num_completed_in_last_cycle 0 s1)
                 - in_flight k (set_m_num_completed_in_last_cycle 0 s1)
                 = m_total_req s1 - in_flight k s1) by done.
    rewrite <- A0.
    eapply (for_each_in_flight k (owned k)); [| | exact H2]; [| exact Hown1].
    intros ii s s' Ho Hb. split.
    - apply (owned_Permutation k s); [| exact Ho].
      intros jj. by apply (bank_schedule_complete_bank_entries k now noc ii).
    - by apply (bank_schedule_complete_bank_account k now noc ii). }
  destruct A2 as [Hown2 A2].
  assert (A3 : owned k s3 /\ m_total_req s3 - in_flight k s3 = m_total_req s2 - in_flight k s2).
  { unfold bank_schedule_new in H3.
    eapply (for_each_in_flight k (owned k)); [| | exact H3]; [| exact Hown2].
    intros ii s s' Ho Hb. split.
    - apply (owned_Permutation k s); [| exact Ho].
      intros jj. apply (bank_schedule_new_bank_entries k now ii); [apply Ho | exact Hb].
    - apply (bank_schedule_new_bank_account k now ii); [| exact Hb].
      destruct (Ho ii) as [Hnd _]. unfold bank_entries in Hnd.
      apply NoDup_app in Hnd as (_ & _ & Hnd). by apply NoDup_app in Hnd as (Hnd & _). }
  destruct A3 as [Hown3 A3].
  assert (Hv3 : vacant k s3).
  { apply (vacant_Permutation k st); [| exact Hv]. intros ii.
    rewrite (bank_schedule_new_entries k now s2 s3 ii (proj1 (Hown2 ii)) H3).
    rewrite (bank_schedule_complete_entries k now noc s1 s2 ii H2).
    by rewrite (same_lists_entries st s1 ii L1). }
  assert (A4 : m_total_req s4 - in_flight k s4 = m_total_req s3 - in_flight k s3).
  { unfold receive_packet in H4. destruct (IRIS k); [| by simplify_eq].
    destruct (receive_queue s3) as [| req rest]; [by simplify_eq |].
    apply bind_Ok in H4 as ([ok s] & Hins & H4).
    apply (insert_new_req_in_flight k now req s3 ok s Hv3) in Hins.
    destruct ok; simplify_eq; exact Hins. }
  rewrite progress_check_spec in H5.
  destruct (decide (_ < 5000)); [| discriminate].
  injection H5 as <-.
  assert (A5 : forall c, m_total_req (set_m_starvation_cycle c s4)
                         - in_flight k (set_m_starvation_cycle c s4)
                         = m_total_req s4 - in_flight k s4) by done.
  rewrite A5. lia.
Qed.

(** ** The comparator as an order *)

Lemma sort_func_key st a b :
  sort_func st a b = true <->
  key_lt (frfcfs_key st (m_current_rid st (Z.to_nat (m_bid (drb st a)))) a)
         (frfcfs_key st (m_current_rid st (Z.to_nat (m_bid (drb st a)))) b).
Proof. by rewrite sort_func_outranks, outranks_key. Qed.

Lemma sort_func_key_false st a b :
  sort_func st a b = false <->
  ¬ key_lt (frfcfs_key st (m_current_rid st (Z.to_nat (m_bid (drb st a)))) a)
           (frfcfs_key st (m_current_rid st (Z.to_nat (m_bid (drb st a)))) b).
Proof. rewrite <- sort_func_key. by destruct (sort_func st a b). Qed.

(** ** Refused requests *)

Lemma flush_prefetch_nothing b st :
  (forall e, e ∈ m_buffer st b -> type_of st e ≠ MRT_DPRF) -> flush_prefetch b st = st.
Proof.
  intros Hno. unfold flush_prefetch.
  assert (filter (λ it, type_of st it = MRT_DPRF) (m_buffer st b) = []) as ->; [| done].
  induction (m_buffer st b) as [| e l IH]; [done |].
  rewrite filter_cons_False by (apply Hno; left).
  apply IH. intros x Hx. apply Hno. by right.
Qed.

Lemma insert_new_req_refused k now mem_req st ok st' bid_xor cid bid rid :
  address_parsing k (Req.m_addr (mem st mem_req)) = (bid_xor, cid, bid, rid) ->
  insert_new_req k now mem_req st = Ok (ok, st') ->
  let b := Z.to_nat (interleave k bid bid_xor) in
  (ok = false <->
   m_buffer_free_list st b = [] /\ forall e, e ∈ m_buffer st b -> type_of st e ≠ MRT_DPRF) /\
  (ok = false -> st' = st).
Proof.
  intros Hparse Hrun b.
  destruct (insert_new_req_cases k now mem_req st bid_xor cid bid rid Hparse)
    as (Hneg & Hfull & Hadmit). fold b in Hfull, Hadmit.
  destruct (Z.lt_ge_cases rid 0) as [Hlt | Hge]; [rewrite (Hneg Hlt) in Hrun; discriminate |].
  assert (Hfree : m_buffer_free_list (flushed b st) b = []
                  <-> m_buffer_free_list st b = []
                      /\ forall e, e ∈ m_buffer st b -> type_of st e ≠ MRT_DPRF).
  { unfold flushed. destruct (m_buffer_free_list st b) as [| x l] eqn:Hf.
    - destruct (flush_prefetch_spec b st) as (-> & _). rewrite Hf. cbn. unfold prefetches.
      split.
      + intros Hnil. split; [done |]. intros e He Hty.
        assert (Hin : e ∈ filter (λ it, type_of st it = MRT_DPRF) (m_buffer st b))
          by (by apply list_elem_of_filter).
        rewrite Hnil in Hin. by apply elem_of_nil in Hin.
      + intros [_ Hno].
        induction (m_buffer st b) as [| e l IH]; [done |].
        rewrite filter_cons_False by (apply Hno; left).
        apply IH. intros y Hy. apply Hno. by right.
    - rewrite Hf. split; [discriminate | intros [[=] _]]. }
  assert (Hsame : m_buffer_free_list st b = [] ->
                  (forall e, e ∈ m_buffer st b -> type_of st e ≠ MRT_DPRF) ->
                  flushed b st = st).
  { intros Hf Hno. unfold flushed. rewrite Hf. by apply flush_prefetch_nothing. }
  destruct (m_buffer_free_list (flushed b st) b) as [| new_entry rest] eqn:Hfl.
  - rewrite (Hfull Hge eq_refl) in Hrun. injection Hrun as <- <-.
    destruct (proj1 Hfree eq_refl) as [Hf Hno].
    split; [| intros _; by apply Hsame]. split; [done | done].
  - destruct (Hadmit Hge new_entry rest eq_refl) as (st2 & Hrun2 & _).
    rewrite Hrun2 in Hrun. injection Hrun as <- <-.
    split; [| discriminate]. split; [discriminate |].
    intros Hc. apply Hfree in Hc. discriminate.
Qed.

(** ** The decoding of an address *)

Lemma pow2_pos n : 0 <= n -> 0 < 2 ^ n.
Proof. intros Hn. by apply Z.pow_pos_nonneg. Qed.

Lemma address_rebuild A R B :
  0 < R -> 0 < B ->
  A = (A / (R * B) * B + (A / R) mod B) * R + A mod R.
Proof.
  intros HR HB.
  pose proof (Z.div_mod A (R * B) ltac:(lia)) as H.
  rewrite (Z.rem_mul_r A R B) in H by lia. lia.
Qed.

(** ** What a loop over the banks leaves to every bank *)

Lemma for_each_every (Q : nat -> dram_controller_c -> Prop) l body :
  NoDup l ->
  (forall ii s s', body ii s = Ok s' -> Q ii s') ->
  (forall ii jj s s', ii ≠ jj -> body jj s = Ok s' -> Q ii s -> Q ii s') ->
  forall st st', for_each l body st = Ok st' -> forall ii, ii ∈ l -> Q ii st'.
Proof.
  intros Hnd Hset Hkeep. induction l as [| a l IH]; intros st st' Hrun ii Hii.
  { by apply elem_of_nil in Hii. }
  apply NoDup_cons in Hnd as [Ha Hnd]. cbn in Hrun.
  apply bind_Ok in Hrun as (s1 & H1 & Hrest).
  apply elem_of_cons in Hii as [-> | Hii]; [| by apply (IH Hnd s1 st')].
  eapply (for_each_invariant (Q a)); [| | exact Hrest].
  - intros jj s s' Hjj Hs Hb. apply (Hkeep a jj s s'); [by intros -> | exact Hb | exact Hs].
  - by apply (Hset a st s1).
Qed.

(** ** Selection leaves no bank idle *)

Lemma bank_schedule_new_bank_other k now ii st st' jj :
  jj ≠ ii ->
  bank_schedule_new_bank k now ii st = Ok st' ->
  m_buffer st' jj = m_buffer st jj /\ m_current_list st' jj = m_current_list st jj.
Proof.
  unfold bank_schedule_new_bank. intros Hjj H.
  destruct (bool_decide (m_buffer st ii = []) && bool_decide (m_current_list st ii = None))
    eqn:Hguard; [by simplify_eq |].
  destruct (m_current_list st ii) as [cur |] eqn:Hcur.
  { destruct (_ && _) in H; [| by simplify_eq].
    apply bind_Ok in H as ([] & _ & H). by injection H as <-. }
  assert (Hne : m_buffer st ii ≠ []).
  { intros Hnil. rewrite Hnil in Hguard. discriminate. }
  destruct (schedule_Ok k ii st Hne) as (entry & Hsched & Hin).
  rewrite Hsched in H. cbn in H. injection H as <-.
  destruct (scheduler k); cbn; by rewrite !fn_lookup_insert_ne.
Qed.

Lemma bank_schedule_new_bank_busy k now ii st st' :
  bank_schedule_new_bank k now ii st = Ok st' ->
  (m_current_list st' ii = None -> m_buffer st' ii = []) /\
  (forall cur, m_current_list st ii = Some cur -> m_current_list st' ii = Some cur).
Proof.
  unfold bank_schedule_new_bank. intros H.
  destruct (bool_decide (m_buffer st ii = []) && bool_decide (m_current_list st ii = None))
    eqn:Hguard.
  { injection H as <-. apply andb_true_iff in Hguard as [Hb Hc].
    apply bool_decide_eq_true in Hb, Hc. rewrite Hc. done. }
  destruct (m_current_list st ii) as [cur |] eqn:Hcur.
  { destruct (_ && _) in H.
    - apply bind_Ok in H as ([] & _ & H). injection H as <-. cbn. by rewrite Hcur.
    - injection H as <-. by rewrite Hcur. }
  assert (Hne : m_buffer st ii ≠ []).
  { intros Hnil. rewrite Hnil in Hguard. discriminate. }
  destruct (schedule_Ok k ii st Hne) as (entry & Hsched & Hin).
  rewrite Hsched in H. cbn in H. injection H as <-.
  split; [| discriminate].
  destruct (scheduler k); cbn; by rewrite !fn_lookup_insert.
Qed.

Lemma bank_schedule_new_busy k now st st' ii :
  (ii < Z.to_nat (m_num_bank k))%nat ->
  bank_schedule_new k now st = Ok st' ->
  (m_current_list st' ii = None -> m_buffer st' ii = []) /\
  (forall cur, m_current_list st ii = Some cur -> m_current_list st' ii = Some cur).
Proof.
  unfold bank_schedule_new. intros Hii Hrun.
  assert (Hin : ii ∈ upto (m_num_bank k)) by (unfold upto; apply elem_of_seq; lia).
  split.
  - eapply (for_each_every (λ jj s, m_current_list s jj = None -> m_buffer s jj = []));
      [apply NoDup_seq | | | exact Hrun | exact Hin].
    + intros jj s s' Hb. exact (proj1 (bank_schedule_new_bank_busy k now jj s s' Hb)).
    + intros i j s s' Hij Hb.
      by destruct (bank_schedule_new_bank_other k now j s s' i Hij Hb) as [-> ->].
  - intros cur Hcur.
    eapply (for_each_invariant (λ s, m_current_list s ii = Some cur)); [| exact Hcur | exact Hrun].
    intros jj s s' _ Hs Hb. destruct (decide (ii = jj)) as [<- | Hne].
    + by apply (bank_schedule_new_bank_busy k now ii s s' Hb).
    + by rewrite (proj2 (bank_schedule_new_bank_other k now jj s s' ii Hne Hb)).
Qed.

(** ** The indices of the banks *)

Lemma bank_of_request_bound k addr bid_xor cid bid rid :
  0 < KNOB_DRAM_NUM_BANKS k < 2 ^ 31 ->
  address_parsing k addr = (bid_xor, cid, bid, rid) ->
  0 <= interleave k bid bid_xor < m_num_bank k.
Proof.
  intros Hk Hparse. unfold address_parsing, m_bid_mask, N_BIT_MASK, log2_int in Hparse.
  injection Hparse as <- _ <- _.
  set (n := Z.log2 (KNOB_DRAM_NUM_BANKS k)).
  assert (Hn : 0 <= n < 31).
  { split; [apply Z.log2_nonneg |]. unfold n. apply Z.log2_lt_pow2; lia. }
  assert (Hpow : 0 < 2 ^ n <= 2 ^ 30)
    by (split; [apply Z.pow_pos_nonneg; lia | apply Z.pow_le_mono_r; lia]).
  assert (Hle : 2 ^ n <= KNOB_DRAM_NUM_BANKS k).
  { unfold n. apply Z.log2_spec. lia. }
  assert (Hmod : forall x, to_int (Z.land x (Z.ones n)) = x mod 2 ^ n).
  { intros x. rewrite Z.land_ones by lia.
    pose proof (Z.mod_pos_bound x (2 ^ n)). rewrite to_int_small; lia. }
  unfold interleave, m_num_bank. rewrite !Hmod.
  destruct (KNOB_DRAM_BANK_XOR_INDEX k).
  - set (x := addr ≫ _ mod 2 ^ n). set (y := addr ≫ _ mod 2 ^ n).
    assert (Hx : 0 <= x < 2 ^ n) by (apply Z.mod_pos_bound; lia).
    assert (Hy : 0 <= y < 2 ^ n) by (apply Z.mod_pos_bound; lia).
    assert (H0 : 0 <= Z.lxor x y) by (apply Z.lxor_nonneg; lia).
    split; [exact H0 |].
    apply Z.lt_le_trans with (2 ^ n); [| exact Hle].
    destruct (Z.eq_dec (Z.lxor x y) 0) as [-> | Hnz]; [lia |].
    apply Z.log2_lt_pow2; [lia |].
    apply Z.le_lt_trans with (Z.max (Z.log2 x) (Z.log2 y)); [apply Z.log2_lxor; lia |].
    assert (forall z, 0 <= z < 2 ^ n -> Z.log2 z < n \/ n = 0).
    { intros z Hz. destruct (Z.eq_dec z 0) as [-> | Hz0].
      - cbn. lia.
      - left. apply Z.log2_lt_pow2; lia. }
    destruct (Z.eq_dec n 0) as [Hn0 | Hn0].
    + exfalso. rewrite Hn0 in Hx, Hy. change (2 ^ 0) with 1 in Hx, Hy.
      assert (x = 0) by lia. assert (y = 0) by lia. subst x y.
      apply Hnz. replace (addr ≫ _ mod 2 ^ n) with 0 by lia.
      replace (addr ≫ _ mod 2 ^ n) with 0 by lia. reflexivity.
    + destruct (H x Hx), (H y Hy); lia.
  - pose proof (Z.mod_pos_bound (addr ≫ m_bid_shift k) (2 ^ n)). lia.
Qed.

Lemma channel_banks_bound k ii jj :
  0 < m_num_channel k -> 0 <= m_num_bank k ->
  ii ∈ upto (m_num_channel k) -> jj ∈ channel_banks k ii ->
  (jj < Z.to_nat (m_num_bank k))%nat.
Proof.
  unfold upto, channel_banks, m_num_bank_per_channel. rewrite !elem_of_seq.
  intros Hc Hb Hii Hjj.
  set (bpc := m_num_bank k ÷ m_num_channel k) in *.
  assert (Hq : 0 <= bpc /\ m_num_channel k * bpc <= m_num_bank k).
  { unfold bpc. rewrite Z.quot_div_nonneg by lia.
    split; [apply Z.div_pos; lia | apply Z.mul_div_le; lia]. }
  nia.
Qed.

Lemma channel_banks_disjoint k ii ii' jj :
  jj ∈ channel_banks k ii -> jj ∈ channel_banks k ii' -> ii = ii'.
Proof. unfold channel_banks. rewrite !elem_of_seq. nia. Qed.

(** ** A bank outside the channels *)

Lemma covered_iff k jj :
  covered k jj <->
  (jj < Z.to_nat (m_num_channel k) * Z.to_nat (m_num_bank_per_channel k))%nat.
Proof.
  unfold covered, upto, channel_banks.
  set (nc := Z.to_nat (m_num_channel k)). set (bpc := Z.to_nat (m_num_bank_per_channel k)).
  split.
  - intros (ii & Hii & Hjj). apply elem_of_seq in Hii, Hjj. nia.
  - intros Hlt. exists (jj / bpc)%nat.
    assert (bpc ≠ 0)%nat by lia.
    pose proof (Nat.div_mod_eq jj bpc). pose proof (Nat.mod_upper_bound jj bpc ltac:(lia)).
    rewrite !elem_of_seq. split; [| nia].
    split; [lia |]. cbn. apply Nat.Div0.div_lt_upper_bound. lia.
Qed.

(** A step on the current entry of another bank leaves the entry that
    awaits its command as it is. *)
Lemma current_step_awaits k st st' bank c s jj cur :
  owned k st -> bank ≠ jj -> current_step st st' bank c s ->
  awaits_command st jj cur -> awaits_command st' jj cur.
Proof.
  intros Hown Hne (Hc & (_ & _ & Hcl) & Hdrb & _) [Hcur Hstate].
  unfold awaits_command. rewrite Hcl, Hdrb. split; [exact Hcur |].
  rewrite fn_lookup_insert_ne; [exact Hstate |].
  intros ->. apply Hne. exact (owned_current_inj k st bank jj cur Hown Hc Hcur).
Qed.

Lemma channel_schedule_awaits k now st st' jj cur :
  owned k st -> ¬ covered k jj ->
  channel_schedule k now st = Ok st' ->
  awaits_command st jj cur -> awaits_command st' jj cur.
Proof.
  unfold channel_schedule, channel_schedule_cmd, channel_schedule_data.
  intros Hown Hout H Hwait. apply bind_Ok in H as (s1 & H1 & H2).
  assert (Hsel : forall ii (ready : nat -> bool) ts bank,
            ii ∈ upto (m_num_channel k) ->
            oldest_bank ready ts (channel_banks k ii) ULLONG_MAX None = Some bank ->
            bank ≠ jj).
  { intros ii ready ts bank Hii Hsel ->. apply Hout. exists ii. split; [exact Hii |].
    by apply oldest_bank_None_ready in Hsel as [Hin _]. }
  assert (Hs1 : owned k s1 /\ awaits_command s1 jj cur).
  { eapply (for_each_invariant (λ s, owned k s /\ awaits_command s jj cur));
      [| | exact H1]; [| done].
    intros ii s s' Hii [Ho Hs] Hb. split.
    - apply (owned_same_lists k s); [| exact Ho].
      by apply (channel_schedule_cmd_channel_lists k now ii).
    - apply channel_schedule_cmd_channel_step in Hb
        as [[_ ->] | (bank & c & x & Hsel' & _ & Hstep & _)]; [exact Hs |].
      apply (current_step_awaits k s s' bank c x jj cur Ho); [| exact Hstep | exact Hs].
      exact (Hsel ii _ _ bank Hii Hsel'). }
  eapply (for_each_invariant (λ s, owned k s /\ awaits_command s jj cur)); [| exact Hs1 | exact H2].
  intros ii s s' Hii [Ho Hs] Hb. cbv beta in Hb.
  revert s s' Ho Hs Hb. generalize (S (length (channel_banks k ii))) as fuel.
  induction fuel as [| fuel IH]; intros s s' Ho Hs Hb; [cbn in Hb; by simplify_eq |].
  apply data_bus_loop_step in Hb
    as [[_ ->] | (bank & c & x & _ & Hsel' & _ & Hstep & _ & _ & _ & _ & _ & Hrest)]; [done |].
  apply (IH x s'); [| | exact Hrest].
  - destruct Hstep as (_ & Hsame & _). by apply (owned_same_lists k s).
  - apply (current_step_awaits k s x bank c DRAM_DATA_WAIT jj cur Ho); [| exact Hstep | exact Hs].
    exact (Hsel ii _ _ bank Hii Hsel').
Qed.

Lemma bank_schedule_complete_bank_awaits k now noc ii st st' jj cur :
  now < ULLONG_MAX -> owned k st -> sentinels st ->
  bank_schedule_complete_bank k now noc ii st = Ok st' ->
  awaits_command st jj cur -> awaits_command st' jj cur.
Proof.
  unfold bank_schedule_complete_bank. intros Hnow Hown Hinv H [Hcur Hstate].
  destruct (m_current_list st ii) as [c |] eqn:Hc; [| by simplify_eq].
  destruct (Z.leb_spec (m_data_ready st ii) now) as [Hready |]; [| by simplify_eq].
  assert (Hne : ii ≠ jj).
  { intros ->. pose proof (Hinv jj) as [_ Hs]. rewrite Hc in Hs. destruct Hs as (_ & Hr & _).
    assert (c = cur) as -> by congruence.
    rewrite Hr in Hstate by lia. discriminate. }
  assert (Hcc : c ≠ cur).
  { intros ->. apply Hne. exact (owned_current_inj k st ii jj cur Hown Hc Hcur). }
  apply bind_Ok in H as ([] & _ & H).
  apply bind_Ok in H as ([stop s1] & Hmerge & H).
  assert (H1 : awaits_command s1 jj cur /\ m_current_list s1 ii = Some c).
  { destruct (KNOB_DRAM_MERGE_REQUESTS k); [| by simplify_eq].
    apply bind_Ok in Hmerge as ([[temp_list stop'] s0] & Hscan & Hrel).
    apply merge_scan_Ok in Hscan as (Hframe & Htemp & _). cbn in Htemp.
    injection Hrel as <- <-.
    destruct (merge_release_spec ii temp_list s0) as (_ & _ & _ & Rcur & _ & Rdrb & _).
    destruct Hframe as (Hdrb & Hb & _ & Hcl & _).
    unfold awaits_command. rewrite Rcur, Hcl, Rdrb, Hdrb.
    split; [| exact Hc]. split; [exact Hcur |].
    rewrite decide_False; [exact Hstate |].
    intros Hin. subst temp_list. apply list_elem_of_filter in Hin as [_ Hin].
    apply (owned_idle_current k st jj ii cur cur Hown Hcur); [| reflexivity].
    apply elem_of_app. by right. }
  destruct H1 as [[Hcur1 Hstate1] Hc1].
  assert (Hdone : forall s, m_current_list s = m_current_list s1 -> drb s = drb s1 ->
                            awaits_command (complete_current ii c s) jj cur).
  { intros s Hl Hd. unfold awaits_command, complete_current. cbn.
    rewrite !fn_lookup_insert_ne by done. by rewrite Hl, Hd. }
  destruct stop; [by simplify_eq |].
  destruct (decide (type_of s1 c = MRT_WB)); [simplify_eq; by apply Hdone |].
  apply bind_Ok in H as ([ok s2] & Hsend & H).
  apply send_packet_Ok in Hsend as (_ & (Hdrb2 & _ & _ & Hcl2 & _) & _).
  destruct ok; simplify_eq.
  - unfold awaits_command, complete_current. cbn.
    rewrite !fn_lookup_insert_ne by done. by rewrite Hcl2, Hdrb2.
  - unfold awaits_command. by rewrite Hcl2, Hdrb2.
Qed.

Lemma bank_schedule_new_bank_awaits k now ii st st' jj cur :
  owned k st ->
  bank_schedule_new_bank k now ii st = Ok st' ->
  awaits_command st jj cur -> awaits_command st' jj cur.
Proof.
  unfold bank_schedule_new_bank. intros Hown H [Hcur Hstate].
  destruct (bool_decide (m_buffer st ii = []) && bool_decide (m_current_list st ii = None))
    eqn:Hguard; [by simplify_eq |].
  destruct (m_current_list st ii) as [c |] eqn:Hc.
  { destruct (_ && _) eqn:Hcond in H; [| by simplify_eq].
    apply andb_true_iff in Hcond as [_ Hw]. apply bool_decide_eq_true in Hw.
    apply bind_Ok in H as ([] & _ & H). injection H as <-.
    assert (c ≠ cur) by (intros ->; congruence).
    unfold awaits_command. cbn. by rewrite fn_lookup_insert_ne. }
  assert (Hne : m_buffer st ii ≠ []).
  { intros Hnil. rewrite Hnil in Hguard. discriminate. }
  destruct (schedule_Ok k ii st Hne) as (entry & Hsched & Hin).
  rewrite Hsched in H. cbn in H. injection H as <-.
  assert (Hij : ii ≠ jj) by (intros ->; congruence).
  assert (Hec : entry ≠ cur).
  { apply (owned_idle_current k st jj ii cur entry Hown Hcur). apply elem_of_app. by right. }
  unfold awaits_command.
  destruct (scheduler k); cbn; rewrite !fn_lookup_insert_ne by done; done.
Qed.

Lemma insert_new_req_current k now mem_req st ok st' :
  insert_new_req k now mem_req st = Ok (ok, st') -> m_current_list st' = m_current_list st.
Proof.
  intros Hrun.
  destruct (address_parsing k (Req.m_addr (mem st mem_req)))
    as [[[bid_xor cid] bid] rid] eqn:Hparse.
  destruct (insert_new_req_cases k now mem_req st bid_xor cid bid rid Hparse)
    as (Hneg & Hfull & Hadmit).
  set (b := Z.to_nat (interleave k bid bid_xor)) in *.
  destruct (Z.lt_ge_cases rid 0) as [Hlt | Hge]; [rewrite (Hneg Hlt) in Hrun; discriminate |].
  assert (Hf : m_current_list (flushed b st) = m_current_list st).
  { unfold flushed. destruct (m_buffer_free_list st b); [| done].
    by destruct (flush_prefetch_spec b st) as (_ & _ & _ & -> & _). }
  destruct (m_buffer_free_list (flushed b st) b) as [| new_entry rest] eqn:Hfree.
  { rewrite (Hfull Hge eq_refl) in Hrun. by injection Hrun as <- <-. }
  destruct (Hadmit Hge new_entry rest eq_refl) as (st2 & Hrun2 & _ & _ & Hcur2 & _).
  rewrite Hrun2 in Hrun. injection Hrun as <- <-. by rewrite Hcur2.
Qed.

Lemma run_a_cycle_awaits k now noc st st' jj cur :
  now < ULLONG_MAX -> owned k st -> sentinels st -> ¬ covered k jj ->
  run_a_cycle k now noc st = Ok st' ->
  awaits_command st jj cur -> awaits_command st' jj cur.
Proof.
  unfold run_a_cycle, bank_schedule. intros Hnow Hown Hinv Hout H Hwait.
  apply bind_Ok in H as (s1 & H1 & H). apply bind_Ok in H as (s3 & H23 & H).
  apply bind_Ok in H23 as (s2 & H2 & H3). apply bind_Ok in H as (s4 & H4 & H5).
  pose proof (channel_schedule_awaits k now st s1 jj cur Hown Hout H1 Hwait) as W1.
  pose proof (channel_schedule_sentinels k now st s1 Hown Hinv H1) as Hinv1.
  pose proof (owned_same_lists k st s1 (channel_schedule_lists k now st s1 H1) Hown) as Hown1.
  assert (W2 : (owned k s2 /\ sentinels s2) /\ awaits_command s2 jj cur).
  { unfold bank_schedule_complete in H2.
    eapply (for_each_invariant (λ s, (owned k s /\ sentinels s) /\ awaits_command s jj cur));
      [| | exact H2].
    - intros ii s s' _ [[Ho Hs] Hw] Hb. split; [split |].
      + apply (owned_Permutation k s); [| exact Ho].
        intros i. by apply (bank_schedule_complete_bank_entries k now noc ii).
      + by apply (bank_schedule_complete_bank_sentinels k now noc ii s).
      + by apply (bank_schedule_complete_bank_awaits k now noc ii s s').
    - split; [split; [exact Hown1 | intros ii; exact (Hinv1 ii)] | exact W1]. }
  destruct W2 as [[Hown2 Hinv2] W2].
  assert (W3 : owned k s3 /\ awaits_command s3 jj cur).
  { unfold bank_schedule_new in H3.
    eapply (for_each_invariant (λ s, owned k s /\ awaits_command s jj cur));
      [| | exact H3]; [| done].
    intros ii s s' _ [Ho Hw] Hb. split.
    - apply (owned_Permutation k s); [| exact Ho].
      intros i. apply (bank_schedule_new_bank_entries k now ii); [apply Ho | exact Hb].
    - by apply (bank_schedule_new_bank_awaits k now ii s s'). }
  destruct W3 as [_ [Hc3 Hs3]].
  assert (W4 : awaits_command s4 jj cur).
  { unfold receive_packet in H4. destruct (IRIS k); [| by simplify_eq].
    destruct (receive_queue s3) as [| req rest]; [by simplify_eq |].
    apply bind_Ok in H4 as ([ok s] & Hins & H4).
    assert (awaits_command s jj cur).
    { unfold awaits_command.
      rewrite (insert_new_req_current k now req s3 ok s Hins),
              (insert_new_req_entry_state k now req s3 ok s Hins). done. }
    destruct ok; simplify_eq; done. }
  rewrite progress_check_spec in H5.
  destruct (decide (_ < 5000)); [| discriminate].
  injection H5 as <-. exact W4.
Qed.

(** * The further properties, stated *)

(** ** States of the examples *)

Lemma waiting_reachable : reachable Example.k Example.waiting.
Proof.
  apply (reachable_ticks Example.k Example.accept [0; 1; 11; 12; 17]
           (Example.state_of (Example.inserts Example.k 0 [1; 2; 3; 4]%nat Example.fresh))).
  - apply (reachable_inserts Example.k 0 [1; 2; 3; 4]%nat Example.fresh).
    + apply (reachable_new Example.k Example.raw 0 7).
    + vm_compute. reflexivity.
  - vm_compute. reflexivity.
Qed.

Lemma stranded_reachable : reachable Uneven.k Uneven.stranded.
Proof.
  apply (reachable_tick Uneven.k
           (Example.state_of (Example.inserts Uneven.k 0 [1%nat] Uneven.fresh))
           0 Example.accept).
  - apply (reachable_inserts Uneven.k 0 [1%nat] Uneven.fresh).
    + apply (reachable_new Uneven.k Uneven.raw 0 7).
    + vm_compute. reflexivity.
  - vm_compute. reflexivity.
Qed.

(** ** The entries and their banks *)

(** X1. In every state of a run each bank keeps the entries that the
    constructor allocated for it: no entry occurs twice among the free
    list, the pending list and the current entry of a bank, no entry is in
    two banks, and the lists beyond m_num_bank stay empty. *)
Theorem entries_keep_their_bank (k : knobs) (st : dram_controller_c) :
  reachable k st ->
  (forall ii,
     NoDup (bank_entries st ii) /\
     forall e, e ∈ bank_entries st ii ->
               e ∈ new_entries (Z.to_nat (KNOB_DRAM_BUFFER_SIZE k)) ii) /\
  (forall ii jj e, e ∈ bank_entries st ii -> e ∈ bank_entries st jj -> ii = jj) /\
  (forall ii, ¬ (ii < Z.to_nat (m_num_bank k))%nat -> bank_entries st ii = []).
Proof.
  intros Hreach. pose proof (reachable_owned k st Hreach) as Hown.
  split; [exact Hown |]. split.
  - intros ii jj e. exact (owned_elsewhere k st ii jj e Hown).
  - exact (reachable_vacant k st Hreach).
Qed.

Lemma entries_keep_their_bank_witness :
  reachable Example.k Example.waiting /\
  NoDup (bank_entries Example.waiting 0) /\
  bank_entries Example.waiting 2 = [].
Proof.
  destruct (entries_keep_their_bank Example.k Example.waiting waiting_reachable)
    as (Hown & _ & Hvacant).
  split; [exact waiting_reachable |]. split; [exact (proj1 (Hown 0%nat)) |].
  apply Hvacant. vm_compute. lia.
Defined.

(** X2. In every state of a run, with a number of banks that fits an int,
    an entry that is pending or current in bank [ii] carries the bank
    number [ii], a row that is not negative, and the column, row and bank
    that insert_new_req decodes from the address of the entry; so two
    entries in flight for one address are in one bank and have one row. *)
Theorem entries_are_placed (k : knobs) (st : dram_controller_c) :
  KNOB_DRAM_NUM_BANKS k < 2 ^ 31 ->
  reachable k st ->
  (forall ii e,
     e ∈ m_buffer st ii \/ m_current_list st ii = Some e ->
     m_bid (drb st e) = Z.of_nat ii /\ decoded k (drb st e)) /\
  (forall ii jj e e',
     e ∈ m_buffer st ii \/ m_current_list st ii = Some e ->
     e' ∈ m_buffer st jj \/ m_current_list st jj = Some e' ->
     m_addr (drb st e) = m_addr (drb st e') ->
     ii = jj /\ m_rid (drb st e) = m_rid (drb st e')).
Proof.
  intros Hk Hreach. pose proof (reachable_placed k st Hk Hreach) as Hplaced.
  split; [exact Hplaced |].
  intros ii jj e e' He He' Haddr.
  destruct (Hplaced ii e He) as [Hb Hd]. destruct (Hplaced jj e' He') as [Hb' Hd'].
  unfold decoded in Hd, Hd'. rewrite Haddr in Hd.
  destruct (address_parsing k (m_addr (drb st e'))) as [[[bid_xor cid] bid] rid].
  destruct Hd as (_ & Hr & Hbank & _). destruct Hd' as (_ & Hr' & Hbank' & _).
  split; [| congruence]. apply Nat2Z.inj. congruence.
Qed.

Lemma entries_are_placed_witness :
  KNOB_DRAM_NUM_BANKS Example.k < 2 ^ 31 /\
  reachable Example.k Example.waiting /\
  m_bid (drb Example.waiting 1%nat) = 0 /\
  decoded Example.k (drb Example.waiting 1%nat).
Proof.
  assert (Hk : KNOB_DRAM_NUM_BANKS Example.k < 2 ^ 31) by (vm_compute; reflexivity).
  destruct (entries_are_placed Example.k Example.waiting Hk waiting_reachable) as [Hplaced _].
  assert (Hin : 1%nat ∈ m_buffer Example.waiting 0%nat
                \/ m_current_list Example.waiting 0%nat = Some 1%nat).
  { left. vm_compute. left. }
  split; [exact Hk |]. split; [exact waiting_reachable |].
  exact (Hplaced 0%nat 1%nat Hin).
Defined.

(** ** The life of an entry *)

(** X3. In every state of a run the entries of the free list and of the
    pending list of a bank are in DRAM_INIT; a bank without a current entry
    has its data-ready and data-available times at ULLONG_MAX; a current
    entry has left DRAM_INIT, and the data-ready time of its bank is
    ULLONG_MAX unless the entry is in DRAM_DATA_WAIT, the data-available
    time unless it is in DRAM_DATA. *)
Theorem entry_states (k : knobs) (st : dram_controller_c) :
  reachable k st ->
  forall ii,
    (forall e, e ∈ m_buffer_free_list st ii ++ m_buffer st ii ->
               m_state (drb st e) = DRAM_INIT) /\
    match m_current_list st ii with
    | None => m_data_ready st ii = ULLONG_MAX /\ m_data_avail st ii = ULLONG_MAX
    | Some cur =>
      m_state (drb st cur) ≠ DRAM_INIT /\
      (m_data_ready st ii ≠ ULLONG_MAX -> m_state (drb st cur) = DRAM_DATA_WAIT) /\
      (m_data_avail st ii ≠ ULLONG_MAX -> m_state (drb st cur) = DRAM_DATA)
    end.
Proof.
  intros Hreach ii. destruct (reachable_sentinels k st Hreach ii) as [Hidle Hcur].
  split; [exact Hidle |].
  destruct (m_current_list st ii) as [cur |]; [| exact Hcur].
  destruct Hcur as (H1 & H2 & H3 & _). split; [exact H1 |]. split; [exact H2 | exact H3].
Qed.

Lemma entry_states_witness :
  reachable Example.k Example.waiting /\
  m_state (drb Example.waiting 0%nat) = DRAM_DATA_WAIT.
Proof.
  split; [exact waiting_reachable |].
  pose proof (entry_states Example.k Example.waiting waiting_reachable 0%nat) as [_ Hcur].
  assert (Hc : m_current_list Example.waiting 0%nat = Some 0%nat) by (vm_compute; reflexivity).
  rewrite Hc in Hcur. destruct Hcur as (_ & Hready & _).
  apply Hready. vm_compute. discriminate.
Defined.

(** X4. In every state of a run, with a number of banks that fits an int:
    while the current entry of a bank is in DRAM_DATA or DRAM_DATA_WAIT, or
    waits in DRAM_CMD_WAIT with a row open, the open row of the bank is the
    row of that entry, and it is not negative: a column access and its data
    transfer never go to another row than the open one. *)
Theorem open_row_is_entry_row (k : knobs) (st : dram_controller_c) :
  KNOB_DRAM_NUM_BANKS k < 2 ^ 31 ->
  reachable k st ->
  forall ii cur,
    m_current_list st ii = Some cur ->
    activated (drb st cur) (m_current_rid st ii) ->
    m_current_rid st ii = m_rid (drb st cur) /\ 0 <= m_current_rid st ii.
Proof.
  intros Hk Hreach ii cur Hcur Hact.
  pose proof (reachable_sentinels k st Hreach ii) as [_ Hs]. rewrite Hcur in Hs.
  destruct Hs as (_ & _ & _ & Hrow). pose proof (Hrow Hact) as Heq.
  split; [exact Heq |]. rewrite Heq.
  destruct (reachable_placed k st Hk Hreach ii cur (or_intror Hcur)) as [_ Hd].
  unfold decoded in Hd.
  destruct (address_parsing k (m_addr (drb st cur))) as [[[bid_xor cid] bid] rid].
  destruct Hd as (_ & -> & _ & Hrid). exact Hrid.
Qed.

Lemma open_row_is_entry_row_witness :
  KNOB_DRAM_NUM_BANKS Example.k < 2 ^ 31 /\
  reachable Example.k Example.waiting /\
  m_current_rid Example.waiting 0%nat = m_rid (drb Example.waiting 0%nat).
Proof.
  assert (Hk : KNOB_DRAM_NUM_BANKS Example.k < 2 ^ 31) by (vm_compute; reflexivity).
  split; [exact Hk |]. split; [exact waiting_reachable |].
  apply (open_row_is_entry_row Example.k Example.waiting Hk waiting_reachable 0%nat 0%nat).
  - vm_compute. reflexivity.
  - right. left. vm_compute. reflexivity.
Defined.

(** ** How a run can end *)



(** ** The count of the requests *)

(** X6. m_total_req follows the requests that the banks hold: no bank holds
    a request after construction, and no step of a run (a request handed
    over, a tick, the memory system acting in between) changes the
    difference between m_total_req and the number of pending and current
    entries of the banks.  The constructor does not assign m_total_req:
    the difference is what the storage held. *)
Theorem total_req_accounting (k : knobs) :
  (forall raw id noc_id,
     in_flight k (init id noc_id (dram_controller_c_new k raw)) = 0 /\
     m_total_req (init id noc_id (dram_controller_c_new k raw)) = m_total_req raw) /\
  (forall st st',
     reachable k st -> run_step k st st' ->
     m_total_req st' - in_flight k st' = m_total_req st - in_flight k st).
Proof.
  split.
  - intros raw id noc_id. split; [| reflexivity].
    unfold in_flight. induction (upto (m_num_bank k)) as [| ii l IH]; [reflexivity |].
    cbn. cbn in IH. rewrite IH. reflexivity.
  - intros st st' Hreach Hstep.
    destruct Hstep as [now mem_req ok st' Hins | now noc st' Htick | requests queue].
    + exact (insert_new_req_in_flight k now mem_req st ok st' (reachable_vacant k st Hreach) Hins).
    + exact (run_a_cycle_in_flight k now noc st st' (reachable_owned k st Hreach)
               (reachable_vacant k st Hreach) Htick).
    + reflexivity.
Qed.

Lemma total_req_accounting_witness :
  reachable Example.k Example.waiting /\
  run_step Example.k Example.waiting
    (Example.state_of (run_a_cycle Example.k 25 Example.picky Example.waiting)) /\
  m_total_req (Example.state_of (run_a_cycle Example.k 25 Example.picky Example.waiting))
  - in_flight Example.k
      (Example.state_of (run_a_cycle Example.k 25 Example.picky Example.waiting))
  = m_total_req Example.waiting - in_flight Example.k Example.waiting.
Proof.
  assert (Hstep : run_step Example.k Example.waiting
            (Example.state_of (run_a_cycle Example.k 25 Example.picky Example.waiting))).
  { apply (run_step_tick Example.k Example.waiting 25 Example.picky). vm_compute. reflexivity. }
  split; [exact waiting_reachable |]. split; [exact Hstep |].
  exact (proj2 (total_req_accounting Example.k) _ _ waiting_reachable Hstep).
Defined.

(** ** The arbitration between the banks *)

(** X7. The search loop of channel_schedule_cmd and channel_schedule_data
    selects, among the banks of the channel that are ready, one with the
    least time stamp, the first of them in the order of the banks; a bank
    whose time stamp is ULLONG_MAX is never selected, and no bank is
    selected exactly when every ready bank has that time stamp. *)
Theorem oldest_bank_spec (ready : nat -> bool) (timestamp : nat -> Z) (jjs : list nat) :
  match oldest_bank ready timestamp jjs ULLONG_MAX None with
  | None => forall j, j ∈ jjs -> ready j = true -> ULLONG_MAX <= timestamp j
  | Some b =>
    exists l1 l2,
      jjs = l1 ++ b :: l2 /\
      ready b = true /\ timestamp b < ULLONG_MAX /\
      (forall j, j ∈ l1 -> ready j = true -> timestamp b < timestamp j) /\
      (forall j, j ∈ l2 -> ready j = true -> timestamp b <= timestamp j)
  end.
Proof.
  destruct (oldest_bank_least ready timestamp jjs ULLONG_MAX None)
    as [[-> Hall] | (l1 & b & l2 & Hl & -> & Hb & Hlt & H1 & H2)].
  - exact Hall.
  - exists l1, l2. split; [exact Hl |]. split; [exact Hb |]. split; [exact Hlt |].
    split; [exact H1 | exact H2].
Qed.

Lemma oldest_bank_spec_witness :
  oldest_bank (fun _ => true) (fun j => if (j =? 0)%nat then 7 else 3) [0; 1; 2]%nat
    ULLONG_MAX None = Some 1%nat /\
  exists l1 l2 : list nat, [0; 1; 2]%nat = l1 ++ 1%nat :: l2.
Proof.
  split; [vm_compute; reflexivity |].
  pose proof (oldest_bank_spec (fun _ => true) (fun j => if (j =? 0)%nat then 7 else 3)
                [0; 1; 2]%nat) as H.
  assert (Hsel : oldest_bank (fun _ => true) (fun j => if (j =? 0)%nat then 7 else 3)
                   [0; 1; 2]%nat ULLONG_MAX None = Some 1%nat) by (vm_compute; reflexivity).
  rewrite Hsel in H. destruct H as (l1 & l2 & Hl & _). exists l1, l2. exact Hl.
Defined.

(** ** The data bus *)


(** ** The comparator of FR-FCFS *)

(** X9. On entries that carry one bank number, as the pending entries of a
    bank do, sort_func is a strict weak order, which is what
    std::list::sort asks of its comparator: no entry comes before itself,
    two entries do not come before each other, coming before is
    transitive, and so is being unordered. *)
Theorem sort_func_strict_weak_order (st : dram_controller_c) (a b c : drb_entry_ptr) :
  m_bid (drb st a) = m_bid (drb st b) ->
  m_bid (drb st b) = m_bid (drb st c) ->
  sort_func st a a = false /\
  (sort_func st a b = true -> sort_func st b a = false) /\
  (sort_func st a b = true -> sort_func st b c = true -> sort_func st a c = true) /\
  (sort_func st a b = false -> sort_func st b a = false ->
   sort_func st b c = false -> sort_func st c b = false ->
   sort_func st a c = false /\ sort_func st c a = false).
Proof.
  intros Hab Hbc.
  rewrite !sort_func_key, !sort_func_key_false, <- !Hbc, <- !Hab.
  set (open_row := m_current_rid st (Z.to_nat (m_bid (drb st a)))).
  set (ka := frfcfs_key st open_row a). set (kb := frfcfs_key st open_row b).
  set (kc := frfcfs_key st open_row c).
  split; [apply key_lt_irrefl |]. split; [| split].
  - intros H1 H2. apply (key_lt_irrefl ka). by apply (key_lt_trans ka kb ka).
  - apply key_lt_trans.
  - intros H1 H2 H3 H4.
    assert (ka = kb) as -> by (destruct (key_lt_connex ka kb) as [? | [? | ?]]; tauto).
    split; assumption.
Qed.

Lemma sort_func_strict_weak_order_witness :
  m_bid (drb Example.two_rows 1%nat) = m_bid (drb Example.two_rows 2%nat) /\
  sort_func Example.two_rows 2%nat 1%nat = true /\
  sort_func Example.two_rows 1%nat 2%nat = false.
Proof.
  assert (H12 : m_bid (drb Example.two_rows 1%nat) = m_bid (drb Example.two_rows 2%nat))
    by (vm_compute; reflexivity).
  assert (H21 : m_bid (drb Example.two_rows 2%nat) = m_bid (drb Example.two_rows 1%nat))
    by (vm_compute; reflexivity).
  assert (Hlt : sort_func Example.two_rows 2%nat 1%nat = true) by (vm_compute; reflexivity).
  split; [exact H12 |]. split; [exact Hlt |].
  exact (proj1 (proj2 (sort_func_strict_weak_order Example.two_rows 2%nat 1%nat 2%nat H21 H12))
           Hlt).
Defined.

(** ** Refused requests *)

(** X10. insert_new_req, when it returns, returns false exactly when the
    free list of the target bank is empty and no pending entry of the bank
    is a DPRF; the refused request then changes nothing in the controller,
    and a bank that keeps its entries holds KNOB_DRAM_BUFFER_SIZE requests,
    pending or current. *)
Theorem insert_new_req_refusal (k : knobs) (now : Z) (mem_req : mem_req_ptr)
    (st : dram_controller_c) (ok : bool) (st' : dram_controller_c)
    (bid_xor cid bid rid : Z) :
  address_parsing k (Req.m_addr (mem st mem_req)) = (bid_xor, cid, bid, rid) ->
  insert_new_req k now mem_req st = Ok (ok, st') ->
  let b := Z.to_nat (interleave k bid bid_xor) in
  (ok = false <->
   m_buffer_free_list st b = [] /\ forall e, e ∈ m_buffer st b -> type_of st e ≠ MRT_DPRF) /\
  (ok = false -> st' = st) /\
  (ok = false -> conserved k st b ->
   (length (m_buffer st b) + match m_current_list st b with Some _ => 1 | None => 0 end)%nat
   = Z.to_nat (KNOB_DRAM_BUFFER_SIZE k)).
Proof.
  intros Hparse Hrun b.
  destruct (insert_new_req_refused k now mem_req st ok st' bid_xor cid bid rid Hparse Hrun)
    as [Hiff Hsame]. fold b in Hiff.
  split; [exact Hiff |]. split; [exact Hsame |].
  intros Hok Hcons. destruct (proj1 Hiff Hok) as [Hfree _].
  pose proof (conserved_count k st b Hcons) as Hcount. rewrite Hfree in Hcount. exact Hcount.
Qed.

Lemma insert_new_req_refusal_witness :
  insert_new_req Example.k 1 8%nat
    (Example.state_of (Example.inserts Example.k 0 [1; 2; 3; 4]%nat Example.fresh))
  = Ok (false, Example.state_of (Example.inserts Example.k 0 [1; 2; 3; 4]%nat Example.fresh)) /\
  m_buffer_free_list
    (Example.state_of (Example.inserts Example.k 0 [1; 2; 3; 4]%nat Example.fresh)) 0%nat = [].
Proof.
  assert (Hrun : insert_new_req Example.k 1 8%nat
                   (Example.state_of (Example.inserts Example.k 0 [1; 2; 3; 4]%nat Example.fresh))
                 = Ok (false,
                       Example.state_of
                         (Example.inserts Example.k 0 [1; 2; 3; 4]%nat Example.fresh)))
    by (vm_compute; reflexivity).
  split; [exact Hrun |].
  assert (Hparse : address_parsing Example.k
                     (Req.m_addr
                        (mem (Example.state_of
                                (Example.inserts Example.k 0 [1; 2; 3; 4]%nat Example.fresh))
                             8%nat))
                   = (0, 0, 0, 2)) by (vm_compute; reflexivity).
  exact (proj1 (proj1 (proj1 (insert_new_req_refusal Example.k 1 8%nat _ false _ 0 0 0 2
                                Hparse Hrun)) eq_refl)).
Defined.

(** ** The decoding of an address *)

(** X11. With the row buffer size R, the number of banks B and the line
    size L powers of two, an address whose row fits an int is decoded
    into a column below R, a bank below B and a row that is not negative;
    without the XOR interleaving the decoding loses nothing: the address is
    (row * B + bank) * R + column. *)
Theorem address_round_trip (k : knobs) (A r b l : Z) :
  KNOB_DRAM_ROWBUFFER_SIZE k = 2 ^ r ->
  KNOB_DRAM_NUM_BANKS k = 2 ^ b ->
  KNOB_L3_LINE_SIZE k = 2 ^ l ->
  0 <= r < 31 -> 0 <= b < 31 -> 0 <= l ->
  0 <= A < 2 ^ 64 ->
  A / (2 ^ r * 2 ^ b) < 2 ^ 31 ->
  exists bid_xor cid bid rid,
    address_parsing k A = (bid_xor, cid, bid, rid) /\
    0 <= cid < 2 ^ r /\ 0 <= interleave k bid bid_xor < 2 ^ b /\ 0 <= rid /\
    (KNOB_DRAM_BANK_XOR_INDEX k = false ->
     A = (rid * 2 ^ b + interleave k bid bid_xor) * 2 ^ r + cid).
Proof.
  intros HR HB HL Hr Hb Hl HA Hrow.
  pose proof (address_parsing_spec k A r b l HR HB HL Hr Hb Hl HA) as Hparse.
  pose proof (pow2_pos r ltac:(lia)) as HRpos. pose proof (pow2_pos b ltac:(lia)) as HBpos.
  assert (Hrid : 0 <= A / (2 ^ r * 2 ^ b)) by (apply Z.div_pos; nia).
  eexists _, _, _, _. split; [exact Hparse |].
  rewrite to_int_small by lia.
  split; [apply Z.mod_pos_bound; lia |].
  split; [| split; [exact Hrid |]].
  - assert (Hk : 0 < KNOB_DRAM_NUM_BANKS k < 2 ^ 31).
    { rewrite HB. split; [lia |]. apply Z.pow_lt_mono_r; lia. }
    pose proof (bank_of_request_bound k A _ _ _ _ Hk Hparse) as Hbound.
    unfold m_num_bank in Hbound. rewrite HB in Hbound. exact Hbound.
  - intros Hxor. unfold interleave. rewrite Hxor. apply address_rebuild; lia.
Qed.

Lemma address_round_trip_witness :
  exists bid_xor cid bid rid,
    address_parsing Example.k 12345 = (bid_xor, cid, bid, rid) /\
    12345 = (rid * 2 ^ 1 + interleave Example.k bid bid_xor) * 2 ^ 11 + cid.
Proof.
  destruct (address_round_trip Example.k 12345 11 1 6)
    as (bid_xor & cid & bid & rid & Hparse & _ & _ & _ & Hback);
    try (vm_compute; reflexivity); try lia.
  exists bid_xor, cid, bid, rid. split; [exact Hparse |]. apply Hback. reflexivity.
Defined.

(** X12. Two addresses of one block of the size of the row buffer are
    decoded into one bank and one row, without the XOR interleaving and
    also with it when the XOR bits lie above the column (L * 512 >= R), so
    that the lines of a row meet in its row buffer.  When L * 512 = R the
    XOR interleaving cancels the bank bits: every address goes to bank
    0. *)
Theorem address_locality (k : knobs) (A A' r b l : Z) :
  KNOB_DRAM_ROWBUFFER_SIZE k = 2 ^ r ->
  KNOB_DRAM_NUM_BANKS k = 2 ^ b ->
  KNOB_L3_LINE_SIZE k = 2 ^ l ->
  0 <= r < 31 -> 0 <= b < 31 -> 0 <= l ->
  0 <= A < 2 ^ 64 -> 0 <= A' < 2 ^ 64 ->
  exists bid_xor cid bid rid bid_xor' cid' bid' rid',
    address_parsing k A = (bid_xor, cid, bid, rid) /\
    address_parsing k A' = (bid_xor', cid', bid', rid') /\
    (A / 2 ^ r = A' / 2 ^ r ->
     KNOB_DRAM_BANK_XOR_INDEX k = false \/ r <= l + 9 ->
     interleave k bid bid_xor = interleave k bid' bid_xor' /\ rid = rid') /\
    (KNOB_DRAM_BANK_XOR_INDEX k = true -> l + 9 = r -> interleave k bid bid_xor = 0).
Proof.
  intros HR HB HL Hr Hb Hl HA HA'.
  pose proof (address_parsing_spec k A r b l HR HB HL Hr Hb Hl HA) as Hparse.
  pose proof (address_parsing_spec k A' r b l HR HB HL Hr Hb Hl HA') as Hparse'.
  pose proof (pow2_pos r ltac:(lia)) as HRpos. pose proof (pow2_pos b ltac:(lia)) as HBpos.
  eexists _, _, _, _, _, _, _, _. split; [exact Hparse |]. split; [exact Hparse' |].
  split.
  - intros Hblock Hcase.
    assert (Hrow : A / (2 ^ r * 2 ^ b) = A' / (2 ^ r * 2 ^ b)).
    { rewrite <- !Z.div_div by lia. by rewrite Hblock. }
    split; [| by rewrite Hrow].
    unfold interleave. destruct (KNOB_DRAM_BANK_XOR_INDEX k); [| by rewrite Hblock].
    destruct Hcase as [? | Hle]; [discriminate |].
    assert (Hx : A / (2 ^ l * 512) = A' / (2 ^ l * 512)).
    { change 512 with (2 ^ 9). rewrite <- Z.pow_add_r by lia.
      replace (l + 9) with (r + (l + 9 - r)) by lia.
      rewrite Z.pow_add_r by lia.
      rewrite <- !Z.div_div by (try apply pow2_pos; lia). by rewrite Hblock. }
    by rewrite Hblock, Hx.
  - intros Hxor Heq. unfold interleave. rewrite Hxor.
    change 512 with (2 ^ 9). rewrite <- Z.pow_add_r by lia. rewrite Heq.
    apply Z.lxor_nilpotent.
Qed.

Lemma address_locality_witness :
  exists bid_xor cid bid rid bid_xor' cid' bid' rid',
    address_parsing Example.k 4096 = (bid_xor, cid, bid, rid) /\
    address_parsing Example.k 4160 = (bid_xor', cid', bid', rid') /\
    interleave Example.k bid bid_xor = interleave Example.k bid' bid_xor' /\ rid = rid'.
Proof.
  destruct (address_locality Example.k 4096 4160 11 1 6)
    as (bid_xor & cid & bid & rid & bid_xor' & cid' & bid' & rid' & Hp & Hp' & Hsame & _);
    try (vm_compute; reflexivity); try lia.
  exists bid_xor, cid, bid, rid, bid_xor', cid', bid', rid'.
  split; [exact Hp |]. split; [exact Hp' |].
  apply Hsame; [vm_compute; reflexivity | left; reflexivity].
Defined.

(** ** Selection *)

(** X13. bank_schedule_new leaves no bank idle: after it every bank either
    has a current entry or has an empty pending list, and a bank that had
    a current entry still has that entry.  A tick of a build without IRIS
    ends in such a state. *)
Theorem selection_leaves_no_bank_idle (k : knobs) (now : Z) (ii : nat) :
  (ii < Z.to_nat (m_num_bank k))%nat ->
  (forall st st',
     bank_schedule_new k now st = Ok st' ->
     (m_current_list st' ii = None -> m_buffer st' ii = []) /\
     (forall cur, m_current_list st ii = Some cur -> m_current_list st' ii = Some cur)) /\
  (forall noc st st',
     IRIS k = false ->
     run_a_cycle k now noc st = Ok st' ->
     m_current_list st' ii = None -> m_buffer st' ii = []).
Proof.
  intros Hii. split.
  - intros st st'. apply bank_schedule_new_busy. exact Hii.
  - intros noc st st' Hiris H. unfold run_a_cycle, bank_schedule in H.
    apply bind_Ok in H as (s1 & H1 & H). apply bind_Ok in H as (s3 & H23 & H).
    apply bind_Ok in H23 as (s2 & H2 & H3). apply bind_Ok in H as (s4 & H4 & H5).
    unfold receive_packet in H4. rewrite Hiris in H4. injection H4 as <-.
    apply progress_check_lists in H5. destruct H5 as (-> & _ & ->).
    exact (proj1 (bank_schedule_new_busy k now s2 s3 ii Hii H3)).
Qed.

Lemma selection_leaves_no_bank_idle_witness :
  (0 < Z.to_nat (m_num_bank Example.k))%nat /\
  run_a_cycle Example.k 0 Example.accept
    (Example.state_of (Example.inserts Example.k 0 [1%nat] Example.fresh))
  = Ok Example.selected /\
  (m_current_list Example.selected 0%nat = None -> m_buffer Example.selected 0%nat = []).
Proof.
  assert (Hii : (0 < Z.to_nat (m_num_bank Example.k))%nat) by (vm_compute; lia).
  assert (Hrun : run_a_cycle Example.k 0 Example.accept
                   (Example.state_of (Example.inserts Example.k 0 [1%nat] Example.fresh))
                 = Ok Example.selected) by (vm_compute; reflexivity).
  split; [exact Hii |]. split; [exact Hrun |].
  destruct (selection_leaves_no_bank_idle Example.k 0 0%nat Hii) as [_ Htick].
  exact (Htick Example.accept _ _ eq_refl Hrun).
Defined.

(** ** The indices of the banks *)



(** X15. A bank that belongs to no channel is never served: the channels
    cover the banks below m_num_channel * m_num_bank_per_channel only, and a
    request that another bank has selected, in DRAM_CMD, is still in
    DRAM_CMD after every tick at a cycle below ULLONG_MAX.  This is the
    case of the last banks when m_num_bank is not a multiple of
    m_num_channel. *)
Theorem uncovered_bank_is_never_served (k : knobs) (jj : nat) :
  (covered k jj <->
   (jj < Z.to_nat (m_num_channel k) * Z.to_nat (m_num_bank_per_channel k))%nat) /\
  (¬ covered k jj ->
   forall now noc st st' cur,
     reachable k st -> now < ULLONG_MAX ->
     awaits_command st jj cur ->
     run_a_cycle k now noc st = Ok st' ->
     awaits_command st' jj cur).
Proof.
  split; [apply covered_iff |].
  intros Hout now noc st st' cur Hreach Hnow Hwait Hrun.
  apply (run_a_cycle_awaits k now noc st st' jj cur Hnow); try assumption.
  - exact (reachable_owned k st Hreach).
  - exact (reachable_sentinels k st Hreach).
Qed.

Lemma uncovered_bank_is_never_served_witness :
  ¬ covered Uneven.k 3 /\
  reachable Uneven.k Uneven.stranded /\
  awaits_command Uneven.stranded 3%nat 6%nat /\
  awaits_command
    (Example.state_of (run_a_cycle Uneven.k 1 Example.accept Uneven.stranded)) 3%nat 6%nat.
Proof.
  destruct (uncovered_bank_is_never_served Uneven.k 3) as [Hiff Hstuck].
  assert (Hout : ¬ covered Uneven.k 3).
  { intros Hc. apply Hiff in Hc. vm_compute in Hc. lia. }
  assert (Hwait : awaits_command Uneven.stranded 3%nat 6%nat).
  { split; vm_compute; reflexivity. }
  split; [exact Hout |]. split; [exact stranded_reachable |]. split; [exact Hwait |].
  apply (Hstuck Hout 1 Example.accept Uneven.stranded _ 6%nat stranded_reachable).
  - vm_compute. reflexivity.
  - exact Hwait.
  - vm_compute. reflexivity.
Defined.

(** ** Ingress and the banks at work *)

(** X16. A request that is handed over disturbs no bank at work: whether
    insert_new_req admits or refuses it, the open rows, the clocks of the
    banks and of the channels, the current entries, the state of every
    entry and the counters of the watchdog are as before. *)
Theorem ingress_keeps_clocks (k : knobs) (now : Z) (mem_req : mem_req_ptr)
    (st : dram_controller_c) (ok : bool) (st' : dram_controller_c) :
  insert_new_req k now mem_req st = Ok (ok, st') ->
  same_clocks st st' /\
  m_current_list st' = m_current_list st /\
  (forall e, m_state (drb st' e) = m_state (drb st e)) /\
  m_starvation_cycle st' = m_starvation_cycle st /\
  m_num_completed_in_last_cycle st' = m_num_completed_in_last_cycle st.
Proof.
  intros Hrun.
  split; [exact (insert_new_req_clocks k now mem_req st ok st' Hrun) |].
  split; [exact (insert_new_req_current k now mem_req st ok st' Hrun) |].
  split; [exact (insert_new_req_entry_state k now mem_req st ok st' Hrun) |].
  split.
  - exact (insert_new_req_starvation k now mem_req st ok st' Hrun).
  - exact (insert_new_req_completed k now mem_req st ok st' Hrun).
Qed.

Lemma ingress_keeps_clocks_witness :
  insert_new_req Example.k 18 8%nat Example.waiting
  = Ok (false, Example.state_of (Ok Example.waiting)) /\
  same_clocks Example.waiting (Example.state_of (Ok Example.waiting)).
Proof.
  assert (Hrun : insert_new_req Example.k 18 8%nat Example.waiting
                 = Ok (false, Example.state_of (Ok Example.waiting)))
    by (vm_compute; reflexivity).
  split; [exact Hrun |].
  exact (proj1 (ingress_keeps_clocks Example.k 18 8%nat Example.waiting false _ Hrun)).
Defined.

(** ** The order of the pending list *)

Lemma bank_schedule_complete_bank_buffer k now noc ii st st' jj :
  bank_schedule_complete_bank k now noc ii st = Ok st' ->
  m_buffer st' jj `sublist_of` m_buffer st jj.
Proof.
  unfold bank_schedule_complete_bank. intros H.
  destruct (m_current_list st ii) as [cur |] eqn:Hcur; [| by simplify_eq].
  destruct (m_data_ready st ii <=? now); [| by simplify_eq].
  apply bind_Ok in H as ([] & _ & H).
  apply bind_Ok in H as ([stop s1] & Hmerge & H).
  assert (H1 : m_buffer s1 jj `sublist_of` m_buffer st jj).
  { destruct (KNOB_DRAM_MERGE_REQUESTS k); [| by simplify_eq].
    apply bind_Ok in Hmerge as ([[temp_list stop'] s0] & Hscan & Hrel).
    apply merge_scan_Ok in Hscan as ((_ & Hb & _) & _). injection Hrel as <- <-.
    destruct (merge_release_spec ii temp_list s0) as (_ & Hbuf & Hother & _).
    rewrite <- Hb. destruct (decide (jj = ii)) as [-> | Hne].
    - rewrite Hbuf. apply sublist_filter.
    - by rewrite (proj2 (Hother jj Hne)). }
  destruct stop; [by simplify_eq |].
  destruct (decide (type_of s1 cur = MRT_WB)); [by simplify_eq |].
  apply bind_Ok in H as ([ok s2] & Hsend & H).
  apply send_packet_Ok in Hsend as (_ & (_ & Hb2 & _) & _).
  destruct ok; simplify_eq; cbn; by rewrite Hb2.
Qed.

Lemma bank_schedule_new_bank_buffer k now ii st st' jj :
  scheduler k = fcfs_controller ->
  bank_schedule_new_bank k now ii st = Ok st' ->
  m_buffer st' jj `sublist_of` m_buffer st jj.
Proof.
  unfold bank_schedule_new_bank. intros Hk H.
  destruct (bool_decide (m_buffer st ii = []) && bool_decide (m_current_list st ii = None))
    eqn:Hguard; [by simplify_eq |].
  destruct (m_current_list st ii) as [cur |] eqn:Hcur.
  { destruct (_ && _) in H; [| by simplify_eq].
    apply bind_Ok in H as ([] & _ & H). by injection H as <-. }
  assert (Hne : m_buffer st ii ≠ []).
  { intros Hnil. rewrite Hnil in Hguard. discriminate. }
  destruct (schedule_Ok k ii st Hne) as (entry & Hsched & Hin).
  rewrite Hsched, Hk in H. cbn in H. injection H as <-. cbn.
  destruct (decide (ii = jj)) as [<- | Hjj].
  - rewrite fn_lookup_insert. apply sublist_filter.
  - by rewrite fn_lookup_insert_ne.
Qed.

(** X17. The FCFS controller never reorders the pending list of a bank: in
    a build without IRIS a tick only takes entries out of the list, those
    that stay keep their order, so that the front which schedule returns is
    the oldest request of the bank. *)
Theorem fcfs_keeps_arrival_order (k : knobs) (now : Z) (noc : mem_req_ptr -> bool)
    (st st' : dram_controller_c) (ii : nat) :
  scheduler k = fcfs_controller -> IRIS k = false ->
  run_a_cycle k now noc st = Ok st' ->
  m_buffer st' ii `sublist_of` m_buffer st ii.
Proof.
  unfold run_a_cycle, bank_schedule. intros Hk Hiris H.
  apply bind_Ok in H as (s1 & H1 & H). apply bind_Ok in H as (s3 & H23 & H).
  apply bind_Ok in H23 as (s2 & H2 & H3). apply bind_Ok in H as (s4 & H4 & H5).
  apply channel_schedule_lists in H1. destruct H1 as (Hb1 & _).
  unfold receive_packet in H4. rewrite Hiris in H4. injection H4 as <-.
  apply progress_check_lists in H5. destruct H5 as (-> & _).
  rewrite <- Hb1.
  transitivity (m_buffer s2 ii).
  - unfold bank_schedule_new in H3.
    eapply (for_each_invariant (λ s, m_buffer s ii `sublist_of` m_buffer s2 ii));
      [| reflexivity | exact H3].
    intros jj s s' _ Hs Hb. cbv beta in *.
    transitivity (m_buffer s ii); [| exact Hs].
    by apply (bank_schedule_new_bank_buffer k now jj).
  - unfold bank_schedule_complete in H2.
    eapply (for_each_invariant (λ s, m_buffer s ii `sublist_of` m_buffer s1 ii));
      [| | exact H2]; [| reflexivity].
    intros jj s s' _ Hs Hb. cbv beta in *.
    transitivity (m_buffer s ii); [| exact Hs].
    by apply (bank_schedule_complete_bank_buffer k now noc jj).
Qed.

Lemma fcfs_keeps_arrival_order_witness :
  run_a_cycle Example.k 25 Example.picky Example.waiting
  = Ok (Example.state_of (run_a_cycle Example.k 25 Example.picky Example.waiting)) /\
  m_buffer (Example.state_of (run_a_cycle Example.k 25 Example.picky Example.waiting)) 0%nat
    `sublist_of` m_buffer Example.waiting 0%nat.
Proof.
  assert (Hrun : run_a_cycle Example.k 25 Example.picky Example.waiting
                 = Ok (Example.state_of
                         (run_a_cycle Example.k 25 Example.picky Example.waiting)))
    by (vm_compute; reflexivity).
  split; [exact Hrun |].
  exact (fcfs_keeps_arrival_order Example.k 25 Example.picky Example.waiting _ 0%nat
           eq_refl eq_refl Hrun).
Defined.


(** ** Completion without merging *)

(** X18. With merging disabled, a bank whose current entry is in
    DRAM_DATA_WAIT and whose data are due completes that entry, and nothing
    else.  A write-back goes back to the pool; another request is sent as a
    fill and, when the interconnect takes it, is marked MEM_DRAM_DONE; in
    both cases the entry is reset and appended to the free list, the bank
    has no current entry, its data-ready time is ULLONG_MAX, m_total_req
    goes down by one and the counter of completions up by one.  When the
    interconnect refuses the fill, the lists, the entries, the clocks, the
    counters and the states of the requests are as before: the completion
    is tried again at the next tick. *)
Theorem completion_without_merge (k : knobs) (now : Z) (noc : mem_req_ptr -> bool)
    (ii : nat) (st : dram_controller_c) (cur : drb_entry_ptr) :
  KNOB_DRAM_MERGE_REQUESTS k = false ->
  m_current_list st ii = Some cur ->
  m_data_ready st ii <= now ->
  m_state (drb st cur) = DRAM_DATA_WAIT ->
  can_send k st cur ->
  exists st',
    bank_schedule_complete_bank k now noc ii st = Ok st' /\
    m_buffer st' = m_buffer st /\
    (goes_through st noc cur ->
     m_current_list st' = <[ii := None]> (m_current_list st) /\
     m_buffer_free_list st'
     = <[ii := m_buffer_free_list st ii ++ [cur]]> (m_buffer_free_list st) /\
     drb st' = <[cur := drb_entry_s_reset]> (drb st) /\
     m_data_ready st' = <[ii := ULLONG_MAX]> (m_data_ready st) /\
     m_total_req st' = m_total_req st - 1 /\
     m_num_completed_in_last_cycle st' = m_num_completed_in_last_cycle st + 1 /\
     (type_of st cur = MRT_WB ->
      freed st' = freed st ++ [req_of st cur] /\ sent st' = sent st) /\
     (type_of st cur ≠ MRT_WB ->
      sent st' = sent st ++ [req_of st cur] /\ freed st' = freed st /\
      Req.m_state (mem st' (req_of st cur)) = MEM_DRAM_DONE)) /\
    (¬ goes_through st noc cur ->
     same_lists st st' /\ same_clocks st st' /\ drb st' = drb st /\
     m_total_req st' = m_total_req st /\
     m_num_completed_in_last_cycle st' = m_num_completed_in_last_cycle st /\
     freed st' = freed st /\ sent st' = sent st /\
     forall r, Req.m_state (mem st' r) = Req.m_state (mem st r)).
Proof.
  intros Hknob Hcur Hready Hwait Hsend.
  unfold bank_schedule_complete_bank.
  rewrite Hcur, (proj2 (Z.leb_le _ _) Hready), Hwait, Hknob. cbn.
  destruct (decide (type_of st cur = MRT_WB)) as [Hwb | Hnwb].
  { eexists. split; [reflexivity |]. cbn. split; [reflexivity |]. split.
    - intros _. repeat (split; [reflexivity |]). split; [done | done].
    - intros Hno. exfalso. apply Hno. by left. }
  destruct (send_packet_total k noc cur st Hsend) as (s1 & Hs1).
  pose proof (send_packet_clocks k noc cur st _ s1 Hs1) as Hclk.
  pose proof (send_packet_Ok k noc cur st _ s1 Hs1) as (_ & Hframe & Hstate).
  assert (Hlog : freed s1 = freed st /\
                 sent s1 = (if noc (req_of st cur) then sent st ++ [req_of st cur] else sent st) /\
                 m_num_completed_in_last_cycle s1 = m_num_completed_in_last_cycle st).
  { unfold send_packet in Hs1. apply bind_Ok in Hs1 as ([] & _ & Hs1).
    cbn in Hs1. destruct (noc (req_of st cur)); simplify_eq; done. }
  destruct Hlog as (Hfreed & Hsent & Hnum).
  destruct Hframe as (Hdrb & Hbuf & Hfree & Hcl & Hdr & Htot & _).
  rewrite Hs1. cbn.
  destruct (noc (req_of st cur)) eqn:Hnoc.
  - eexists. split; [reflexivity |]. cbn. rewrite Hbuf. split; [reflexivity |]. split.
    + intros _. rewrite Hcl, Hfree, Hdrb, Hdr, Htot, Hnum, Hfreed, Hsent.
      repeat (split; [reflexivity |]). split; [done |].
      intros _. split; [reflexivity |]. split; [reflexivity |].
      unfold req_of. rewrite Hdrb. by rewrite fn_lookup_insert.
    + intros Hno. exfalso. apply Hno. right. exact Hnoc.
  - exists s1. split; [reflexivity |]. split; [exact Hbuf |]. split.
    + intros [? | ?]; [done | congruence].
    + intros _. unfold same_lists. done.
Qed.

Lemma completion_without_merge_witness :
  m_current_list
    (Example.state_of
       (bank_schedule_complete_bank Plain.k 25 Example.accept 0 Example.waiting))
    0%nat = None.
Proof.
  assert (Hcan : can_send Plain.k Example.waiting 0%nat).
  { split; vm_compute; discriminate. }
  destruct (completion_without_merge Plain.k 25 Example.accept 0%nat
              Example.waiting 0%nat)
    as (st' & Hrun & _ & Hdone & _);
    [vm_compute; reflexivity | vm_compute; reflexivity | vm_compute; discriminate
    | vm_compute; reflexivity | exact Hcan |].
  rewrite Hrun. cbn [Example.state_of].
  destruct Hdone as (-> & _); [right; vm_compute; reflexivity |].
  apply fn_lookup_insert.
Defined.
